(** * Valdi asset coordination engine: a shallow embedding of
      [valdi/runtime/Resources/AssetsManager.cpp]

    The manager is a registry from asset keys to managed assets.  Every C++
    method that runs under the manager's lock is a function on the record
    [AssetsManager.t]; objects that the C++ code shares through [Ref<>]
    (request handlers) live in a store and are named by their index, so that
    two consumers holding the same handler really alias it.  Calls that
    leave the manager (observers, the listener, the worker queue, the main
    thread dispatcher, the remote module manager) are appended to a trace
    kept in the state; answers of collaborators that the manager queries
    under its lock are read from an environment record.

    [SC_ASSERT] and the access to the value (or the error) of a [Result]
    that does not hold one are modelled as failures of the computation. *)

From stdpp Require Import gmap strings list fin_maps.

Local Open Scope Z_scope.

(** ** Failures *)

Inductive Failure :=
| AssertionFailed
| BadResultAccess
| DanglingRef
| OutOfFuel.

Inductive Outcome (A : Type) :=
| Done (a : A)
| Fail (f : Failure).
Arguments Done {A} a.
Arguments Fail {A} f.

Global Instance Outcome_ret : MRet Outcome := λ A a, Done a.
Global Instance Outcome_bind : MBind Outcome := λ A B k x,
  match x with
  | Done a => k a
  | Fail f => Fail f
  end.

Definition SC_ASSERT (b : bool) : Outcome unit :=
  if b then Done tt else Fail AssertionFailed.

(** ** Values shared with collaborators *)

Definition Error := string.
Definition ObserverRef := nat.
Definition ObservableRef := nat.
Definition ContextRef := nat.
Definition LoadedAssetRef := nat.
Definition ListenerRef := nat.
Definition HandlerRef := nat.
Definition AssetOutputType := nat.
Definition Value := string.

(** Modelled from the spec: [Result<T>] (Result.hpp is not part of the
    sources).  A result is empty (default constructed), a value or an
    error; its boolean conversion is true on a value only. *)
Module Result.
Inductive t (A : Type) :=
| Empty
| Ok (a : A)
| Err (e : Error).
Arguments Empty {A}.
Arguments Ok {A} a.
Arguments Err {A} e.

Definition success {A} (r : t A) : bool :=
  match r with Ok _ => true | _ => false end.
Definition failure {A} (r : t A) : bool :=
  match r with Err _ => true | _ => false end.
Definition empty {A} (r : t A) : bool :=
  match r with Empty => true | _ => false end.
Definition value {A} (r : t A) : Outcome A :=
  match r with Ok a => Done a | _ => Fail BadResultAccess end.
Definition error {A} (r : t A) : Outcome Error :=
  match r with Err e => Done e | _ => Fail BadResultAccess end.
End Result.

(** Modelled from the spec: [Bundle] and [AssetKey] (AssetKey.hpp and
    Bundle.hpp are not part of the sources).  A key is either a bundle and
    a path, or a URL. *)
Record Bundle := mkBundle {
  bundleId : nat;
  getName : string;
  hasRemoteAssets : bool
}.

Module AssetKey.
Inductive t :=
| OfBundle (bundle : Bundle) (path : string)
| OfUrl (url : string).

Definition isURL (k : t) : bool :=
  match k with OfUrl _ => true | OfBundle _ _ => false end.
Definition getBundle (k : t) : option Bundle :=
  match k with OfBundle b _ => Some b | OfUrl _ => None end.
Definition getPath (k : t) : string :=
  match k with OfBundle _ p => p | OfUrl _ => EmptyString end.
Definition getUrl (k : t) : string :=
  match k with OfUrl u => u | OfBundle _ _ => EmptyString end.

Definition encode_key (k : t) : (nat * string * bool * string) + string :=
  match k with
  | OfBundle b p => inl (bundleId b, getName b, hasRemoteAssets b, p)
  | OfUrl u => inr u
  end.
Definition decode_key (x : (nat * string * bool * string) + string) : t :=
  match x with
  | inl (i, n, r, p) => OfBundle (mkBundle i n r) p
  | inr u => OfUrl u
  end.
End AssetKey.

Global Instance Bundle_eq_dec : EqDecision Bundle.
Proof. solve_decision. Defined.
Global Instance AssetKey_eq_dec : EqDecision AssetKey.t.
Proof. solve_decision. Defined.
Global Instance AssetKey_countable : Countable AssetKey.t.
Proof.
  apply (inj_countable' AssetKey.encode_key AssetKey.decode_key).
  intros [[] ?|?]; reflexivity.
Defined.

(** Modelled from the spec: [AssetLocation] is a URL and a locality flag. *)
Module AssetLocation.
Record t := mk {
  getUrl : string;
  isLocal : bool
}.
End AssetLocation.
Global Instance AssetLocation_eq_dec : EqDecision AssetLocation.t.
Proof. solve_decision. Defined.

Inductive AssetState :=
| AssetStateInitial
| AssetStateResolvingLocation
| AssetStateReady
| AssetStateFailedRetryable
| AssetStateFailedPermanently.
Global Instance AssetState_eq_dec : EqDecision AssetState.
Proof. solve_decision. Defined.

Inductive AssetConsumerState :=
| AssetConsumerStateInitial
| AssetConsumerStateLoading
| AssetConsumerStateLoaded
| AssetConsumerStateFailed
| AssetConsumerStateRemoved.
Global Instance AssetConsumerState_eq_dec : EqDecision AssetConsumerState.
Proof. solve_decision. Defined.

(** The result of a load: a value may still be a null [Ref<LoadedAsset>]. *)
Definition LoadResult := Result.t (option LoadedAssetRef).

(** Modelled from the spec: [AssetLoader], as far as the manager looks at
    it: its identity and whether its artifacts can be shared. *)
Record AssetLoader := mkAssetLoader {
  loaderId : nat;
  canReuseLoadedAssets : bool
}.

(** Modelled from the spec: [RemoteModuleResources], a manifest from
    paths to cache URLs. *)
Record RemoteModuleResources := mkRemoteModuleResources {
  getAllUrls : list (string * string)
}.

Fixpoint getResourceCacheUrl (urls : list (string * string)) (path : string)
  : option string :=
  match urls with
  | [] => None
  | (p, u) :: rest => if decide (p = path) then Some u else getResourceCacheUrl rest path
  end.

(** ** AssetConsumer *)

(** Modelled from the spec: the fields of [AssetConsumer]
    (AssetConsumer.hpp is not part of the sources); the projections carry
    the names of the C++ getters. *)
Module AssetConsumer.
Record t := mk {
  getObserver : option ObserverRef;
  getContext : ContextRef;
  getOutputType : AssetOutputType;
  getPreferredWidth : Z;
  getPreferredHeight : Z;
  getAttachedData : Value;
  getState : AssetConsumerState;
  getLoadedAsset : LoadResult;
  notified : bool;
  getAssetLoaderCompletion : option HandlerRef
}.

Definition create : t :=
  mk None 0%nat 0%nat 0 0 EmptyString AssetConsumerStateInitial Result.Empty false None.

Definition setObserver (c : t) (o : option ObserverRef) : t :=
  mk o (getContext c) (getOutputType c) (getPreferredWidth c) (getPreferredHeight c)
     (getAttachedData c) (getState c) (getLoadedAsset c) (notified c)
     (getAssetLoaderCompletion c).
Definition setContext (c : t) (x : ContextRef) : t :=
  mk (getObserver c) x (getOutputType c) (getPreferredWidth c) (getPreferredHeight c)
     (getAttachedData c) (getState c) (getLoadedAsset c) (notified c)
     (getAssetLoaderCompletion c).
Definition setOutputType (c : t) (x : AssetOutputType) : t :=
  mk (getObserver c) (getContext c) x (getPreferredWidth c) (getPreferredHeight c)
     (getAttachedData c) (getState c) (getLoadedAsset c) (notified c)
     (getAssetLoaderCompletion c).
Definition setPreferredWidth (c : t) (x : Z) : t :=
  mk (getObserver c) (getContext c) (getOutputType c) x (getPreferredHeight c)
     (getAttachedData c) (getState c) (getLoadedAsset c) (notified c)
     (getAssetLoaderCompletion c).
Definition setPreferredHeight (c : t) (x : Z) : t :=
  mk (getObserver c) (getContext c) (getOutputType c) (getPreferredWidth c) x
     (getAttachedData c) (getState c) (getLoadedAsset c) (notified c)
     (getAssetLoaderCompletion c).
Definition setAttachedData (c : t) (x : Value) : t :=
  mk (getObserver c) (getContext c) (getOutputType c) (getPreferredWidth c)
     (getPreferredHeight c) x (getState c) (getLoadedAsset c) (notified c)
     (getAssetLoaderCompletion c).
Definition setState (c : t) (x : AssetConsumerState) : t :=
  mk (getObserver c) (getContext c) (getOutputType c) (getPreferredWidth c)
     (getPreferredHeight c) (getAttachedData c) x (getLoadedAsset c) (notified c)
     (getAssetLoaderCompletion c).
Definition setLoadedAsset (c : t) (x : LoadResult) : t :=
  mk (getObserver c) (getContext c) (getOutputType c) (getPreferredWidth c)
     (getPreferredHeight c) (getAttachedData c) (getState c) x (notified c)
     (getAssetLoaderCompletion c).
Definition setNotified (c : t) (x : bool) : t :=
  mk (getObserver c) (getContext c) (getOutputType c) (getPreferredWidth c)
     (getPreferredHeight c) (getAttachedData c) (getState c) (getLoadedAsset c) x
     (getAssetLoaderCompletion c).
Definition setAssetLoaderCompletion (c : t) (x : option HandlerRef) : t :=
  mk (getObserver c) (getContext c) (getOutputType c) (getPreferredWidth c)
     (getPreferredHeight c) (getAttachedData c) (getState c) (getLoadedAsset c)
     (notified c) x.
End AssetConsumer.

(** ** ManagedAsset *)

(** Modelled from the spec: the fields of [ManagedAsset] (ManagedAsset.hpp
    is not part of the sources).  A new managed asset is [Initial], has
    resolve id 0, no observable, an empty resolved location and no
    consumer.  The payload caches are kept as the list of the loaders that
    own one. *)
Module ManagedAsset.
Record t := mk {
  getState : AssetState;
  getResolveId : Z;
  getObservable : option ObservableRef;
  getResolvedAssetLocation : Result.t AssetLocation.t;
  consumers : list AssetConsumer.t;
  payloadCache : list nat
}.

Definition create : t :=
  mk AssetStateInitial 0 None Result.Empty [] [].

Definition setState (m : t) (x : AssetState) : t :=
  mk x (getResolveId m) (getObservable m) (getResolvedAssetLocation m)
     (consumers m) (payloadCache m).
Definition setResolveId (m : t) (x : Z) : t :=
  mk (getState m) x (getObservable m) (getResolvedAssetLocation m)
     (consumers m) (payloadCache m).
Definition setObservable (m : t) (x : option ObservableRef) : t :=
  mk (getState m) (getResolveId m) x (getResolvedAssetLocation m)
     (consumers m) (payloadCache m).
Definition setResolvedAssetLocation (m : t) (x : Result.t AssetLocation.t) : t :=
  mk (getState m) (getResolveId m) (getObservable m) x
     (consumers m) (payloadCache m).
Definition setConsumers (m : t) (x : list AssetConsumer.t) : t :=
  mk (getState m) (getResolveId m) (getObservable m) (getResolvedAssetLocation m)
     x (payloadCache m).
Definition setPayloadCache (m : t) (x : list nat) : t :=
  mk (getState m) (getResolveId m) (getObservable m) (getResolvedAssetLocation m)
     (consumers m) x.

Definition clearPayloadCache (m : t) : t := setPayloadCache m [].
Definition getPayloadCacheForAssetLoader (m : t) (loader : AssetLoader) : t :=
  if bool_decide (loaderId loader ∈ payloadCache m) then m
  else setPayloadCache m (payloadCache m ++ [loaderId loader]).

Definition getConsumersSize (m : t) : nat := length (consumers m).
Definition hasConsumers (m : t) : bool :=
  match consumers m with [] => false | _ :: _ => true end.
Definition addConsumer (m : t) (c : AssetConsumer.t) : t :=
  setConsumers m (consumers m ++ [c]).
(** [removeConsumer] takes the consumer out of the list; the consumer is
    named by its position. *)
Definition removeConsumer (m : t) (i : nat) : t :=
  setConsumers m (delete i (consumers m)).
End ManagedAsset.

(** ** AssetLoaderRequestHandler *)

(** Modelled from the spec: the fields of [LoaderRequestHandler]
    (AssetLoaderRequestHandler.hpp is not part of the sources).  The
    counter starts at 0, both flags start cleared and the last load result
    starts empty; [decrementConsumersCount] and [incrementConsumersCount]
    subtract and add one. *)
Module AssetLoaderRequestHandler.
Record t := mk {
  getAssetKey : AssetKey.t;
  getContext : ContextRef;
  payloadCacheOf : nat;
  getUrl : string;
  getRequestedWidth : Z;
  getRequestedHeight : Z;
  getAttachedData : Value;
  consumersCount : Z;
  scheduledForLoad : bool;
  scheduledForCancelation : bool;
  getLastLoadResult : LoadResult
}.

Definition create (key : AssetKey.t) (ctx : ContextRef) (cache : nat) (url : string)
  (w h : Z) (data : Value) : t :=
  mk key ctx cache url w h data 0 false false Result.Empty.

Definition setConsumersCount (r : t) (x : Z) : t :=
  mk (getAssetKey r) (getContext r) (payloadCacheOf r) (getUrl r) (getRequestedWidth r)
     (getRequestedHeight r) (getAttachedData r) x (scheduledForLoad r)
     (scheduledForCancelation r) (getLastLoadResult r).
Definition decrementConsumersCount (r : t) : t :=
  setConsumersCount r (consumersCount r - 1).
Definition incrementConsumersCount (r : t) : t :=
  setConsumersCount r (consumersCount r + 1).
Definition setScheduledForLoad (r : t) : t :=
  mk (getAssetKey r) (getContext r) (payloadCacheOf r) (getUrl r) (getRequestedWidth r)
     (getRequestedHeight r) (getAttachedData r) (consumersCount r) true
     (scheduledForCancelation r) (getLastLoadResult r).
Definition setScheduledForCancelation (r : t) : t :=
  mk (getAssetKey r) (getContext r) (payloadCacheOf r) (getUrl r) (getRequestedWidth r)
     (getRequestedHeight r) (getAttachedData r) (consumersCount r) (scheduledForLoad r)
     true (getLastLoadResult r).
Definition setLastLoadResult (r : t) (x : LoadResult) : t :=
  mk (getAssetKey r) (getContext r) (payloadCacheOf r) (getUrl r) (getRequestedWidth r)
     (getRequestedHeight r) (getAttachedData r) (consumersCount r) (scheduledForLoad r)
     (scheduledForCancelation r) x.
End AssetLoaderRequestHandler.

(** ** AssetsManagerTransaction *)

(** Modelled from the spec: the update queue of [AssetsManagerTransaction]
    (AssetsManagerTransaction.hpp is not part of the sources):
    [enqueueUpdate] appends a key that is not queued yet, [dequeueUpdate]
    pops the front. *)
Module AssetsManagerTransaction.
Definition t := list AssetKey.t.

Definition enqueueUpdate (tx : t) (key : AssetKey.t) : t :=
  if bool_decide (key ∈ tx) then tx else tx ++ [key].
Definition dequeueUpdate (tx : t) : option (AssetKey.t * t) :=
  match tx with
  | [] => None
  | key :: rest => Some (key, rest)
  end.
End AssetsManagerTransaction.

(** ** Calls that leave the manager *)

Inductive Event :=
| EvRemoteLoadResources (bundleName : string) (key : AssetKey.t) (resolveId : Z)
| EvWorkerResolveLocal (key : AssetKey.t) (resolveId : Z)
| EvWorkerFlushLoadRequests
| EvDispatchPerformUpdates
| EvObserverOnLoad (observer : ObserverRef) (observable : option ObservableRef)
    (loadedAsset : option LoadedAssetRef) (error : option string)
| EvListenerManagedAssetUpdated (listener : ListenerRef) (key : AssetKey.t)
    (managedAsset : ManagedAsset.t)
| EvListenerPerformedUpdates (listener : ListenerRef)
| EvRequestCancel (request : HandlerRef)
| EvRequestStartLoadIfNeeded (request : HandlerRef)
| EvRegisterBytesStoreLoaders.

(** ** Collaborators queried under the lock *)

Record Env := mkEnv {
  currentThreadIsMainThread : bool;
  resolveLocalAssetURL : option (string → string → string);
  getScheme : AssetLocation.t → string;
  resolveAssetLoader : string → AssetOutputType → option AssetLoader;
  stringFromOutputType : AssetOutputType → string;
  isAssetBytesUrl : string → bool
}.

(** ** AssetsManager *)

Definition uint64 (x : Z) : Z := x mod 2 ^ 64.

Module AssetsManager.
(** The members of the class, the store of the request handlers it has
    made, the current transaction and the trace of outgoing calls. *)
Record t := mk {
  assets : gmap AssetKey.t ManagedAsset.t;
  requestHandlers : list AssetLoaderRequestHandler.t;
  observablesCreated : nat;
  assetBytesStore : option (list string);
  pendingLoadRequests : list HandlerRef;
  pendingLoadRequestsScheduled : bool;
  pauseUpdatesCount : Z;
  scheduledUpdates : list AssetKey.t;
  assetResolveIdSequence : Z;
  listener : option ListenerRef;
  removeUnusedLocalAssets : bool;
  currentTransaction : option AssetsManagerTransaction.t;
  trace : list Event
}.

Definition create : t :=
  mk ∅ [] 0%nat None [] false 0 [] 0 None false None [].

Definition set_assets (am : t) (x : gmap AssetKey.t ManagedAsset.t) : t :=
  mk x (requestHandlers am) (observablesCreated am) (assetBytesStore am)
     (pendingLoadRequests am) (pendingLoadRequestsScheduled am) (pauseUpdatesCount am)
     (scheduledUpdates am) (assetResolveIdSequence am) (listener am)
     (removeUnusedLocalAssets am) (currentTransaction am) (trace am).
Definition set_requestHandlers (am : t) (x : list AssetLoaderRequestHandler.t) : t :=
  mk (assets am) x (observablesCreated am) (assetBytesStore am)
     (pendingLoadRequests am) (pendingLoadRequestsScheduled am) (pauseUpdatesCount am)
     (scheduledUpdates am) (assetResolveIdSequence am) (listener am)
     (removeUnusedLocalAssets am) (currentTransaction am) (trace am).
Definition set_observablesCreated (am : t) (x : nat) : t :=
  mk (assets am) (requestHandlers am) x (assetBytesStore am)
     (pendingLoadRequests am) (pendingLoadRequestsScheduled am) (pauseUpdatesCount am)
     (scheduledUpdates am) (assetResolveIdSequence am) (listener am)
     (removeUnusedLocalAssets am) (currentTransaction am) (trace am).
Definition set_assetBytesStore (am : t) (x : option (list string)) : t :=
  mk (assets am) (requestHandlers am) (observablesCreated am) x
     (pendingLoadRequests am) (pendingLoadRequestsScheduled am) (pauseUpdatesCount am)
     (scheduledUpdates am) (assetResolveIdSequence am) (listener am)
     (removeUnusedLocalAssets am) (currentTransaction am) (trace am).
Definition set_pendingLoadRequests (am : t) (x : list HandlerRef) : t :=
  mk (assets am) (requestHandlers am) (observablesCreated am) (assetBytesStore am)
     x (pendingLoadRequestsScheduled am) (pauseUpdatesCount am)
     (scheduledUpdates am) (assetResolveIdSequence am) (listener am)
     (removeUnusedLocalAssets am) (currentTransaction am) (trace am).
Definition set_pendingLoadRequestsScheduled (am : t) (x : bool) : t :=
  mk (assets am) (requestHandlers am) (observablesCreated am) (assetBytesStore am)
     (pendingLoadRequests am) x (pauseUpdatesCount am)
     (scheduledUpdates am) (assetResolveIdSequence am) (listener am)
     (removeUnusedLocalAssets am) (currentTransaction am) (trace am).
Definition set_pauseUpdatesCount (am : t) (x : Z) : t :=
  mk (assets am) (requestHandlers am) (observablesCreated am) (assetBytesStore am)
     (pendingLoadRequests am) (pendingLoadRequestsScheduled am) x
     (scheduledUpdates am) (assetResolveIdSequence am) (listener am)
     (removeUnusedLocalAssets am) (currentTransaction am) (trace am).
Definition set_scheduledUpdates (am : t) (x : list AssetKey.t) : t :=
  mk (assets am) (requestHandlers am) (observablesCreated am) (assetBytesStore am)
     (pendingLoadRequests am) (pendingLoadRequestsScheduled am) (pauseUpdatesCount am)
     x (assetResolveIdSequence am) (listener am)
     (removeUnusedLocalAssets am) (currentTransaction am) (trace am).
Definition set_assetResolveIdSequence (am : t) (x : Z) : t :=
  mk (assets am) (requestHandlers am) (observablesCreated am) (assetBytesStore am)
     (pendingLoadRequests am) (pendingLoadRequestsScheduled am) (pauseUpdatesCount am)
     (scheduledUpdates am) x (listener am)
     (removeUnusedLocalAssets am) (currentTransaction am) (trace am).
Definition set_listener (am : t) (x : option ListenerRef) : t :=
  mk (assets am) (requestHandlers am) (observablesCreated am) (assetBytesStore am)
     (pendingLoadRequests am) (pendingLoadRequestsScheduled am) (pauseUpdatesCount am)
     (scheduledUpdates am) (assetResolveIdSequence am) x
     (removeUnusedLocalAssets am) (currentTransaction am) (trace am).
Definition set_removeUnusedLocalAssets (am : t) (x : bool) : t :=
  mk (assets am) (requestHandlers am) (observablesCreated am) (assetBytesStore am)
     (pendingLoadRequests am) (pendingLoadRequestsScheduled am) (pauseUpdatesCount am)
     (scheduledUpdates am) (assetResolveIdSequence am) (listener am)
     x (currentTransaction am) (trace am).
Definition set_currentTransaction (am : t) (x : option AssetsManagerTransaction.t) : t :=
  mk (assets am) (requestHandlers am) (observablesCreated am) (assetBytesStore am)
     (pendingLoadRequests am) (pendingLoadRequestsScheduled am) (pauseUpdatesCount am)
     (scheduledUpdates am) (assetResolveIdSequence am) (listener am)
     (removeUnusedLocalAssets am) x (trace am).
Definition set_trace (am : t) (x : list Event) : t :=
  mk (assets am) (requestHandlers am) (observablesCreated am) (assetBytesStore am)
     (pendingLoadRequests am) (pendingLoadRequestsScheduled am) (pauseUpdatesCount am)
     (scheduledUpdates am) (assetResolveIdSequence am) (listener am)
     (removeUnusedLocalAssets am) (currentTransaction am) x.

(** An outgoing call. *)
Definition emit (am : t) (e : Event) : t := set_trace am (trace am ++ [e]).

(** Writing through a [Ref<ManagedAsset>] that the registry holds. *)
Definition putManagedAsset (am : t) (key : AssetKey.t) (m : ManagedAsset.t) : t :=
  set_assets am (<[key := m]> (assets am)).

(** Lines 926-934. *)
Definition getManagedAsset (am : t) (key : AssetKey.t) : option ManagedAsset.t :=
  assets am !! key.

(** Lines 936-944. *)
Definition getOrCreateManagedAsset (am : t) (key : AssetKey.t) : ManagedAsset.t * t :=
  match getManagedAsset am key with
  | Some m => (m, am)
  | None => (ManagedAsset.create, putManagedAsset am key ManagedAsset.create)
  end.

(** Lines 186-194; the expected size kept inside the observable is not
    part of the manager's state. *)
Definition createObservable (am : t) (key : AssetKey.t) : ObservableRef * t :=
  (observablesCreated am, set_observablesCreated am (S (observablesCreated am))).

(** Lines 83-93. *)
Definition lockFreeGetAsset (am : t) (key : AssetKey.t) : ObservableRef * t :=
  let '(m, am) := getOrCreateManagedAsset am key in
  match ManagedAsset.getObservable m with
  | Some observable => (observable, am)
  | None =>
      let '(observable, am) := createObservable am key in
      (observable, putManagedAsset am key (ManagedAsset.setObservable m (Some observable)))
  end.

(** Lines 61-65. *)
Definition getAsset (am : t) (key : AssetKey.t) : ObservableRef * t :=
  lockFreeGetAsset am key.

(** Lines 67-81; [url] is the URL that the bytes store mints for the
    registered bytes. *)
Definition createAssetWithBytes (am : t) (url : string) : ObservableRef * t :=
  let am :=
    match assetBytesStore am with
    | None => emit (set_assetBytesStore am (Some [])) EvRegisterBytesStoreLoaders
    | Some _ => am
    end in
  let am := set_assetBytesStore am (Some (default [] (assetBytesStore am) ++ [url])) in
  lockFreeGetAsset am (AssetKey.OfUrl url).

(** Lines 95-98. *)
Definition isAssetAlive (am : t) (key : AssetKey.t) : bool :=
  bool_decide (is_Some (getManagedAsset am key)).

(** Lines 100-113. *)
Definition getResolvedAssetLocation (am : t) (key : AssetKey.t)
  : option AssetLocation.t * t :=
  match getManagedAsset am key with
  | None => (None, am)
  | Some m =>
      match ManagedAsset.getResolvedAssetLocation m with
      | Result.Ok location => (Some location, am)
      | _ => (None, am)
      end
  end.

(** Lines 808-813. *)
Definition scheduleFlushLoadRequests (am : t) : t :=
  if negb (pendingLoadRequestsScheduled am)
     && negb (bool_decide (pendingLoadRequests am = [])) then
    emit (set_pendingLoadRequestsScheduled am true) EvWorkerFlushLoadRequests
  else am.

Definition putRequest (am : t) (h : HandlerRef) (r : AssetLoaderRequestHandler.t) : t :=
  set_requestHandlers am (<[h := r]> (requestHandlers am)).

(** Lines 652-661: the outgoing request of a consumer. *)
Definition releaseExistingRequest (am : t) (existingRequest : option HandlerRef) : t :=
  match existingRequest with
  | None => am
  | Some h =>
      match requestHandlers am !! h with
      | None => am
      | Some r =>
          let r := AssetLoaderRequestHandler.decrementConsumersCount r in
          let am := putRequest am h r in
          if bool_decide (AssetLoaderRequestHandler.consumersCount r = 0)
             && negb (AssetLoaderRequestHandler.scheduledForCancelation r) then
            let am := putRequest am h (AssetLoaderRequestHandler.setScheduledForCancelation r) in
            let am := set_pendingLoadRequests am (pendingLoadRequests am ++ [h]) in
            scheduleFlushLoadRequests am
          else am
      end
  end.

(** Lines 663-673: the incoming request of a consumer. *)
Definition retainRequest (am : t) (request : option HandlerRef) : t :=
  match request with
  | None => am
  | Some h =>
      match requestHandlers am !! h with
      | None => am
      | Some r =>
          let r := AssetLoaderRequestHandler.incrementConsumersCount r in
          let am := putRequest am h r in
          if negb (AssetLoaderRequestHandler.scheduledForLoad r) then
            let am := putRequest am h (AssetLoaderRequestHandler.setScheduledForLoad r) in
            let am := set_pendingLoadRequests am (pendingLoadRequests am ++ [h]) in
            scheduleFlushLoadRequests am
          else am
      end
  end.

(** Lines 647-674. *)
Definition updateConsumerRequestHandler (am : t) (assetConsumer : AssetConsumer.t)
  (request : option HandlerRef) : AssetConsumer.t * t :=
  let existingRequest := AssetConsumer.getAssetLoaderCompletion assetConsumer in
  let assetConsumer := AssetConsumer.setAssetLoaderCompletion assetConsumer request in
  let am := releaseExistingRequest am existingRequest in
  let am := retainRequest am request in
  (assetConsumer, am).
(** Lines 331-337; the transaction handed to the C++ method is the current
    one, which the drain has installed. *)
Definition scheduleAssetUpdateInTransaction (am : t) (key : AssetKey.t) : t :=
  match currentTransaction am with
  | Some tx => set_currentTransaction am (Some (AssetsManagerTransaction.enqueueUpdate tx key))
  | None => am
  end.

(** Lines 327-329. *)
Definition schedulePerformUpdates (am : t) : t := emit am EvDispatchPerformUpdates.

(** Lines 439-460, on the managed asset that the caller holds. *)
Definition updateAssetLocation (m : ManagedAsset.t) (assetLocation : Result.t AssetLocation.t)
  : Outcome ManagedAsset.t :=
  _ ← SC_ASSERT (bool_decide (ManagedAsset.getState m = AssetStateResolvingLocation));
  match assetLocation with
  | Result.Ok location =>
      Done (ManagedAsset.setResolvedAssetLocation
              (ManagedAsset.setState m AssetStateReady) (Result.Ok location))
  | Result.Err e =>
      Done (ManagedAsset.setResolvedAssetLocation
              (ManagedAsset.setState m AssetStateFailedPermanently) (Result.Err e))
  | Result.Empty => Fail BadResultAccess
  end.

(** Lines 339-379. *)
Definition resolveAssetLocation (am : t) (key : AssetKey.t) (m : ManagedAsset.t) : Outcome t :=
  _ ← SC_ASSERT (bool_decide (ManagedAsset.getState m = AssetStateInitial));
  let m := ManagedAsset.setState m AssetStateResolvingLocation in
  let resolveId := uint64 (assetResolveIdSequence am + 1) in
  let am := set_assetResolveIdSequence am resolveId in
  let m := ManagedAsset.setResolveId m resolveId in
  match AssetKey.getBundle key with
  | Some bundle =>
      let am := putManagedAsset am key m in
      if hasRemoteAssets bundle then
        Done (emit am (EvRemoteLoadResources (getName bundle) key resolveId))
      else
        Done (emit am (EvWorkerResolveLocal key resolveId))
  | None =>
      m ← updateAssetLocation m
            (Result.Ok (AssetLocation.mk (AssetKey.getUrl key) false));
      Done (scheduleAssetUpdateInTransaction (putManagedAsset am key m) key)
  end.

Definition candidates (urls : list (string * string)) : string :=
  String.concat ", " (urls.*1).

(** Lines 381-410. *)
Definition resolveRemoteAssetLocation (env : Env) (key : AssetKey.t)
  (result : Result.t RemoteModuleResources) : Outcome (Result.t AssetLocation.t) :=
  match result with
  | Result.Ok resources =>
      match getResourceCacheUrl (getAllUrls resources) (AssetKey.getPath key) with
      | Some cacheUrl => Done (Result.Ok (AssetLocation.mk cacheUrl false))
      | None =>
          match AssetKey.getBundle key with
          | None => Fail DanglingRef
          | Some bundle =>
              let notFound :=
                Result.Err ("Did not find asset '" +:+ AssetKey.getPath key
                            +:+ "' in remote module '" +:+ getName bundle
                            +:+ "', candidates are: " +:+ candidates (getAllUrls resources)) in
              match resolveLocalAssetURL env with
              | Some resolve =>
                  let url := resolve (getName bundle) (AssetKey.getPath key) in
                  if bool_decide (url = EmptyString) then Done notFound
                  else Done (Result.Ok (AssetLocation.mk url true))
              | None => Done notFound
              end
          end
      end
  | Result.Err e => Done (Result.Err e)
  | Result.Empty => Fail BadResultAccess
  end.

(** Lines 412-422. *)
Definition resolveLocalAssetLocation (env : Env) (key : AssetKey.t)
  : Outcome (Result.t AssetLocation.t) :=
  match AssetKey.getBundle key with
  | None => Fail DanglingRef
  | Some bundle =>
      let notFound :=
        Result.Err ("Did not find asset '" +:+ AssetKey.getPath key
                    +:+ "' in local module '" +:+ getName bundle +:+ "'") in
      match resolveLocalAssetURL env with
      | Some resolve =>
          let url := resolve (getName bundle) (AssetKey.getPath key) in
          if bool_decide (url = EmptyString) then Done notFound
          else Done (Result.Ok (AssetLocation.mk url true))
      | None => Done notFound
      end
  end.

(** Lines 499-545.  The consumer to update is returned with its position
    in the list, which stands for the identity of the [Ref<AssetConsumer>];
    [hasMore] is the reference parameter, threaded through the loop. *)
Fixpoint getNextConsumerToUpdateFrom (cs : list AssetConsumer.t) (i : nat)
  (consumerToUpdate : option (nat * AssetConsumer.t)) (hasMore : bool)
  : option (nat * AssetConsumer.t) * bool :=
  match cs with
  | [] => (consumerToUpdate, false)
  | consumer :: rest =>
      match AssetConsumer.getObserver consumer, consumerToUpdate with
      | None, Some _ => getNextConsumerToUpdateFrom rest (S i) consumerToUpdate true
      | observer, _ =>
          let consumerToUpdate :=
            match observer with
            | None => Some (i, consumer)
            | Some _ => consumerToUpdate
            end in
          if AssetConsumer.notified consumer then
            getNextConsumerToUpdateFrom rest (S i) consumerToUpdate hasMore
          else
            match AssetConsumer.getState consumer with
            | AssetConsumerStateInitial
            | AssetConsumerStateFailed
            | AssetConsumerStateLoaded =>
                match consumerToUpdate with
                | None => getNextConsumerToUpdateFrom rest (S i) (Some (i, consumer)) hasMore
                | Some (j, selected) =>
                    match AssetConsumer.getObserver selected with
                    | None => (Some (i, consumer), true)
                    | Some _ => (Some (j, selected), true)
                    end
                end
            | AssetConsumerStateLoading
            | AssetConsumerStateRemoved =>
                getNextConsumerToUpdateFrom rest (S i) consumerToUpdate hasMore
            end
      end
  end.

Definition getNextConsumerToUpdate (m : ManagedAsset.t) (hasMore : bool)
  : option (nat * AssetConsumer.t) * bool :=
  getNextConsumerToUpdateFrom (ManagedAsset.consumers m) 0%nat None hasMore.

(** Lines 547-555; the consumer leaves the list of the managed asset, the
    registry sees the shortened list. *)
Definition removeAssetConsumer (am : t) (key : AssetKey.t) (m : ManagedAsset.t)
  (i : nat) (assetConsumer : AssetConsumer.t) : t :=
  let m := ManagedAsset.removeConsumer m i in
  let assetConsumer := AssetConsumer.setState assetConsumer AssetConsumerStateRemoved in
  let assetConsumer := AssetConsumer.setLoadedAsset assetConsumer Result.Empty in
  let '(_, am) := updateConsumerRequestHandler am assetConsumer None in
  putManagedAsset am key m.

(** Writing through a [Ref<AssetConsumer>] that the managed asset holds. *)
Definition putConsumer (am : t) (key : AssetKey.t) (m : ManagedAsset.t) (i : nat)
  (c : AssetConsumer.t) : t :=
  putManagedAsset am key (ManagedAsset.setConsumers m (<[i := c]> (ManagedAsset.consumers m))).

(** Lines 625-645. *)
Definition notifyAssetConsumer (am : t) (key : AssetKey.t) (m : ManagedAsset.t)
  (i : nat) (assetConsumer : AssetConsumer.t) (loadedAsset : option LoadedAssetRef)
  (error : option Error) : Outcome t :=
  let observable := ManagedAsset.getObservable m in
  let assetConsumer := AssetConsumer.setNotified assetConsumer true in
  let am := putConsumer am key m i assetConsumer in
  match AssetConsumer.getObserver assetConsumer with
  | Some observer => Done (emit am (EvObserverOnLoad observer observable loadedAsset error))
  | None => Fail DanglingRef
  end.

(** Lines 790-806. *)
Definition onConsumerLoad (assetConsumer : AssetConsumer.t) (result : LoadResult)
  : Outcome AssetConsumer.t :=
  let assetConsumer := AssetConsumer.setNotified assetConsumer false in
  match result with
  | Result.Ok (Some loadedAsset) =>
      Done (AssetConsumer.setLoadedAsset
              (AssetConsumer.setState assetConsumer AssetConsumerStateLoaded)
              (Result.Ok (Some loadedAsset)))
  | Result.Ok None =>
      Done (AssetConsumer.setLoadedAsset
              (AssetConsumer.setState assetConsumer AssetConsumerStateFailed)
              (Result.Err "AssetLoader provided a null asset"))
  | Result.Err e =>
      Done (AssetConsumer.setLoadedAsset
              (AssetConsumer.setState assetConsumer AssetConsumerStateFailed)
              (Result.Err e))
  | Result.Empty => Fail BadResultAccess
  end.

(** Lines 708-727, the probe for a request of a sibling that can be shared. *)
Fixpoint findReusableRequest (handlers : list AssetLoaderRequestHandler.t)
  (cs : list AssetConsumer.t) (preferredWidth preferredHeight : Z) (attachedData : Value)
  (outputType : AssetOutputType) : option HandlerRef :=
  match cs with
  | [] => None
  | consumer :: rest =>
      let next :=
        findReusableRequest handlers rest preferredWidth preferredHeight attachedData outputType in
      match AssetConsumer.getAssetLoaderCompletion consumer with
      | None => next
      | Some h =>
          match handlers !! h with
          | None => next
          | Some requestHandler =>
              if bool_decide (AssetLoaderRequestHandler.getRequestedWidth requestHandler = preferredWidth)
                 && bool_decide (AssetLoaderRequestHandler.getRequestedHeight requestHandler = preferredHeight)
                 && bool_decide (AssetLoaderRequestHandler.getAttachedData requestHandler = attachedData)
                 && bool_decide (AssetConsumer.getOutputType consumer = outputType)
              then Some h
              else next
          end
      end
  end.
(** Lines 680-740. *)
Definition loadAssetForConsumerAtResolvedLocation (env : Env) (am : t) (key : AssetKey.t)
  (m : ManagedAsset.t) (i : nat) (assetConsumer : AssetConsumer.t)
  (assetLocation : AssetLocation.t) : Outcome t :=
  match resolveAssetLoader env (getScheme env assetLocation)
          (AssetConsumer.getOutputType assetConsumer) with
  | None =>
      let assetConsumer := AssetConsumer.setState assetConsumer AssetConsumerStateFailed in
      let assetConsumer :=
        AssetConsumer.setLoadedAsset assetConsumer
          (Result.Err ("Cannot resolve AssetLoader for URL scheme '"
                       +:+ getScheme env assetLocation +:+ "' and output type '"
                       +:+ stringFromOutputType env (AssetConsumer.getOutputType assetConsumer)
                       +:+ "'")) in
      Done (scheduleAssetUpdateInTransaction (putConsumer am key m i assetConsumer) key)
  | Some assetLoader =>
      let assetConsumer := AssetConsumer.setState assetConsumer AssetConsumerStateLoading in
      let m := ManagedAsset.setConsumers m (<[i := assetConsumer]> (ManagedAsset.consumers m)) in
      let preferredWidth := AssetConsumer.getPreferredWidth assetConsumer in
      let preferredHeight := AssetConsumer.getPreferredHeight assetConsumer in
      let attachedData := AssetConsumer.getAttachedData assetConsumer in
      let reusable :=
        if canReuseLoadedAssets assetLoader then
          findReusableRequest (requestHandlers am) (ManagedAsset.consumers m)
            preferredWidth preferredHeight attachedData
            (AssetConsumer.getOutputType assetConsumer)
        else None in
      match reusable with
      | Some h =>
          let '(assetConsumer, am) := updateConsumerRequestHandler am assetConsumer (Some h) in
          let lastLoadResult :=
            default Result.Empty
              (AssetLoaderRequestHandler.getLastLoadResult <$> requestHandlers am !! h) in
          if negb (Result.empty lastLoadResult) then
            assetConsumer ← onConsumerLoad assetConsumer lastLoadResult;
            Done (scheduleAssetUpdateInTransaction (putConsumer am key m i assetConsumer) key)
          else
            Done (putConsumer am key m i assetConsumer)
      | None =>
          let m := ManagedAsset.getPayloadCacheForAssetLoader m assetLoader in
          let h := length (requestHandlers am) in
          let requestHandler :=
            AssetLoaderRequestHandler.create key (AssetConsumer.getContext assetConsumer)
              (loaderId assetLoader) (AssetLocation.getUrl assetLocation)
              preferredWidth preferredHeight attachedData in
          let am := set_requestHandlers am (requestHandlers am ++ [requestHandler]) in
          let '(assetConsumer, am) := updateConsumerRequestHandler am assetConsumer (Some h) in
          Done (putConsumer am key m i assetConsumer)
      end
  end.

(** Lines 576-623. *)
Definition doUpdateAssetConsumer (env : Env) (am : t) (key : AssetKey.t)
  (m : ManagedAsset.t) (i : nat) (consumerToUpdate : AssetConsumer.t) : Outcome t :=
  match AssetConsumer.getObserver consumerToUpdate with
  | None => Done (removeAssetConsumer am key m i consumerToUpdate)
  | Some _ =>
      match AssetConsumer.getState consumerToUpdate with
      | AssetConsumerStateInitial =>
          if bool_decide (ManagedAsset.getState m = AssetStateFailedRetryable)
             || bool_decide (ManagedAsset.getState m = AssetStateFailedPermanently) then
            let consumerToUpdate :=
              AssetConsumer.setState consumerToUpdate AssetConsumerStateFailed in
            e ← Result.error (ManagedAsset.getResolvedAssetLocation m);
            let consumerToUpdate :=
              AssetConsumer.setLoadedAsset consumerToUpdate (Result.Err e) in
            Done (scheduleAssetUpdateInTransaction (putConsumer am key m i consumerToUpdate) key)
          else
            location ← Result.value (ManagedAsset.getResolvedAssetLocation m);
            loadAssetForConsumerAtResolvedLocation env am key m i consumerToUpdate location
      | AssetConsumerStateLoading =>
          _ ← SC_ASSERT (bool_decide (AssetConsumer.getObserver consumerToUpdate = None));
          Done (removeAssetConsumer am key m i consumerToUpdate)
      | AssetConsumerStateFailed =>
          e ← Result.error (AssetConsumer.getLoadedAsset consumerToUpdate);
          notifyAssetConsumer am key m i consumerToUpdate None (Some e)
      | AssetConsumerStateLoaded =>
          loadedAsset ← Result.value (AssetConsumer.getLoadedAsset consumerToUpdate);
          notifyAssetConsumer am key m i consumerToUpdate loadedAsset None
      | AssetConsumerStateRemoved => Done am
      end
  end.

(** Lines 557-574. *)
Definition updateAssetConsumers (env : Env) (am : t) (key : AssetKey.t)
  (m : ManagedAsset.t) : Outcome t :=
  _ ← SC_ASSERT (bool_decide (ManagedAsset.getState m = AssetStateReady)
                 || bool_decide (ManagedAsset.getState m = AssetStateFailedPermanently)
                 || bool_decide (ManagedAsset.getState m = AssetStateFailedRetryable));
  let '(consumerToUpdate, hasMore) := getNextConsumerToUpdate m false in
  match consumerToUpdate with
  | None => Done am
  | Some (i, consumer) =>
      let am := if hasMore then scheduleAssetUpdateInTransaction am key else am in
      doUpdateAssetConsumer env am key m i consumer
  end.

(** Lines 284-302. *)
Definition removeManagedAssetIfNeeded (env : Env) (am : t) (key : AssetKey.t)
  (m : ManagedAsset.t) : bool * t :=
  if (negb (AssetKey.isURL key) && negb (removeUnusedLocalAssets am))
     || ManagedAsset.hasConsumers m
     || bool_decide (is_Some (ManagedAsset.getObservable m)) then
    (false, am)
  else
    let am := set_assets am (delete key (assets am)) in
    match assetBytesStore am with
    | Some registered =>
        if isAssetBytesUrl env (AssetKey.getUrl key) then
          (true, set_assetBytesStore am
                   (Some (filter (λ url, url ≠ AssetKey.getUrl key) registered)))
        else (true, am)
    | None => (true, am)
    end.

(** Lines 251-282.  The listener is handed the managed asset as it is when
    the step ends. *)
Definition updateAsset (env : Env) (am : t) (key : AssetKey.t) : Outcome t :=
  match getManagedAsset am key with
  | None => Done am
  | Some m =>
      let state := ManagedAsset.getState m in
      let '(removed, am) := removeManagedAssetIfNeeded env am key m in
      am ← (if removed then Done am
            else
              match state with
              | AssetStateInitial =>
                  if ManagedAsset.hasConsumers m then resolveAssetLocation am key m
                  else Done am
              | AssetStateResolvingLocation => Done am
              | AssetStateFailedPermanently
              | AssetStateFailedRetryable
              | AssetStateReady => updateAssetConsumers env am key m
              end);
      match listener am with
      | Some l =>
          Done (emit am (EvListenerManagedAssetUpdated l key
                           (default m (getManagedAsset am key))))
      | None => Done am
      end
  end.

(** Lines 902-916, the loop that empties the transaction. *)
Fixpoint drainUpdates (fuel : nat) (env : Env) (am : t) : Outcome t :=
  match currentTransaction am with
  | None => Done am
  | Some tx =>
      match AssetsManagerTransaction.dequeueUpdate tx with
      | None => Done am
      | Some (update, rest) =>
          match fuel with
          | O => Fail OutOfFuel
          | S fuel =>
              am ← updateAsset env (set_currentTransaction am (Some rest)) update;
              drainUpdates fuel env am
          end
      end
  end.

(** Lines 886-924. *)
Definition performUpdates (fuel : nat) (env : Env) (am : t) : Outcome t :=
  _ ← SC_ASSERT (currentThreadIsMainThread env);
  let transaction :=
    foldl AssetsManagerTransaction.enqueueUpdate [] (scheduledUpdates am) in
  let am := set_currentTransaction am (Some transaction) in
  let am := set_scheduledUpdates am [] in
  am ← drainUpdates fuel env am;
  let am := set_currentTransaction am None in
  match listener am with
  | Some l => Done (emit am (EvListenerPerformedUpdates l))
  | None => Done am
  end.

(** Lines 304-325. *)
Definition scheduleAssetUpdate (fuel : nat) (env : Env) (am : t) (key : AssetKey.t)
  : Outcome t :=
  match currentTransaction am with
  | Some _ => Done (scheduleAssetUpdateInTransaction am key)
  | None =>
      let needScheduleUpdates :=
        bool_decide (pauseUpdatesCount am = 0) && bool_decide (scheduledUpdates am = []) in
      let am := set_scheduledUpdates am (scheduledUpdates am ++ [key]) in
      if needScheduleUpdates then
        if currentThreadIsMainThread env then performUpdates fuel env am
        else Done (schedulePerformUpdates am)
      else Done am
  end.
(** Lines 127-130, what the loop of [setResolvedAssetLocation] leaves of
    one consumer. *)
Definition resetConsumer (assetConsumer : AssetConsumer.t) : AssetConsumer.t :=
  AssetConsumer.setAssetLoaderCompletion
    (AssetConsumer.setNotified
       (AssetConsumer.setState
          (AssetConsumer.setLoadedAsset assetConsumer Result.Empty)
          AssetConsumerStateInitial)
       false)
    None.

(** Lines 125-131, the loop over the consumers of the asset.  The loop
    touches the consumers and, through [updateConsumerRequestHandler], the
    request handlers and the pending requests only, so the list is rebuilt
    here and stored by the caller. *)
Fixpoint resetConsumers (am : t) (cs : list AssetConsumer.t) : list AssetConsumer.t * t :=
  match cs with
  | [] => ([], am)
  | assetConsumer :: rest =>
      let assetConsumer := AssetConsumer.setLoadedAsset assetConsumer Result.Empty in
      let assetConsumer := AssetConsumer.setState assetConsumer AssetConsumerStateInitial in
      let assetConsumer := AssetConsumer.setNotified assetConsumer false in
      let '(assetConsumer, am) := updateConsumerRequestHandler am assetConsumer None in
      let '(rest, am) := resetConsumers am rest in
      (assetConsumer :: rest, am)
  end.

(** Lines 115-142. *)
Definition setResolvedAssetLocation (fuel : nat) (env : Env) (am : t) (key : AssetKey.t)
  (assetLocation : AssetLocation.t) : Outcome t :=
  let '(asset, am) := getOrCreateManagedAsset am key in
  same ← (if bool_decide (ManagedAsset.getState asset = AssetStateReady) then
            location ← Result.value (ManagedAsset.getResolvedAssetLocation asset);
            Done (bool_decide (location = assetLocation))
          else Done false);
  if same : bool then Done am
  else
    let '(cs, am) :=
      if bool_decide (ManagedAsset.getState asset = AssetStateReady) then
        resetConsumers am (ManagedAsset.consumers asset)
      else (ManagedAsset.consumers asset, am) in
    let asset := ManagedAsset.setConsumers asset cs in
    let asset := ManagedAsset.setResolveId asset 0 in
    let asset := ManagedAsset.clearPayloadCache asset in
    let asset := ManagedAsset.setResolvedAssetLocation asset (Result.Ok assetLocation) in
    let asset := ManagedAsset.setState asset AssetStateReady in
    let am := putManagedAsset am key asset in
    if ManagedAsset.hasConsumers asset then scheduleAssetUpdate fuel env am key
    else Done am.

(** Lines 196-221. *)
Definition addAssetLoadObserver (fuel : nat) (env : Env) (am : t) (key : AssetKey.t)
  (observer : option ObserverRef) (context : ContextRef) (outputType : AssetOutputType)
  (preferredWidth preferredHeight : Z) (attachedData : Value) : Outcome t :=
  let '(managedAsset, am) := getOrCreateManagedAsset am key in
  let consumer := AssetConsumer.create in
  let consumer := AssetConsumer.setContext consumer context in
  let consumer := AssetConsumer.setObserver consumer observer in
  let consumer := AssetConsumer.setOutputType consumer outputType in
  let consumer := AssetConsumer.setPreferredWidth consumer preferredWidth in
  let consumer := AssetConsumer.setPreferredHeight consumer preferredHeight in
  let consumer := AssetConsumer.setAttachedData consumer attachedData in
  let managedAsset := ManagedAsset.addConsumer managedAsset consumer in
  let managedAsset :=
    if bool_decide (ManagedAsset.getState managedAsset = AssetStateFailedRetryable) then
      ManagedAsset.setState managedAsset AssetStateInitial
    else managedAsset in
  scheduleAssetUpdate fuel env (putManagedAsset am key managedAsset) key.

(** Lines 232-238. *)
Fixpoint clearFirstObserver (cs : list AssetConsumer.t) (observer : option ObserverRef)
  : list AssetConsumer.t :=
  match cs with
  | [] => []
  | consumer :: rest =>
      if bool_decide (AssetConsumer.getObserver consumer = observer) then
        AssetConsumer.setObserver consumer None :: rest
      else consumer :: clearFirstObserver rest observer
  end.

(** Lines 223-241. *)
Definition removeAssetLoadObserver (fuel : nat) (env : Env) (am : t) (key : AssetKey.t)
  (observer : option ObserverRef) : Outcome t :=
  match getManagedAsset am key with
  | None => Done am
  | Some managedAsset =>
      let managedAsset :=
        ManagedAsset.setConsumers managedAsset
          (clearFirstObserver (ManagedAsset.consumers managedAsset) observer) in
      scheduleAssetUpdate fuel env (putManagedAsset am key managedAsset) key
  end.

(** Lines 243-249. *)
Definition updateAssetLoadObserverPreferredSize (am : t) (key : AssetKey.t)
  (observer : option ObserverRef) (preferredWidth preferredHeight : Z) : t := am.

(** Lines 742-754. *)
Definition onObservableDestroyed (fuel : nat) (env : Env) (am : t) (key : AssetKey.t)
  : Outcome t :=
  match getManagedAsset am key with
  | None => Done am
  | Some _ => scheduleAssetUpdate fuel env am key
  end.

(** The observable of a managed asset is held weakly: when its last
    holder lets go of it, [getObservable] yields null from then on. *)
Definition expireObservable (am : t) (key : AssetKey.t) : t :=
  match getManagedAsset am key with
  | None => am
  | Some m => putManagedAsset am key (ManagedAsset.setObservable m None)
  end.

(** Lines 424-437. *)
Definition resolveLocalAssetLocationAndUpdate (fuel : nat) (env : Env) (am : t)
  (key : AssetKey.t) (resolveId : Z) : Outcome t :=
  location ← resolveLocalAssetLocation env key;
  match getManagedAsset am key with
  | None => Done am
  | Some managedAsset =>
      if bool_decide (ManagedAsset.getResolveId managedAsset ≠ resolveId) then Done am
      else
        managedAsset ← updateAssetLocation managedAsset location;
        scheduleAssetUpdate fuel env (putManagedAsset am key managedAsset) key
  end.

(** Lines 462-497. *)
Definition onLoadingRemoteResourcesCompleted (fuel : nat) (env : Env) (am : t)
  (key : AssetKey.t) (result : Result.t RemoteModuleResources) (resolveId : Z) : Outcome t :=
  resolvedAssetLocation ← resolveRemoteAssetLocation env key result;
  match getManagedAsset am key with
  | None => Done am
  | Some managedAsset =>
      if bool_decide (ManagedAsset.getResolveId managedAsset ≠ resolveId) then Done am
      else
        _ ← SC_ASSERT (bool_decide (ManagedAsset.getState managedAsset
                                     = AssetStateResolvingLocation));
        managedAsset ←
          (if Result.success result then updateAssetLocation managedAsset resolvedAssetLocation
           else
             e ← Result.error result;
             Done (ManagedAsset.setResolvedAssetLocation
                     (ManagedAsset.setState managedAsset AssetStateFailedRetryable)
                     (Result.Err e)));
        scheduleAssetUpdate fuel env (putManagedAsset am key managedAsset) key
  end.

(** Lines 779-785, the loop over the consumers of the asset. *)
Fixpoint onLoadConsumers (cs : list AssetConsumer.t) (request : HandlerRef)
  (result : LoadResult) : Outcome (list AssetConsumer.t) :=
  match cs with
  | [] => Done []
  | assetConsumer :: rest =>
      assetConsumer ←
        (if bool_decide (AssetConsumer.getAssetLoaderCompletion assetConsumer = Some request)
         then onConsumerLoad assetConsumer result
         else Done assetConsumer);
      rest ← onLoadConsumers rest request result;
      Done (assetConsumer :: rest)
  end.

(** Lines 756-788. *)
Definition onLoad (fuel : nat) (env : Env) (am : t) (request : HandlerRef)
  (result : LoadResult) : Outcome t :=
  match requestHandlers am !! request with
  | None => Fail DanglingRef
  | Some r =>
      let key := AssetLoaderRequestHandler.getAssetKey r in
      match getManagedAsset am key with
      | None => Done am
      | Some managedAsset =>
          if AssetLoaderRequestHandler.scheduledForCancelation r then Done am
          else
            let am := putRequest am request (AssetLoaderRequestHandler.setLastLoadResult r result) in
            cs ← onLoadConsumers (ManagedAsset.consumers managedAsset) request result;
            let managedAsset := ManagedAsset.setConsumers managedAsset cs in
            scheduleAssetUpdate fuel env (putManagedAsset am key managedAsset) key
      end
  end.

(** Lines 818-837, the loop; every round pops one pending request, so the
    number of pending requests bounds the rounds. *)
Fixpoint flushLoadRequestsLoop (rounds : nat) (am : t) : t :=
  match rounds with
  | O => am
  | S rounds =>
      match pendingLoadRequests am with
      | [] => am
      | loadRequest :: rest =>
          if bool_decide (pauseUpdatesCount am = 0) then
            let am := set_pendingLoadRequests am rest in
            match requestHandlers am !! loadRequest with
            | None => flushLoadRequestsLoop rounds am
            | Some r =>
                if AssetLoaderRequestHandler.scheduledForCancelation r then
                  let am :=
                    putRequest am loadRequest
                      (AssetLoaderRequestHandler.setLastLoadResult r Result.Empty) in
                  flushLoadRequestsLoop rounds (emit am (EvRequestCancel loadRequest))
                else
                  flushLoadRequestsLoop rounds (emit am (EvRequestStartLoadIfNeeded loadRequest))
            end
          else am
      end
  end.

(** Lines 815-840. *)
Definition flushLoadRequests (am : t) : t :=
  let am := flushLoadRequestsLoop (length (pendingLoadRequests am)) am in
  set_pendingLoadRequestsScheduled am false.

(** Lines 842-845. *)
Definition beginPauseUpdates (am : t) : t :=
  set_pauseUpdatesCount am (pauseUpdatesCount am + 1).

(** Lines 847-855. *)
Definition flushUpdates (fuel : nat) (env : Env) (am : t) : Outcome t :=
  if bool_decide (scheduledUpdates am = []) || negb (currentThreadIsMainThread env) then Done am
  else performUpdates fuel env am.

(** Lines 857-884. *)
Definition endPauseUpdates (fuel : nat) (env : Env) (am : t) : Outcome t :=
  _ ← SC_ASSERT (bool_decide (0 < pauseUpdatesCount am));
  let isMainThread := currentThreadIsMainThread env in
  am ← (if bool_decide (pauseUpdatesCount am = 1)
           && negb (bool_decide (scheduledUpdates am = []))
           && isMainThread
        then performUpdates fuel env am
        else Done am);
  let am := set_pauseUpdatesCount am (pauseUpdatesCount am - 1) in
  if bool_decide (pauseUpdatesCount am = 0) then
    let am := scheduleFlushLoadRequests am in
    if negb (bool_decide (scheduledUpdates am = [])) then
      if negb isMainThread then Done (schedulePerformUpdates am)
      else performUpdates fuel env am
    else Done am
  else Done am.

(** Lines 950-952. *)
Definition setListener (am : t) (l : option ListenerRef) : t := set_listener am l.

(** Lines 954-957. *)
Definition setShouldRemoveUnusedLocalAssets (am : t) (removeUnused : bool) : t :=
  set_removeUnusedLocalAssets am removeUnused.
End AssetsManager.

(** * Invariants and reachable states *)

(** Invariant 1 of the specification, for one managed asset. *)
Definition locationAgrees (m : ManagedAsset.t) : Prop :=
  (ManagedAsset.getState m = AssetStateReady →
   Result.success (ManagedAsset.getResolvedAssetLocation m) = true)
  ∧ (ManagedAsset.getState m = AssetStateFailedRetryable
     ∨ ManagedAsset.getState m = AssetStateFailedPermanently →
     Result.failure (ManagedAsset.getResolvedAssetLocation m) = true).

(** The same agreement between the state of a consumer and its result. *)
Definition resultAgrees (c : AssetConsumer.t) : Prop :=
  (AssetConsumer.getState c = AssetConsumerStateLoaded →
   Result.success (AssetConsumer.getLoadedAsset c) = true)
  ∧ (AssetConsumer.getState c = AssetConsumerStateFailed →
     Result.failure (AssetConsumer.getLoadedAsset c) = true).

(** How many consumers of a list hold the request handler [h]. *)
Definition holds (h : HandlerRef) (c : AssetConsumer.t) : bool :=
  bool_decide (AssetConsumer.getAssetLoaderCompletion c = Some h).

Definition refsIn (h : HandlerRef) (cs : list AssetConsumer.t) : nat :=
  length (filter (λ c, holds h c = true) cs).

(** The sum of a measure over every managed asset of the registry. *)
Definition total (f : ManagedAsset.t → nat) (assets : gmap AssetKey.t ManagedAsset.t) : nat :=
  map_fold (λ _ m acc, (f m + acc)%nat) 0%nat assets.

Definition refs (am : AssetsManager.t) (h : HandlerRef) : nat :=
  total (λ m, refsIn h (ManagedAsset.consumers m)) (AssetsManager.assets am).

Definition consumersCountOf (handlers : list AssetLoaderRequestHandler.t) (h : HandlerRef) : Z :=
  match handlers !! h with
  | Some r => AssetLoaderRequestHandler.consumersCount r
  | None => 0
  end.

(** Invariant 3 of the specification. *)
Definition pendingAgrees (am : AssetsManager.t) : Prop :=
  ∀ h r,
    AssetsManager.requestHandlers am !! h = Some r →
    AssetLoaderRequestHandler.consumersCount r = 0 →
    h ∈ AssetsManager.pendingLoadRequests am →
    AssetLoaderRequestHandler.scheduledForCancelation r = true.

(** Every pending request is a request handler of the store. *)
Definition pendingValid (am : AssetsManager.t) : Prop :=
  ∀ h, h ∈ AssetsManager.pendingLoadRequests am →
       (h < length (AssetsManager.requestHandlers am))%nat.

Definition pendingSound (am : AssetsManager.t) : Prop :=
  pendingAgrees am ∧ pendingValid am.

(** The counter of a request handler covers the consumers that hold it. *)
Definition countsCover (am : AssetsManager.t) : Prop :=
  ∀ h, Z.of_nat (refs am h) ≤ consumersCountOf (AssetsManager.requestHandlers am) h.

Record Inv (am : AssetsManager.t) : Prop := mkInv {
  inv_location : map_Forall (λ _ m, locationAgrees m) (AssetsManager.assets am);
  inv_result :
    map_Forall (λ _ m, Forall resultAgrees (ManagedAsset.consumers m)) (AssetsManager.assets am);
  inv_counts : countsCover am;
  inv_pending : pendingSound am
}.

(** The fields that the steps of the state machine never write. *)
Definition control (am : AssetsManager.t)
  : Z * list AssetKey.t * option ListenerRef * bool * nat :=
  (AssetsManager.pauseUpdatesCount am, AssetsManager.scheduledUpdates am,
   AssetsManager.listener am, AssetsManager.removeUnusedLocalAssets am,
   AssetsManager.observablesCreated am).

Definition one (P : Prop) `{Decision P} : Z := if decide P then 1 else 0.

(** One step of the manager: a call of a public entry point or of a
    completion, with whatever arguments and collaborator answers, or one
    round of the drain.  A call that comes in while a drain has released the
    lock runs between two rounds; the current transaction is looked up per
    thread, so such a call may or may not see it. *)
Inductive step : AssetsManager.t → AssetsManager.t → Prop :=
| step_getAsset am key :
    step am (AssetsManager.getAsset am key).2
| step_createAssetWithBytes am url :
    step am (AssetsManager.createAssetWithBytes am url).2
| step_getResolvedAssetLocation am key :
    step am (AssetsManager.getResolvedAssetLocation am key).2
| step_setResolvedAssetLocation fuel env am key location am' :
    AssetsManager.setResolvedAssetLocation fuel env am key location = Done am' →
    step am am'
| step_addAssetLoadObserver fuel env am key observer context outputType w h data am' :
    AssetsManager.addAssetLoadObserver fuel env am key observer context outputType w h data
    = Done am' →
    step am am'
| step_removeAssetLoadObserver fuel env am key observer am' :
    AssetsManager.removeAssetLoadObserver fuel env am key observer = Done am' →
    step am am'
| step_updateAssetLoadObserverPreferredSize am key observer w h :
    step am (AssetsManager.updateAssetLoadObserverPreferredSize am key observer w h)
| step_expireObservable am key :
    step am (AssetsManager.expireObservable am key)
| step_onObservableDestroyed fuel env am key am' :
    AssetsManager.onObservableDestroyed fuel env am key = Done am' →
    step am am'
| step_resolveLocalAssetLocationAndUpdate fuel env am key resolveId am' :
    AssetsManager.resolveLocalAssetLocationAndUpdate fuel env am key resolveId = Done am' →
    step am am'
| step_onLoadingRemoteResourcesCompleted fuel env am key result resolveId am' :
    AssetsManager.onLoadingRemoteResourcesCompleted fuel env am key result resolveId = Done am' →
    step am am'
| step_onLoad fuel env am request result am' :
    AssetsManager.onLoad fuel env am request result = Done am' →
    step am am'
| step_flushLoadRequests am :
    step am (AssetsManager.flushLoadRequests am)
| step_beginPauseUpdates am :
    step am (AssetsManager.beginPauseUpdates am)
| step_endPauseUpdates fuel env am am' :
    AssetsManager.endPauseUpdates fuel env am = Done am' →
    step am am'
| step_flushUpdates fuel env am am' :
    AssetsManager.flushUpdates fuel env am = Done am' →
    step am am'
| step_performUpdates fuel env am am' :
    AssetsManager.performUpdates fuel env am = Done am' →
    step am am'
| step_setListener am l :
    step am (AssetsManager.setListener am l)
| step_setShouldRemoveUnusedLocalAssets am b :
    step am (AssetsManager.setShouldRemoveUnusedLocalAssets am b)
| step_updateAsset env am key am' :
    AssetsManager.updateAsset env am key = Done am' →
    step am am'
| step_transaction am tx :
    step am (AssetsManager.set_currentTransaction am tx)
| step_scheduledUpdates am updates :
    step am (AssetsManager.set_scheduledUpdates am updates).

Inductive reachable : AssetsManager.t → Prop :=
| reachable_create : reachable AssetsManager.create
| reachable_step am am' : reachable am → step am am' → reachable am'.

(** * The selector of the next consumer, in words *)

(** The observer of the consumer has been cleared by
    [removeAssetLoadObserver]. *)
Definition observerCleared (c : AssetConsumer.t) : bool :=
  bool_decide (AssetConsumer.getObserver c = None).

(** The consumer is not notified and is [Initial], [Failed] or [Loaded]. *)
Definition awaitsUpdate (c : AssetConsumer.t) : bool :=
  negb (AssetConsumer.notified c)
  && match AssetConsumer.getState c with
     | AssetConsumerStateInitial | AssetConsumerStateFailed | AssetConsumerStateLoaded => true
     | AssetConsumerStateLoading | AssetConsumerStateRemoved => false
     end.

Definition candidate (c : AssetConsumer.t) : bool := observerCleared c || awaitsUpdate c.

(** A candidate that still has its observer. *)
Definition follower (c : AssetConsumer.t) : bool := negb (observerCleared c) && awaitsUpdate c.

(** The first follower of a list whose head has position [i]. *)
Fixpoint firstFollower (cs : list AssetConsumer.t) (i : nat) : option (nat * AssetConsumer.t) :=
  match cs with
  | [] => None
  | c :: rest => if follower c then Some (i, c) else firstFollower rest (S i)
  end.

(** The selector as section 4.1.3 of the specification words it: consumers
    that are notified, [Loading] or [Removed] are skipped, the first
    candidate is returned, and [has_more] tells whether there is more than
    one candidate.  [clearedExempt] chooses whether a consumer whose
    observer has been cleared is a candidate in spite of the skipping
    rule. *)
Definition skippedBySpec (c : AssetConsumer.t) : bool :=
  AssetConsumer.notified c
  || match AssetConsumer.getState c with
     | AssetConsumerStateLoading | AssetConsumerStateRemoved => true
     | _ => false
     end.

Definition candidateBySpec (clearedExempt : bool) (c : AssetConsumer.t) : bool :=
  (clearedExempt && observerCleared c) || negb (skippedBySpec c).

Fixpoint candidatesBySpec (clearedExempt : bool) (cs : list AssetConsumer.t) (i : nat)
  : list (nat * AssetConsumer.t) :=
  match cs with
  | [] => []
  | c :: rest =>
      if candidateBySpec clearedExempt c
      then (i, c) :: candidatesBySpec clearedExempt rest (S i)
      else candidatesBySpec clearedExempt rest (S i)
  end.

Definition nextConsumerToUpdateBySpec (clearedExempt : bool) (m : ManagedAsset.t)
  : option (nat * AssetConsumer.t) * bool :=
  let found := candidatesBySpec clearedExempt (ManagedAsset.consumers m) 0 in
  (head found, bool_decide (1 < length found)%nat).

(** Consumers for the examples. *)
Definition consumerWith (observer : option ObserverRef) (state : AssetConsumerState)
  (isNotified : bool) : AssetConsumer.t :=
  AssetConsumer.setNotified
    (AssetConsumer.setState (AssetConsumer.setObserver AssetConsumer.create observer) state)
    isNotified.

Definition assetWith (state : AssetState) (location : Result.t AssetLocation.t)
  (cs : list AssetConsumer.t) : ManagedAsset.t :=
  ManagedAsset.setConsumers
    (ManagedAsset.setResolvedAssetLocation (ManagedAsset.setState ManagedAsset.create state)
       location) cs.

(** * A measure of the work that a drain has left *)

(** The rounds of the drain that one consumer can still ask for. *)
Definition rankC (c : AssetConsumer.t) : nat :=
  match AssetConsumer.getState c with
  | AssetConsumerStateInitial => 3
  | AssetConsumerStateFailed | AssetConsumerStateLoaded =>
      if AssetConsumer.notified c then 1 else 2
  | AssetConsumerStateLoading | AssetConsumerStateRemoved => 1
  end.

Definition rankCs (cs : list AssetConsumer.t) : nat := sum_list (rankC <$> cs).

Definition rankA (m : ManagedAsset.t) : nat :=
  (if bool_decide (ManagedAsset.getState m = AssetStateInitial) then 1 else 0)
  + rankCs (ManagedAsset.consumers m).

Definition workLeft (am : AssetsManager.t) : nat := total rankA (AssetsManager.assets am).

(** The length of the queue of the current transaction. *)
Definition queued (am : AssetsManager.t) : nat :=
  length (default [] (AssetsManager.currentTransaction am)).

(** Rounds that suffice for a drain started in [am]. *)
Definition drainBound (am : AssetsManager.t) : nat :=
  workLeft am + length (AssetsManager.scheduledUpdates am).

(** What a round of the drain on [key] does to the queue of the current
    transaction: nothing, or one [enqueueUpdate] of [key]. *)
Definition queueStep (key : AssetKey.t) (am am' : AssetsManager.t) : Prop :=
  AssetsManager.currentTransaction am' = AssetsManager.currentTransaction am
  ∨ AssetsManager.currentTransaction am'
    = (λ tx, AssetsManagerTransaction.enqueueUpdate tx key)
        <$> AssetsManager.currentTransaction am.

(** * Example states *)

Definition exampleLoader : AssetLoader := mkAssetLoader 7 true.

(** Collaborators for the examples: no resource loader, one loader for
    every scheme. *)
Definition exampleEnv (mainThread : bool) : Env :=
  mkEnv mainThread None (λ _, "https") (λ _ _, Some exampleLoader) (λ _, "Image")
    (λ _, false).

Definition exampleKey : AssetKey.t := AssetKey.OfUrl "u".
Definition exampleBundleKey : AssetKey.t := AssetKey.OfBundle (mkBundle 0 "b" true) "p".
Definition exampleLocation : AssetLocation.t := AssetLocation.mk "u" false.
Definition otherLocation : AssetLocation.t := AssetLocation.mk "v" false.

Definition stateOf (out : Outcome AssetsManager.t) : AssetsManager.t :=
  match out with
  | Done am => am
  | Fail _ => AssetsManager.create
  end.

(** The key is given a location before anyone observes it. *)
Definition readyState : AssetsManager.t :=
  stateOf (AssetsManager.setResolvedAssetLocation 0 (exampleEnv true) AssetsManager.create
             exampleKey exampleLocation).

(** An observer is added on the main thread: the drain resolves the URL
    and attaches the consumer to a new request handler. *)
Definition loadingState : AssetsManager.t :=
  stateOf (AssetsManager.addAssetLoadObserver 5 (exampleEnv true) AssetsManager.create
             exampleKey (Some 1%nat) 0%nat 0%nat 100 100 EmptyString).

(** The load completes: the consumer is [Loaded] and notified. *)
Definition loadedState : AssetsManager.t :=
  stateOf (AssetsManager.onLoad 5 (exampleEnv true) loadingState 0%nat
             (Result.Ok (Some 9%nat))).

(** The observer is removed while the load is in flight: the drain removes
    the consumer and its request handler is left without consumers. *)
Definition canceledState : AssetsManager.t :=
  stateOf (AssetsManager.removeAssetLoadObserver 5 (exampleEnv true) loadingState
             exampleKey (Some 1%nat)).

(** Updates are paused, then an observer is added. *)
Definition pausedState : AssetsManager.t :=
  stateOf (AssetsManager.addAssetLoadObserver 5 (exampleEnv true)
             (AssetsManager.beginPauseUpdates AssetsManager.create)
             exampleKey (Some 1%nat) 0%nat 0%nat 100 100 EmptyString).

(** A managed asset that nobody observes or holds, with a listener set. *)
Definition idleAsset : ManagedAsset.t := ManagedAsset.create.
Definition idleState : AssetsManager.t :=
  AssetsManager.putManagedAsset (AssetsManager.setListener AssetsManager.create (Some 3%nat))
    exampleKey idleAsset.

(** A bundle asset whose resolution is in flight. *)
Definition resolvingAsset : ManagedAsset.t :=
  assetWith AssetStateResolvingLocation Result.Empty [].
Definition resolvingState : AssetsManager.t :=
  AssetsManager.putManagedAsset AssetsManager.create exampleBundleKey resolvingAsset.

(** A bundle asset whose resolution has failed for good, with a consumer
    that has been told. *)
Definition failedConsumer : AssetConsumer.t :=
  AssetConsumer.setLoadedAsset (consumerWith (Some 1%nat) AssetConsumerStateFailed true)
    (Result.Err "missing").
Definition failedAsset : ManagedAsset.t :=
  assetWith AssetStateFailedPermanently (Result.Err "missing") [failedConsumer].
Definition failedState : AssetsManager.t :=
  AssetsManager.putManagedAsset AssetsManager.create exampleBundleKey failedAsset.

(** Consumers for the selector. *)
Definition clearedNotified : AssetConsumer.t := consumerWith None AssetConsumerStateLoaded true.
Definition clearedInitial : AssetConsumer.t := consumerWith None AssetConsumerStateInitial false.
Definition observedInitial : AssetConsumer.t :=
  consumerWith (Some 2%nat) AssetConsumerStateInitial false.
Definition selectorAsset : ManagedAsset.t :=
  assetWith AssetStateReady (Result.Ok exampleLocation) [clearedNotified; observedInitial].
Definition loneClearedAsset : ManagedAsset.t :=
  assetWith AssetStateReady (Result.Ok exampleLocation) [clearedInitial].

(** * Vocabulary for the properties of the load requests and of the trace *)

(** The call that [flushLoadRequests] makes on a pending request: [cancel]
    when the request is scheduled for cancelation, [startLoadIfNeeded]
    otherwise. *)
Definition flushedRequest (handlers : list AssetLoaderRequestHandler.t) (h : HandlerRef)
  : Event :=
  if default false (AssetLoaderRequestHandler.scheduledForCancelation <$> handlers !! h)
  then EvRequestCancel h
  else EvRequestStartLoadIfNeeded h.

(** The calls of observers among the outgoing calls. *)
Definition isObserverOnLoad (e : Event) : bool :=
  match e with
  | EvObserverOnLoad _ _ _ _ => true
  | _ => false
  end.

Definition observerCalls (am : AssetsManager.t) : list Event :=
  filter (λ e, isObserverOnLoad e = true) (AssetsManager.trace am).

(** The effect of a part of a round on the registry: the managed asset of
    [key] is written, the others are left alone; no observer is called. *)
Definition writesAsset (key : AssetKey.t) (m' : ManagedAsset.t) (am am' : AssetsManager.t) : Prop :=
  AssetsManager.assets am' = <[key := m']> (AssetsManager.assets am) ∧ observerCalls am' = observerCalls am.

(** A bundle asset whose resolution has failed for good, with a consumer
    that holds the error and has not been told yet. *)
Definition unservedConsumer : AssetConsumer.t :=
  AssetConsumer.setLoadedAsset (consumerWith (Some 1%nat) AssetConsumerStateFailed false)
    (Result.Err "missing").
Definition unservedState : AssetsManager.t :=
  AssetsManager.putManagedAsset AssetsManager.create exampleBundleKey
    (assetWith AssetStateFailedPermanently (Result.Err "missing") [unservedConsumer]).

(** Lines 713-716: the test by which [assetConsumer] may share the request
    that [sibling] holds. *)
Definition sharesRequest (handlers : list AssetLoaderRequestHandler.t)
  (assetConsumer sibling : AssetConsumer.t) : bool :=
  match AssetConsumer.getAssetLoaderCompletion sibling with
  | None => false
  | Some h =>
      match handlers !! h with
      | None => false
      | Some requestHandler =>
          bool_decide (AssetLoaderRequestHandler.getRequestedWidth requestHandler
                       = AssetConsumer.getPreferredWidth assetConsumer)
          && bool_decide (AssetLoaderRequestHandler.getRequestedHeight requestHandler
                          = AssetConsumer.getPreferredHeight assetConsumer)
          && bool_decide (AssetLoaderRequestHandler.getAttachedData requestHandler
                          = AssetConsumer.getAttachedData assetConsumer)
          && bool_decide (AssetConsumer.getOutputType sibling
                          = AssetConsumer.getOutputType assetConsumer)
      end
  end.

(** An asset with a consumer that waits for its request and a second
    consumer, not served yet, that asks for the same size and output. *)
Definition sharedRequest : AssetLoaderRequestHandler.t :=
  AssetLoaderRequestHandler.setScheduledForLoad
    (AssetLoaderRequestHandler.incrementConsumersCount
       (AssetLoaderRequestHandler.create exampleKey 0%nat 7%nat "u" 100 100 EmptyString)).
Definition holder : AssetConsumer.t :=
  AssetConsumer.mk (Some 1%nat) 0%nat 0%nat 100 100 EmptyString AssetConsumerStateLoading
    Result.Empty false (Some 0%nat).
Definition newcomer : AssetConsumer.t :=
  AssetConsumer.mk (Some 2%nat) 0%nat 0%nat 100 100 EmptyString AssetConsumerStateInitial
    Result.Empty false None.
Definition sharingAsset : ManagedAsset.t :=
  assetWith AssetStateReady (Result.Ok exampleLocation) [holder; newcomer].
Definition sharingState : AssetsManager.t :=
  AssetsManager.set_requestHandlers
    (AssetsManager.putManagedAsset AssetsManager.create exampleKey sharingAsset)
    [sharedRequest].

(** An asset whose only consumer waits for its request. *)
Definition waitingAsset : ManagedAsset.t :=
  assetWith AssetStateReady (Result.Ok exampleLocation) [holder].
Definition waitingState : AssetsManager.t :=
  AssetsManager.set_requestHandlers
    (AssetsManager.putManagedAsset AssetsManager.create exampleKey waitingAsset)
    [sharedRequest].

(** An asset of a bundle with remote assets that waits for its location,
    with one consumer that has not started. *)
Definition remoteWaitingAsset : ManagedAsset.t :=
  assetWith AssetStateResolvingLocation Result.Empty [newcomer].
Definition remoteWaitingState : AssetsManager.t :=
  AssetsManager.putManagedAsset AssetsManager.create exampleBundleKey remoteWaitingAsset.

(** * Functions of the manager that read strings and asset catalogs *)

(** Modelled from the spec: [StringBox::hasPrefix] and
    [StringBox::contains] (StringBox.hpp is not part of the sources): a
    string has a prefix when it starts with it, and contains a string when
    one of its suffixes starts with it. *)
Fixpoint hasPrefix (str prefix : string) {struct prefix} : bool :=
  match prefix with
  | EmptyString => true
  | String a prefix =>
      match str with
      | EmptyString => false
      | String b str => bool_decide (a = b) && hasPrefix str prefix
      end
  end.

Fixpoint contains (str sub : string) : bool :=
  hasPrefix str sub
  || match str with
     | EmptyString => false
     | String _ str => contains str sub
     end.

(** Lines 179-184. *)
Definition isAssetUrl (str : string) : bool :=
  if contains str "://" then true else hasPrefix str "data:image/".

(** Modelled from the spec: an asset catalog gives the specs of the assets
    that it knows by name; the manager reads their width and height
    (AssetCatalog.hpp is not part of the sources). *)
Record AssetSpecs := mkAssetSpecs {
  getWidth : Z;
  getHeight : Z
}.
Record AssetCatalog := mkAssetCatalog {
  getAssetSpecsForName : string → option AssetSpecs
}.

(** Lines 144-147; [getAssetCatalog] is the method of [Bundle]. *)
Definition getAssetCatalogForBundle
  (getAssetCatalog : Bundle → string → Result.t AssetCatalog) (bundle : Bundle)
  : Result.t AssetCatalog :=
  getAssetCatalog bundle "res".

(** Lines 149-163; the result is the call of [setExpectedSize] that the
    function makes on the observable. *)
Definition updateObservableAssetSize (observableAsset : ObservableRef) (assetPath : string)
  (assetCatalog : Result.t AssetCatalog) : ObservableRef * Z * Z :=
  let '(expectedWidth, expectedHeight) :=
    match assetCatalog with
    | Result.Ok catalog =>
        match getAssetSpecsForName catalog assetPath with
        | Some assetSpecs => (getWidth assetSpecs, getHeight assetSpecs)
        | None => (0, 0)
        end
    | _ => (0, 0)
    end in
  (observableAsset, expectedWidth, expectedHeight).

(** Lines 165-177; the result is the list of the calls of
    [setExpectedSize], one for every managed asset that the loop finds
    with the bundle and with a live observable. *)
Definition onAssetCatalogChanged
  (getAssetCatalog : Bundle → string → Result.t AssetCatalog) (am : AssetsManager.t)
  (bundle : Bundle) : list (ObservableRef * Z * Z) :=
  let assetCatalog := getAssetCatalogForBundle getAssetCatalog bundle in
  map_fold
    (λ key managedAsset calls,
       if bool_decide (AssetKey.getBundle key = Some bundle) then
         match ManagedAsset.getObservable managedAsset with
         | Some observable =>
             calls ++ [updateObservableAssetSize observable (AssetKey.getPath key) assetCatalog]
         | None => calls
         end
       else calls)
    [] (AssetsManager.assets am).

(** * The state of a consumer and what it holds *)

(** A consumer that has not been looked at holds no request, a consumer
    that waits for a load holds one, and only a consumer with a result has
    been notified. *)
Record consumerSound (c : AssetConsumer.t) : Prop := mkConsumerSound {
  sound_initial :
    AssetConsumer.getState c = AssetConsumerStateInitial →
    AssetConsumer.getAssetLoaderCompletion c = None;
  sound_loading :
    AssetConsumer.getState c = AssetConsumerStateLoading →
    is_Some (AssetConsumer.getAssetLoaderCompletion c);
  sound_notified :
    AssetConsumer.notified c = true →
    AssetConsumer.getState c = AssetConsumerStateLoaded
    ∨ AssetConsumer.getState c = AssetConsumerStateFailed
}.

Definition soundAssets (am : AssetsManager.t) : Prop :=
  map_Forall (λ _ m, Forall consumerSound (ManagedAsset.consumers m))
    (AssetsManager.assets am).

(** * Properties *)

Import AssetsManager.

(** * Sums over the registry *)

Section Total.
Context (f : ManagedAsset.t → nat).

Lemma total_empty : total f ∅ = 0%nat.
Proof. unfold total. apply map_fold_empty. Qed.

Lemma total_insert_None (assets : gmap AssetKey.t ManagedAsset.t) k m :
  assets !! k = None → total f (<[k := m]> assets) = (f m + total f assets)%nat.
Proof.
  intros Hk. unfold total. rewrite map_fold_insert_L; [done| |done].
  intros; lia.
Qed.

Lemma total_delete (assets : gmap AssetKey.t ManagedAsset.t) k m :
  assets !! k = Some m → total f assets = (f m + total f (delete k assets))%nat.
Proof.
  intros Hk. unfold total. rewrite (map_fold_delete_L _ _ k m assets); [done| |done].
  intros; lia.
Qed.

Lemma total_insert (assets : gmap AssetKey.t ManagedAsset.t) k m m' :
  assets !! k = Some m →
  (total f (<[k := m']> assets) + f m = total f assets + f m')%nat.
Proof.
  intros Hk. rewrite <-(insert_delete_eq assets k m').
  rewrite total_insert_None by apply lookup_delete_eq.
  rewrite (total_delete assets k m Hk). lia.
Qed.

Lemma total_insert_same (assets : gmap AssetKey.t ManagedAsset.t) k m m' :
  assets !! k = Some m → f m' = f m → total f (<[k := m']> assets) = total f assets.
Proof. intros Hk Hf. pose proof (total_insert assets k m m' Hk). lia. Qed.
End Total.

(** * Request handlers *)

Lemma consumersCountOf_insert handlers h h' r :
  consumersCountOf (<[h := r]> handlers) h' =
  if decide (h = h' ∧ (h < length handlers)%nat)
  then AssetLoaderRequestHandler.consumersCount r
  else consumersCountOf handlers h'.
Proof.
  unfold consumersCountOf. case_decide as Hd.
  - destruct Hd as [-> Hlt]. by rewrite list_lookup_insert_eq.
  - destruct (decide (h = h')) as [->|Hne].
    + rewrite list_insert_ge; [done|]. lia.
    + by rewrite list_lookup_insert_ne.
Qed.

Lemma scheduleFlushLoadRequests_frame am :
  assets (scheduleFlushLoadRequests am) = assets am
  ∧ requestHandlers (scheduleFlushLoadRequests am) = requestHandlers am
  ∧ pendingLoadRequests (scheduleFlushLoadRequests am) = pendingLoadRequests am
  ∧ currentTransaction (scheduleFlushLoadRequests am) = currentTransaction am
  ∧ assetBytesStore (scheduleFlushLoadRequests am) = assetBytesStore am
  ∧ assetResolveIdSequence (scheduleFlushLoadRequests am) = assetResolveIdSequence am
  ∧ control (scheduleFlushLoadRequests am) = control am.
Proof. unfold scheduleFlushLoadRequests. by case_match. Qed.

Lemma releaseExistingRequest_frame am e :
  assets (releaseExistingRequest am e) = assets am
  ∧ length (requestHandlers (releaseExistingRequest am e)) = length (requestHandlers am)
  ∧ currentTransaction (releaseExistingRequest am e) = currentTransaction am
  ∧ assetBytesStore (releaseExistingRequest am e) = assetBytesStore am
  ∧ assetResolveIdSequence (releaseExistingRequest am e) = assetResolveIdSequence am
  ∧ control (releaseExistingRequest am e) = control am.
Proof.
  unfold releaseExistingRequest. destruct e as [h|]; [|done].
  destruct (requestHandlers am !! h) as [r|] eqn:Hr; [|done].
  case_match.
  - destruct (scheduleFlushLoadRequests_frame
      (set_pendingLoadRequests
         (putRequest (putRequest am h (AssetLoaderRequestHandler.decrementConsumersCount r)) h
            (AssetLoaderRequestHandler.setScheduledForCancelation
               (AssetLoaderRequestHandler.decrementConsumersCount r)))
         (pendingLoadRequests
            (putRequest (putRequest am h (AssetLoaderRequestHandler.decrementConsumersCount r)) h
               (AssetLoaderRequestHandler.setScheduledForCancelation
                  (AssetLoaderRequestHandler.decrementConsumersCount r))) ++ [h])))
      as (-> & -> & _ & -> & -> & -> & ->).
    simpl. by rewrite !length_insert.
  - simpl. by rewrite !length_insert.
Qed.

Lemma retainRequest_frame am e :
  assets (retainRequest am e) = assets am
  ∧ length (requestHandlers (retainRequest am e)) = length (requestHandlers am)
  ∧ currentTransaction (retainRequest am e) = currentTransaction am
  ∧ assetBytesStore (retainRequest am e) = assetBytesStore am
  ∧ assetResolveIdSequence (retainRequest am e) = assetResolveIdSequence am
  ∧ control (retainRequest am e) = control am.
Proof.
  unfold retainRequest. destruct e as [h|]; [|done].
  destruct (requestHandlers am !! h) as [r|] eqn:Hr; [|done].
  case_match.
  - match goal with |- context [scheduleFlushLoadRequests ?x] =>
      destruct (scheduleFlushLoadRequests_frame x) as (-> & -> & _ & -> & -> & -> & ->) end.
    simpl. by rewrite !length_insert.
  - simpl. by rewrite !length_insert.
Qed.

Lemma releaseExistingRequest_count am e h :
  consumersCountOf (requestHandlers (releaseExistingRequest am e)) h =
  consumersCountOf (requestHandlers am) h
  - (if decide (e = Some h ∧ (h < length (requestHandlers am))%nat) then 1 else 0).
Proof.
  unfold releaseExistingRequest. destruct e as [h0|]; [|rewrite decide_False by (by intros [? _]); lia].
  destruct (requestHandlers am !! h0) as [r|] eqn:Hr.
  - pose proof (lookup_lt_Some _ _ _ Hr) as Hlt.
    assert (Hc : consumersCountOf
              (<[h0 := AssetLoaderRequestHandler.decrementConsumersCount r]> (requestHandlers am)) h
            = consumersCountOf (requestHandlers am) h
              - (if decide (Some h0 = Some h ∧ (h < length (requestHandlers am))%nat)
                 then 1 else 0)).
    { rewrite consumersCountOf_insert.
      destruct (decide (h0 = h)) as [->|Hne].
      - rewrite !decide_True by done. unfold consumersCountOf. rewrite Hr. simpl. lia.
      - rewrite !decide_False by (intros [? _]; congruence). lia. }
    rewrite <-Hc. clear Hc.
    match goal with |- context [if ?b then _ else _] => destruct b end; [|done].
    match goal with |- context [scheduleFlushLoadRequests ?x] =>
      destruct (scheduleFlushLoadRequests_frame x) as (_ & -> & _) end.
    simpl. rewrite list_insert_insert_eq.
    rewrite !consumersCountOf_insert. by case_decide.
  - case_decide as Hd; [|lia]. destruct Hd as [? Hlt]; simplify_eq.
    apply lookup_ge_None in Hr. lia.
Qed.

Lemma retainRequest_count am e h :
  consumersCountOf (requestHandlers (retainRequest am e)) h =
  consumersCountOf (requestHandlers am) h
  + (if decide (e = Some h ∧ (h < length (requestHandlers am))%nat) then 1 else 0).
Proof.
  unfold retainRequest. destruct e as [h0|]; [|rewrite decide_False by (by intros [? _]); lia].
  destruct (requestHandlers am !! h0) as [r|] eqn:Hr.
  - pose proof (lookup_lt_Some _ _ _ Hr) as Hlt.
    assert (Hc : consumersCountOf
              (<[h0 := AssetLoaderRequestHandler.incrementConsumersCount r]> (requestHandlers am)) h
            = consumersCountOf (requestHandlers am) h
              + (if decide (Some h0 = Some h ∧ (h < length (requestHandlers am))%nat)
                 then 1 else 0)).
    { rewrite consumersCountOf_insert.
      destruct (decide (h0 = h)) as [->|Hne].
      - rewrite !decide_True by done. unfold consumersCountOf. rewrite Hr. simpl. lia.
      - rewrite !decide_False by (intros [? _]; congruence). lia. }
    rewrite <-Hc. clear Hc.
    match goal with |- context [if ?b then _ else _] => destruct b end; [|done].
    match goal with |- context [scheduleFlushLoadRequests ?x] =>
      destruct (scheduleFlushLoadRequests_frame x) as (_ & -> & _) end.
    simpl. rewrite list_insert_insert_eq.
    rewrite !consumersCountOf_insert. by case_decide.
  - case_decide as Hd; [|lia]. destruct Hd as [? Hlt]; simplify_eq.
    apply lookup_ge_None in Hr. lia.
Qed.

Lemma releaseExistingRequest_pendingSound am e :
  pendingSound am → pendingSound (releaseExistingRequest am e).
Proof.
  intros [Hinv Hval]. unfold releaseExistingRequest. destruct e as [h0|]; [|done].
  destruct (requestHandlers am !! h0) as [r0|] eqn:Hr0; [|done].
  pose proof (lookup_lt_Some _ _ _ Hr0) as Hlt.
  destruct (bool_decide _ && negb _) eqn:Hcond.
  - match goal with |- context [scheduleFlushLoadRequests ?x] =>
      destruct (scheduleFlushLoadRequests_frame x) as (_ & Hh & Hp & _) end.
    split.
    + intros h r. rewrite Hh, Hp. simpl. rewrite list_insert_insert_eq.
      destruct (decide (h = h0)) as [->|Hne].
      * rewrite list_lookup_insert_eq by done. by intros [= <-].
      * rewrite list_lookup_insert_ne by done. intros Hr Hc Hin.
        apply (Hinv h r Hr Hc).
        apply elem_of_app in Hin as [?|Hin%list_elem_of_singleton]; [done|congruence].
    + intros h. rewrite Hh, Hp. simpl. rewrite !length_insert.
      intros [?|Hin%list_elem_of_singleton]%elem_of_app; [by apply Hval|congruence].
  - split.
    + intros h r. simpl.
      destruct (decide (h = h0)) as [->|Hne].
      * rewrite list_lookup_insert_eq by done. intros [= <-] Hc _.
        apply andb_false_iff in Hcond as [Hcond|Hcond].
        -- apply bool_decide_eq_false in Hcond. done.
        -- by apply negb_false_iff in Hcond.
      * rewrite list_lookup_insert_ne by done. apply Hinv.
    + intros h. simpl. rewrite length_insert. apply Hval.
Qed.

Lemma retainRequest_pendingSound am e :
  pendingSound am →
  (∀ h, e = Some h → 0 ≤ consumersCountOf (requestHandlers am) h) →
  pendingSound (retainRequest am e).
Proof.
  intros [Hinv Hval] Hnonneg. unfold retainRequest. destruct e as [h0|]; [|done].
  destruct (requestHandlers am !! h0) as [r0|] eqn:Hr0; [|done].
  pose proof (lookup_lt_Some _ _ _ Hr0) as Hlt.
  specialize (Hnonneg h0 eq_refl). unfold consumersCountOf in Hnonneg. rewrite Hr0 in Hnonneg.
  destruct (negb _) eqn:Hcond.
  - match goal with |- context [scheduleFlushLoadRequests ?x] =>
      destruct (scheduleFlushLoadRequests_frame x) as (_ & Hh & Hp & _) end.
    split.
    + intros h r. rewrite Hh, Hp. simpl. rewrite list_insert_insert_eq.
      destruct (decide (h = h0)) as [->|Hne].
      * rewrite list_lookup_insert_eq by done. intros [= <-]. simpl. lia.
      * rewrite list_lookup_insert_ne by done. intros Hr Hc Hin.
        apply (Hinv h r Hr Hc).
        apply elem_of_app in Hin as [?|Hin%list_elem_of_singleton]; [done|congruence].
    + intros h. rewrite Hh, Hp. simpl. rewrite !length_insert.
      intros [?|Hin%list_elem_of_singleton]%elem_of_app; [by apply Hval|congruence].
  - split.
    + intros h r. simpl.
      destruct (decide (h = h0)) as [->|Hne].
      * rewrite list_lookup_insert_eq by done. intros [= <-]. simpl. lia.
      * rewrite list_lookup_insert_ne by done. apply Hinv.
    + intros h. simpl. rewrite length_insert. apply Hval.
Qed.

(** * [updateConsumerRequestHandler] *)

Lemma updateConsumerRequestHandler_consumer am c request :
  (updateConsumerRequestHandler am c request).1
  = AssetConsumer.setAssetLoaderCompletion c request.
Proof. done. Qed.

Lemma updateConsumerRequestHandler_frame am c request :
  let am' := (updateConsumerRequestHandler am c request).2 in
  assets am' = assets am
  ∧ length (requestHandlers am') = length (requestHandlers am)
  ∧ currentTransaction am' = currentTransaction am
  ∧ assetBytesStore am' = assetBytesStore am
  ∧ assetResolveIdSequence am' = assetResolveIdSequence am
  ∧ control am' = control am.
Proof.
  simpl.
  destruct (retainRequest_frame
              (releaseExistingRequest am (AssetConsumer.getAssetLoaderCompletion c)) request)
    as (-> & -> & -> & -> & -> & ->).
  apply releaseExistingRequest_frame.
Qed.

Lemma updateConsumerRequestHandler_count am c request h :
  let am' := (updateConsumerRequestHandler am c request).2 in
  consumersCountOf (requestHandlers am') h =
  consumersCountOf (requestHandlers am) h
  - one (AssetConsumer.getAssetLoaderCompletion c = Some h
         ∧ (h < length (requestHandlers am))%nat)
  + one (request = Some h ∧ (h < length (requestHandlers am))%nat).
Proof.
  simpl. rewrite retainRequest_count, releaseExistingRequest_count.
  destruct (releaseExistingRequest_frame am (AssetConsumer.getAssetLoaderCompletion c))
    as (_ & -> & _).
  done.
Qed.

Lemma updateConsumerRequestHandler_pendingSound am c request :
  pendingSound am →
  (∀ h, 0 ≤ consumersCountOf (requestHandlers am) h) →
  (∀ h, AssetConsumer.getAssetLoaderCompletion c = Some h →
        1 ≤ consumersCountOf (requestHandlers am) h) →
  pendingSound (updateConsumerRequestHandler am c request).2.
Proof.
  intros Hinv Hnonneg Hheld. simpl.
  apply retainRequest_pendingSound; [by apply releaseExistingRequest_pendingSound|].
  intros h ->. rewrite releaseExistingRequest_count.
  case_decide as Hd.
  - destruct Hd as [He _]. specialize (Hheld h He). lia.
  - specialize (Hnonneg h). lia.
Qed.

(** * Counting the holders of a request handler *)

Lemma refsIn_nil h : refsIn h [] = 0%nat.
Proof. done. Qed.

Lemma refsIn_cons h c cs :
  refsIn h (c :: cs) = ((if holds h c then 1 else 0) + refsIn h cs)%nat.
Proof.
  unfold refsIn. rewrite filter_cons. destruct (holds h c) eqn:Hc.
  - rewrite decide_True by done. done.
  - rewrite decide_False by (by intros ?). done.
Qed.

Lemma refsIn_app h cs1 cs2 : refsIn h (cs1 ++ cs2) = (refsIn h cs1 + refsIn h cs2)%nat.
Proof. unfold refsIn. by rewrite filter_app, length_app. Qed.

Lemma refsIn_insert h cs i c0 c :
  cs !! i = Some c0 →
  (refsIn h (<[i := c]> cs) + (if holds h c0 then 1 else 0)
   = refsIn h cs + (if holds h c then 1 else 0))%nat.
Proof.
  revert i. induction cs as [|a cs IH]; intros [|i] Hi; simplify_eq/=.
  - rewrite !refsIn_cons. lia.
  - rewrite !refsIn_cons. specialize (IH i Hi). lia.
Qed.

Lemma refsIn_delete h cs i c0 :
  cs !! i = Some c0 →
  (refsIn h (delete i cs) + (if holds h c0 then 1 else 0) = refsIn h cs)%nat.
Proof.
  revert i. induction cs as [|a cs IH]; intros [|i] Hi; simplify_eq/=.
  - rewrite !refsIn_cons. lia.
  - rewrite !refsIn_cons. specialize (IH i Hi). lia.
Qed.

Lemma refsIn_lookup h cs i c :
  cs !! i = Some c → holds h c = true → (1 ≤ refsIn h cs)%nat.
Proof.
  intros Hi Hc. pose proof (refsIn_delete h cs i c Hi) as Hd. rewrite Hc in Hd. lia.
Qed.

Lemma refs_lookup am key m h :
  assets am !! key = Some m → (refsIn h (ManagedAsset.consumers m) ≤ refs am h)%nat.
Proof.
  intros Hm. unfold refs.
  rewrite (total_delete _ (assets am) key m Hm). lia.
Qed.

Lemma countsCover_nonneg am : countsCover am → ∀ h, 0 ≤ consumersCountOf (requestHandlers am) h.
Proof. intros Hc h. specialize (Hc h). lia. Qed.

Lemma countsCover_held am key m i c h :
  countsCover am → assets am !! key = Some m → ManagedAsset.consumers m !! i = Some c →
  AssetConsumer.getAssetLoaderCompletion c = Some h →
  1 ≤ consumersCountOf (requestHandlers am) h ∧ (h < length (requestHandlers am))%nat.
Proof.
  intros Hc Hm Hi Hh.
  assert (Hholds : holds h c = true) by (by apply bool_decide_eq_true).
  pose proof (refsIn_lookup h _ i c Hi Hholds).
  pose proof (refs_lookup am key m h Hm).
  specialize (Hc h).
  split; [lia|].
  unfold consumersCountOf in Hc.
  destruct (requestHandlers am !! h) eqn:Hr; [by eapply lookup_lt_Some|lia].
Qed.

(** * Building the invariant *)

Lemma pendingSound_frame am am' :
  requestHandlers am' = requestHandlers am →
  pendingLoadRequests am' = pendingLoadRequests am →
  pendingSound am → pendingSound am'.
Proof. unfold pendingSound, pendingAgrees, pendingValid. intros -> ->. done. Qed.

Lemma Inv_frame am am' :
  assets am' = assets am →
  requestHandlers am' = requestHandlers am →
  pendingLoadRequests am' = pendingLoadRequests am →
  Inv am → Inv am'.
Proof.
  intros Ha Hh Hp [H1 H2 H3 H4]. split.
  - by rewrite Ha.
  - by rewrite Ha.
  - intros h. unfold refs. rewrite Ha, Hh. apply H3.
  - by apply (pendingSound_frame am).
Qed.

Lemma Inv_create : Inv create.
Proof.
  split.
  - apply map_Forall_empty.
  - apply map_Forall_empty.
  - intros h. unfold refs. simpl. rewrite total_empty. unfold consumersCountOf.
    by rewrite lookup_nil.
  - split.
    + intros h r. simpl. by rewrite lookup_nil.
    + intros h. simpl. by intros ?%elem_of_nil.
Qed.

(** The managed asset under [key] is replaced, and the request handlers
    move along with the consumers of the replacement. *)
Lemma Inv_put am am' key m m' :
  Inv am →
  assets am !! key = Some m →
  assets am' = <[key := m']> (assets am) →
  locationAgrees m' →
  Forall resultAgrees (ManagedAsset.consumers m') →
  pendingSound am' →
  (∀ h, Z.of_nat (refsIn h (ManagedAsset.consumers m'))
        + consumersCountOf (requestHandlers am) h
        ≤ consumersCountOf (requestHandlers am') h
          + Z.of_nat (refsIn h (ManagedAsset.consumers m))) →
  Inv am'.
Proof.
  intros [H1 H2 H3 H4] Hm Ha Hloc Hres Hpend Hcount. split.
  - rewrite Ha. by apply map_Forall_insert_2.
  - rewrite Ha. by apply map_Forall_insert_2.
  - intros h. unfold refs. rewrite Ha.
    pose proof (total_insert (λ m, refsIn h (ManagedAsset.consumers m)) _ key m m' Hm) as Ht.
    simpl in Ht. specialize (H3 h). unfold refs in H3. specialize (Hcount h). lia.
  - done.
Qed.

(** A managed asset without consumers enters the registry. *)
Lemma Inv_put_new am key m' :
  Inv am →
  assets am !! key = None →
  locationAgrees m' →
  ManagedAsset.consumers m' = [] →
  Inv (putManagedAsset am key m').
Proof.
  intros [H1 H2 H3 H4] Hm Hloc Hcs. split; simpl.
  - by apply map_Forall_insert_2.
  - apply map_Forall_insert_2; [|done]. rewrite Hcs. constructor.
  - intros h. unfold refs. simpl. rewrite total_insert_None by done.
    rewrite Hcs, refsIn_nil. apply H3.
  - done.
Qed.

(** A managed asset without consumers leaves the registry. *)
Lemma Inv_delete am key m :
  Inv am →
  assets am !! key = Some m →
  ManagedAsset.consumers m = [] →
  Inv (set_assets am (delete key (assets am))).
Proof.
  intros [H1 H2 H3 H4] Hm Hcs. split; simpl.
  - by apply map_Forall_delete.
  - by apply map_Forall_delete.
  - intros h. unfold refs. simpl.
    pose proof (total_delete (λ m, refsIn h (ManagedAsset.consumers m)) _ key m Hm) as Ht.
    simpl in Ht. rewrite Hcs, refsIn_nil in Ht. specialize (H3 h). unfold refs in H3. lia.
  - done.
Qed.

(** The managed asset under [key] is replaced by one whose consumers hold
    the same request handlers. *)
Lemma Inv_put_same am key m m' :
  Inv am →
  assets am !! key = Some m →
  locationAgrees m' →
  Forall resultAgrees (ManagedAsset.consumers m') →
  (∀ h, refsIn h (ManagedAsset.consumers m') = refsIn h (ManagedAsset.consumers m)) →
  Inv (putManagedAsset am key m').
Proof.
  intros HI Hm Hloc Hres Hrefs.
  apply (Inv_put am _ key m m'); try done.
  - by destruct HI.
  - intros h. rewrite Hrefs. simpl. lia.
Qed.

Lemma Inv_lookup_location am key m :
  Inv am → assets am !! key = Some m → locationAgrees m.
Proof. intros [H1 _ _ _] Hm. by apply (H1 key m). Qed.

Lemma Inv_lookup_result am key m :
  Inv am → assets am !! key = Some m → Forall resultAgrees (ManagedAsset.consumers m).
Proof. intros [_ H2 _ _] Hm. by apply (H2 key m). Qed.

(** * [getOrCreateManagedAsset] *)

Lemma locationAgrees_create : locationAgrees ManagedAsset.create.
Proof. split; simpl; [done|]. by intros [|]. Qed.

Lemma getOrCreateManagedAsset_lookup am key :
  assets (getOrCreateManagedAsset am key).2 !! key = Some (getOrCreateManagedAsset am key).1.
Proof.
  unfold getOrCreateManagedAsset, getManagedAsset.
  destruct (assets am !! key) eqn:Hm; simpl; [done|]. apply lookup_insert_eq.
Qed.

Lemma getOrCreateManagedAsset_Inv am key :
  Inv am → Inv (getOrCreateManagedAsset am key).2.
Proof.
  intros HI. unfold getOrCreateManagedAsset, getManagedAsset.
  destruct (assets am !! key) eqn:Hm; simpl; [done|].
  apply Inv_put_new; try done. apply locationAgrees_create.
Qed.

Lemma getOrCreateManagedAsset_frame am key :
  let am' := (getOrCreateManagedAsset am key).2 in
  requestHandlers am' = requestHandlers am
  ∧ pendingLoadRequests am' = pendingLoadRequests am
  ∧ pendingLoadRequestsScheduled am' = pendingLoadRequestsScheduled am
  ∧ currentTransaction am' = currentTransaction am
  ∧ trace am' = trace am
  ∧ control am' = control am.
Proof.
  unfold getOrCreateManagedAsset. by destruct (getManagedAsset am key).
Qed.

(** * The transaction queue *)

Lemma scheduleAssetUpdateInTransaction_frame am key :
  let am' := scheduleAssetUpdateInTransaction am key in
  assets am' = assets am
  ∧ requestHandlers am' = requestHandlers am
  ∧ pendingLoadRequests am' = pendingLoadRequests am
  ∧ pendingLoadRequestsScheduled am' = pendingLoadRequestsScheduled am
  ∧ trace am' = trace am
  ∧ control am' = control am.
Proof. unfold scheduleAssetUpdateInTransaction. by destruct (currentTransaction am). Qed.

Lemma scheduleAssetUpdateInTransaction_Inv am key :
  Inv am → Inv (scheduleAssetUpdateInTransaction am key).
Proof.
  destruct (scheduleAssetUpdateInTransaction_frame am key) as (? & ? & ? & _).
  by apply Inv_frame.
Qed.

(** * The consumer selected by [getNextConsumerToUpdate] *)

Lemma getNextConsumerToUpdateFrom_lookup cs i0 cur hasMore j c hasMore' :
  getNextConsumerToUpdateFrom cs i0 cur hasMore = (Some (j, c), hasMore') →
  cur = Some (j, c) ∨ ((i0 ≤ j)%nat ∧ cs !! (j - i0)%nat = Some c).
Proof.
  revert i0 cur hasMore.
  induction cs as [|a cs IH]; intros i0 cur hasMore Hget; simpl in Hget.
  { left. congruence. }
  assert (Hshift : ∀ cur' hm,
             getNextConsumerToUpdateFrom cs (S i0) cur' hm = (Some (j, c), hasMore') →
             cur' = Some (j, c) ∨ ((i0 ≤ j)%nat ∧ (a :: cs) !! (j - i0)%nat = Some c)).
  { intros cur' hm Hrec. destruct (IH _ _ _ Hrec) as [?|[Hle Hl]]; [by left|right].
    split; [lia|]. replace (j - i0)%nat with (S (j - S i0)) by lia. done. }
  assert (Hhere : (i0 ≤ i0)%nat ∧ (a :: cs) !! (i0 - i0)%nat = Some a).
  { split; [lia|]. by rewrite Nat.sub_diag. }
  destruct (AssetConsumer.getObserver a) as [o|] eqn:Ho.
  - destruct (AssetConsumer.notified a).
    { destruct (Hshift _ _ Hget) as [?|?]; auto. }
    destruct (AssetConsumer.getState a);
      try (destruct (Hshift _ _ Hget) as [?|?]; by auto).
    all: destruct cur as [[j0 sel]|];
      [ destruct (AssetConsumer.getObserver sel); simplify_eq; by auto
      | destruct (Hshift _ _ Hget) as [?|?]; simplify_eq; by auto ].
  - destruct cur as [[j0 sel]|].
    { destruct (Hshift _ _ Hget) as [?|?]; auto. }
    destruct (AssetConsumer.notified a).
    { destruct (Hshift _ _ Hget) as [?|?]; simplify_eq; auto. }
    destruct (AssetConsumer.getState a);
      try (destruct (Hshift _ _ Hget) as [?|?]; simplify_eq; by auto).
    all: simplify_eq; by auto.
Qed.

Lemma getNextConsumerToUpdate_lookup m hasMore i c hasMore' :
  getNextConsumerToUpdate m hasMore = (Some (i, c), hasMore') →
  ManagedAsset.consumers m !! i = Some c.
Proof.
  intros Hget. apply getNextConsumerToUpdateFrom_lookup in Hget as [?|[_ Hl]]; [done|].
  by rewrite Nat.sub_0_r in Hl.
Qed.

(** * Steps that touch one consumer *)

Lemma held_one am key m i c h :
  countsCover am → assets am !! key = Some m → ManagedAsset.consumers m !! i = Some c →
  one (AssetConsumer.getAssetLoaderCompletion c = Some h
       ∧ (h < length (requestHandlers am))%nat)
  = if holds h c then 1 else 0.
Proof.
  intros Hc Hm Hi. unfold one, holds.
  destruct (decide (AssetConsumer.getAssetLoaderCompletion c = Some h)) as [Hh|Hh].
  - rewrite bool_decide_eq_true_2 by done.
    destruct (countsCover_held am key m i c h Hc Hm Hi Hh) as [_ Hlt].
    by rewrite decide_True.
  - rewrite bool_decide_eq_false_2 by done. rewrite decide_False; [done|]. by intros [? _].
Qed.

Lemma removeAssetConsumer_Inv am key m i c :
  Inv am → assets am !! key = Some m → ManagedAsset.consumers m !! i = Some c →
  Inv (removeAssetConsumer am key m i c).
Proof.
  intros HI Hm Hi. unfold removeAssetConsumer.
  set (c' := AssetConsumer.setLoadedAsset
               (AssetConsumer.setState c AssetConsumerStateRemoved) Result.Empty).
  destruct (updateConsumerRequestHandler am c' None) as [c1 am1] eqn:Hu.
  pose proof (updateConsumerRequestHandler_frame am c' None) as Hf.
  pose proof (updateConsumerRequestHandler_count am c' None) as Hcnt.
  pose proof (updateConsumerRequestHandler_pendingSound am c' None) as Hp.
  rewrite Hu in Hf, Hcnt, Hp. simpl in Hf, Hcnt, Hp.
  destruct Hf as (Ha & Hlen & _).
  apply (Inv_put am _ key m (ManagedAsset.removeConsumer m i)); try done.
  - simpl. by rewrite Ha.
  - apply (Inv_lookup_location am key m HI Hm).
  - simpl. apply Forall_delete. apply (Inv_lookup_result am key m HI Hm).
  - apply (pendingSound_frame am1); [done..|].
    apply Hp; [by destruct HI|by apply countsCover_nonneg; destruct HI|].
    intros h Hh. eapply (countsCover_held am key m i c h); eauto. by destruct HI.
  - intros h. simpl. rewrite Hcnt.
    change (AssetConsumer.getAssetLoaderCompletion c')
      with (AssetConsumer.getAssetLoaderCompletion c).
    rewrite (held_one am key m i c h) by (done || by destruct HI).
    pose proof (refsIn_delete h _ i c Hi).
    unfold one at 1. rewrite decide_False by (by intros [? _]).
    destruct (holds h c); lia.
Qed.

Lemma resultAgrees_setNotified c b : resultAgrees c → resultAgrees (AssetConsumer.setNotified c b).
Proof. done. Qed.

Lemma resultAgrees_setAssetLoaderCompletion c r :
  resultAgrees c → resultAgrees (AssetConsumer.setAssetLoaderCompletion c r).
Proof. done. Qed.

(** The consumer at position [i] is replaced by one that holds the same
    request handler. *)
Lemma putConsumer_Inv am key m i c c' :
  Inv am → assets am !! key = Some m → ManagedAsset.consumers m !! i = Some c →
  AssetConsumer.getAssetLoaderCompletion c' = AssetConsumer.getAssetLoaderCompletion c →
  resultAgrees c' →
  Inv (putConsumer am key m i c').
Proof.
  intros HI Hm Hi Hh Hres. unfold putConsumer.
  apply (Inv_put_same am key m); try done.
  - apply (Inv_lookup_location am key m HI Hm).
  - simpl. apply Forall_insert; [|done]. apply (Inv_lookup_result am key m HI Hm).
  - intros h. simpl. pose proof (refsIn_insert h _ i c c' Hi) as Hr.
    unfold holds in Hr. rewrite Hh in Hr. lia.
Qed.

Lemma notifyAssetConsumer_Inv am key m i c loadedAsset error am' :
  Inv am → assets am !! key = Some m → ManagedAsset.consumers m !! i = Some c →
  notifyAssetConsumer am key m i c loadedAsset error = Done am' →
  Inv am'.
Proof.
  intros HI Hm Hi. unfold notifyAssetConsumer. simpl.
  destruct (AssetConsumer.getObserver c); [|done]. intros [= <-].
  apply (Inv_frame (putConsumer am key m i (AssetConsumer.setNotified c true))); try done.
  apply (putConsumer_Inv am key m i c); try done.
  apply resultAgrees_setNotified.
  pose proof (Inv_lookup_result am key m HI Hm) as HF.
  rewrite Forall_lookup in HF. by apply (HF i).
Qed.

Lemma onConsumerLoad_spec c result c' :
  onConsumerLoad c result = Done c' →
  AssetConsumer.getAssetLoaderCompletion c' = AssetConsumer.getAssetLoaderCompletion c
  ∧ AssetConsumer.getObserver c' = AssetConsumer.getObserver c
  ∧ AssetConsumer.notified c' = false
  ∧ (AssetConsumer.getState c' = AssetConsumerStateLoaded
     ∨ AssetConsumer.getState c' = AssetConsumerStateFailed)
  ∧ resultAgrees c'.
Proof.
  unfold onConsumerLoad. destruct result as [|[a|]|e]; intros [= <-]; simpl;
    unfold resultAgrees; simpl; naive_solver.
Qed.

Lemma findReusableRequest_valid handlers cs w h data ot r :
  findReusableRequest handlers cs w h data ot = Some r → (r < length handlers)%nat.
Proof.
  induction cs as [|c cs IH]; simpl; [done|].
  destruct (AssetConsumer.getAssetLoaderCompletion c) as [h0|]; [|done].
  destruct (handlers !! h0) as [rh|] eqn:Hr; [|done].
  destruct (_ && _); [|done].
  intros [= <-]. by eapply lookup_lt_Some.
Qed.

(** * Attaching a consumer to a request handler *)

Lemma consumersCountOf_app_new handlers r h :
  AssetLoaderRequestHandler.consumersCount r = 0 →
  consumersCountOf (handlers ++ [r]) h = consumersCountOf handlers h.
Proof.
  intros Hr. unfold consumersCountOf.
  destruct (decide (h < length handlers)%nat).
  - by rewrite lookup_app_l.
  - assert (Hnone : handlers !! h = None) by (apply lookup_ge_None_2; lia).
    rewrite Hnone. rewrite lookup_app_r by lia.
    destruct (h - length handlers)%nat as [|k]; simpl; [by rewrite Hr|done].
Qed.

Lemma Inv_newHandler am r :
  Inv am →
  AssetLoaderRequestHandler.consumersCount r = 0 →
  Inv (set_requestHandlers am (requestHandlers am ++ [r])).
Proof.
  intros [H1 H2 H3 [H4 H5]] Hr. split; try done.
  - intros h. unfold refs. simpl. rewrite consumersCountOf_app_new by done. apply H3.
  - split.
    + intros h rh. simpl. intros Hl Hc Hin. specialize (H5 h Hin).
      rewrite lookup_app_l in Hl by done. by apply (H4 h rh).
    + intros h Hin. simpl. rewrite length_app. specialize (H5 h Hin). simpl. lia.
Qed.

(** The consumer at position [i] takes the request handler [h]; afterwards
    its other fields and the other fields of the managed asset may have
    changed as well. *)
Lemma attach_Inv am key m i c cL h c2 am1 cF m' am' :
  Inv am → assets am !! key = Some m → ManagedAsset.consumers m !! i = Some c →
  AssetConsumer.getAssetLoaderCompletion cL = AssetConsumer.getAssetLoaderCompletion c →
  (h < length (requestHandlers am))%nat →
  updateConsumerRequestHandler am cL (Some h) = (c2, am1) →
  AssetConsumer.getAssetLoaderCompletion cF = Some h →
  resultAgrees cF →
  locationAgrees m' →
  ManagedAsset.consumers m' = <[i := cF]> (ManagedAsset.consumers m) →
  assets am' = <[key := m']> (assets am1) →
  requestHandlers am' = requestHandlers am1 →
  pendingLoadRequests am' = pendingLoadRequests am1 →
  Inv am'.
Proof.
  intros HI Hm Hi HcL Hvalid Hu HcF Hres Hloc Hcs Ha Hh Hp.
  pose proof (updateConsumerRequestHandler_frame am cL (Some h)) as Hf.
  pose proof (updateConsumerRequestHandler_count am cL (Some h)) as Hcnt.
  pose proof (updateConsumerRequestHandler_pendingSound am cL (Some h)) as Hps.
  rewrite Hu in Hf, Hcnt, Hps. simpl in Hf, Hcnt, Hps.
  destruct Hf as (Ha1 & Hlen & _).
  apply (Inv_put am am' key m m'); try done.
  - by rewrite Ha, Ha1.
  - rewrite Hcs. apply Forall_insert; [|done]. apply (Inv_lookup_result am key m HI Hm).
  - apply (pendingSound_frame am1); [done..|].
    apply Hps; [by destruct HI|by apply countsCover_nonneg; destruct HI|].
    intros h' Hh'. rewrite HcL in Hh'.
    eapply (countsCover_held am key m i c h'); eauto. by destruct HI.
  - intros h'. rewrite Hh, Hcnt, Hcs, HcL.
    rewrite (held_one am key m i c h') by (done || by destruct HI).
    pose proof (refsIn_insert h' _ i c cF Hi) as Hr.
    unfold holds at 2 in Hr. rewrite HcF in Hr.
    unfold one. destruct (decide (h = h')) as [->|Hne].
    + rewrite bool_decide_eq_true_2 in Hr by done. rewrite decide_True by done.
      destruct (holds h' c); lia.
    + rewrite bool_decide_eq_false_2 in Hr by congruence.
      rewrite decide_False by (intros [? _]; congruence).
      destruct (holds h' c); lia.
Qed.

Lemma locationAgrees_setConsumers m cs :
  locationAgrees m → locationAgrees (ManagedAsset.setConsumers m cs).
Proof. done. Qed.

Lemma locationAgrees_getPayloadCacheForAssetLoader m loader :
  locationAgrees m → locationAgrees (ManagedAsset.getPayloadCacheForAssetLoader m loader).
Proof. unfold ManagedAsset.getPayloadCacheForAssetLoader. by case_match. Qed.

Lemma getPayloadCacheForAssetLoader_consumers m loader :
  ManagedAsset.consumers (ManagedAsset.getPayloadCacheForAssetLoader m loader)
  = ManagedAsset.consumers m.
Proof. unfold ManagedAsset.getPayloadCacheForAssetLoader. by case_match. Qed.

Lemma loadAssetForConsumerAtResolvedLocation_Inv env am key m i c location am' :
  Inv am → assets am !! key = Some m → ManagedAsset.consumers m !! i = Some c →
  loadAssetForConsumerAtResolvedLocation env am key m i c location = Done am' →
  Inv am'.
Proof.
  intros HI Hm Hi. unfold loadAssetForConsumerAtResolvedLocation.
  pose proof (Inv_lookup_location am key m HI Hm) as Hloc.
  destruct (resolveAssetLoader env _ _) as [loader|].
  2:{ intros [= <-]. apply scheduleAssetUpdateInTransaction_Inv.
      by apply (putConsumer_Inv am key m i c). }
  set (cL := AssetConsumer.setState c AssetConsumerStateLoading).
  set (m1 := ManagedAsset.setConsumers m (<[i := cL]> (ManagedAsset.consumers m))).
  destruct (if canReuseLoadedAssets loader then _ else None) as [h|] eqn:Hreuse.
  - assert (Hvalid : (h < length (requestHandlers am))%nat).
    { destruct (canReuseLoadedAssets loader); [|done].
      by eapply findReusableRequest_valid. }
    destruct (updateConsumerRequestHandler am cL (Some h)) as [c2 am1] eqn:Hu.
    assert (Hc2 : c2 = AssetConsumer.setAssetLoaderCompletion cL (Some h)).
    { by rewrite <-(updateConsumerRequestHandler_consumer am cL (Some h)), Hu. }
    destruct (negb _).
    + destruct (onConsumerLoad c2 _) as [c3|] eqn:Hload; [|done]. simpl.
      intros [= <-]. apply onConsumerLoad_spec in Hload as (Hh3 & _ & _ & _ & Hres3).
      apply scheduleAssetUpdateInTransaction_Inv.
      eapply (attach_Inv am key m i c cL h c2 am1 c3
                (ManagedAsset.setConsumers m1 (<[i := c3]> (ManagedAsset.consumers m1))));
        try done.
      * by rewrite Hh3, Hc2.
      * unfold m1. simpl. by rewrite list_insert_insert_eq.
    + intros [= <-].
      eapply (attach_Inv am key m i c cL h c2 am1 c2
                (ManagedAsset.setConsumers m1 (<[i := c2]> (ManagedAsset.consumers m1))));
        try done.
      * by rewrite Hc2.
      * by rewrite Hc2.
      * unfold m1. simpl. by rewrite list_insert_insert_eq.
  - set (r := AssetLoaderRequestHandler.create _ _ _ _ _ _ _).
    set (am0 := set_requestHandlers am (requestHandlers am ++ [r])).
    destruct (updateConsumerRequestHandler am0 cL _) as [c2 am1] eqn:Hu.
    assert (Hc2 : c2 = AssetConsumer.setAssetLoaderCompletion cL
                         (Some (length (requestHandlers am)))).
    { by rewrite <-(updateConsumerRequestHandler_consumer am0 cL _), Hu. }
    intros [= <-].
    eapply (attach_Inv am0 key m i c cL _ c2 am1 c2
              (ManagedAsset.setConsumers (ManagedAsset.getPayloadCacheForAssetLoader m1 loader)
                 (<[i := c2]> (ManagedAsset.consumers
                                 (ManagedAsset.getPayloadCacheForAssetLoader m1 loader)))));
      try done.
    + by apply Inv_newHandler.
    + simpl. rewrite length_app. simpl. lia.
    + by rewrite Hc2.
    + by rewrite Hc2.
    + by apply locationAgrees_setConsumers, locationAgrees_getPayloadCacheForAssetLoader.
    + simpl. rewrite getPayloadCacheForAssetLoader_consumers. unfold m1. simpl.
      by rewrite list_insert_insert_eq.
Qed.

Lemma doUpdateAssetConsumer_Inv env am key m i c am' :
  Inv am → assets am !! key = Some m → ManagedAsset.consumers m !! i = Some c →
  doUpdateAssetConsumer env am key m i c = Done am' →
  Inv am'.
Proof.
  intros HI Hm Hi. unfold doUpdateAssetConsumer.
  destruct (AssetConsumer.getObserver c) as [o|].
  2:{ intros [= <-]. by apply removeAssetConsumer_Inv. }
  destruct (AssetConsumer.getState c) eqn:Hst.
  - destruct (_ || _).
    + destruct (Result.error _) as [e|]; [|done]. simpl. intros [= <-].
      apply scheduleAssetUpdateInTransaction_Inv.
      by apply (putConsumer_Inv am key m i c).
    + destruct (Result.value _) as [location|]; [|done]. simpl.
      by apply loadAssetForConsumerAtResolvedLocation_Inv.
  - done.
  - destruct (Result.value _) as [loaded|]; [|done]. simpl.
    by apply notifyAssetConsumer_Inv.
  - destruct (Result.error _) as [e|]; [|done]. simpl.
    by apply notifyAssetConsumer_Inv.
  - by intros [= <-].
Qed.

Lemma updateAssetConsumers_Inv env am key m am' :
  Inv am → assets am !! key = Some m →
  updateAssetConsumers env am key m = Done am' →
  Inv am'.
Proof.
  intros HI Hm. unfold updateAssetConsumers.
  destruct (SC_ASSERT _); [|done]. simpl.
  destruct (getNextConsumerToUpdate m false) as [[[i c]|] hasMore] eqn:Hnext.
  2:{ by intros [= <-]. }
  apply getNextConsumerToUpdate_lookup in Hnext.
  apply doUpdateAssetConsumer_Inv; [| |done].
  - destruct hasMore; [by apply scheduleAssetUpdateInTransaction_Inv|done].
  - destruct hasMore; [|done].
    by destruct (scheduleAssetUpdateInTransaction_frame am key) as (-> & _).
Qed.

(** * Resolving the location *)

Lemma updateAssetLocation_spec m location m' :
  updateAssetLocation m location = Done m' →
  ManagedAsset.getState m = AssetStateResolvingLocation
  ∧ ManagedAsset.consumers m' = ManagedAsset.consumers m
  ∧ ManagedAsset.getResolveId m' = ManagedAsset.getResolveId m
  ∧ ManagedAsset.getObservable m' = ManagedAsset.getObservable m
  ∧ ManagedAsset.getResolvedAssetLocation m' = location
  ∧ match location with
    | Result.Ok _ => ManagedAsset.getState m' = AssetStateReady
    | Result.Err _ => ManagedAsset.getState m' = AssetStateFailedPermanently
    | Result.Empty => False
    end.
Proof.
  unfold updateAssetLocation.
  destruct (decide (ManagedAsset.getState m = AssetStateResolvingLocation)) as [Hs|Hs].
  - rewrite bool_decide_eq_true_2 by done. simpl.
    destruct location; [done|..]; by intros [= <-].
  - by rewrite bool_decide_eq_false_2.
Qed.

Lemma updateAssetLocation_locationAgrees m location m' :
  updateAssetLocation m location = Done m' → locationAgrees m'.
Proof.
  intros (_ & _ & _ & _ & Hl & Hs)%updateAssetLocation_spec.
  unfold locationAgrees. rewrite Hl.
  destruct location; [done|..]; rewrite Hs; split; try done; by intros [|].
Qed.

Lemma resolveAssetLocation_Inv am key m am' :
  Inv am → assets am !! key = Some m →
  resolveAssetLocation am key m = Done am' →
  Inv am'.
Proof.
  intros HI Hm. unfold resolveAssetLocation.
  destruct (SC_ASSERT _); [|done]. simpl.
  set (m1 := ManagedAsset.setResolveId
               (ManagedAsset.setState m AssetStateResolvingLocation) _).
  set (am1 := set_assetResolveIdSequence am _).
  assert (HI1 : Inv am1) by (by apply (Inv_frame am)).
  assert (Hput : ∀ m2, locationAgrees m2 →
            ManagedAsset.consumers m2 = ManagedAsset.consumers m →
            Inv (putManagedAsset am1 key m2)).
  { intros m2 Hloc Hcs. apply (Inv_put_same am1 key m); try done.
    - rewrite Hcs. apply (Inv_lookup_result am key m HI Hm).
    - intros h. by rewrite Hcs. }
  assert (Hloc1 : locationAgrees m1).
  { split; simpl; [done|]. by intros [|]. }
  destruct (AssetKey.getBundle key) as [bundle|].
  - destruct (hasRemoteAssets bundle); intros [= <-].
    + apply (Inv_frame (putManagedAsset am1 key m1)); try done. by apply Hput.
    + apply (Inv_frame (putManagedAsset am1 key m1)); try done. by apply Hput.
  - intros [= <-].
    apply scheduleAssetUpdateInTransaction_Inv. apply Hput; [|done].
    split; simpl; [done|]. by intros [|].
Qed.

(** * One round of the drain *)

Lemma hasConsumers_false m : ManagedAsset.hasConsumers m = false → ManagedAsset.consumers m = [].
Proof. unfold ManagedAsset.hasConsumers. by destruct (ManagedAsset.consumers m). Qed.

Lemma removeManagedAssetIfNeeded_false env am key m am' :
  removeManagedAssetIfNeeded env am key m = (false, am') → am' = am.
Proof.
  unfold removeManagedAssetIfNeeded. destruct (_ || _); [by intros [= <-]|].
  destruct (assetBytesStore _); [|done]. by destruct (isAssetBytesUrl _ _).
Qed.

Lemma removeManagedAssetIfNeeded_true env am key m am' :
  removeManagedAssetIfNeeded env am key m = (true, am') →
  ManagedAsset.consumers m = []
  ∧ ManagedAsset.getObservable m = None
  ∧ (AssetKey.isURL key = true ∨ removeUnusedLocalAssets am = true)
  ∧ assets am' = delete key (assets am)
  ∧ requestHandlers am' = requestHandlers am
  ∧ pendingLoadRequests am' = pendingLoadRequests am
  ∧ pendingLoadRequestsScheduled am' = pendingLoadRequestsScheduled am
  ∧ currentTransaction am' = currentTransaction am
  ∧ trace am' = trace am
  ∧ control am' = control am.
Proof.
  unfold removeManagedAssetIfNeeded.
  destruct (_ || _) eqn:Hcond; [done|].
  apply orb_false_iff in Hcond as [[Hk Hc]%orb_false_iff Ho].
  apply bool_decide_eq_false in Ho. apply hasConsumers_false in Hc.
  intros Heq.
  assert (Hobs : ManagedAsset.getObservable m = None).
  { destruct (ManagedAsset.getObservable m); [|done]. exfalso. apply Ho. eauto. }
  assert (Hkey : AssetKey.isURL key = true ∨ removeUnusedLocalAssets am = true).
  { destruct (AssetKey.isURL key); [by left|]. destruct (removeUnusedLocalAssets am); [by right|done]. }
  simpl in Heq. destruct (assetBytesStore am);
    [destruct (isAssetBytesUrl _ _)|]; simplify_eq; done.
Qed.

Lemma updateAsset_Inv env am key am' :
  Inv am → updateAsset env am key = Done am' → Inv am'.
Proof.
  intros HI. unfold updateAsset, getManagedAsset.
  destruct (assets am !! key) as [m|] eqn:Hm; [|by intros [= <-]].
  destruct (removeManagedAssetIfNeeded env am key m) as [[|] am1] eqn:Hrem.
  - apply removeManagedAssetIfNeeded_true in Hrem
      as (Hcs & _ & _ & Ha & Hh & Hp & _).
    assert (HI1 : Inv am1).
    { apply (Inv_frame (set_assets am (delete key (assets am)))); try done.
      by apply (Inv_delete am key m). }
    simpl. destruct (listener am1); intros [= <-]; [|done].
    by apply (Inv_frame am1).
  - apply removeManagedAssetIfNeeded_false in Hrem as ->.
    match goal with |- context [mbind _ ?x] => destruct x as [am2|] eqn:Hstep end; [|done].
    simpl. assert (HI2 : Inv am2).
    { destruct (ManagedAsset.getState m).
      - destruct (ManagedAsset.hasConsumers m); [|by simplify_eq].
        by eapply resolveAssetLocation_Inv.
      - by simplify_eq.
      - by eapply updateAssetConsumers_Inv.
      - by eapply updateAssetConsumers_Inv.
      - by eapply updateAssetConsumers_Inv. }
    destruct (listener am2); intros [= <-]; [|done].
    by apply (Inv_frame am2).
Qed.

Lemma drainUpdates_Inv fuel env am am' :
  Inv am → drainUpdates fuel env am = Done am' → Inv am'.
Proof.
  revert am. induction fuel as [|fuel IH]; intros am HI; simpl.
  - destruct (currentTransaction am) as [tx|]; [|by intros [= <-]].
    destruct (AssetsManagerTransaction.dequeueUpdate tx) as [[]|]; [done|by intros [= <-]].
  - destruct (currentTransaction am) as [tx|]; [|by intros [= <-]].
    destruct (AssetsManagerTransaction.dequeueUpdate tx) as [[update rest]|];
      [|by intros [= <-]].
    destruct (updateAsset env _ update) as [am1|] eqn:Hup; [|done]. simpl.
    apply IH. eapply updateAsset_Inv; [|done]. by apply (Inv_frame am).
Qed.

Lemma performUpdates_Inv fuel env am am' :
  Inv am → performUpdates fuel env am = Done am' → Inv am'.
Proof.
  intros HI. unfold performUpdates.
  destruct (SC_ASSERT _); [|done]. simpl.
  destruct (drainUpdates fuel env _) as [am1|] eqn:Hd; [|done]. simpl.
  apply drainUpdates_Inv in Hd; [|by apply (Inv_frame am)].
  destruct (listener _); intros [= <-]; by apply (Inv_frame am1).
Qed.

Lemma scheduleAssetUpdate_Inv fuel env am key am' :
  Inv am → scheduleAssetUpdate fuel env am key = Done am' → Inv am'.
Proof.
  intros HI. unfold scheduleAssetUpdate.
  destruct (currentTransaction am) eqn:Htx.
  { intros [= <-]. by apply scheduleAssetUpdateInTransaction_Inv. }
  destruct (_ && _).
  - destruct (currentThreadIsMainThread env).
    + apply performUpdates_Inv. by apply (Inv_frame am).
    + intros [= <-]. by apply (Inv_frame am).
  - intros [= <-]. by apply (Inv_frame am).
Qed.

(** * The loop of [setResolvedAssetLocation] *)

Lemma refsIn_resetConsumer h cs : refsIn h (resetConsumer <$> cs) = 0%nat.
Proof.
  induction cs as [|c cs IH]; [done|]. rewrite fmap_cons, refsIn_cons, IH. done.
Qed.

Lemma resetConsumers_cons am c cs :
  resetConsumers am (c :: cs) =
  let '(c1, am1) :=
    updateConsumerRequestHandler am
      (AssetConsumer.setNotified
         (AssetConsumer.setState (AssetConsumer.setLoadedAsset c Result.Empty)
            AssetConsumerStateInitial) false) None in
  let '(rest, am2) := resetConsumers am1 cs in
  (c1 :: rest, am2).
Proof. done. Qed.

Lemma resetConsumers_spec am cs :
  pendingSound am →
  (∀ h, Z.of_nat (refsIn h cs) ≤ consumersCountOf (requestHandlers am) h) →
  let am' := (resetConsumers am cs).2 in
  (resetConsumers am cs).1 = resetConsumer <$> cs
  ∧ pendingSound am'
  ∧ (∀ h, consumersCountOf (requestHandlers am') h
          = consumersCountOf (requestHandlers am) h - Z.of_nat (refsIn h cs))
  ∧ assets am' = assets am
  ∧ length (requestHandlers am') = length (requestHandlers am)
  ∧ currentTransaction am' = currentTransaction am
  ∧ control am' = control am.
Proof.
  revert am. induction cs as [|c cs IH]; intros am Hps Hcover.
  { simpl. split_and!; try done. intros h. unfold refsIn. simpl. lia. }
  rewrite resetConsumers_cons.
  set (c0 := AssetConsumer.setNotified
               (AssetConsumer.setState (AssetConsumer.setLoadedAsset c Result.Empty)
                  AssetConsumerStateInitial) false).
  pose proof (updateConsumerRequestHandler_frame am c0 None) as Hf.
  pose proof (updateConsumerRequestHandler_count am c0 None) as Hcnt.
  pose proof (updateConsumerRequestHandler_pendingSound am c0 None Hps) as Hp.
  change (AssetConsumer.getAssetLoaderCompletion c0)
    with (AssetConsumer.getAssetLoaderCompletion c) in *.
  assert (Hone : ∀ h, one (AssetConsumer.getAssetLoaderCompletion c = Some h
                           ∧ (h < length (requestHandlers am))%nat)
                      = if holds h c then 1 else 0).
  { intros h. unfold one, holds. specialize (Hcover h). rewrite refsIn_cons in Hcover.
    unfold holds in Hcover.
    destruct (decide (AssetConsumer.getAssetLoaderCompletion c = Some h)) as [Hh|Hh].
    - rewrite bool_decide_eq_true_2 in * by done.
      rewrite decide_True; [done|]. split; [done|].
      unfold consumersCountOf in Hcover.
      destruct (requestHandlers am !! h) eqn:Hr; [by eapply lookup_lt_Some|lia].
    - rewrite bool_decide_eq_false_2 by done. rewrite decide_False; [done|]. by intros [? _]. }
  destruct (updateConsumerRequestHandler am c0 None) as [c1 am1] eqn:Hu.
  simpl in Hf, Hcnt, Hp.
  assert (Hc1 : c1 = resetConsumer c).
  { pose proof (updateConsumerRequestHandler_consumer am c0 None) as Hc1.
    by rewrite Hu in Hc1. }
  assert (Hcnt1 : ∀ h, consumersCountOf (requestHandlers am1) h
                       = consumersCountOf (requestHandlers am) h
                         - (if holds h c then 1 else 0)).
  { intros h. rewrite Hcnt, Hone. unfold one. rewrite decide_False by (by intros [? _]). lia. }
  specialize (IH am1).
  destruct (resetConsumers am1 cs) as [cs' am'] eqn:Hrec. simpl in IH.
  destruct IH as (Hcs' & Hps' & Hcnt' & Ha' & Hlen' & Htx' & Hctl').
  - apply Hp.
    + intros h. specialize (Hcover h). lia.
    + intros h Hh. specialize (Hcover h). rewrite refsIn_cons in Hcover.
      unfold holds in Hcover. rewrite bool_decide_eq_true_2 in Hcover by done. lia.
  - intros h. rewrite Hcnt1. specialize (Hcover h). rewrite refsIn_cons in Hcover.
    destruct (holds h c); lia.
  - simpl. destruct Hf as (Ha & Hlen & Htx & _ & _ & Hctl).
    split_and!.
    + by rewrite Hcs', Hc1.
    + done.
    + intros h. rewrite Hcnt', Hcnt1, refsIn_cons. destruct (holds h c); lia.
    + by rewrite Ha'.
    + by rewrite Hlen'.
    + by rewrite Htx'.
    + by rewrite Hctl'.
Qed.

Lemma resultAgrees_resetConsumer c : resultAgrees (resetConsumer c).
Proof. done. Qed.

(** * Entry points *)

Lemma lockFreeGetAsset_Inv am key : Inv am → Inv (lockFreeGetAsset am key).2.
Proof.
  intros HI. unfold lockFreeGetAsset.
  pose proof (getOrCreateManagedAsset_Inv am key HI) as HI1.
  pose proof (getOrCreateManagedAsset_lookup am key) as Hm.
  destruct (getOrCreateManagedAsset am key) as [m am1]. simpl in *.
  destruct (ManagedAsset.getObservable m); [done|]. simpl.
  apply (Inv_put_same (set_observablesCreated am1 _) key m); try done.
  - by apply (Inv_frame am1).
  - apply (Inv_lookup_location am1 key m HI1 Hm).
  - apply (Inv_lookup_result am1 key m HI1 Hm).
Qed.

Lemma createAssetWithBytes_Inv am url : Inv am → Inv (createAssetWithBytes am url).2.
Proof.
  intros HI. unfold createAssetWithBytes. apply lockFreeGetAsset_Inv.
  destruct (assetBytesStore am); by apply (Inv_frame am).
Qed.

Lemma setResolvedAssetLocation_Inv fuel env am key location am' :
  Inv am → setResolvedAssetLocation fuel env am key location = Done am' → Inv am'.
Proof.
  intros HI. unfold setResolvedAssetLocation.
  pose proof (getOrCreateManagedAsset_Inv am key HI) as HI1.
  pose proof (getOrCreateManagedAsset_lookup am key) as Hm.
  destruct (getOrCreateManagedAsset am key) as [m am1]. simpl in HI1, Hm.
  destruct (if bool_decide (ManagedAsset.getState m = AssetStateReady)
            then _ else Done false) as [same|] eqn:Hsame; [|done].
  simpl. destruct same; [by intros [= <-]|].
  assert (Hset : ∀ cs am2,
            (if bool_decide (ManagedAsset.getState m = AssetStateReady)
             then resetConsumers am1 (ManagedAsset.consumers m)
             else (ManagedAsset.consumers m, am1)) = (cs, am2) →
            Inv (putManagedAsset am2 key
                   (ManagedAsset.setState
                      (ManagedAsset.setResolvedAssetLocation
                         (ManagedAsset.clearPayloadCache
                            (ManagedAsset.setResolveId (ManagedAsset.setConsumers m cs) 0))
                         (Result.Ok location))
                      AssetStateReady))).
  { intros cs am2 Hcs.
    assert (Hloc : ∀ m0, locationAgrees
              (ManagedAsset.setState
                 (ManagedAsset.setResolvedAssetLocation m0 (Result.Ok location))
                 AssetStateReady)).
    { intros m0. split; simpl; [done|]. by intros [|]. }
    destruct (bool_decide _).
    - pose proof (resetConsumers_spec am1 (ManagedAsset.consumers m)) as Hspec.
      rewrite Hcs in Hspec. simpl in Hspec.
      destruct Hspec as (-> & Hps & Hcnt & Ha & _).
      { by destruct HI1. }
      { intros h. destruct HI1 as [_ _ Hc _]. specialize (Hc h).
        pose proof (refs_lookup am1 key m h Hm). lia. }
      eapply (Inv_put am1 _ key m); try done.
      + simpl. by rewrite Ha.
      + simpl. apply Forall_fmap, Forall_true. intros c. apply resultAgrees_resetConsumer.
      + intros h. simpl. rewrite refsIn_resetConsumer, Hcnt. lia.
    - simplify_eq. apply (Inv_put_same am2 key m); try done.
      apply (Inv_lookup_result am2 key m HI1 Hm). }
  destruct (if bool_decide (ManagedAsset.getState m = AssetStateReady)
            then resetConsumers am1 (ManagedAsset.consumers m)
            else (ManagedAsset.consumers m, am1)) as [cs am2] eqn:Hcs.
  specialize (Hset cs am2 eq_refl).
  destruct (ManagedAsset.hasConsumers _).
  - by apply scheduleAssetUpdate_Inv.
  - by intros [= <-].
Qed.

Lemma addAssetLoadObserver_Inv fuel env am key observer context outputType w h data am' :
  Inv am →
  addAssetLoadObserver fuel env am key observer context outputType w h data = Done am' →
  Inv am'.
Proof.
  intros HI. unfold addAssetLoadObserver.
  pose proof (getOrCreateManagedAsset_Inv am key HI) as HI1.
  pose proof (getOrCreateManagedAsset_lookup am key) as Hm.
  destruct (getOrCreateManagedAsset am key) as [m am1]. simpl in HI1, Hm.
  apply scheduleAssetUpdate_Inv.
  pose proof (Inv_lookup_location am1 key m HI1 Hm) as Hloc.
  pose proof (Inv_lookup_result am1 key m HI1 Hm) as Hres.
  apply (Inv_put_same am1 key m); try done.
  - case_bool_decide as Hs; [|done]. split; simpl; [done|]. by intros [|].
  - assert (Hcs : ∀ m0 : ManagedAsset.t,
              ManagedAsset.consumers
                (if bool_decide (ManagedAsset.getState m0 = AssetStateFailedRetryable)
                 then ManagedAsset.setState m0 AssetStateInitial else m0)
              = ManagedAsset.consumers m0) by (intros; by case_bool_decide).
    rewrite Hcs. simpl. apply Forall_app. split; [done|]. by constructor.
  - intros h'.
    assert (Hcs : ∀ m0 : ManagedAsset.t,
              ManagedAsset.consumers
                (if bool_decide (ManagedAsset.getState m0 = AssetStateFailedRetryable)
                 then ManagedAsset.setState m0 AssetStateInitial else m0)
              = ManagedAsset.consumers m0) by (intros; by case_bool_decide).
    rewrite Hcs. simpl. rewrite refsIn_app, refsIn_cons, refsIn_nil. simpl. lia.
Qed.

Lemma clearFirstObserver_spec cs observer h :
  refsIn h (clearFirstObserver cs observer) = refsIn h cs
  ∧ (Forall resultAgrees cs → Forall resultAgrees (clearFirstObserver cs observer)).
Proof.
  induction cs as [|c cs [IH1 IH2]]; [done|]. simpl.
  destruct (bool_decide _).
  - split; [by rewrite !refsIn_cons|]. intros [? ?]%Forall_cons. by constructor.
  - split; [by rewrite !refsIn_cons, IH1|]. intros [? ?]%Forall_cons. constructor; auto.
Qed.

Lemma removeAssetLoadObserver_Inv fuel env am key observer am' :
  Inv am → removeAssetLoadObserver fuel env am key observer = Done am' → Inv am'.
Proof.
  intros HI. unfold removeAssetLoadObserver, getManagedAsset.
  destruct (assets am !! key) as [m|] eqn:Hm; [|by intros [= <-]].
  apply scheduleAssetUpdate_Inv.
  apply (Inv_put_same am key m); try done.
  - apply (Inv_lookup_location am key m HI Hm).
  - simpl. apply clearFirstObserver_spec; [exact 0%nat|].
    apply (Inv_lookup_result am key m HI Hm).
  - intros h. simpl. apply clearFirstObserver_spec.
Qed.

Lemma expireObservable_Inv am key : Inv am → Inv (expireObservable am key).
Proof.
  intros HI. unfold expireObservable, getManagedAsset.
  destruct (assets am !! key) as [m|] eqn:Hm; [|done].
  apply (Inv_put_same am key m); try done.
  - apply (Inv_lookup_location am key m HI Hm).
  - apply (Inv_lookup_result am key m HI Hm).
Qed.

Lemma onObservableDestroyed_Inv fuel env am key am' :
  Inv am → onObservableDestroyed fuel env am key = Done am' → Inv am'.
Proof.
  intros HI. unfold onObservableDestroyed.
  destruct (getManagedAsset am key); [|by intros [= <-]].
  by apply scheduleAssetUpdate_Inv.
Qed.

Lemma Inv_put_location am key m m' :
  Inv am → assets am !! key = Some m →
  locationAgrees m' → ManagedAsset.consumers m' = ManagedAsset.consumers m →
  Inv (putManagedAsset am key m').
Proof.
  intros HI Hm Hloc Hcs. apply (Inv_put_same am key m); try done.
  - rewrite Hcs. apply (Inv_lookup_result am key m HI Hm).
  - intros h. by rewrite Hcs.
Qed.

Lemma resolveLocalAssetLocationAndUpdate_Inv fuel env am key resolveId am' :
  Inv am → resolveLocalAssetLocationAndUpdate fuel env am key resolveId = Done am' → Inv am'.
Proof.
  intros HI. unfold resolveLocalAssetLocationAndUpdate, getManagedAsset.
  destruct (resolveLocalAssetLocation env key) as [location|]; [|done]. simpl.
  destruct (assets am !! key) as [m|] eqn:Hm; [|by intros [= <-]].
  destruct (bool_decide _); [by intros [= <-]|].
  destruct (updateAssetLocation m location) as [m'|] eqn:Hup; [|done]. simpl.
  apply scheduleAssetUpdate_Inv. apply (Inv_put_location am key m); try done.
  - by eapply updateAssetLocation_locationAgrees.
  - by apply updateAssetLocation_spec in Hup as (_ & -> & _).
Qed.

Lemma onLoadingRemoteResourcesCompleted_Inv fuel env am key result resolveId am' :
  Inv am →
  onLoadingRemoteResourcesCompleted fuel env am key result resolveId = Done am' →
  Inv am'.
Proof.
  intros HI. unfold onLoadingRemoteResourcesCompleted, getManagedAsset.
  destruct (resolveRemoteAssetLocation env key result) as [location|]; [|done]. simpl.
  destruct (assets am !! key) as [m|] eqn:Hm; [|by intros [= <-]].
  destruct (bool_decide _); [by intros [= <-]|].
  destruct (SC_ASSERT _); [|done]. simpl.
  match goal with |- context [mbind _ ?x] => destruct x as [m'|] eqn:Hup end; [|done].
  simpl. apply scheduleAssetUpdate_Inv.
  destruct (Result.success result).
  - apply (Inv_put_location am key m); try done.
    + by eapply updateAssetLocation_locationAgrees.
    + by apply updateAssetLocation_spec in Hup as (_ & -> & _).
  - destruct (Result.error result) as [e|]; [|done]. simpl in Hup. simplify_eq.
    by apply (Inv_put_location am key m).
Qed.

Lemma onLoadConsumers_spec cs request result cs' :
  onLoadConsumers cs request result = Done cs' →
  Forall2 (λ c c',
             if bool_decide (AssetConsumer.getAssetLoaderCompletion c = Some request)
             then onConsumerLoad c result = Done c'
             else c' = c) cs cs'.
Proof.
  revert cs'. induction cs as [|c cs IH]; intros cs'; simpl.
  { intros [= <-]. constructor. }
  destruct (bool_decide _) eqn:Hb.
  - destruct (onConsumerLoad c result) as [c1|] eqn:Hc; [|done]. simpl.
    destruct (onLoadConsumers cs request result) as [cs1|]; [|done]. simpl.
    intros [= <-]. constructor; [by rewrite Hb|by apply IH].
  - simpl. destruct (onLoadConsumers cs request result) as [cs1|]; [|done]. simpl.
    intros [= <-]. constructor; [by rewrite Hb|by apply IH].
Qed.

Lemma onLoadConsumers_Inv cs request result cs' h :
  onLoadConsumers cs request result = Done cs' →
  refsIn h cs' = refsIn h cs
  ∧ (Forall resultAgrees cs → Forall resultAgrees cs').
Proof.
  intros Hspec%onLoadConsumers_spec. induction Hspec as [|c c' cs cs' Hc _ [IH1 IH2]]; [done|].
  assert (AssetConsumer.getAssetLoaderCompletion c' = AssetConsumer.getAssetLoaderCompletion c
          ∧ (resultAgrees c → resultAgrees c')) as [Hh Hr].
  { destruct (bool_decide _); [|by subst].
    apply onConsumerLoad_spec in Hc as (? & _ & _ & _ & ?). done. }
  split.
  - rewrite !refsIn_cons, IH1. unfold holds. by rewrite Hh.
  - intros [? ?]%Forall_cons. constructor; auto.
Qed.

Lemma Inv_setLastLoadResult am h r result :
  Inv am → requestHandlers am !! h = Some r →
  Inv (putRequest am h (AssetLoaderRequestHandler.setLastLoadResult r result)).
Proof.
  intros [H1 H2 H3 [H4 H5]] Hr. split; try done.
  - intros h'. unfold refs. simpl. rewrite consumersCountOf_insert.
    case_decide as Hd; [|apply H3]. destruct Hd as [-> _].
    specialize (H3 h'). unfold consumersCountOf in H3. by rewrite Hr in H3.
  - split.
    + intros h' r'. simpl. destruct (decide (h = h')) as [->|Hne].
      * rewrite list_lookup_insert_eq by (by eapply lookup_lt_Some).
        intros [= <-]. simpl. by apply H4.
      * rewrite list_lookup_insert_ne by done. apply H4.
    + intros h'. simpl. rewrite length_insert. apply H5.
Qed.

Lemma onLoad_Inv fuel env am request result am' :
  Inv am → onLoad fuel env am request result = Done am' → Inv am'.
Proof.
  intros HI. unfold onLoad, getManagedAsset.
  destruct (requestHandlers am !! request) as [r|] eqn:Hr; [|done].
  destruct (assets am !! _) as [m|] eqn:Hm; [|by intros [= <-]].
  destruct (AssetLoaderRequestHandler.scheduledForCancelation r); [by intros [= <-]|].
  destruct (onLoadConsumers _ _ _) as [cs|] eqn:Hcs; [|done]. simpl.
  apply scheduleAssetUpdate_Inv.
  apply (Inv_put_same _ _ m); try done.
  - by apply Inv_setLastLoadResult.
  - apply (Inv_lookup_location am _ m HI Hm).
  - simpl. eapply onLoadConsumers_Inv; [exact 0%nat|done|].
    apply (Inv_lookup_result am _ m HI Hm).
  - intros h. simpl. by eapply onLoadConsumers_Inv.
Qed.

Lemma Inv_popPending am h rest :
  Inv am → pendingLoadRequests am = h :: rest → Inv (set_pendingLoadRequests am rest).
Proof.
  intros [H1 H2 H3 [H4 H5]] Hp. split; try done. split.
  - intros h' r'. simpl. intros Hr Hc Hin. apply (H4 h' r' Hr Hc). rewrite Hp. by right.
  - intros h' Hin. simpl in *. apply H5. rewrite Hp. by right.
Qed.

Lemma flushLoadRequestsLoop_Inv rounds am : Inv am → Inv (flushLoadRequestsLoop rounds am).
Proof.
  revert am. induction rounds as [|rounds IH]; intros am HI; simpl; [done|].
  destruct (pendingLoadRequests am) as [|h rest] eqn:Hp; [done|].
  destruct (bool_decide _); [|done].
  pose proof (Inv_popPending am h rest HI Hp) as HI1.
  simpl. destruct (requestHandlers am !! h) as [r|] eqn:Hr; [|by apply IH].
  destruct (AssetLoaderRequestHandler.scheduledForCancelation r).
  - apply IH.
    apply (Inv_frame (putRequest (set_pendingLoadRequests am rest) h
                        (AssetLoaderRequestHandler.setLastLoadResult r Result.Empty)));
      try done.
    by apply Inv_setLastLoadResult.
  - apply IH. by apply (Inv_frame (set_pendingLoadRequests am rest)).
Qed.

Lemma flushLoadRequests_Inv am : Inv am → Inv (flushLoadRequests am).
Proof.
  intros HI. unfold flushLoadRequests.
  apply (Inv_frame (flushLoadRequestsLoop (length (pendingLoadRequests am)) am)); try done.
  by apply flushLoadRequestsLoop_Inv.
Qed.

Lemma scheduleFlushLoadRequests_Inv am : Inv am → Inv (scheduleFlushLoadRequests am).
Proof.
  destruct (scheduleFlushLoadRequests_frame am) as (? & ? & ? & _). by apply Inv_frame.
Qed.

Lemma endPauseUpdates_Inv fuel env am am' :
  Inv am → endPauseUpdates fuel env am = Done am' → Inv am'.
Proof.
  intros HI. unfold endPauseUpdates.
  destruct (SC_ASSERT _); [|done]. simpl.
  match goal with |- context [mbind _ ?x] => destruct x as [am1|] eqn:Hd end; [|done].
  simpl. assert (HI1 : Inv am1).
  { destruct (_ && _); [by eapply performUpdates_Inv|by simplify_eq]. }
  destruct (bool_decide (pauseUpdatesCount am1 - 1 = 0));
    [|intros [= <-]; by apply (Inv_frame am1)].
  assert (HI2 : Inv (scheduleFlushLoadRequests
                       (set_pauseUpdatesCount am1 (pauseUpdatesCount am1 - 1)))).
  { apply scheduleFlushLoadRequests_Inv. by apply (Inv_frame am1). }
  match goal with |- (if ?b then _ else _) = _ → _ => destruct b end;
    [|by intros [= <-]].
  destruct (negb (currentThreadIsMainThread env)).
  - intros [= <-]. by eapply Inv_frame; [..|exact HI2].
  - by apply performUpdates_Inv.
Qed.

Lemma flushUpdates_Inv fuel env am am' :
  Inv am → flushUpdates fuel env am = Done am' → Inv am'.
Proof.
  intros HI. unfold flushUpdates. destruct (_ || _); [by intros [= <-]|].
  by apply performUpdates_Inv.
Qed.

(** * Every reachable state satisfies the invariant *)

Lemma step_Inv am am' : step am am' → Inv am → Inv am'.
Proof.
  intros Hstep HI. destruct Hstep.
  - by apply lockFreeGetAsset_Inv.
  - by apply createAssetWithBytes_Inv.
  - unfold getResolvedAssetLocation. destruct (getManagedAsset am key) as [m|]; [|done].
    by destruct (ManagedAsset.getResolvedAssetLocation m).
  - by eapply setResolvedAssetLocation_Inv.
  - by eapply addAssetLoadObserver_Inv.
  - by eapply removeAssetLoadObserver_Inv.
  - done.
  - by apply expireObservable_Inv.
  - by eapply onObservableDestroyed_Inv.
  - by eapply resolveLocalAssetLocationAndUpdate_Inv.
  - by eapply onLoadingRemoteResourcesCompleted_Inv.
  - by eapply onLoad_Inv.
  - by apply flushLoadRequests_Inv.
  - by apply (Inv_frame am).
  - by eapply endPauseUpdates_Inv.
  - by eapply flushUpdates_Inv.
  - by eapply performUpdates_Inv.
  - by apply (Inv_frame am).
  - by apply (Inv_frame am).
  - by eapply updateAsset_Inv.
  - by apply (Inv_frame am).
  - by apply (Inv_frame am).
Qed.

Lemma reachable_Inv am : reachable am → Inv am.
Proof.
  induction 1 as [|am am' _ IH Hstep]; [apply Inv_create|by eapply step_Inv].
Qed.

(** * The drain leaves the scheduler's own fields alone *)

Lemma removeAssetConsumer_control am key m i c :
  control (removeAssetConsumer am key m i c) = control am.
Proof.
  unfold removeAssetConsumer.
  match goal with |- context [updateConsumerRequestHandler ?a ?b ?c] =>
    pose proof (updateConsumerRequestHandler_frame a b c) as Hf;
    destruct (updateConsumerRequestHandler a b c) as [c1 am1] end.
  simpl in Hf. by destruct Hf as (_ & _ & _ & _ & _ & <-).
Qed.

Lemma loadAssetForConsumerAtResolvedLocation_control env am key m i c location am' :
  loadAssetForConsumerAtResolvedLocation env am key m i c location = Done am' →
  control am' = control am.
Proof.
  unfold loadAssetForConsumerAtResolvedLocation.
  destruct (resolveAssetLoader env _ _) as [loader|].
  2:{ intros [= <-].
      by destruct (scheduleAssetUpdateInTransaction_frame
                     (putConsumer am key m i
                        (AssetConsumer.setLoadedAsset
                           (AssetConsumer.setState c AssetConsumerStateFailed)
                           (Result.Err ("Cannot resolve AssetLoader for URL scheme '"
                              +:+ getScheme env location +:+ "' and output type '"
                              +:+ stringFromOutputType env (AssetConsumer.getOutputType c)
                              +:+ "'")))) key)
        as (_ & _ & _ & _ & _ & ->). }
  destruct (if canReuseLoadedAssets loader then _ else None) as [h|].
  - match goal with |- context [updateConsumerRequestHandler ?a ?b ?c] =>
      pose proof (updateConsumerRequestHandler_frame a b c) as Hf;
      destruct (updateConsumerRequestHandler a b c) as [c2 am1] end.
    simpl in Hf. destruct Hf as (_ & _ & _ & _ & _ & Hctl).
    destruct (negb _).
    + destruct (onConsumerLoad c2 _) as [c3|]; [|done]. simpl. intros [= <-].
      match goal with |- context [scheduleAssetUpdateInTransaction ?a ?b] =>
        destruct (scheduleAssetUpdateInTransaction_frame a b) as (_ & _ & _ & _ & _ & ->) end.
      done.
    + by intros [= <-].
  - match goal with |- context [updateConsumerRequestHandler ?a ?b ?c] =>
      pose proof (updateConsumerRequestHandler_frame a b c) as Hf;
      destruct (updateConsumerRequestHandler a b c) as [c2 am1] end.
    simpl in Hf. destruct Hf as (_ & _ & _ & _ & _ & Hctl).
    by intros [= <-].
Qed.

Lemma doUpdateAssetConsumer_control env am key m i c am' :
  doUpdateAssetConsumer env am key m i c = Done am' → control am' = control am.
Proof.
  unfold doUpdateAssetConsumer.
  destruct (AssetConsumer.getObserver c) as [o|] eqn:Ho.
  2:{ intros [= <-]. apply removeAssetConsumer_control. }
  destruct (AssetConsumer.getState c).
  - destruct (_ || _).
    + destruct (Result.error _) as [e|]; [|done]. simpl. intros [= <-].
      match goal with |- context [scheduleAssetUpdateInTransaction ?a ?b] =>
        destruct (scheduleAssetUpdateInTransaction_frame a b) as (_ & _ & _ & _ & _ & ->) end.
      done.
    + destruct (Result.value _) as [location|]; [|done]. simpl.
      apply loadAssetForConsumerAtResolvedLocation_control.
  - done.
  - destruct (Result.value _) as [loaded|]; [|done]. simpl.
    unfold notifyAssetConsumer. simpl. rewrite Ho. by intros [= <-].
  - destruct (Result.error _) as [e|]; [|done]. simpl.
    unfold notifyAssetConsumer. simpl. rewrite Ho. by intros [= <-].
  - by intros [= <-].
Qed.

Lemma updateAssetConsumers_control env am key m am' :
  updateAssetConsumers env am key m = Done am' → control am' = control am.
Proof.
  unfold updateAssetConsumers.
  destruct (SC_ASSERT _); [|done]. simpl.
  destruct (getNextConsumerToUpdate m false) as [[[i c]|] hasMore].
  2:{ by intros [= <-]. }
  intros ->%doUpdateAssetConsumer_control.
  destruct hasMore; [|done].
  by destruct (scheduleAssetUpdateInTransaction_frame am key) as (_ & _ & _ & _ & _ & ->).
Qed.

Lemma resolveAssetLocation_control am key m am' :
  resolveAssetLocation am key m = Done am' → control am' = control am.
Proof.
  unfold resolveAssetLocation.
  destruct (SC_ASSERT _); [|done]. simpl.
  destruct (AssetKey.getBundle key) as [bundle|].
  - by destruct (hasRemoteAssets bundle); intros [= <-].
  - intros [= <-].
    match goal with |- context [scheduleAssetUpdateInTransaction ?a ?b] =>
      destruct (scheduleAssetUpdateInTransaction_frame a b) as (_ & _ & _ & _ & _ & ->) end.
    done.
Qed.

Lemma updateAsset_control env am key am' :
  updateAsset env am key = Done am' → control am' = control am.
Proof.
  unfold updateAsset.
  destruct (getManagedAsset am key) as [m|]; [|by intros [= <-]].
  destruct (removeManagedAssetIfNeeded env am key m) as [[|] am1] eqn:Hrem.
  - apply removeManagedAssetIfNeeded_true in Hrem as (_ & _ & _ & _ & _ & _ & _ & _ & _ & Hctl).
    simpl. destruct (listener am1); intros [= <-]; by rewrite <-Hctl.
  - apply removeManagedAssetIfNeeded_false in Hrem as ->.
    match goal with |- context [mbind _ ?x] => destruct x as [am2|] eqn:Hstep end; [|done].
    simpl. assert (Hctl : control am2 = control am).
    { destruct (ManagedAsset.getState m).
      - destruct (ManagedAsset.hasConsumers m); [|by simplify_eq].
        by eapply resolveAssetLocation_control.
      - by simplify_eq.
      - by eapply updateAssetConsumers_control.
      - by eapply updateAssetConsumers_control.
      - by eapply updateAssetConsumers_control. }
    destruct (listener am2); intros [= <-]; by rewrite <-Hctl.
Qed.

Lemma drainUpdates_control fuel env am am' :
  drainUpdates fuel env am = Done am' →
  control am' = control am
  ∧ (currentTransaction am = None → am' = am).
Proof.
  revert am. induction fuel as [|fuel IH]; intros am; simpl.
  - destruct (currentTransaction am) as [tx|]; [|by intros [= <-]].
    destruct (AssetsManagerTransaction.dequeueUpdate tx) as [[]|]; [done|by intros [= <-]].
  - destruct (currentTransaction am) as [tx|]; [|by intros [= <-]].
    destruct (AssetsManagerTransaction.dequeueUpdate tx) as [[update rest]|];
      [|by intros [= <-]].
    destruct (updateAsset env _ update) as [am1|] eqn:Hup; [|done]. simpl.
    intros [Hctl _]%IH. apply updateAsset_control in Hup. split; [|done].
    by rewrite Hctl, Hup.
Qed.

Lemma performUpdates_spec fuel env am am' :
  performUpdates fuel env am = Done am' →
  currentThreadIsMainThread env = true
  ∧ scheduledUpdates am' = []
  ∧ pauseUpdatesCount am' = pauseUpdatesCount am
  ∧ listener am' = listener am
  ∧ removeUnusedLocalAssets am' = removeUnusedLocalAssets am
  ∧ currentTransaction am' = None.
Proof.
  unfold performUpdates.
  destruct (currentThreadIsMainThread env); [|done]. simpl.
  destruct (drainUpdates fuel env _) as [am1|] eqn:Hd; [|done]. simpl.
  apply drainUpdates_control in Hd as [Hctl _].
  unfold control in Hctl. simpl in Hctl.
  destruct (listener am1) eqn:Hl; intros [= <-]; simpl; simplify_eq; by rewrite ?Hl.
Qed.

(** * The selector of the next consumer *)

Lemma candidate_false c :
  candidate c = false →
  ∃ o, AssetConsumer.getObserver c = Some o ∧ awaitsUpdate c = false.
Proof.
  unfold candidate, observerCleared. intros [Ho Ha]%orb_false_iff.
  apply bool_decide_eq_false in Ho.
  destruct (AssetConsumer.getObserver c) as [o|]; [eauto|done].
Qed.

Lemma getNextConsumerToUpdateFrom_skip pre rest i cur hasMore :
  Forall (λ c, candidate c = false) pre →
  getNextConsumerToUpdateFrom (pre ++ rest) i cur hasMore
  = getNextConsumerToUpdateFrom rest (i + length pre) cur hasMore.
Proof.
  intros Hpre. revert i. induction Hpre as [|c pre Hc _ IH]; intros i; simpl.
  { by rewrite Nat.add_0_r. }
  destruct (candidate_false c Hc) as (o & Ho & Ha). rewrite Ho.
  unfold awaitsUpdate in Ha.
  replace (i + S (length pre))%nat with (S i + length pre)%nat by lia.
  destruct (AssetConsumer.notified c); [apply IH|].
  destruct (AssetConsumer.getState c); try done; apply IH.
Qed.

(** Once a consumer with an observer is selected it stays selected. *)
Lemma getNextConsumerToUpdateFrom_selected cs i j sel o hasMore :
  AssetConsumer.getObserver sel = Some o →
  getNextConsumerToUpdateFrom cs i (Some (j, sel)) hasMore
  = (Some (j, sel), existsb follower cs).
Proof.
  intros Ho. revert i hasMore. induction cs as [|c cs IH]; intros i hasMore; simpl; [done|].
  unfold follower, observerCleared, awaitsUpdate.
  destruct (AssetConsumer.getObserver c) as [oc|] eqn:Hoc.
  - rewrite bool_decide_eq_false_2 by done. simpl.
    destruct (AssetConsumer.notified c); simpl; [apply IH|].
    destruct (AssetConsumer.getState c); simpl; try apply IH; by rewrite Ho.
  - rewrite bool_decide_eq_true_2 by done. simpl. apply IH.
Qed.

(** A selected consumer whose observer is cleared gives way to the first
    follower. *)
Lemma getNextConsumerToUpdateFrom_cleared cs i j sel hasMore :
  AssetConsumer.getObserver sel = None →
  getNextConsumerToUpdateFrom cs i (Some (j, sel)) hasMore
  = match firstFollower cs i with
    | Some found => (Some found, true)
    | None => (Some (j, sel), false)
    end.
Proof.
  intros Ho. revert i hasMore. induction cs as [|c cs IH]; intros i hasMore; simpl; [done|].
  unfold follower, observerCleared, awaitsUpdate.
  destruct (AssetConsumer.getObserver c) as [oc|] eqn:Hoc.
  - rewrite bool_decide_eq_false_2 by done. simpl.
    destruct (AssetConsumer.notified c); simpl; [apply IH|].
    destruct (AssetConsumer.getState c); simpl; try apply IH; by rewrite Ho.
  - rewrite bool_decide_eq_true_2 by done. simpl. apply IH.
Qed.

Lemma firstFollower_none cs i :
  Forall (λ c, follower c = false) cs → firstFollower cs i = None.
Proof.
  intros H. revert i. induction H as [|c cs Hc _ IH]; intros i; simpl; [done|].
  by rewrite Hc.
Qed.

Lemma firstFollower_found mid d rest i :
  Forall (λ c, follower c = false) mid → follower d = true →
  firstFollower (mid ++ d :: rest) i = Some ((i + length mid)%nat, d).
Proof.
  intros H Hd. revert i. induction H as [|c cs Hc _ IH]; intros i; simpl.
  - by rewrite Hd, Nat.add_0_r.
  - rewrite Hc, IH. do 2 f_equal. lia.
Qed.

Lemma existsb_follower_false cs :
  Forall (λ c, candidate c = false) cs → existsb follower cs = false.
Proof.
  induction 1 as [|c cs Hc _ IH]; simpl; [done|]. rewrite IH.
  unfold candidate in Hc. apply orb_false_iff in Hc as [_ Ha].
  unfold follower. by rewrite Ha, andb_false_r.
Qed.

Lemma Forall_candidate_follower cs :
  Forall (λ c, candidate c = false) cs → Forall (λ c, follower c = false) cs.
Proof.
  intros H. eapply Forall_impl; [exact H|]. intros c Hc. simpl in Hc. unfold candidate in Hc.
  apply orb_false_iff in Hc as [_ Ha]. unfold follower. by rewrite Ha, andb_false_r.
Qed.

(** What the scan does at the first candidate. *)
Lemma getNextConsumerToUpdateFrom_first c post i hasMore :
  candidate c = true →
  getNextConsumerToUpdateFrom (c :: post) i None hasMore
  = if observerCleared c then
      if awaitsUpdate c then (Some (i, c), true)
      else match firstFollower post (S i) with
           | Some found => (Some found, true)
           | None => (Some (i, c), false)
           end
    else (Some (i, c), existsb follower post).
Proof.
  unfold candidate, observerCleared, awaitsUpdate. intros Hc. simpl.
  destruct (AssetConsumer.getObserver c) as [o|] eqn:Ho.
  - rewrite bool_decide_eq_false_2 in * by done. simpl in Hc.
    destruct (AssetConsumer.notified c); [done|].
    destruct (AssetConsumer.getState c); try done;
      by apply getNextConsumerToUpdateFrom_selected with (o := o).
  - rewrite bool_decide_eq_true_2 by done.
    destruct (AssetConsumer.notified c); simpl.
    { by apply getNextConsumerToUpdateFrom_cleared. }
    destruct (AssetConsumer.getState c); simpl; rewrite ?Ho; try done;
      by apply getNextConsumerToUpdateFrom_cleared.
Qed.

Lemma getNextConsumerToUpdateFrom_none cs i hasMore :
  Forall (λ c, candidate c = false) cs →
  getNextConsumerToUpdateFrom cs i None hasMore = (None, false).
Proof.
  intros H. rewrite <-(app_nil_r cs). by rewrite getNextConsumerToUpdateFrom_skip.
Qed.

Lemma Forall_candidate_split cs :
  Forall (λ c, candidate c = false) cs
  ∨ ∃ pre c post, cs = pre ++ c :: post
                  ∧ Forall (λ x, candidate x = false) pre ∧ candidate c = true.
Proof.
  induction cs as [|a cs IH]; [by left|].
  destruct (candidate a) eqn:Ha.
  - right. exists [], a, cs. split_and!; [done|constructor|done].
  - destruct IH as [IH|(pre & c & post & -> & Hpre & Hc)].
    + left. by constructor.
    + right. exists (a :: pre), c, post. split_and!; [done| |done]. by constructor.
Qed.

(** C2 (amended): [getNextConsumerToUpdate] scans the consumers in insertion
    order.  A consumer that has an observer is skipped when it is notified,
    [Loading] or [Removed], and is a candidate otherwise; a consumer whose
    observer has been cleared is a candidate whatever its notified flag and
    state.  No consumer is returned exactly when there is no candidate.
    The first candidate is returned when it awaits an update (not notified
    and [Initial], [Failed] or [Loaded]) or when no later consumer with an
    observer awaits one; a first candidate whose observer is cleared and
    which is itself notified, [Loading] or [Removed] gives way to the first
    later candidate that has an observer, and [hasMore] is then true.
    When the first candidate has an observer, [hasMore] is true if a later
    candidate has an observer too; [hasMore] is false when no candidate
    follows a first candidate that has an observer or that is notified,
    [Loading] or [Removed]. *)
Theorem C2_next_consumer_to_update (m : ManagedAsset.t) (hasMore : bool) :
  (Forall (λ c, candidate c = false) (ManagedAsset.consumers m)
   ↔ (getNextConsumerToUpdate m hasMore).1 = None)
  ∧ ((getNextConsumerToUpdate m hasMore).1 = None →
     (getNextConsumerToUpdate m hasMore).2 = false)
  ∧ ∀ pre c post,
      ManagedAsset.consumers m = pre ++ c :: post →
      Forall (λ x, candidate x = false) pre →
      candidate c = true →
      (awaitsUpdate c = true ∨ Forall (λ x, follower x = false) post →
       (getNextConsumerToUpdate m hasMore).1 = Some (length pre, c))
      ∧ (awaitsUpdate c = false →
         ∀ mid d rest,
           post = mid ++ d :: rest →
           Forall (λ x, follower x = false) mid →
           follower d = true →
           getNextConsumerToUpdate m hasMore
           = (Some ((length pre + 1 + length mid)%nat, d), true))
      ∧ (observerCleared c = false →
         Exists (λ x, follower x = true) post →
         (getNextConsumerToUpdate m hasMore).2 = true)
      ∧ (observerCleared c = false ∨ awaitsUpdate c = false →
         Forall (λ x, candidate x = false) post →
         (getNextConsumerToUpdate m hasMore).2 = false).
Proof.
  unfold getNextConsumerToUpdate.
  assert (Hsplit : ∀ pre c post,
            ManagedAsset.consumers m = pre ++ c :: post →
            Forall (λ x, candidate x = false) pre →
            candidate c = true →
            getNextConsumerToUpdateFrom (ManagedAsset.consumers m) 0 None hasMore
            = if observerCleared c then
                if awaitsUpdate c then (Some (length pre, c), true)
                else match firstFollower post (S (length pre)) with
                     | Some found => (Some found, true)
                     | None => (Some (length pre, c), false)
                     end
              else (Some (length pre, c), existsb follower post)).
  { intros pre c post -> Hpre Hc.
    rewrite getNextConsumerToUpdateFrom_skip by done.
    by rewrite getNextConsumerToUpdateFrom_first. }
  split_and!.
  - split.
    + intros Hnone. by rewrite getNextConsumerToUpdateFrom_none.
    + intros Hr. destruct (Forall_candidate_split (ManagedAsset.consumers m))
        as [?|(pre & c & post & Hcs & Hpre & Hc)]; [done|].
      rewrite (Hsplit pre c post Hcs Hpre Hc) in Hr.
      destruct (observerCleared c); [|done].
      destruct (awaitsUpdate c); [done|]. by destruct (firstFollower _ _).
  - intros Hr. destruct (Forall_candidate_split (ManagedAsset.consumers m))
      as [Hnone|(pre & c & post & Hcs & Hpre & Hc)].
    + by rewrite getNextConsumerToUpdateFrom_none.
    + rewrite (Hsplit pre c post Hcs Hpre Hc) in Hr.
      destruct (observerCleared c); [|done].
      destruct (awaitsUpdate c); [done|]. by destruct (firstFollower _ _).
  - intros pre c post Hcs Hpre Hc. rewrite (Hsplit pre c post Hcs Hpre Hc).
    split_and!.
    + intros [Ha|Hpost].
      * rewrite Ha. by destruct (observerCleared c).
      * rewrite (firstFollower_none _ _ Hpost).
        destruct (observerCleared c); [|done]. by destruct (awaitsUpdate c).
    + intros Ha mid d rest -> Hmid Hd.
      assert (Hcl : observerCleared c = true).
      { unfold candidate in Hc. rewrite Ha, orb_false_r in Hc. done. }
      rewrite Hcl, Ha, (firstFollower_found mid d rest _ Hmid Hd).
      do 3 f_equal. lia.
    + intros -> Hex. simpl. apply existsb_exists.
      apply Exists_exists in Hex as (x & Hx & Hf). exists x. split; [|done].
      by apply list_elem_of_In.
    + intros Hcase Hpost.
      rewrite (existsb_follower_false _ Hpost).
      rewrite (firstFollower_none _ _ (Forall_candidate_follower _ Hpost)).
      destruct (observerCleared c); [|done].
      destruct Hcase as [?|Ha]; [done|]. by rewrite Ha.
Qed.

(** * Invariants of the reachable states *)

(** C1: in every reachable state, a managed asset of the registry that is
    [Ready] holds a resolved location that is a value, and one that is
    [FailedRetryable] or [FailedPermanently] holds one that is an error;
    every operation that writes the state or the location is a step of
    [reachable], so the agreement holds after each of them. *)
Theorem C1_state_agrees_with_resolved_location (am : t) (key : AssetKey.t)
  (m : ManagedAsset.t) :
  reachable am → assets am !! key = Some m → locationAgrees m.
Proof.
  intros Hreach Hm. eapply Inv_lookup_location; [by apply reachable_Inv|done].
Qed.

Lemma retainRequest_other am request h :
  request ≠ Some h →
  requestHandlers (retainRequest am request) !! h = requestHandlers am !! h.
Proof.
  intros Hne. unfold retainRequest. destruct request as [h0|]; [|done].
  destruct (requestHandlers am !! h0) as [r0|] eqn:Hr0; [|done].
  assert (h0 ≠ h) by congruence.
  destruct (negb _).
  - match goal with |- context [scheduleFlushLoadRequests ?x] =>
      destruct (scheduleFlushLoadRequests_frame x) as (_ & -> & _) end.
    simpl. by rewrite !list_lookup_insert_ne.
  - simpl. by rewrite list_lookup_insert_ne.
Qed.

Lemma retainRequest_pending am request :
  pendingLoadRequests am `prefix_of` pendingLoadRequests (retainRequest am request).
Proof.
  unfold retainRequest. destruct request as [h0|]; [|done].
  destruct (requestHandlers am !! h0) as [r0|] eqn:Hr0; [|done].
  destruct (negb _); [|done].
  match goal with |- context [scheduleFlushLoadRequests ?x] =>
    destruct (scheduleFlushLoadRequests_frame x) as (_ & _ & -> & _) end.
  simpl. by apply prefix_app_r.
Qed.

Lemma retainRequest_same am h r :
  requestHandlers am !! h = Some r →
  ∃ r', requestHandlers (retainRequest am (Some h)) !! h = Some r'
        ∧ AssetLoaderRequestHandler.scheduledForCancelation r'
          = AssetLoaderRequestHandler.scheduledForCancelation r
        ∧ AssetLoaderRequestHandler.consumersCount r'
          = AssetLoaderRequestHandler.consumersCount r + 1.
Proof.
  intros Hr. unfold retainRequest. rewrite Hr.
  pose proof (lookup_lt_Some _ _ _ Hr) as Hlt.
  destruct (negb _).
  - match goal with |- context [scheduleFlushLoadRequests ?x] =>
      destruct (scheduleFlushLoadRequests_frame x) as (_ & -> & _) end.
    simpl. rewrite list_insert_insert_eq, list_lookup_insert_eq by done. eauto.
  - simpl. rewrite list_lookup_insert_eq by done. eauto.
Qed.

Lemma releaseExistingRequest_last am h r :
  requestHandlers am !! h = Some r →
  AssetLoaderRequestHandler.consumersCount r = 1 →
  AssetLoaderRequestHandler.scheduledForCancelation r = false →
  let am' := releaseExistingRequest am (Some h) in
  requestHandlers am' !! h
  = Some (AssetLoaderRequestHandler.setScheduledForCancelation
            (AssetLoaderRequestHandler.decrementConsumersCount r))
  ∧ pendingLoadRequests am' = pendingLoadRequests am ++ [h].
Proof.
  intros Hr Hc Hf. unfold releaseExistingRequest. rewrite Hr.
  pose proof (lookup_lt_Some _ _ _ Hr) as Hlt.
  simpl. rewrite Hc, Hf. simpl.
  match goal with |- context [scheduleFlushLoadRequests ?x] =>
    destruct (scheduleFlushLoadRequests_frame x) as (_ & -> & -> & _) end.
  simpl. by rewrite list_insert_insert_eq, list_lookup_insert_eq.
Qed.

(** C6: in every reachable state a request handler whose counter is 0 is
    not among the pending load requests or is scheduled for cancelation;
    and [updateConsumerRequestHandler], when it takes the counter of the
    outgoing handler from 1 to 0 and that handler is not yet scheduled for
    cancelation, marks it so and appends it to the pending load requests. *)
Theorem C6_requests_without_consumers (am : t) :
  reachable am →
  (∀ h r,
     requestHandlers am !! h = Some r →
     AssetLoaderRequestHandler.consumersCount r = 0 →
     h ∉ pendingLoadRequests am
     ∨ AssetLoaderRequestHandler.scheduledForCancelation r = true)
  ∧ (∀ c request h r,
       AssetConsumer.getAssetLoaderCompletion c = Some h →
       requestHandlers am !! h = Some r →
       AssetLoaderRequestHandler.consumersCount r = 1 →
       AssetLoaderRequestHandler.scheduledForCancelation r = false →
       ∃ r',
         requestHandlers (updateConsumerRequestHandler am c request).2 !! h = Some r'
         ∧ AssetLoaderRequestHandler.scheduledForCancelation r' = true
         ∧ AssetLoaderRequestHandler.consumersCount r'
           = (if decide (request = Some h) then 1 else 0)
         ∧ pendingLoadRequests am ++ [h]
           `prefix_of` pendingLoadRequests (updateConsumerRequestHandler am c request).2).
Proof.
  intros Hreach. split.
  - intros h r Hr Hc.
    destruct (reachable_Inv am Hreach) as [_ _ _ [Hagree _]].
    destruct (decide (h ∈ pendingLoadRequests am)) as [Hin|Hin]; [|by left].
    right. by apply (Hagree h r).
  - intros c request h r Hh Hr Hc Hf. simpl. rewrite Hh.
    destruct (releaseExistingRequest_last am h r Hr Hc Hf) as [Hr1 Hp1].
    set (am1 := releaseExistingRequest am (Some h)) in *.
    pose proof (retainRequest_pending am1 request) as Hpre. rewrite Hp1 in Hpre.
    destruct (decide (request = Some h)) as [->|Hne].
    + destruct (retainRequest_same am1 h _ Hr1) as (r' & Hr' & Hf' & Hc').
      exists r'. split_and!; try done. rewrite Hc'. simpl. lia.
    + eexists. rewrite retainRequest_other by done.
      split_and!; [done|done| |done]. simpl. lia.
Qed.

(** * Reading and forcing the resolved location *)

(** C9: [setResolvedAssetLocation] on a key whose managed asset is [Ready]
    with the same location returns at once: the whole state of the
    manager, trace of outgoing calls included, is unchanged. *)
Theorem C9_set_same_location_is_noop (fuel : nat) (env : Env) (am : t) (key : AssetKey.t)
  (location : AssetLocation.t) (m : ManagedAsset.t) :
  getManagedAsset am key = Some m →
  ManagedAsset.getState m = AssetStateReady →
  ManagedAsset.getResolvedAssetLocation m = Result.Ok location →
  setResolvedAssetLocation fuel env am key location = Done am.
Proof.
  intros Hm Hs Hl. unfold setResolvedAssetLocation, getOrCreateManagedAsset.
  rewrite Hm, Hs, Hl. simpl. by rewrite bool_decide_eq_true_2.
Qed.

(** C10: [getResolvedAssetLocation] returns a location exactly when the key
    has a managed asset whose resolved location is a value, which it then
    returns; for an unknown key and for a resolved location that is empty
    or an error it returns nothing; the state of the manager is unchanged
    in every case. *)
Theorem C10_get_resolved_asset_location (am : t) (key : AssetKey.t) :
  (∀ location,
     (getResolvedAssetLocation am key).1 = Some location
     ↔ ∃ m, getManagedAsset am key = Some m
            ∧ ManagedAsset.getResolvedAssetLocation m = Result.Ok location)
  ∧ ((getResolvedAssetLocation am key).1 = None
     ↔ getManagedAsset am key = None
       ∨ ∃ m, getManagedAsset am key = Some m
              ∧ Result.success (ManagedAsset.getResolvedAssetLocation m) = false)
  ∧ (getResolvedAssetLocation am key).2 = am.
Proof.
  unfold getResolvedAssetLocation.
  destruct (getManagedAsset am key) as [m|] eqn:Hm.
  - destruct (ManagedAsset.getResolvedAssetLocation m) as [|l|e] eqn:Hl; simpl.
    + split_and!; [| |done].
      * intros location. split; [done|]. intros (m' & [= <-] & Hl'). congruence.
      * split; [|done]. intros _. right. exists m. by rewrite Hl.
    + split_and!; [| |done].
      * intros location. split; [intros [= <-]; eauto|].
        intros (m' & [= <-] & Hl'). congruence.
      * split; [done|]. intros [?|(m' & [= <-] & Hs)]; [done|].
        rewrite Hl in Hs. done.
    + split_and!; [| |done].
      * intros location. split; [done|]. intros (m' & [= <-] & Hl'). congruence.
      * split; [|done]. intros _. right. exists m. by rewrite Hl.
  - simpl. split_and!; [| |done].
    + intros location. split; [done|]. by intros (m' & ? & _).
    + split; [|done]. intros _. by left.
Qed.

(** * Removal of a managed asset by [updateAsset] *)

(** C8 (amended): for a key whose managed asset has no consumer and no live
    observable, and which is a URL or with the eviction of local assets
    enabled, [updateAsset] erases the managed asset through
    [removeManagedAssetIfNeeded] and skips the dispatch on the state: the
    request handlers, the pending load requests, the transaction and the
    resolve id sequence are untouched and no call leaves the manager from
    it.  The listener, when one is set, is still handed the erased managed
    asset through [onManagedAssetUpdated]. *)
Theorem C8_update_asset_removes (env : Env) (am : t) (key : AssetKey.t)
  (m : ManagedAsset.t) :
  getManagedAsset am key = Some m →
  ManagedAsset.hasConsumers m = false →
  ManagedAsset.getObservable m = None →
  AssetKey.isURL key = true ∨ removeUnusedLocalAssets am = true →
  ∃ am1,
    removeManagedAssetIfNeeded env am key m = (true, am1)
    ∧ assets am1 = delete key (assets am)
    ∧ requestHandlers am1 = requestHandlers am
    ∧ pendingLoadRequests am1 = pendingLoadRequests am
    ∧ pendingLoadRequestsScheduled am1 = pendingLoadRequestsScheduled am
    ∧ currentTransaction am1 = currentTransaction am
    ∧ assetResolveIdSequence am1 = assetResolveIdSequence am
    ∧ trace am1 = trace am
    ∧ updateAsset env am key
      = Done (match listener am with
              | Some l => emit am1 (EvListenerManagedAssetUpdated l key m)
              | None => am1
              end).
Proof.
  intros Hm Hc Ho Hk.
  assert (Hrem : ∃ am1, removeManagedAssetIfNeeded env am key m = (true, am1)
            ∧ assets am1 = delete key (assets am)
            ∧ requestHandlers am1 = requestHandlers am
            ∧ pendingLoadRequests am1 = pendingLoadRequests am
            ∧ pendingLoadRequestsScheduled am1 = pendingLoadRequestsScheduled am
            ∧ currentTransaction am1 = currentTransaction am
            ∧ assetResolveIdSequence am1 = assetResolveIdSequence am
            ∧ trace am1 = trace am
            ∧ listener am1 = listener am).
  { unfold removeManagedAssetIfNeeded. rewrite Hc, Ho.
    assert (Hcond : negb (AssetKey.isURL key) && negb (removeUnusedLocalAssets am) = false).
    { destruct Hk as [->| ->]; [done|]. by rewrite andb_false_r. }
    rewrite Hcond. simpl.
    destruct (assetBytesStore am); [destruct (isAssetBytesUrl _ _)|]; eexists; by split_and!. }
  destruct Hrem as (am1 & Hrem & Ha & Hh & Hp & Hps & Htx & Hseq & Htr & Hl).
  exists am1. split_and!; try done.
  unfold updateAsset. rewrite Hm, Hrem. simpl. rewrite Hl.
  destruct (listener am); [|done].
  unfold getManagedAsset. by rewrite Ha, lookup_delete_eq.
Qed.

(** * The drain terminates *)

Lemma rankC_pos c : (1 ≤ rankC c)%nat.
Proof.
  unfold rankC. destruct (AssetConsumer.getState c); try lia;
    destruct (AssetConsumer.notified c); lia.
Qed.

Lemma rankCs_insert cs i c c' :
  cs !! i = Some c → (rankCs (<[i := c']> cs) + rankC c = rankCs cs + rankC c')%nat.
Proof.
  unfold rankCs. revert i. induction cs as [|a cs IH]; intros [|i] Hi; simplify_eq/=.
  - lia.
  - specialize (IH i Hi). lia.
Qed.

Lemma rankCs_delete cs i c :
  cs !! i = Some c → (rankCs (delete i cs) + rankC c = rankCs cs)%nat.
Proof.
  unfold rankCs. revert i. induction cs as [|a cs IH]; intros [|i] Hi; simplify_eq/=.
  - lia.
  - specialize (IH i Hi). lia.
Qed.

Lemma workLeft_frame am am' : assets am' = assets am → workLeft am' = workLeft am.
Proof. unfold workLeft. by intros ->. Qed.

Lemma workLeft_replace am am' key m m' :
  assets am !! key = Some m → assets am' = <[key := m']> (assets am) →
  (workLeft am' + rankA m = workLeft am + rankA m')%nat.
Proof. unfold workLeft. intros Hm ->. by apply total_insert. Qed.

Lemma workLeft_consumer am am' key m m' i c c' :
  assets am !! key = Some m → ManagedAsset.consumers m !! i = Some c →
  assets am' = <[key := m']> (assets am) →
  ManagedAsset.getState m' = ManagedAsset.getState m →
  ManagedAsset.consumers m' = <[i := c']> (ManagedAsset.consumers m) →
  (workLeft am' + rankC c = workLeft am + rankC c')%nat.
Proof.
  intros Hm Hi Ha Hs Hcs.
  pose proof (workLeft_replace am am' key m m' Hm Ha) as Hw.
  unfold rankA in Hw. rewrite Hs, Hcs in Hw.
  pose proof (rankCs_insert _ i c c' Hi). lia.
Qed.

Lemma workLeft_delete am am' key m :
  assets am !! key = Some m → assets am' = delete key (assets am) →
  (workLeft am' ≤ workLeft am)%nat.
Proof.
  unfold workLeft. intros Hm ->. rewrite (total_delete rankA (assets am) key m Hm). lia.
Qed.

(** ** The queue of the transaction *)

Lemma enqueueUpdate_idemp tx key :
  AssetsManagerTransaction.enqueueUpdate (AssetsManagerTransaction.enqueueUpdate tx key) key
  = AssetsManagerTransaction.enqueueUpdate tx key.
Proof.
  unfold AssetsManagerTransaction.enqueueUpdate.
  destruct (bool_decide (key ∈ tx)) eqn:Hin.
  - by rewrite Hin.
  - rewrite bool_decide_eq_true_2; [done|].
    apply elem_of_app. right. by apply list_elem_of_singleton.
Qed.

Lemma enqueueUpdate_length tx key :
  (length (AssetsManagerTransaction.enqueueUpdate tx key) ≤ length tx + 1)%nat.
Proof.
  unfold AssetsManagerTransaction.enqueueUpdate.
  destruct (bool_decide (key ∈ tx)); [lia|]. rewrite length_app. simpl. lia.
Qed.

Lemma scheduleAssetUpdateInTransaction_queue am key :
  currentTransaction (scheduleAssetUpdateInTransaction am key)
  = (λ tx, AssetsManagerTransaction.enqueueUpdate tx key) <$> currentTransaction am.
Proof.
  unfold scheduleAssetUpdateInTransaction.
  destruct (currentTransaction am) eqn:Htx; simpl; [done|by rewrite Htx].
Qed.

Lemma queueStep_refl key am : queueStep key am am.
Proof. by left. Qed.

Lemma queueStep_schedule key am : queueStep key am (scheduleAssetUpdateInTransaction am key).
Proof. right. apply scheduleAssetUpdateInTransaction_queue. Qed.

Lemma queueStep_frame key am am1 am' :
  currentTransaction am' = currentTransaction am1 → queueStep key am am1 → queueStep key am am'.
Proof. unfold queueStep. by intros ->. Qed.

Lemma queueStep_from key am0 am am' :
  currentTransaction am = currentTransaction am0 → queueStep key am am' → queueStep key am0 am'.
Proof. unfold queueStep. by intros ->. Qed.

Lemma queueStep_trans key am am1 am2 :
  queueStep key am am1 → queueStep key am1 am2 → queueStep key am am2.
Proof.
  unfold queueStep. intros [H1|H1] [H2|H2]; rewrite H2, H1; auto.
  right. destruct (currentTransaction am); simpl; [|done]. by rewrite enqueueUpdate_idemp.
Qed.

Lemma queueStep_queued key am am' : queueStep key am am' → (queued am' ≤ queued am + 1)%nat.
Proof.
  unfold queueStep, queued. intros [->| ->]; [lia|].
  destruct (currentTransaction am); simpl; [apply enqueueUpdate_length|lia].
Qed.

(** ** The selected consumer is a candidate *)

Lemma firstFollower_follower cs i j c :
  firstFollower cs i = Some (j, c) → follower c = true.
Proof.
  revert i. induction cs as [|a cs IH]; intros i; simpl; [done|].
  destruct (follower a) eqn:Ha; [by intros [= <- <-]|apply IH].
Qed.

Lemma follower_candidate c : follower c = true → candidate c = true.
Proof.
  unfold follower, candidate. intros [_ ->]%andb_true_iff. by rewrite orb_true_r.
Qed.

Lemma getNextConsumerToUpdate_candidate m hasMore i c hasMore' :
  getNextConsumerToUpdate m hasMore = (Some (i, c), hasMore') → candidate c = true.
Proof.
  unfold getNextConsumerToUpdate.
  destruct (Forall_candidate_split (ManagedAsset.consumers m))
    as [Hnone|(pre & c0 & post & -> & Hpre & Hc0)].
  { by rewrite getNextConsumerToUpdateFrom_none. }
  rewrite getNextConsumerToUpdateFrom_skip by done.
  rewrite getNextConsumerToUpdateFrom_first by done.
  destruct (observerCleared c0); [|by intros [= <- <-]].
  destruct (awaitsUpdate c0); [by intros [= <- <-]|].
  destruct (firstFollower post _) as [[j d]|] eqn:Hf; intros [= <- <-]; [|done].
  apply follower_candidate. by eapply firstFollower_follower.
Qed.

(** ** Every step on a consumer makes progress *)

Lemma removeAssetConsumer_progress am key m i c :
  assets am !! key = Some m → ManagedAsset.consumers m !! i = Some c →
  (workLeft (removeAssetConsumer am key m i c) + 1 ≤ workLeft am)%nat
  ∧ currentTransaction (removeAssetConsumer am key m i c) = currentTransaction am.
Proof.
  intros Hm Hi. unfold removeAssetConsumer.
  match goal with |- context [updateConsumerRequestHandler ?a ?b ?c] =>
    pose proof (updateConsumerRequestHandler_frame a b c) as Hf;
    destruct (updateConsumerRequestHandler a b c) as [c1 am1] end.
  simpl in Hf. destruct Hf as (Ha & _ & Htx & _).
  split; [|done].
  pose proof (workLeft_replace am (putManagedAsset am1 key (ManagedAsset.removeConsumer m i))
                key m (ManagedAsset.removeConsumer m i) Hm) as Hw.
  simpl in Hw. rewrite Ha in Hw. specialize (Hw eq_refl).
  unfold rankA in Hw. simpl in Hw.
  pose proof (rankCs_delete _ i c Hi). pose proof (rankC_pos c). lia.
Qed.

Lemma putConsumer_progress am key m i c c' :
  assets am !! key = Some m → ManagedAsset.consumers m !! i = Some c →
  (workLeft (putConsumer am key m i c') + rankC c = workLeft am + rankC c')%nat.
Proof.
  intros Hm Hi. by eapply (workLeft_consumer am _ key m _ i c c').
Qed.

Lemma notifyAssetConsumer_progress am key m i c loadedAsset error o :
  assets am !! key = Some m → ManagedAsset.consumers m !! i = Some c →
  AssetConsumer.getObserver c = Some o →
  rankC c = 2%nat → rankC (AssetConsumer.setNotified c true) = 1%nat →
  ∃ am', notifyAssetConsumer am key m i c loadedAsset error = Done am'
         ∧ (workLeft am' + 1 ≤ workLeft am)%nat
         ∧ currentTransaction am' = currentTransaction am.
Proof.
  intros Hm Hi Ho Hr Hr'. unfold notifyAssetConsumer.
  change (AssetConsumer.getObserver (AssetConsumer.setNotified c true))
    with (AssetConsumer.getObserver c).
  rewrite Ho. eexists. split; [done|]. split; [|done].
  match goal with |- (workLeft ?x + 1 ≤ _)%nat =>
    pose proof (workLeft_consumer am x key m _ i c (AssetConsumer.setNotified c true)
                  Hm Hi eq_refl eq_refl eq_refl) end.
  lia.
Qed.

Lemma onConsumerLoad_total c result :
  Result.empty result = false →
  ∃ c', onConsumerLoad c result = Done c' ∧ rankC c' = 2%nat.
Proof.
  intros Hne. unfold onConsumerLoad. destruct result as [|[a|]|e]; try done;
    by eexists.
Qed.

Lemma loadAssetForConsumerAtResolvedLocation_progress env am key m i c location :
  assets am !! key = Some m → ManagedAsset.consumers m !! i = Some c →
  AssetConsumer.getState c = AssetConsumerStateInitial →
  ∃ am', loadAssetForConsumerAtResolvedLocation env am key m i c location = Done am'
         ∧ (workLeft am' + 1 ≤ workLeft am)%nat
         ∧ queueStep key am am'.
Proof.
  intros Hm Hi Hs. unfold loadAssetForConsumerAtResolvedLocation.
  assert (Hrank : rankC c = 3%nat) by (unfold rankC; by rewrite Hs).
  destruct (resolveAssetLoader env _ _) as [loader|].
  2:{ eexists. split; [done|]. split.
      - match goal with |- context [putConsumer am key m i ?c'] =>
          pose proof (putConsumer_progress am key m i c c' Hm Hi) as Hw;
          assert (Hle : (rankC c' ≤ 2)%nat);
            [unfold rankC; simpl; destruct (AssetConsumer.notified c); lia|]
        end.
        match goal with |- context [scheduleAssetUpdateInTransaction ?a ?b] =>
          destruct (scheduleAssetUpdateInTransaction_frame a b) as (Ha & _);
          rewrite (workLeft_frame a _ Ha) end.
        lia.
      - eapply queueStep_from; [|apply queueStep_schedule]. done. }
  set (cL := AssetConsumer.setState c AssetConsumerStateLoading).
  set (m1 := ManagedAsset.setConsumers m (<[i := cL]> (ManagedAsset.consumers m))).
  assert (HrL : ∀ r, rankC (AssetConsumer.setAssetLoaderCompletion cL r) = 1%nat) by done.
  destruct (if canReuseLoadedAssets loader then _ else None) as [h|].
  - pose proof (updateConsumerRequestHandler_frame am cL (Some h)) as Hf.
    pose proof (updateConsumerRequestHandler_consumer am cL (Some h)) as Hc2.
    destruct (updateConsumerRequestHandler am cL (Some h)) as [c2 am1].
    simpl in Hf, Hc2. destruct Hf as (Ha & _ & Htx & _). subst c2.
    destruct (negb _) eqn:Hne.
    + destruct (onConsumerLoad_total (AssetConsumer.setAssetLoaderCompletion cL (Some h))
                  (default Result.Empty
                     (AssetLoaderRequestHandler.getLastLoadResult
                        <$> requestHandlers am1 !! h))) as (c3 & Hload & Hr3).
      { by apply negb_true_iff. }
      rewrite Hload. simpl. eexists. split; [done|]. split.
      * match goal with |- context [scheduleAssetUpdateInTransaction ?a ?b] =>
          destruct (scheduleAssetUpdateInTransaction_frame a b) as (Ha' & _);
          rewrite (workLeft_frame a _ Ha') end.
        pose proof (workLeft_consumer am (putConsumer am1 key m1 i c3) key m
                      (ManagedAsset.setConsumers m1 (<[i := c3]> (ManagedAsset.consumers m1)))
                      i c c3 Hm Hi) as Hw.
        simpl in Hw. rewrite Ha, list_insert_insert_eq in Hw.
        specialize (Hw eq_refl eq_refl eq_refl). lia.
      * eapply queueStep_from; [|apply queueStep_schedule]. done.
    + eexists. split; [done|]. split; [|by left].
      pose proof (workLeft_consumer am
                    (putConsumer am1 key m1 i (AssetConsumer.setAssetLoaderCompletion cL (Some h)))
                    key m
                    (ManagedAsset.setConsumers m1
                       (<[i := AssetConsumer.setAssetLoaderCompletion cL (Some h)]>
                          (ManagedAsset.consumers m1)))
                    i c (AssetConsumer.setAssetLoaderCompletion cL (Some h)) Hm Hi) as Hw.
      simpl in Hw. rewrite Ha, list_insert_insert_eq in Hw.
      specialize (Hw eq_refl eq_refl eq_refl). rewrite HrL in Hw. lia.
  - match goal with |- context [updateConsumerRequestHandler ?a ?b ?c] =>
      pose proof (updateConsumerRequestHandler_frame a b c) as Hf;
      pose proof (updateConsumerRequestHandler_consumer a b c) as Hc2;
      destruct (updateConsumerRequestHandler a b c) as [c2 am1] end.
    simpl in Hf, Hc2. destruct Hf as (Ha & _ & Htx & _). subst c2.
    eexists. split; [done|]. split; [|by left].
    match goal with |- context [putConsumer am1 key ?m2 i ?c2] =>
      pose proof (workLeft_consumer am (putConsumer am1 key m2 i c2) key m
                    (ManagedAsset.setConsumers m2 (<[i := c2]> (ManagedAsset.consumers m2)))
                    i c c2 Hm Hi) as Hw
    end.
    simpl in Hw. rewrite Ha in Hw.
    rewrite getPayloadCacheForAssetLoader_consumers in Hw. unfold m1 in Hw. simpl in Hw.
    rewrite list_insert_insert_eq in Hw.
    assert (Hst : ∀ m0 l, ManagedAsset.getState (ManagedAsset.getPayloadCacheForAssetLoader m0 l)
                          = ManagedAsset.getState m0).
    { intros. unfold ManagedAsset.getPayloadCacheForAssetLoader. by case_match. }
    rewrite Hst in Hw. specialize (Hw eq_refl eq_refl eq_refl). rewrite HrL in Hw.
    subst m1. lia.
Qed.

Lemma candidate_observed c o :
  candidate c = true → AssetConsumer.getObserver c = Some o →
  AssetConsumer.notified c = false
  ∧ (AssetConsumer.getState c = AssetConsumerStateInitial
     ∨ AssetConsumer.getState c = AssetConsumerStateFailed
     ∨ AssetConsumer.getState c = AssetConsumerStateLoaded).
Proof.
  unfold candidate, observerCleared, awaitsUpdate. intros Hc Ho.
  rewrite Ho in Hc. rewrite bool_decide_eq_false_2 in Hc by done. simpl in Hc.
  destruct (AssetConsumer.notified c); [done|].
  destruct (AssetConsumer.getState c); naive_solver.
Qed.

Lemma doUpdateAssetConsumer_progress env am key m i c :
  assets am !! key = Some m → ManagedAsset.consumers m !! i = Some c →
  locationAgrees m → resultAgrees c →
  ManagedAsset.getState m = AssetStateReady
  ∨ ManagedAsset.getState m = AssetStateFailedRetryable
  ∨ ManagedAsset.getState m = AssetStateFailedPermanently →
  candidate c = true →
  ∃ am', doUpdateAssetConsumer env am key m i c = Done am'
         ∧ (workLeft am' + 1 ≤ workLeft am)%nat
         ∧ queueStep key am am'.
Proof.
  intros Hm Hi [Hready Hfailed] [Hloaded Herr] Hstate Hc. unfold doUpdateAssetConsumer.
  destruct (AssetConsumer.getObserver c) as [o|] eqn:Ho.
  2:{ destruct (removeAssetConsumer_progress am key m i c Hm Hi) as [Hw Htx].
      eexists. split; [done|]. split; [done|by left]. }
  destruct (candidate_observed c o Hc Ho) as [Hn Hs].
  destruct Hs as [Hs|[Hs|Hs]]; rewrite Hs.
  - destruct Hstate as [Hst|Hst].
    + rewrite Hst. simpl. specialize (Hready Hst).
      destruct (ManagedAsset.getResolvedAssetLocation m) as [|location|]; try done. simpl.
      by apply loadAssetForConsumerAtResolvedLocation_progress.
    + assert (Hor : bool_decide (ManagedAsset.getState m = AssetStateFailedRetryable)
                    || bool_decide (ManagedAsset.getState m = AssetStateFailedPermanently)
                    = true).
      { destruct Hst as [-> | ->]; done. }
      rewrite Hor. specialize (Hfailed Hst).
      destruct (ManagedAsset.getResolvedAssetLocation m) as [| |e]; try done. simpl.
      eexists. split; [done|]. split.
      * match goal with |- context [putConsumer am key m i ?c'] =>
          pose proof (putConsumer_progress am key m i c c' Hm Hi) as Hw;
          assert (Hle : rankC c' = 2%nat); [unfold rankC; simpl; by rewrite Hn|]
        end.
        match goal with |- context [scheduleAssetUpdateInTransaction ?a ?b] =>
          destruct (scheduleAssetUpdateInTransaction_frame a b) as (Ha & _);
          rewrite (workLeft_frame a _ Ha) end.
        assert (rankC c = 3%nat) by (unfold rankC; by rewrite Hs). lia.
      * eapply queueStep_from; [|apply queueStep_schedule]. done.
  - specialize (Herr Hs).
    destruct (AssetConsumer.getLoadedAsset c) as [| |e]; try done. simpl.
    destruct (notifyAssetConsumer_progress am key m i c None (Some e) o Hm Hi Ho)
      as (am' & Hn' & Hw & Htx).
    + unfold rankC. by rewrite Hs, Hn.
    + unfold rankC. simpl. by rewrite Hs.
    + exists am'. split; [done|]. split; [done|by left].
  - specialize (Hloaded Hs).
    destruct (AssetConsumer.getLoadedAsset c) as [|loaded|]; try done. simpl.
    destruct (notifyAssetConsumer_progress am key m i c loaded None o Hm Hi Ho)
      as (am' & Hn' & Hw & Htx).
    + unfold rankC. by rewrite Hs, Hn.
    + unfold rankC. simpl. by rewrite Hs.
    + exists am'. split; [done|]. split; [done|by left].
Qed.

Lemma updateAssetConsumers_progress env am key m :
  Inv am → assets am !! key = Some m →
  ManagedAsset.getState m = AssetStateReady
  ∨ ManagedAsset.getState m = AssetStateFailedRetryable
  ∨ ManagedAsset.getState m = AssetStateFailedPermanently →
  ∃ am', updateAssetConsumers env am key m = Done am'
         ∧ (workLeft am' + queued am' ≤ workLeft am + queued am)%nat.
Proof.
  intros HI Hm Hstate. unfold updateAssetConsumers.
  assert (Hassert : bool_decide (ManagedAsset.getState m = AssetStateReady)
                    || bool_decide (ManagedAsset.getState m = AssetStateFailedPermanently)
                    || bool_decide (ManagedAsset.getState m = AssetStateFailedRetryable)
                    = true).
  { destruct Hstate as [-> |[-> | ->]]; done. }
  rewrite Hassert. simpl.
  destruct (getNextConsumerToUpdate m false) as [[[i c]|] hasMore] eqn:Hnext.
  2:{ eexists. split; [done|lia]. }
  pose proof (getNextConsumerToUpdate_lookup _ _ _ _ _ Hnext) as Hi.
  pose proof (getNextConsumerToUpdate_candidate _ _ _ _ _ Hnext) as Hc.
  set (amh := if hasMore then scheduleAssetUpdateInTransaction am key else am).
  assert (Hah : assets amh = assets am).
  { unfold amh. destruct hasMore; [|done].
    by destruct (scheduleAssetUpdateInTransaction_frame am key) as (-> & _). }
  assert (Hqh : queueStep key am amh).
  { unfold amh. destruct hasMore; [apply queueStep_schedule|apply queueStep_refl]. }
  destruct (doUpdateAssetConsumer_progress env amh key m i c) as (am' & Hdo & Hw & Hq);
    try done.
  - by rewrite Hah.
  - by apply (Inv_lookup_location am key m).
  - pose proof (Inv_lookup_result am key m HI Hm) as HF.
    rewrite Forall_lookup in HF. by apply (HF i).
  - exists am'. split; [done|].
    pose proof (queueStep_queued key am am' (queueStep_trans _ _ _ _ Hqh Hq)).
    rewrite (workLeft_frame am amh Hah) in Hw. lia.
Qed.

Lemma resolveAssetLocation_progress am key m :
  assets am !! key = Some m →
  ManagedAsset.getState m = AssetStateInitial →
  ∃ am', resolveAssetLocation am key m = Done am'
         ∧ (workLeft am' + queued am' ≤ workLeft am + queued am)%nat.
Proof.
  intros Hm Hs. unfold resolveAssetLocation. rewrite Hs. simpl.
  assert (Hrank : ∀ m', ManagedAsset.consumers m' = ManagedAsset.consumers m →
            ManagedAsset.getState m' ≠ AssetStateInitial →
            (rankA m' + 1 = rankA m)%nat).
  { intros m' Hcs Hne. unfold rankA. rewrite Hcs, Hs.
    rewrite (bool_decide_eq_false_2 (ManagedAsset.getState m' = AssetStateInitial)) by done.
    rewrite bool_decide_eq_true_2 by done. lia. }
  destruct (AssetKey.getBundle key) as [bundle|].
  - assert (Hgoal : ∀ am', assets am'
              = <[key := ManagedAsset.setResolveId
                           (ManagedAsset.setState m AssetStateResolvingLocation)
                           (uint64 (assetResolveIdSequence am + 1))]> (assets am) →
              currentTransaction am' = currentTransaction am →
              (workLeft am' + queued am' ≤ workLeft am + queued am)%nat).
    { intros am' Ha Htx.
      pose proof (workLeft_replace am am' key m _ Hm Ha) as Hw.
      rewrite <-(Hrank (ManagedAsset.setResolveId
                          (ManagedAsset.setState m AssetStateResolvingLocation)
                          (uint64 (assetResolveIdSequence am + 1)))) in Hw by done.
      unfold queued. rewrite Htx. lia. }
    destruct (hasRemoteAssets bundle); eexists; (split; [done|]); by apply Hgoal.
  - eexists. split; [done|].
    match goal with |- context [scheduleAssetUpdateInTransaction ?a ?b] =>
      destruct (scheduleAssetUpdateInTransaction_frame a b) as (Ha & _);
      pose proof (queueStep_queued b a _ (queueStep_schedule b a)) as Hq;
      rewrite (workLeft_frame a _ Ha) end.
    match goal with |- context [putManagedAsset ?a key ?m'] =>
      pose proof (workLeft_replace am (putManagedAsset a key m') key m m' Hm eq_refl) as Hw;
      rewrite <-(Hrank m') in Hw by done
    end.
    unfold queued in *. simpl in *. lia.
Qed.

Lemma updateAsset_progress env am key :
  Inv am →
  ∃ am', updateAsset env am key = Done am'
         ∧ (workLeft am' + queued am' ≤ workLeft am + queued am)%nat.
Proof.
  intros HI. unfold updateAsset, getManagedAsset.
  destruct (assets am !! key) as [m|] eqn:Hm; [|eexists; split; [done|lia]].
  assert (Hlistener : ∀ am2 : t,
            (workLeft am2 + queued am2 ≤ workLeft am + queued am)%nat →
            ∃ am',
              match listener am2 with
              | Some l =>
                  Done (emit am2 (EvListenerManagedAssetUpdated l key
                                    (default m (assets am2 !! key))))
              | None => Done am2
              end = Done am'
              ∧ (workLeft am' + queued am' ≤ workLeft am + queued am)%nat).
  { intros am2 Hle. destruct (listener am2); eexists; (split; [done|]); done. }
  destruct (removeManagedAssetIfNeeded env am key m) as [[|] am1] eqn:Hrem.
  - apply removeManagedAssetIfNeeded_true in Hrem
      as (_ & _ & _ & Ha & _ & _ & _ & Htx & _).
    simpl. apply Hlistener.
    pose proof (workLeft_delete am am1 key m Hm Ha). unfold queued. rewrite Htx. lia.
  - apply removeManagedAssetIfNeeded_false in Hrem as ->.
    assert (Hstep : ∃ am2,
              match ManagedAsset.getState m with
              | AssetStateInitial =>
                  if ManagedAsset.hasConsumers m then resolveAssetLocation am key m
                  else Done am
              | AssetStateResolvingLocation => Done am
              | _ => updateAssetConsumers env am key m
              end = Done am2
              ∧ (workLeft am2 + queued am2 ≤ workLeft am + queued am)%nat).
    { destruct (ManagedAsset.getState m) eqn:Hs.
      - destruct (ManagedAsset.hasConsumers m); [|eexists; split; [done|lia]].
        by apply resolveAssetLocation_progress.
      - eexists. split; [done|lia].
      - apply updateAssetConsumers_progress; auto.
      - apply updateAssetConsumers_progress; auto.
      - apply updateAssetConsumers_progress; auto. }
    destruct Hstep as (am2 & Hstep & Hle).
    match goal with |- context [mbind _ ?x] => replace x with (Done (A:=t) am2) end.
    simpl. by apply Hlistener.
Qed.

Lemma drainUpdates_terminates fuel env am :
  Inv am → (workLeft am + queued am ≤ fuel)%nat →
  ∃ am', drainUpdates fuel env am = Done am'.
Proof.
  revert am. induction fuel as [|fuel IH]; intros am HI Hle; simpl.
  - unfold queued in Hle. destruct (currentTransaction am) as [[|update rest]|];
      simpl in *; try (by eexists). lia.
  - destruct (currentTransaction am) as [[|update rest]|] eqn:Htx; simpl; try (by eexists).
    match goal with |- context [updateAsset env ?a update] => set (am0 := a) end.
    assert (HI0 : Inv am0) by (by apply (Inv_frame am)).
    destruct (updateAsset_progress env am0 update HI0) as (am1 & Hup & Hle1).
    rewrite Hup. simpl. apply IH.
    + by eapply updateAsset_Inv.
    + unfold queued in Hle, Hle1. rewrite Htx in Hle. simpl in Hle, Hle1.
      rewrite (workLeft_frame am am0) in Hle1 by done. unfold queued. lia.
Qed.

Lemma foldl_enqueueUpdate_length updates tx :
  (length (foldl AssetsManagerTransaction.enqueueUpdate tx updates)
   ≤ length tx + length updates)%nat.
Proof.
  revert tx. induction updates as [|key updates IH]; intros tx; simpl; [lia|].
  specialize (IH (AssetsManagerTransaction.enqueueUpdate tx key)).
  pose proof (enqueueUpdate_length tx key). lia.
Qed.

Lemma performUpdates_terminates fuel env am :
  Inv am → currentThreadIsMainThread env = true → (drainBound am ≤ fuel)%nat →
  ∃ am', performUpdates fuel env am = Done am'.
Proof.
  intros HI Hmain Hle. unfold performUpdates. rewrite Hmain. simpl.
  match goal with |- context [drainUpdates fuel env ?x] =>
    destruct (drainUpdates_terminates fuel env x) as (am1 & Hd) end.
  - by apply (Inv_frame am).
  - unfold drainBound in Hle. unfold queued. simpl.
    pose proof (foldl_enqueueUpdate_length (scheduledUpdates am) []). simpl in *.
    rewrite (workLeft_frame am) by done. lia.
  - rewrite Hd. simpl. destruct (listener am1); by eexists.
Qed.

Lemma hasConsumers_nil m :
  ManagedAsset.hasConsumers m = negb (bool_decide (ManagedAsset.consumers m = [])).
Proof. unfold ManagedAsset.hasConsumers. by destruct (ManagedAsset.consumers m). Qed.

(** C3 (amended): when [setResolvedAssetLocation] is called and the asset
    is not already [Ready] with the same location, then, if the asset was
    [Ready] (with another location), every consumer has its result reset to
    empty, its state set to [Initial], its notified flag cleared and its
    request handler dropped by [updateConsumerRequestHandler], so that the
    counter of every request handler goes down by the number of consumers
    that held it; if the asset was in any other state its consumers are
    left as they are.  In both cases the resolve id is then 0, the payload
    caches are cleared, the state is [Ready] with the new location, and an
    update of the key is scheduled exactly when the asset has a consumer. *)
Theorem C3_set_resolved_asset_location (fuel : nat) (env : Env) (am : t)
  (key : AssetKey.t) (location : AssetLocation.t) :
  reachable am →
  let asset := (getOrCreateManagedAsset am key).1 in
  let am0 := (getOrCreateManagedAsset am key).2 in
  ¬ (ManagedAsset.getState asset = AssetStateReady
     ∧ ManagedAsset.getResolvedAssetLocation asset = Result.Ok location) →
  let wasReady := bool_decide (ManagedAsset.getState asset = AssetStateReady) in
  let cs :=
    if wasReady then resetConsumer <$> ManagedAsset.consumers asset
    else ManagedAsset.consumers asset in
  let am1 :=
    if wasReady then (resetConsumers am0 (ManagedAsset.consumers asset)).2 else am0 in
  let asset' :=
    ManagedAsset.mk AssetStateReady 0 (ManagedAsset.getObservable asset)
      (Result.Ok location) cs [] in
  setResolvedAssetLocation fuel env am key location
  = (if bool_decide (cs = []) then Done (putManagedAsset am1 key asset')
     else scheduleAssetUpdate fuel env (putManagedAsset am1 key asset') key)
  ∧ (wasReady = true →
     (resetConsumers am0 (ManagedAsset.consumers asset)).1 = cs
     ∧ assets am1 = assets am0
     ∧ (∀ h, consumersCountOf (requestHandlers am1) h
             = consumersCountOf (requestHandlers am) h
               - Z.of_nat (refsIn h (ManagedAsset.consumers asset)))
     ∧ pendingSound am1
     ∧ control am1 = control am
     ∧ currentTransaction am1 = currentTransaction am).
Proof.
  intros Hreach.
  pose proof (reachable_Inv am Hreach) as HI.
  pose proof (getOrCreateManagedAsset_Inv am key HI) as HI0.
  pose proof (getOrCreateManagedAsset_lookup am key) as Hm.
  pose proof (getOrCreateManagedAsset_frame am key) as (Hh0 & _ & _ & Htx0 & _ & Hctl0).
  unfold setResolvedAssetLocation.
  destruct (getOrCreateManagedAsset am key) as [asset am0] eqn:Hgoc.
  cbn [fst snd] in *. cbv zeta. intros Hnot.
  set (wasReady := bool_decide (ManagedAsset.getState asset = AssetStateReady)).
  set (cs := if wasReady then resetConsumer <$> ManagedAsset.consumers asset
             else ManagedAsset.consumers asset).
  set (am1 := if wasReady then (resetConsumers am0 (ManagedAsset.consumers asset)).2
              else am0).
  pose proof (Inv_lookup_location am0 key asset HI0 Hm) as [Hloc _].
  assert (Hspec : wasReady = true →
            (resetConsumers am0 (ManagedAsset.consumers asset)).1 = cs
            ∧ assets am1 = assets am0
            ∧ (∀ h, consumersCountOf (requestHandlers am1) h
                    = consumersCountOf (requestHandlers am) h
                      - Z.of_nat (refsIn h (ManagedAsset.consumers asset)))
            ∧ pendingSound am1
            ∧ control am1 = control am
            ∧ currentTransaction am1 = currentTransaction am).
  { intros Hw. unfold cs, am1. rewrite Hw.
    destruct (resetConsumers_spec am0 (ManagedAsset.consumers asset))
      as (Hcs & Hps & Hcnt & Ha & _ & Htx & Hctl).
    - by destruct HI0.
    - intros h. destruct HI0 as [_ _ Hc _]. specialize (Hc h).
      pose proof (refs_lookup am0 key asset h Hm). lia.
    - split_and!; try done.
      + intros h. by rewrite Hcnt, Hh0.
      + by rewrite Hctl.
      + by rewrite Htx. }
  split; [|done].
  assert (Hsame : (if wasReady
                   then Result.value (ManagedAsset.getResolvedAssetLocation asset)
                        ≫= λ l, Done (bool_decide (l = location))
                   else Done false) = Done false).
  { unfold wasReady. case_bool_decide as Hs; [|done].
    specialize (Hloc Hs).
    destruct (ManagedAsset.getResolvedAssetLocation asset) as [|l|e] eqn:Hl; try done.
    simpl. rewrite bool_decide_eq_false_2; [done|]. intros ->. by apply Hnot. }
  rewrite Hsame. simpl.
  assert (Hpair : (if wasReady then resetConsumers am0 (ManagedAsset.consumers asset)
                   else (ManagedAsset.consumers asset, am0)) = (cs, am1)).
  { unfold cs, am1. destruct wasReady eqn:Hw; [|done].
    destruct (Hspec eq_refl) as (Hcs & _). unfold cs in Hcs.
    rewrite <-Hcs. by destruct (resetConsumers am0 _). }
  rewrite Hpair. rewrite hasConsumers_nil. simpl.
  by destruct (bool_decide (cs = [])).
Qed.

(** * Completions of a resolution *)

Lemma resolveRemoteAssetLocation_failure env key e :
  resolveRemoteAssetLocation env key (Result.Err e) = Done (Result.Err e).
Proof. done. Qed.

(** C4: a completion of a resolution that finds the managed asset gone or
    under another resolve id is dropped, the state of the manager being
    unchanged.  Otherwise (the asset is there, the resolve id is the one of
    the completion and, as the code asserts, the asset is
    [ResolvingLocation]) a failure of the remote [loadResources] makes the
    asset [FailedRetryable] with the error as resolved location, a failure
    of the local resolution makes it [FailedPermanently] with the error,
    and a resolved location makes it [Ready] with that location; the key
    is then scheduled for an update. *)
Theorem C4_resolution_completion (fuel : nat) (env : Env) (am : t) (key : AssetKey.t) :
  is_Some (AssetKey.getBundle key) →
  (∀ result resolveId,
     Result.empty result = false →
     getManagedAsset am key = None
     ∨ (∃ m, getManagedAsset am key = Some m ∧ ManagedAsset.getResolveId m ≠ resolveId) →
     onLoadingRemoteResourcesCompleted fuel env am key result resolveId = Done am)
  ∧ (∀ resolveId,
       getManagedAsset am key = None
       ∨ (∃ m, getManagedAsset am key = Some m ∧ ManagedAsset.getResolveId m ≠ resolveId) →
       resolveLocalAssetLocationAndUpdate fuel env am key resolveId = Done am)
  ∧ (∀ m,
       getManagedAsset am key = Some m →
       ManagedAsset.getState m = AssetStateResolvingLocation →
       let becomes state location :=
         scheduleAssetUpdate fuel env
           (putManagedAsset am key
              (ManagedAsset.setResolvedAssetLocation (ManagedAsset.setState m state) location))
           key in
       (∀ e,
          onLoadingRemoteResourcesCompleted fuel env am key (Result.Err e)
            (ManagedAsset.getResolveId m)
          = becomes AssetStateFailedRetryable (Result.Err e))
       ∧ (∀ resources location,
            resolveRemoteAssetLocation env key (Result.Ok resources)
            = Done (Result.Ok location) →
            onLoadingRemoteResourcesCompleted fuel env am key (Result.Ok resources)
              (ManagedAsset.getResolveId m)
            = becomes AssetStateReady (Result.Ok location))
       ∧ (∀ e,
            resolveLocalAssetLocation env key = Done (Result.Err e) →
            resolveLocalAssetLocationAndUpdate fuel env am key (ManagedAsset.getResolveId m)
            = becomes AssetStateFailedPermanently (Result.Err e))
       ∧ (∀ location,
            resolveLocalAssetLocation env key = Done (Result.Ok location) →
            resolveLocalAssetLocationAndUpdate fuel env am key (ManagedAsset.getResolveId m)
            = becomes AssetStateReady (Result.Ok location))).
Proof.
  intros [bundle Hb].
  assert (Hremote : ∀ result, Result.empty result = false →
            ∃ location, resolveRemoteAssetLocation env key result = Done location).
  { intros [|resources|e] Hne; [done| |by eexists].
    unfold resolveRemoteAssetLocation. rewrite Hb.
    destruct (getResourceCacheUrl _ _); [by eexists|].
    destruct (resolveLocalAssetURL env); [|by eexists].
    destruct (bool_decide _); by eexists. }
  assert (Hlocal : ∃ location, resolveLocalAssetLocation env key = Done location).
  { unfold resolveLocalAssetLocation. rewrite Hb.
    destruct (resolveLocalAssetURL env); [|by eexists].
    destruct (bool_decide _); by eexists. }
  split_and!.
  - intros result resolveId Hne Hstale. unfold onLoadingRemoteResourcesCompleted.
    destruct (Hremote result Hne) as [location ->]. simpl.
    destruct Hstale as [->|(m & -> & Hid)]; [done|].
    by rewrite bool_decide_eq_true_2.
  - intros resolveId Hstale. unfold resolveLocalAssetLocationAndUpdate.
    destruct Hlocal as [location ->]. simpl.
    destruct Hstale as [->|(m & -> & Hid)]; [done|].
    by rewrite bool_decide_eq_true_2.
  - intros m Hm Hs becomes. split_and!.
    + intros e. unfold onLoadingRemoteResourcesCompleted. simpl. rewrite Hm.
      rewrite bool_decide_eq_false_2 by (intros Hne; by apply Hne).
      rewrite Hs. simpl. done.
    + intros resources location Hres. unfold onLoadingRemoteResourcesCompleted.
      rewrite Hres. simpl. rewrite Hm.
      rewrite bool_decide_eq_false_2 by (intros Hne; by apply Hne).
      rewrite Hs. simpl. unfold updateAssetLocation. rewrite Hs. simpl. done.
    + intros e Hres. unfold resolveLocalAssetLocationAndUpdate.
      rewrite Hres. simpl. rewrite Hm.
      rewrite bool_decide_eq_false_2 by (intros Hne; by apply Hne).
      unfold updateAssetLocation. rewrite Hs. simpl. done.
    + intros location Hres. unfold resolveLocalAssetLocationAndUpdate.
      rewrite Hres. simpl. rewrite Hm.
      rewrite bool_decide_eq_false_2 by (intros Hne; by apply Hne).
      unfold updateAssetLocation. rewrite Hs. simpl. done.
Qed.

(** A remote module that loads but does not know the asset makes the asset
    fail permanently, through [updateAssetLocation]. *)
Lemma remote_lookup_failure_is_permanent fuel env am key m resources e :
  getManagedAsset am key = Some m →
  ManagedAsset.getState m = AssetStateResolvingLocation →
  resolveRemoteAssetLocation env key (Result.Ok resources) = Done (Result.Err e) →
  onLoadingRemoteResourcesCompleted fuel env am key (Result.Ok resources)
    (ManagedAsset.getResolveId m)
  = scheduleAssetUpdate fuel env
      (putManagedAsset am key
         (ManagedAsset.setResolvedAssetLocation
            (ManagedAsset.setState m AssetStateFailedPermanently) (Result.Err e)))
      key.
Proof.
  intros Hm Hs Hres. unfold onLoadingRemoteResourcesCompleted.
  rewrite Hres. simpl. rewrite Hm.
  rewrite bool_decide_eq_false_2 by (intros Hne; by apply Hne).
  rewrite Hs. simpl. unfold updateAssetLocation. rewrite Hs. simpl. done.
Qed.

(** * Completion of a load *)

Lemma onLoadConsumers_total cs request result :
  Result.empty result = false →
  ∃ cs', onLoadConsumers cs request result = Done cs'.
Proof.
  intros Hne. induction cs as [|c cs [cs' IH]]; simpl; [by eexists|].
  rewrite IH. destruct (bool_decide _); simpl; [|by eexists].
  unfold onConsumerLoad. destruct result as [|[a|]|e]; try done; simpl; by eexists.
Qed.

(** C5: [onLoad] returns without any change of state when the key of the
    request has no managed asset or the request is scheduled for
    cancelation.  Otherwise the result becomes the last load result of the
    request, [onConsumerLoad] is applied to exactly the consumers of the
    managed asset whose request handler is the request, the others being
    left as they are, and the key is scheduled for an update. *)
Theorem C5_on_load (fuel : nat) (env : Env) (am : t) (request : HandlerRef)
  (r : AssetLoaderRequestHandler.t) (result : LoadResult) :
  requestHandlers am !! request = Some r →
  (getManagedAsset am (AssetLoaderRequestHandler.getAssetKey r) = None
   ∨ AssetLoaderRequestHandler.scheduledForCancelation r = true →
   onLoad fuel env am request result = Done am)
  ∧ (∀ m,
       getManagedAsset am (AssetLoaderRequestHandler.getAssetKey r) = Some m →
       AssetLoaderRequestHandler.scheduledForCancelation r = false →
       Result.empty result = false →
       ∃ cs,
         Forall2 (λ c c',
                    if bool_decide (AssetConsumer.getAssetLoaderCompletion c = Some request)
                    then onConsumerLoad c result = Done c'
                    else c' = c)
           (ManagedAsset.consumers m) cs
         ∧ onLoad fuel env am request result
           = scheduleAssetUpdate fuel env
               (putManagedAsset
                  (putRequest am request
                     (AssetLoaderRequestHandler.setLastLoadResult r result))
                  (AssetLoaderRequestHandler.getAssetKey r)
                  (ManagedAsset.setConsumers m cs))
               (AssetLoaderRequestHandler.getAssetKey r)).
Proof.
  intros Hr. split.
  - intros Hstale. unfold onLoad. rewrite Hr.
    destruct (getManagedAsset am _) as [m|]; [|done].
    destruct Hstale as [?| ->]; done.
  - intros m Hm Hc Hne. unfold onLoad. rewrite Hr, Hm, Hc.
    destruct (onLoadConsumers_total (ManagedAsset.consumers m) request result Hne)
      as [cs Hcs].
    exists cs. split; [by apply onLoadConsumers_spec|].
    by rewrite Hcs.
Qed.

(** * Pausing *)


(** * The example states are reachable *)

Lemma readyState_reachable : reachable readyState.
Proof.
  apply (reachable_step create); [apply reachable_create|].
  apply (step_setResolvedAssetLocation 0 (exampleEnv true) create exampleKey exampleLocation).
  vm_compute. reflexivity.
Defined.

Lemma loadingState_reachable : reachable loadingState.
Proof.
  apply (reachable_step create); [apply reachable_create|].
  apply (step_addAssetLoadObserver 5 (exampleEnv true) create exampleKey (Some 1%nat)
           0%nat 0%nat 100 100 EmptyString).
  vm_compute. reflexivity.
Defined.

Lemma loadedState_reachable : reachable loadedState.
Proof.
  apply (reachable_step loadingState); [apply loadingState_reachable|].
  apply (step_onLoad 5 (exampleEnv true) loadingState 0%nat (Result.Ok (Some 9%nat))).
  vm_compute. reflexivity.
Defined.

Lemma canceledState_reachable : reachable canceledState.
Proof.
  apply (reachable_step loadingState); [apply loadingState_reachable|].
  apply (step_removeAssetLoadObserver 5 (exampleEnv true) loadingState exampleKey
           (Some 1%nat)).
  vm_compute. reflexivity.
Defined.

Lemma C1_witness : locationAgrees (assetWith AssetStateReady (Result.Ok exampleLocation) []).
Proof.
  apply (C1_state_agrees_with_resolved_location readyState exampleKey).
  - apply readyState_reachable.
  - vm_compute. reflexivity.
Defined.

Lemma pausedState_reachable : reachable pausedState.
Proof.
  apply (reachable_step (beginPauseUpdates create)).
  - apply (reachable_step create); [apply reachable_create|apply step_beginPauseUpdates].
  - apply (step_addAssetLoadObserver 5 (exampleEnv true) (beginPauseUpdates create)
             exampleKey (Some 1%nat) 0%nat 0%nat 100 100 EmptyString).
    vm_compute. reflexivity.
Defined.

(** * The selector on examples *)

Lemma C2_witness :
  getNextConsumerToUpdate selectorAsset false = (Some (1%nat, observedInitial), true).
Proof.
  destruct (C2_next_consumer_to_update selectorAsset false) as (_ & _ & Hfirst).
  destruct (Hfirst [] clearedNotified [observedInitial]) as (_ & Hgive & _).
  - reflexivity.
  - constructor.
  - reflexivity.
  - apply (Hgive eq_refl [] observedInitial []).
    + reflexivity.
    + constructor.
    + reflexivity.
Defined.

(** The selector differs from the wording of the specification, whether or
    not that wording exempts cleared observers from the skipping rule: a
    cleared and notified consumer followed by an observed one yields the
    second consumer with [hasMore] set, and a lone cleared consumer yields
    [hasMore] set although it is the only candidate. *)
Lemma C2_counterexample :
  getNextConsumerToUpdate selectorAsset false = (Some (1%nat, observedInitial), true)
  ∧ nextConsumerToUpdateBySpec true selectorAsset = (Some (0%nat, clearedNotified), true)
  ∧ nextConsumerToUpdateBySpec false selectorAsset = (Some (1%nat, observedInitial), false)
  ∧ getNextConsumerToUpdate loneClearedAsset false = (Some (0%nat, clearedInitial), true)
  ∧ nextConsumerToUpdateBySpec true loneClearedAsset = (Some (0%nat, clearedInitial), false)
  ∧ nextConsumerToUpdateBySpec false loneClearedAsset
    = (Some (0%nat, clearedInitial), false).
Proof. split_and!; reflexivity. Qed.

(** * Forcing a location on examples *)

Lemma C3_witness :
  (resetConsumers (getOrCreateManagedAsset loadedState exampleKey).2
     (ManagedAsset.consumers (getOrCreateManagedAsset loadedState exampleKey).1)).1
  = (if bool_decide
          (ManagedAsset.getState (getOrCreateManagedAsset loadedState exampleKey).1
           = AssetStateReady)
     then resetConsumer
            <$> ManagedAsset.consumers (getOrCreateManagedAsset loadedState exampleKey).1
     else ManagedAsset.consumers (getOrCreateManagedAsset loadedState exampleKey).1).
Proof.
  destruct (C3_set_resolved_asset_location 0 (exampleEnv false) loadedState exampleKey
              otherLocation loadedState_reachable) as [_ Hready].
  - intros [_ Heq]. vm_compute in Heq. discriminate Heq.
  - destruct Hready as (Hcs & _).
    + reflexivity.
    + exact Hcs.
Defined.

(** An asset that failed for good and whose consumer has been told is given
    a location: the asset becomes [Ready], the consumer stays [Failed] and
    notified. *)
Lemma C3_counterexample :
  getManagedAsset failedState exampleBundleKey = Some failedAsset
  ∧ ManagedAsset.getState failedAsset ≠ AssetStateReady
  ∧ ManagedAsset.consumers failedAsset = [failedConsumer]
  ∧ (∃ m,
       getManagedAsset
         (stateOf (setResolvedAssetLocation 0 (exampleEnv false) failedState
                     exampleBundleKey exampleLocation)) exampleBundleKey = Some m
       ∧ ManagedAsset.getState m = AssetStateReady
       ∧ ManagedAsset.consumers m = [failedConsumer])
  ∧ AssetConsumer.getState failedConsumer = AssetConsumerStateFailed
  ∧ AssetConsumer.notified failedConsumer = true
  ∧ failedConsumer ≠ resetConsumer failedConsumer.
Proof.
  split_and!.
  - vm_compute. reflexivity.
  - discriminate.
  - reflexivity.
  - eexists. split_and!; vm_compute; reflexivity.
  - reflexivity.
  - reflexivity.
  - discriminate.
Qed.

(** * Completions on examples *)

Lemma C4_witness :
  onLoadingRemoteResourcesCompleted 0 (exampleEnv false) resolvingState exampleBundleKey
    (Result.Err "offline") 0
  = scheduleAssetUpdate 0 (exampleEnv false)
      (putManagedAsset resolvingState exampleBundleKey
         (ManagedAsset.setResolvedAssetLocation
            (ManagedAsset.setState resolvingAsset AssetStateFailedRetryable)
            (Result.Err "offline")))
      exampleBundleKey
  ∧ onLoadingRemoteResourcesCompleted 0 (exampleEnv false) resolvingState exampleBundleKey
      (Result.Err "offline") 4
    = Done resolvingState.
Proof.
  destruct (C4_resolution_completion 0 (exampleEnv false) resolvingState exampleBundleKey)
    as (Hstale & _ & Hfresh).
  - eexists. reflexivity.
  - split.
    + destruct (Hfresh resolvingAsset) as (Hretry & _).
      * vm_compute. reflexivity.
      * reflexivity.
      * apply (Hretry "offline"%string).
    + apply Hstale; [reflexivity|]. right. exists resolvingAsset. split.
      * vm_compute. reflexivity.
      * vm_compute. discriminate.
Defined.

Lemma C5_witness :
  ∃ cs,
    onLoad 5 (exampleEnv true) loadingState 0%nat (Result.Ok (Some 9%nat))
    = scheduleAssetUpdate 5 (exampleEnv true)
        (putManagedAsset
           (putRequest loadingState 0%nat
              (AssetLoaderRequestHandler.setLastLoadResult
                 (AssetLoaderRequestHandler.mk exampleKey 0%nat 7%nat "u" 100 100 EmptyString
                    1 true false Result.Empty)
                 (Result.Ok (Some 9%nat))))
           exampleKey
           (ManagedAsset.setConsumers
              (default ManagedAsset.create (getManagedAsset loadingState exampleKey)) cs))
        exampleKey.
Proof.
  destruct (C5_on_load 5 (exampleEnv true) loadingState 0%nat
              (AssetLoaderRequestHandler.mk exampleKey 0%nat 7%nat "u" 100 100 EmptyString
                 1 true false Result.Empty)
              (Result.Ok (Some 9%nat))) as [_ Hfresh].
  - vm_compute. reflexivity.
  - destruct (Hfresh (default ManagedAsset.create (getManagedAsset loadingState exampleKey)))
      as (cs & _ & Hload).
    + vm_compute. reflexivity.
    + reflexivity.
    + reflexivity.
    + exists cs. exact Hload.
Defined.

(** * Request handlers on examples *)

Lemma C6_witness :
  (0%nat ∉ pendingLoadRequests canceledState
   ∨ AssetLoaderRequestHandler.scheduledForCancelation
       (AssetLoaderRequestHandler.mk exampleKey 0%nat 7%nat "u" 100 100 EmptyString
          0 true true Result.Empty) = true)
  ∧ ∃ r',
      requestHandlers
        (updateConsumerRequestHandler loadingState
           (AssetConsumer.setAssetLoaderCompletion AssetConsumer.create (Some 0%nat)) None).2
        !! 0%nat = Some r'
      ∧ AssetLoaderRequestHandler.scheduledForCancelation r' = true.
Proof.
  split.
  - destruct (C6_requests_without_consumers canceledState canceledState_reachable)
      as [Hzero _].
    apply (Hzero 0%nat).
    + vm_compute. reflexivity.
    + reflexivity.
  - destruct (C6_requests_without_consumers loadingState loadingState_reachable)
      as [_ Hlast].
    destruct (Hlast (AssetConsumer.setAssetLoaderCompletion AssetConsumer.create (Some 0%nat))
                None 0%nat
                (AssetLoaderRequestHandler.mk exampleKey 0%nat 7%nat "u" 100 100 EmptyString
                   1 true false Result.Empty))
      as (r' & Hr' & Hflag & _).
    + reflexivity.
    + vm_compute. reflexivity.
    + reflexivity.
    + reflexivity.
    + exists r'. split; [exact Hr'|exact Hflag].
Defined.

(** * Pausing on examples *)


(** * Removal on examples *)

Lemma C8_witness :
  ∃ am1,
    updateAsset (exampleEnv true) idleState exampleKey
    = Done (emit am1 (EvListenerManagedAssetUpdated 3%nat exampleKey idleAsset))
    ∧ assets am1 = delete exampleKey (assets idleState).
Proof.
  destruct (C8_update_asset_removes (exampleEnv true) idleState exampleKey idleAsset)
    as (am1 & _ & Ha & _ & _ & _ & _ & _ & _ & Hup).
  - vm_compute. reflexivity.
  - reflexivity.
  - reflexivity.
  - left. reflexivity.
  - exists am1. split; [exact Hup|exact Ha].
Defined.

(** The managed asset is removable and is removed, and the listener is
    notified all the same. *)
Lemma C8_counterexample :
  getManagedAsset idleState exampleKey = Some idleAsset
  ∧ ManagedAsset.hasConsumers idleAsset = false
  ∧ ManagedAsset.getObservable idleAsset = None
  ∧ AssetKey.isURL exampleKey = true
  ∧ getManagedAsset (stateOf (updateAsset (exampleEnv true) idleState exampleKey)) exampleKey
    = None
  ∧ trace (stateOf (updateAsset (exampleEnv true) idleState exampleKey))
    = [EvListenerManagedAssetUpdated 3%nat exampleKey idleAsset].
Proof. split_and!; vm_compute; reflexivity. Qed.

(** * The no-op on an example *)

Lemma C9_witness :
  setResolvedAssetLocation 0 (exampleEnv true) readyState exampleKey exampleLocation
  = Done readyState.
Proof.
  apply (C9_set_same_location_is_noop 0 (exampleEnv true) readyState exampleKey
           exampleLocation (assetWith AssetStateReady (Result.Ok exampleLocation) [])).
  - vm_compute. reflexivity.
  - reflexivity.
  - reflexivity.
Defined.

(** * The drain in reachable states *)



(** X2: [flushUpdates] returns the state as it is when nothing is scheduled
    or when the caller is not on the main thread.  Otherwise it drains, and
    it does so whatever the pause count is: in a reachable state the drain
    returns within [drainBound am] rounds, and then no update is scheduled,
    no transaction is current and the pause count is the one before. *)
Theorem flushUpdates_drains (fuel : nat) (env : Env) (am : t) :
  (scheduledUpdates am = [] ∨ currentThreadIsMainThread env = false →
   flushUpdates fuel env am = Done am)
  ∧ (reachable am →
     scheduledUpdates am ≠ [] →
     currentThreadIsMainThread env = true →
     (drainBound am ≤ fuel)%nat →
     ∃ am', flushUpdates fuel env am = Done am'
            ∧ scheduledUpdates am' = []
            ∧ currentTransaction am' = None
            ∧ pauseUpdatesCount am' = pauseUpdatesCount am).
Proof.
  split.
  - intros [Hs|Hmain]; unfold flushUpdates.
    + by rewrite Hs.
    + rewrite Hmain. by rewrite orb_true_r.
  - intros Hr Hs Hmain Hfuel. unfold flushUpdates.
    rewrite (bool_decide_eq_false_2 (scheduledUpdates am = [])) by done.
    rewrite Hmain. simpl.
    destruct (performUpdates_terminates fuel env am (reachable_Inv am Hr) Hmain Hfuel)
      as (am' & Hp).
    exists am'. split; [done|].
    apply performUpdates_spec in Hp as (_ & Hs' & Hp' & _ & _ & Htx). done.
Qed.

Lemma flushUpdates_drains_witness :
  flushUpdates 5 (exampleEnv false) pausedState = Done pausedState
  ∧ ∃ am', flushUpdates 5 (exampleEnv true) pausedState = Done am'
           ∧ scheduledUpdates am' = []
           ∧ currentTransaction am' = None
           ∧ pauseUpdatesCount am' = pauseUpdatesCount pausedState.
Proof.
  split.
  - apply (flushUpdates_drains 5 (exampleEnv false) pausedState). right. reflexivity.
  - apply (flushUpdates_drains 5 (exampleEnv true) pausedState).
    + exact pausedState_reachable.
    + intros Heq. discriminate Heq.
    + reflexivity.
    + apply Nat.leb_le. reflexivity.
Defined.

(** * Pausing *)

(** X3: a pause that is opened and closed inside another pause changes
    nothing: no drain runs, no flush is scheduled and the state is the one
    before [beginPauseUpdates]. *)
Theorem nested_pause_is_inert (fuel : nat) (env : Env) (am : t) :
  0 < pauseUpdatesCount am →
  endPauseUpdates fuel env (beginPauseUpdates am) = Done am.
Proof.
  intros Hp. unfold endPauseUpdates, beginPauseUpdates. simpl.
  rewrite (bool_decide_eq_true_2 (0 < pauseUpdatesCount am + 1)) by lia.
  rewrite (bool_decide_eq_false_2 (pauseUpdatesCount am + 1 = 1)) by lia.
  simpl.
  rewrite (bool_decide_eq_false_2 (pauseUpdatesCount am + 1 - 1 = 0)) by lia.
  destruct am; unfold set_pauseUpdatesCount; simpl in *. do 2 f_equal. lia.
Qed.

Lemma nested_pause_is_inert_witness :
  endPauseUpdates 0 (exampleEnv true) (beginPauseUpdates pausedState) = Done pausedState.
Proof.
  apply (nested_pause_is_inert 0 (exampleEnv true) pausedState). reflexivity.
Defined.

Lemma scheduleAssetUpdate_pauseUpdatesCount fuel env am key am' :
  scheduleAssetUpdate fuel env am key = Done am' →
  pauseUpdatesCount am' = pauseUpdatesCount am.
Proof.
  unfold scheduleAssetUpdate. destruct (currentTransaction am) eqn:Htx.
  - intros [= <-]. unfold scheduleAssetUpdateInTransaction. by rewrite Htx.
  - destruct (bool_decide (pauseUpdatesCount am = 0) && bool_decide (scheduledUpdates am = [])).
    + destruct (currentThreadIsMainThread env).
      * intros (_ & _ & Hp & _)%performUpdates_spec. done.
      * by intros [= <-].
    + by intros [= <-].
Qed.

Lemma control_pauseUpdatesCount am am' :
  control am' = control am → pauseUpdatesCount am' = pauseUpdatesCount am.
Proof. unfold control. by intros [= -> _ _ _ _]. Qed.

Lemma resetConsumers_pauseUpdatesCount am cs :
  pauseUpdatesCount (resetConsumers am cs).2 = pauseUpdatesCount am.
Proof.
  revert am. induction cs as [|c cs IH]; intros am; [done|].
  rewrite resetConsumers_cons.
  destruct (updateConsumerRequestHandler am _ None) as [c1 am1] eqn:Hu.
  destruct (resetConsumers am1 cs) as [rest am2] eqn:Hr. simpl.
  specialize (IH am1). rewrite Hr in IH. simpl in IH. rewrite IH.
  match type of Hu with updateConsumerRequestHandler am ?c0 None = _ =>
    pose proof (updateConsumerRequestHandler_frame am c0 None) as Hf end.
  rewrite Hu in Hf. simpl in Hf. destruct Hf as (_ & _ & _ & _ & _ & Hc).
  by apply control_pauseUpdatesCount.
Qed.

Lemma getOrCreateManagedAsset_pauseUpdatesCount am key :
  pauseUpdatesCount (getOrCreateManagedAsset am key).2 = pauseUpdatesCount am.
Proof. unfold getOrCreateManagedAsset. by destruct (getManagedAsset am key). Qed.

Lemma lockFreeGetAsset_pauseUpdatesCount am key :
  pauseUpdatesCount (lockFreeGetAsset am key).2 = pauseUpdatesCount am.
Proof.
  unfold lockFreeGetAsset, getOrCreateManagedAsset.
  destruct (getManagedAsset am key) as [m|]; simpl.
  - by destruct (ManagedAsset.getObservable m).
  - done.
Qed.

Lemma flushLoadRequestsLoop_pauseUpdatesCount rounds am :
  pauseUpdatesCount (flushLoadRequestsLoop rounds am) = pauseUpdatesCount am.
Proof.
  revert am. induction rounds as [|rounds IH]; intros am; simpl; [done|].
  destruct (pendingLoadRequests am) as [|h rest]; [done|].
  destruct (bool_decide (pauseUpdatesCount am = 0)); [|done].
  simpl. destruct (requestHandlers am !! h) as [r|]; [|by rewrite IH].
  destruct (AssetLoaderRequestHandler.scheduledForCancelation r); by rewrite IH.
Qed.

Lemma scheduleFlushLoadRequests_pauseUpdatesCount am :
  pauseUpdatesCount (scheduleFlushLoadRequests am) = pauseUpdatesCount am.
Proof.
  unfold scheduleFlushLoadRequests.
  by destruct (negb (pendingLoadRequestsScheduled am)
               && negb (bool_decide (pendingLoadRequests am = []))).
Qed.

(** What a step does to the pause count: only [beginPauseUpdates] and
    [endPauseUpdates] write it. *)
Lemma step_pauseUpdatesCount am am' :
  step am am' →
  pauseUpdatesCount am' = pauseUpdatesCount am
  ∨ pauseUpdatesCount am' = pauseUpdatesCount am + 1
  ∨ (0 < pauseUpdatesCount am ∧ pauseUpdatesCount am' = pauseUpdatesCount am - 1).
Proof.
  destruct 1 as [am key|am url|am key|fuel env am key location am' H
                |fuel env am key observer context outputType w h data am' H
                |fuel env am key observer am' H|am key observer w h|am key
                |fuel env am key am' H|fuel env am key resolveId am' H
                |fuel env am key result resolveId am' H|fuel env am request result am' H
                |am|am|fuel env am am' H|fuel env am am' H|fuel env am am' H
                |am l|am b|env am key am' H|am tx|am updates].
  - left. apply lockFreeGetAsset_pauseUpdatesCount.
  - left. unfold createAssetWithBytes. rewrite lockFreeGetAsset_pauseUpdatesCount.
    by destruct (assetBytesStore am).
  - left. unfold getResolvedAssetLocation. destruct (getManagedAsset am key) as [m|]; [|done].
    by destruct (ManagedAsset.getResolvedAssetLocation m).
  - left. unfold setResolvedAssetLocation in H.
    pose proof (getOrCreateManagedAsset_pauseUpdatesCount am key) as Hg.
    destruct (getOrCreateManagedAsset am key) as [asset am0]. simpl in Hg.
    destruct (bool_decide (ManagedAsset.getState asset = AssetStateReady)) eqn:Hready.
    + destruct (ManagedAsset.getResolvedAssetLocation asset) as [|l0|]; try done. simpl in H.
      destruct (bool_decide (l0 = location)); [by simplify_eq|].
      pose proof (resetConsumers_pauseUpdatesCount am0 (ManagedAsset.consumers asset)) as Hrc.
      destruct (resetConsumers am0 (ManagedAsset.consumers asset)) as [cs am1]. simpl in Hrc.
      match type of H with (if ?b then _ else _) = _ => destruct b end.
      * apply scheduleAssetUpdate_pauseUpdatesCount in H. simpl in H. congruence.
      * simplify_eq. simpl. congruence.
    + simpl in H.
      match type of H with (if ?b then _ else _) = _ => destruct b end.
      * apply scheduleAssetUpdate_pauseUpdatesCount in H. simpl in H. congruence.
      * simplify_eq. simpl. congruence.
  - left. unfold addAssetLoadObserver in H.
    pose proof (getOrCreateManagedAsset_pauseUpdatesCount am key) as Hg.
    destruct (getOrCreateManagedAsset am key) as [asset am0]. simpl in Hg.
    apply scheduleAssetUpdate_pauseUpdatesCount in H. simpl in H. congruence.
  - left. unfold removeAssetLoadObserver in H.
    destruct (getManagedAsset am key); [|by simplify_eq].
    by apply scheduleAssetUpdate_pauseUpdatesCount in H.
  - by left.
  - left. unfold expireObservable. by destruct (getManagedAsset am key).
  - left. unfold onObservableDestroyed in H.
    destruct (getManagedAsset am key); [|by simplify_eq].
    by apply scheduleAssetUpdate_pauseUpdatesCount in H.
  - left. unfold resolveLocalAssetLocationAndUpdate in H.
    destruct (resolveLocalAssetLocation env key) as [location|]; [|done]. simpl in H.
    destruct (getManagedAsset am key) as [m|]; [|by simplify_eq].
    destruct (bool_decide (ManagedAsset.getResolveId m ≠ resolveId)); [by simplify_eq|].
    destruct (updateAssetLocation m location) as [m'|]; [|done]. simpl in H.
    by apply scheduleAssetUpdate_pauseUpdatesCount in H.
  - left. unfold onLoadingRemoteResourcesCompleted in H.
    destruct (resolveRemoteAssetLocation env key result) as [location|]; [|done]. simpl in H.
    destruct (getManagedAsset am key) as [m|]; [|by simplify_eq].
    destruct (bool_decide (ManagedAsset.getResolveId m ≠ resolveId)); [by simplify_eq|].
    destruct (SC_ASSERT _); [|done]. simpl in H.
    match type of H with mbind _ ?x = _ => destruct x as [m'|]; [|done] end. simpl in H.
    by apply scheduleAssetUpdate_pauseUpdatesCount in H.
  - left. unfold onLoad in H.
    destruct (requestHandlers am !! request) as [r|]; [|done].
    destruct (getManagedAsset am _) as [m|]; [|by simplify_eq].
    destruct (AssetLoaderRequestHandler.scheduledForCancelation r); [by simplify_eq|].
    destruct (onLoadConsumers _ _ _) as [cs|]; [|done]. simpl in H.
    by apply scheduleAssetUpdate_pauseUpdatesCount in H.
  - left. unfold flushLoadRequests. simpl. apply flushLoadRequestsLoop_pauseUpdatesCount.
  - right. left. done.
  - right. right. unfold endPauseUpdates in H.
    destruct (bool_decide (0 < pauseUpdatesCount am)) eqn:Hpos; [|done].
    apply bool_decide_eq_true in Hpos. split; [done|]. simpl in H.
    match type of H with mbind _ ?x = _ => destruct x as [am1|] eqn:H1; [|done] end.
    simpl in H.
    assert (Hp1 : pauseUpdatesCount am1 = pauseUpdatesCount am).
    { match type of H1 with (if ?b then _ else _) = _ => destruct b end.
      - by apply performUpdates_spec in H1 as (_ & _ & ? & _).
      - by simplify_eq. }
    rewrite Hp1 in H.
    match type of H with (if ?b then _ else _) = _ => destruct b end.
    + match type of H with (if ?b then _ else _) = _ => destruct b end.
      * match type of H with (if ?b then _ else _) = _ => destruct b end.
        -- simplify_eq. simpl. by rewrite scheduleFlushLoadRequests_pauseUpdatesCount.
        -- apply performUpdates_spec in H as (_ & _ & -> & _).
           by rewrite scheduleFlushLoadRequests_pauseUpdatesCount.
      * simplify_eq. by rewrite scheduleFlushLoadRequests_pauseUpdatesCount.
    + by simplify_eq.
  - left. unfold flushUpdates in H.
    match type of H with (if ?b then _ else _) = _ => destruct b end; [by simplify_eq|].
    by apply performUpdates_spec in H as (_ & _ & ? & _).
  - left. by apply performUpdates_spec in H as (_ & _ & ? & _).
  - by left.
  - by left.
  - left. by apply control_pauseUpdatesCount, (updateAsset_control env am key).
  - by left.
  - by left.
Qed.

(** X4: in every reachable state the pause count is non-negative: only
    [beginPauseUpdates] and [endPauseUpdates] write it, and the second one
    asserts that it is positive before it takes one off. *)
Theorem pauseUpdatesCount_never_negative (am : t) :
  reachable am → 0 ≤ pauseUpdatesCount am.
Proof.
  induction 1 as [|am am' _ IH Hstep]; [done|].
  destruct (step_pauseUpdatesCount am am' Hstep) as [->|[->|[? ->]]]; lia.
Qed.

Lemma pauseUpdatesCount_never_negative_witness : 0 ≤ pauseUpdatesCount pausedState.
Proof. exact (pauseUpdatesCount_never_negative pausedState pausedState_reachable). Defined.

(** * The registry and the observables *)

Lemma putManagedAsset_same am key m :
  assets am !! key = Some m → putManagedAsset am key m = am.
Proof.
  intros Hm. unfold putManagedAsset, set_assets. rewrite insert_id by done. by destruct am.
Qed.

Lemma putManagedAsset_twice am key m m' :
  putManagedAsset (putManagedAsset am key m) key m' = putManagedAsset am key m'.
Proof. unfold putManagedAsset, set_assets. simpl. by rewrite insert_insert_eq. Qed.

(** X5: [getAsset] hands out the live observable of the managed asset and
    makes a new one only when there is none.  The managed asset is made when
    the key is new and otherwise keeps everything but the observable; no
    other key is touched; asking again gives the same observable and leaves
    the state as it is. *)
Theorem getAsset_hands_out_one_observable (am : t) (key : AssetKey.t) :
  let observable := (getAsset am key).1 in
  let am1 := (getAsset am key).2 in
  getAsset am1 key = (observable, am1)
  ∧ getManagedAsset am1 key
    = Some (ManagedAsset.setObservable
              (default ManagedAsset.create (getManagedAsset am key)) (Some observable))
  ∧ (∀ m o, getManagedAsset am key = Some m → ManagedAsset.getObservable m = Some o →
            observable = o ∧ am1 = am)
  ∧ ((∀ m, getManagedAsset am key = Some m → ManagedAsset.getObservable m = None) →
     observable = observablesCreated am
     ∧ observablesCreated am1 = S (observablesCreated am))
  ∧ (∀ key', key' ≠ key → getManagedAsset am1 key' = getManagedAsset am key')
  ∧ isAssetAlive am1 key = true.
Proof.
  unfold getAsset, lockFreeGetAsset, getOrCreateManagedAsset, isAssetAlive, getManagedAsset.
  destruct (assets am !! key) as [m|] eqn:Hm; simpl.
  - destruct (ManagedAsset.getObservable m) as [o|] eqn:Ho; simpl.
    + rewrite Hm, Ho. split_and!.
      * done.
      * f_equal. destruct m; simpl in *. by subst.
      * intros m' o' [= <-]. rewrite Ho. by intros [= <-].
      * intros Hnone. specialize (Hnone m eq_refl). congruence.
      * done.
      * first [done|by rewrite bool_decide_eq_true_2].
    + rewrite lookup_insert_eq. simpl. split_and!.
      * done.
      * done.
      * intros m' o' [= <-]. by rewrite Ho.
      * done.
      * intros key' Hne. by rewrite lookup_insert_ne.
      * first [done|by rewrite bool_decide_eq_true_2].
  - rewrite lookup_insert_eq. simpl. split_and!.
    + done.
    + done.
    + done.
    + done.
    + intros key' Hne. by rewrite !lookup_insert_ne.
    + first [done|by rewrite bool_decide_eq_true_2].
Qed.

Lemma lockFreeGetAsset_frame am key :
  let am1 := (lockFreeGetAsset am key).2 in
  trace am1 = trace am ∧ assetBytesStore am1 = assetBytesStore am.
Proof.
  unfold lockFreeGetAsset, getOrCreateManagedAsset.
  destruct (getManagedAsset am key) as [m|]; simpl.
  - by destruct (ManagedAsset.getObservable m).
  - done.
Qed.

(** X6: [createAssetWithBytes] sets the bytes store up and registers its
    downloader and loader with the loader manager on the first call only;
    every call records the URL that the store hands out for the bytes, and
    returns the observable of a managed asset that is alive under that
    URL. *)
Theorem createAssetWithBytes_registers_once (am : t) (url : string) :
  let observable := (createAssetWithBytes am url).1 in
  let am1 := (createAssetWithBytes am url).2 in
  trace am1
  = trace am ++ match assetBytesStore am with
                | None => [EvRegisterBytesStoreLoaders]
                | Some _ => []
                end
  ∧ assetBytesStore am1 = Some (default [] (assetBytesStore am) ++ [url])
  ∧ isAssetAlive am1 (AssetKey.OfUrl url) = true
  ∧ ManagedAsset.getObservable <$> getManagedAsset am1 (AssetKey.OfUrl url)
    = Some (Some observable).
Proof.
  unfold createAssetWithBytes.
  match goal with |- context [lockFreeGetAsset ?a _] => set (am0 := a) end.
  destruct (lockFreeGetAsset_frame am0 (AssetKey.OfUrl url)) as [Htrace Hstore].
  destruct (getAsset_hands_out_one_observable am0 (AssetKey.OfUrl url))
    as (_ & Hm & _ & _ & _ & Halive).
  unfold getAsset in Hm, Halive. simpl. rewrite Htrace, Hstore, Halive, Hm.
  split_and!; try done; unfold am0; destruct (assetBytesStore am) eqn:Hs; simpl;
    rewrite ?Hs, ?app_nil_r; done.
Qed.

(** * Scheduling *)

Lemma scheduleAssetUpdate_queued fuel env am key :
  currentTransaction am = None →
  pauseUpdatesCount am ≠ 0 ∨ scheduledUpdates am ≠ [] →
  scheduleAssetUpdate fuel env am key
  = Done (set_scheduledUpdates am (scheduledUpdates am ++ [key])).
Proof.
  intros Htx Hbusy. unfold scheduleAssetUpdate. rewrite Htx.
  destruct Hbusy as [Hp|Hs].
  - by rewrite (bool_decide_eq_false_2 (pauseUpdatesCount am = 0)).
  - rewrite (bool_decide_eq_false_2 (scheduledUpdates am = [])) by done.
    by rewrite andb_false_r.
Qed.



(** * Observers *)

(** X8: while updates are paused, or while scheduled updates wait for a
    drain, [addAssetLoadObserver] only records the consumer: the managed
    asset (made when the key is new) gets a consumer at the end of its
    list, with the observer and the arguments of the call, in state
    [Initial], not notified and without a request; a [FailedRetryable]
    asset goes back to [Initial]; the key is appended to the scheduled
    updates.  Nothing else changes: no observer is called and no load is
    started. *)
Theorem addAssetLoadObserver_deferred (fuel : nat) (env : Env) (am : t) (key : AssetKey.t)
  (observer : option ObserverRef) (context : ContextRef) (outputType : AssetOutputType)
  (preferredWidth preferredHeight : Z) (attachedData : Value) :
  currentTransaction am = None →
  pauseUpdatesCount am ≠ 0 ∨ scheduledUpdates am ≠ [] →
  let m := default ManagedAsset.create (getManagedAsset am key) in
  let consumer :=
    AssetConsumer.mk observer context outputType preferredWidth preferredHeight attachedData
      AssetConsumerStateInitial Result.Empty false None in
  let m' :=
    ManagedAsset.mk
      (if bool_decide (ManagedAsset.getState m = AssetStateFailedRetryable)
       then AssetStateInitial else ManagedAsset.getState m)
      (ManagedAsset.getResolveId m) (ManagedAsset.getObservable m)
      (ManagedAsset.getResolvedAssetLocation m)
      (ManagedAsset.consumers m ++ [consumer]) (ManagedAsset.payloadCache m) in
  addAssetLoadObserver fuel env am key observer context outputType
    preferredWidth preferredHeight attachedData
  = Done (set_scheduledUpdates (putManagedAsset am key m') (scheduledUpdates am ++ [key])).
Proof.
  intros Htx Hbusy. unfold addAssetLoadObserver, getOrCreateManagedAsset.
  destruct (getManagedAsset am key) as [m|] eqn:Hm; simpl.
  - rewrite scheduleAssetUpdate_queued by done. simpl. do 3 f_equal.
    by destruct (bool_decide (ManagedAsset.getState m = AssetStateFailedRetryable)).
  - rewrite scheduleAssetUpdate_queued by done. simpl.
    by rewrite putManagedAsset_twice.
Qed.

Lemma addAssetLoadObserver_deferred_witness :
  addAssetLoadObserver 0 (exampleEnv true) (beginPauseUpdates create) exampleKey
    (Some 1%nat) 0%nat 0%nat 100 100 EmptyString
  = Done (set_scheduledUpdates
            (putManagedAsset (beginPauseUpdates create) exampleKey
               (ManagedAsset.mk AssetStateInitial 0 None Result.Empty
                  [AssetConsumer.mk (Some 1%nat) 0%nat 0%nat 100 100 EmptyString
                     AssetConsumerStateInitial Result.Empty false None] []))
            [exampleKey]).
Proof.
  apply (addAssetLoadObserver_deferred 0 (exampleEnv true) (beginPauseUpdates create)
           exampleKey (Some 1%nat) 0%nat 0%nat 100 100 EmptyString).
  - reflexivity.
  - left. intros Heq. discriminate Heq.
Defined.

Lemma clearFirstObserver_first pre c post observer :
  Forall (λ c', AssetConsumer.getObserver c' ≠ observer) pre →
  AssetConsumer.getObserver c = observer →
  clearFirstObserver (pre ++ c :: post) observer
  = pre ++ AssetConsumer.setObserver c None :: post.
Proof.
  intros Hpre Hc. induction Hpre as [|c' pre Hc' _ IH]; simpl.
  - by rewrite bool_decide_eq_true_2.
  - rewrite bool_decide_eq_false_2 by done. by rewrite IH.
Qed.

Lemma clearFirstObserver_none cs observer :
  Forall (λ c', AssetConsumer.getObserver c' ≠ observer) cs →
  clearFirstObserver cs observer = cs.
Proof.
  induction 1 as [|c' cs Hc' _ IH]; simpl; [done|].
  rewrite bool_decide_eq_false_2 by done. by rewrite IH.
Qed.

(** X9: [removeAssetLoadObserver] does nothing for a key that has no
    managed asset.  Otherwise it clears the observer of the first consumer
    that holds it, and of that one only (consumers before it and after it,
    also later ones with the same observer, stay as they are; the consumer
    itself stays in the list until a drain removes it), and it schedules an
    update of the key, also when no consumer holds the observer. *)
Theorem removeAssetLoadObserver_clears_first (fuel : nat) (env : Env) (am : t)
  (key : AssetKey.t) (observer : option ObserverRef) :
  (getManagedAsset am key = None →
   removeAssetLoadObserver fuel env am key observer = Done am)
  ∧ (∀ m pre c post,
       getManagedAsset am key = Some m →
       ManagedAsset.consumers m = pre ++ c :: post →
       Forall (λ c', AssetConsumer.getObserver c' ≠ observer) pre →
       AssetConsumer.getObserver c = observer →
       removeAssetLoadObserver fuel env am key observer
       = scheduleAssetUpdate fuel env
           (putManagedAsset am key
              (ManagedAsset.setConsumers m (pre ++ AssetConsumer.setObserver c None :: post)))
           key)
  ∧ (∀ m,
       getManagedAsset am key = Some m →
       Forall (λ c', AssetConsumer.getObserver c' ≠ observer) (ManagedAsset.consumers m) →
       removeAssetLoadObserver fuel env am key observer
       = scheduleAssetUpdate fuel env am key).
Proof.
  unfold removeAssetLoadObserver. split_and!.
  - by intros ->.
  - intros m pre c post -> Hcs Hpre Hc. by rewrite Hcs, clearFirstObserver_first.
  - intros m Hm Hcs. rewrite Hm, clearFirstObserver_none by done.
    rewrite putManagedAsset_same; [done|]. unfold getManagedAsset in Hm.
    rewrite Hm. by destruct m.
Qed.

Lemma removeAssetLoadObserver_clears_first_witness :
  let am := putManagedAsset create exampleKey selectorAsset in
  removeAssetLoadObserver 0 (exampleEnv false) create exampleKey (Some 2%nat) = Done create
  ∧ removeAssetLoadObserver 0 (exampleEnv false) am exampleKey (Some 2%nat)
    = scheduleAssetUpdate 0 (exampleEnv false)
        (putManagedAsset am exampleKey
           (ManagedAsset.setConsumers selectorAsset
              ([clearedNotified] ++ AssetConsumer.setObserver observedInitial None :: [])))
        exampleKey
  ∧ removeAssetLoadObserver 0 (exampleEnv false) am exampleKey (Some 5%nat)
    = scheduleAssetUpdate 0 (exampleEnv false) am exampleKey.
Proof.
  intros am.
  destruct (removeAssetLoadObserver_clears_first 0 (exampleEnv false) create exampleKey
              (Some 2%nat)) as (Hmissing & _ & _).
  destruct (removeAssetLoadObserver_clears_first 0 (exampleEnv false) am exampleKey
              (Some 2%nat)) as (_ & Hfirst & _).
  destruct (removeAssetLoadObserver_clears_first 0 (exampleEnv false) am exampleKey
              (Some 5%nat)) as (_ & _ & Hnone).
  split_and!.
  - apply Hmissing. reflexivity.
  - apply (Hfirst selectorAsset [clearedNotified] observedInitial []).
    + reflexivity.
    + reflexivity.
    + constructor; [intros Heq; discriminate Heq|constructor].
    + reflexivity.
  - apply (Hnone selectorAsset).
    + reflexivity.
    + repeat constructor; intros Heq; discriminate Heq.
Defined.

(** * Flushing the load requests *)

Lemma flushedRequest_insert handlers h r r' h' :
  handlers !! h = Some r →
  AssetLoaderRequestHandler.scheduledForCancelation r'
  = AssetLoaderRequestHandler.scheduledForCancelation r →
  flushedRequest (<[h := r']> handlers) h' = flushedRequest handlers h'.
Proof.
  intros Hh Hflag. unfold flushedRequest, HandlerRef in *.
  destruct (decide (h = h')) as [<-|Hne].
  - rewrite list_lookup_insert_eq by (by eapply lookup_lt_Some). rewrite Hh. simpl.
    by rewrite Hflag.
  - by rewrite list_lookup_insert_ne.
Qed.

(** What the loop of [flushLoadRequests] leaves of a request handler: the
    last load result of a pending request that is scheduled for cancelation
    is cleared. *)
Lemma flushLoadRequestsLoop_spec rounds am :
  pauseUpdatesCount am = 0 →
  pendingValid am →
  (length (pendingLoadRequests am) ≤ rounds)%nat →
  let am' := flushLoadRequestsLoop rounds am in
  pendingLoadRequests am' = []
  ∧ pendingLoadRequestsScheduled am' = pendingLoadRequestsScheduled am
  ∧ trace am'
    = trace am ++ (flushedRequest (requestHandlers am) <$> pendingLoadRequests am)
  ∧ assets am' = assets am
  ∧ scheduledUpdates am' = scheduledUpdates am
  ∧ currentTransaction am' = currentTransaction am
  ∧ length (requestHandlers am') = length (requestHandlers am)
  ∧ ∀ h r, requestHandlers am !! h = Some r →
           requestHandlers am' !! h
           = Some (if bool_decide (h ∈ pendingLoadRequests am)
                      && AssetLoaderRequestHandler.scheduledForCancelation r
                   then AssetLoaderRequestHandler.setLastLoadResult r Result.Empty
                   else r).
Proof.
  assert (Hnil : ∀ am0 : t, pendingLoadRequests am0 = [] →
            pendingLoadRequests am0 = []
            ∧ pendingLoadRequestsScheduled am0 = pendingLoadRequestsScheduled am0
            ∧ trace am0
              = trace am0 ++ (flushedRequest (requestHandlers am0) <$> pendingLoadRequests am0)
            ∧ assets am0 = assets am0
            ∧ scheduledUpdates am0 = scheduledUpdates am0
            ∧ currentTransaction am0 = currentTransaction am0
            ∧ length (requestHandlers am0) = length (requestHandlers am0)
            ∧ ∀ h r, requestHandlers am0 !! h = Some r →
                     requestHandlers am0 !! h
                     = Some (if bool_decide (h ∈ pendingLoadRequests am0)
                                && AssetLoaderRequestHandler.scheduledForCancelation r
                             then AssetLoaderRequestHandler.setLastLoadResult r Result.Empty
                             else r)).
  { intros am0 Hpending. rewrite Hpending. simpl. rewrite app_nil_r.
    split_and!; done. }
  assert (Hmem : ∀ (h h0 : HandlerRef) rest, h ≠ h0 →
            bool_decide (h ∈ h0 :: rest) = bool_decide (h ∈ rest)).
  { intros h h0 rest Hne. apply bool_decide_ext. rewrite elem_of_cons.
    split; [by intros [?|?]|by right]. }
  revert am. induction rounds as [|rounds IH]; intros am Hp Hvalid Hlen.
  - destruct (pendingLoadRequests am) eqn:Hpending; [|simpl in Hlen; lia].
    specialize (Hnil am Hpending). rewrite Hpending in Hnil. simpl.
    destruct Hnil as (_ & Hn). split; [done|exact Hn].
  - simpl. destruct (pendingLoadRequests am) as [|h0 rest] eqn:Hpending.
    { specialize (Hnil am Hpending). rewrite Hpending in Hnil. cbv zeta.
      destruct Hnil as (_ & Hn). split; [done|exact Hn]. }
    rewrite Hp. simpl.
    assert (Hlt : (h0 < length (requestHandlers am))%nat).
    { apply Hvalid. rewrite Hpending. apply elem_of_cons. by left. }
    destruct (lookup_lt_is_Some_2 _ _ Hlt) as [r0 Hr0].
    assert (Hvalid' : ∀ h, h ∈ rest → (h < length (requestHandlers am))%nat).
    { intros h Hin. apply Hvalid. rewrite Hpending. apply elem_of_cons. by right. }
    simpl in Hlen.
    replace (requestHandlers am !! h0) with (Some r0).
    destruct (AssetLoaderRequestHandler.scheduledForCancelation r0) eqn:Hcancel.
    + match goal with |- context [flushLoadRequestsLoop rounds ?a] => set (am1 := a) end.
      destruct (IH am1) as (H1 & H2 & H3 & H4 & H5 & H6 & H7 & H8).
      * done.
      * intros h Hin. unfold am1. simpl. rewrite length_insert. by apply Hvalid'.
      * simpl. lia.
      * rewrite H1, H2, H3, H4, H5, H6, H7. unfold am1 in *. simpl. simpl in H8.
        rewrite length_insert. split_and!; try done.
        -- rewrite <-app_assoc. simpl. f_equal.
           replace (flushedRequest (requestHandlers am) h0) with (EvRequestCancel h0).
           2:{ unfold flushedRequest. replace (requestHandlers am !! h0) with (Some r0).
               simpl. by rewrite Hcancel. }
           f_equal. apply list_fmap_ext. intros _ h _.
           by apply (flushedRequest_insert _ _ r0).
        -- intros h r Hh. destruct (decide (h = h0)) as [->|Hne].
           ++ rewrite (H8 h0 (AssetLoaderRequestHandler.setLastLoadResult r0 Result.Empty)).
              ** assert (r = r0) by congruence. subst r. rewrite Hcancel.
                 rewrite (bool_decide_eq_true_2 (h0 ∈ h0 :: rest))
                   by (apply elem_of_cons; by left).
                 match goal with |- context [bool_decide ?P] => destruct (bool_decide P) end;
                   simpl; rewrite ?Hcancel; done.
              ** by rewrite list_lookup_insert_eq.
           ++ rewrite (H8 h r).
              ** by rewrite Hmem.
              ** by rewrite list_lookup_insert_ne.
    + match goal with |- context [flushLoadRequestsLoop rounds ?a] => set (am1 := a) end.
      destruct (IH am1) as (H1 & H2 & H3 & H4 & H5 & H6 & H7 & H8).
      * done.
      * intros h Hin. unfold am1. simpl. by apply Hvalid'.
      * simpl. lia.
      * rewrite H1, H2, H3, H4, H5, H6, H7. unfold am1 in *. simpl. simpl in H8.
        split_and!; try done.
        -- rewrite <-app_assoc. simpl. f_equal.
           replace (flushedRequest (requestHandlers am) h0)
             with (EvRequestStartLoadIfNeeded h0); [done|].
           unfold flushedRequest. replace (requestHandlers am !! h0) with (Some r0).
           simpl. by rewrite Hcancel.
        -- intros h r Hh. rewrite (H8 h r) by done.
           destruct (decide (h = h0)) as [->|Hne].
           ++ assert (r = r0) by congruence. subst r. rewrite Hcancel.
              by rewrite !andb_false_r.
           ++ by rewrite Hmem.
Qed.

(** X10: when updates are not paused, [flushLoadRequests] in a reachable
    state empties the pending requests and calls each of them once, in the
    order in which they were queued: [cancel] on a request that is
    scheduled for cancelation at that time (so a request canceled before
    the flush is never started), [startLoadIfNeeded] on the others.  It
    clears the last load result of the canceled ones, leaves the assets
    alone and clears the flag that a flush is scheduled.  While updates are
    paused it only clears that flag: the pending requests stay queued. *)
Theorem flushLoadRequests_serves_each_pending_request (am : t) :
  (reachable am →
   pauseUpdatesCount am = 0 →
   let am' := flushLoadRequests am in
   pendingLoadRequests am' = []
   ∧ pendingLoadRequestsScheduled am' = false
   ∧ trace am'
     = trace am ++ (flushedRequest (requestHandlers am) <$> pendingLoadRequests am)
   ∧ assets am' = assets am
   ∧ ∀ h r, requestHandlers am !! h = Some r →
            requestHandlers am' !! h
            = Some (if bool_decide (h ∈ pendingLoadRequests am)
                       && AssetLoaderRequestHandler.scheduledForCancelation r
                    then AssetLoaderRequestHandler.setLastLoadResult r Result.Empty
                    else r))
  ∧ (pauseUpdatesCount am ≠ 0 →
     flushLoadRequests am = set_pendingLoadRequestsScheduled am false).
Proof.
  split.
  - intros Hr Hp.
    destruct (flushLoadRequestsLoop_spec (length (pendingLoadRequests am)) am)
      as (H1 & H2 & H3 & H4 & H5 & H6 & H7 & H8); [done| |done|].
    { apply (reachable_Inv am Hr). }
    unfold flushLoadRequests. simpl. by rewrite H1, H3, H4.
  - intros Hp. unfold flushLoadRequests.
    destruct (pendingLoadRequests am) as [|h rest] eqn:Hpending; simpl.
    + done.
    + rewrite Hpending. by rewrite bool_decide_eq_false_2.
Qed.

Lemma flushLoadRequests_serves_each_pending_request_witness :
  (let am' := flushLoadRequests loadingState in
   pendingLoadRequests am' = []
   ∧ pendingLoadRequestsScheduled am' = false
   ∧ trace am'
     = trace loadingState
       ++ (flushedRequest (requestHandlers loadingState)
             <$> pendingLoadRequests loadingState)
   ∧ assets am' = assets loadingState
   ∧ ∀ h r, requestHandlers loadingState !! h = Some r →
            requestHandlers am' !! h
            = Some (if bool_decide (h ∈ pendingLoadRequests loadingState)
                       && AssetLoaderRequestHandler.scheduledForCancelation r
                    then AssetLoaderRequestHandler.setLastLoadResult r Result.Empty
                    else r))
  ∧ flushLoadRequests pausedState = set_pendingLoadRequestsScheduled pausedState false.
Proof.
  split.
  - apply (flushLoadRequests_serves_each_pending_request loadingState).
    + exact loadingState_reachable.
    + reflexivity.
  - apply (flushLoadRequests_serves_each_pending_request pausedState).
    intros Heq. discriminate Heq.
Defined.

(** * What a round of the drain does to the registry and to the observers *)

Lemma observerCalls_emit am e :
  observerCalls (emit am e)
  = observerCalls am ++ (if isObserverOnLoad e then [e] else []).
Proof.
  unfold observerCalls, emit. simpl. rewrite filter_app. f_equal.
  destruct (isObserverOnLoad e) eqn:He.
  - by rewrite filter_cons_True.
  - rewrite filter_cons_False; [done|]. by rewrite He.
Qed.

Lemma observerCalls_frame am am' : trace am' = trace am → observerCalls am' = observerCalls am.
Proof. unfold observerCalls. by intros ->. Qed.

Lemma scheduleFlushLoadRequests_observerCalls am :
  observerCalls (scheduleFlushLoadRequests am) = observerCalls am.
Proof.
  unfold scheduleFlushLoadRequests.
  destruct (negb _ && negb _); [|done].
  rewrite observerCalls_emit. simpl. by rewrite app_nil_r.
Qed.

Lemma releaseExistingRequest_observerCalls am e :
  observerCalls (releaseExistingRequest am e) = observerCalls am.
Proof.
  unfold releaseExistingRequest. destruct e as [h|]; [|done].
  destruct (requestHandlers am !! h) as [r|]; [|done].
  destruct (_ && _); [|done].
  by rewrite scheduleFlushLoadRequests_observerCalls.
Qed.

Lemma retainRequest_observerCalls am e :
  observerCalls (retainRequest am e) = observerCalls am.
Proof.
  unfold retainRequest. destruct e as [h|]; [|done].
  destruct (requestHandlers am !! h) as [r|]; [|done].
  destruct (negb _); [|done].
  by rewrite scheduleFlushLoadRequests_observerCalls.
Qed.

Lemma updateConsumerRequestHandler_observerCalls am c request :
  observerCalls (updateConsumerRequestHandler am c request).2 = observerCalls am.
Proof.
  unfold updateConsumerRequestHandler. simpl.
  by rewrite retainRequest_observerCalls, releaseExistingRequest_observerCalls.
Qed.

Lemma updateConsumerRequestHandler_assets am c request :
  assets (updateConsumerRequestHandler am c request).2 = assets am.
Proof. by destruct (updateConsumerRequestHandler_frame am c request) as (? & _). Qed.

Lemma writesAsset_frame key m' am am1 am' :
  writesAsset key m' am am1 → assets am' = assets am1 → trace am' = trace am1 →
  writesAsset key m' am am'.
Proof.
  intros [Ha Ho] Ha' Ht. split; [by rewrite Ha'|].
  by rewrite (observerCalls_frame am1 am').
Qed.

Lemma writesAsset_schedule key m' am am1 :
  writesAsset key m' am am1 →
  writesAsset key m' am (scheduleAssetUpdateInTransaction am1 key).
Proof.
  intros Hw.
  destruct (scheduleAssetUpdateInTransaction_frame am1 key) as (Ha & _ & _ & _ & Ht & _).
  by apply (writesAsset_frame key m' am am1).
Qed.

Lemma putConsumer_writes am key m i c :
  writesAsset key
    (ManagedAsset.setConsumers m (<[i := c]> (ManagedAsset.consumers m)))
    am (putConsumer am key m i c).
Proof. done. Qed.

Lemma removeAssetConsumer_writes am key m i c :
  writesAsset key (ManagedAsset.removeConsumer m i) am (removeAssetConsumer am key m i c).
Proof.
  unfold removeAssetConsumer.
  match goal with |- context [updateConsumerRequestHandler ?a ?b ?c] =>
    pose proof (updateConsumerRequestHandler_assets a b c) as Ha;
    pose proof (updateConsumerRequestHandler_observerCalls a b c) as Ho;
    destruct (updateConsumerRequestHandler a b c) as [c1 am1] end.
  simpl in *. split; simpl; [by rewrite Ha|].
  by rewrite <-Ho.
Qed.

Lemma loadAssetForConsumerAtResolvedLocation_writes env am key m i c location am' :
  loadAssetForConsumerAtResolvedLocation env am key m i c location = Done am' →
  ∃ m', writesAsset key m' am am'.
Proof.
  unfold loadAssetForConsumerAtResolvedLocation.
  destruct (resolveAssetLoader env _ _) as [loader|].
  2:{ intros [= <-]. eexists. apply writesAsset_schedule, putConsumer_writes. }
  destruct (if canReuseLoadedAssets loader then _ else None) as [h|].
  - match goal with |- context [updateConsumerRequestHandler ?a ?b ?c] =>
      pose proof (updateConsumerRequestHandler_assets a b c) as Ha;
      pose proof (updateConsumerRequestHandler_observerCalls a b c) as Ho;
      destruct (updateConsumerRequestHandler a b c) as [c2 am1] end.
    simpl in Ha, Ho.
    destruct (negb _).
    + destruct (onConsumerLoad c2 _) as [c3|]; [|done]. simpl. intros [= <-].
      eexists. apply writesAsset_schedule. split; simpl; [by rewrite Ha|].
      by rewrite <-Ho.
    + intros [= <-]. eexists. split; simpl; [by rewrite Ha|]. by rewrite <-Ho.
  - match goal with |- context [updateConsumerRequestHandler ?a ?b ?c] =>
      pose proof (updateConsumerRequestHandler_assets a b c) as Ha;
      pose proof (updateConsumerRequestHandler_observerCalls a b c) as Ho;
      destruct (updateConsumerRequestHandler a b c) as [c2 am1] end.
    simpl in Ha, Ho. intros [= <-].
    eexists. split; simpl; [by rewrite Ha|].
    by transitivity (observerCalls am1).
Qed.

(** The two ways in which [doUpdateAssetConsumer] ends: without a call of
    an observer, or with the call of the observer of the consumer, which is
    marked as notified. *)
Lemma doUpdateAssetConsumer_effect env am key m i c am' :
  assets am !! key = Some m →
  doUpdateAssetConsumer env am key m i c = Done am' →
  (∃ m', writesAsset key m' am am')
  ∨ ∃ o loadedAsset error,
      AssetConsumer.getObserver c = Some o
      ∧ assets am'
        = <[key := ManagedAsset.setConsumers m
                     (<[i := AssetConsumer.setNotified c true]> (ManagedAsset.consumers m))]>
            (assets am)
      ∧ observerCalls am'
        = observerCalls am
          ++ [EvObserverOnLoad o (ManagedAsset.getObservable m) loadedAsset error]
      ∧ ((AssetConsumer.getState c = AssetConsumerStateLoaded
          ∧ AssetConsumer.getLoadedAsset c = Result.Ok loadedAsset ∧ error = None)
         ∨ (AssetConsumer.getState c = AssetConsumerStateFailed
            ∧ loadedAsset = None
            ∧ ∃ e, AssetConsumer.getLoadedAsset c = Result.Err e ∧ error = Some e)).
Proof.
  intros Hm. unfold doUpdateAssetConsumer.
  destruct (AssetConsumer.getObserver c) as [o|] eqn:Ho.
  2:{ intros [= <-]. left. eexists. apply removeAssetConsumer_writes. }
  destruct (AssetConsumer.getState c) eqn:Hs.
  - destruct (_ || _).
    + destruct (Result.error _) as [e|]; [|done]. simpl. intros [= <-].
      left. eexists. apply writesAsset_schedule, putConsumer_writes.
    + destruct (Result.value _) as [location|]; [|done]. simpl.
      intros Hl. left. by eapply loadAssetForConsumerAtResolvedLocation_writes.
  - done.
  - destruct (AssetConsumer.getLoadedAsset c) as [|loaded|] eqn:Hl; try done. simpl.
    unfold notifyAssetConsumer. simpl. rewrite Ho. intros [= <-].
    right. exists o, loaded, None. split_and!; [done|done| |by left].
    by rewrite observerCalls_emit.
  - destruct (AssetConsumer.getLoadedAsset c) as [| |e] eqn:Hl; try done. simpl.
    unfold notifyAssetConsumer. simpl. rewrite Ho. intros [= <-].
    right. exists o, None, (Some e). split_and!; [done|done| |right; eauto].
    by rewrite observerCalls_emit.
  - intros [= <-]. left. exists m. split; [|done]. by rewrite insert_id.
Qed.

Lemma updateAssetConsumers_effect env am key m am' :
  assets am !! key = Some m →
  updateAssetConsumers env am key m = Done am' →
  (∃ m', writesAsset key m' am am')
  ∨ ∃ i c o loadedAsset error,
      ManagedAsset.consumers m !! i = Some c
      ∧ AssetConsumer.getObserver c = Some o
      ∧ AssetConsumer.notified c = false
      ∧ assets am'
        = <[key := ManagedAsset.setConsumers m
                     (<[i := AssetConsumer.setNotified c true]> (ManagedAsset.consumers m))]>
            (assets am)
      ∧ observerCalls am'
        = observerCalls am
          ++ [EvObserverOnLoad o (ManagedAsset.getObservable m) loadedAsset error]
      ∧ ((AssetConsumer.getState c = AssetConsumerStateLoaded
          ∧ AssetConsumer.getLoadedAsset c = Result.Ok loadedAsset ∧ error = None)
         ∨ (AssetConsumer.getState c = AssetConsumerStateFailed
            ∧ loadedAsset = None
            ∧ ∃ e, AssetConsumer.getLoadedAsset c = Result.Err e ∧ error = Some e)).
Proof.
  intros Hm. unfold updateAssetConsumers.
  destruct (SC_ASSERT _); [|done]. simpl.
  destruct (getNextConsumerToUpdate m false) as [[[i c]|] hasMore] eqn:Hnext.
  2:{ intros [= <-]. left. exists m. split; [|done]. by rewrite insert_id. }
  pose proof (getNextConsumerToUpdate_lookup _ _ _ _ _ Hnext) as Hi.
  pose proof (getNextConsumerToUpdate_candidate _ _ _ _ _ Hnext) as Hc.
  set (amh := if hasMore then scheduleAssetUpdateInTransaction am key else am).
  assert (Hah : assets amh = assets am ∧ trace amh = trace am).
  { unfold amh. destruct hasMore; [|done].
    by destruct (scheduleAssetUpdateInTransaction_frame am key) as (-> & _ & _ & _ & -> & _). }
  destruct Hah as [Hah Hth].
  intros Hdo. apply doUpdateAssetConsumer_effect in Hdo; [|by rewrite Hah].
  unfold writesAsset in Hdo. rewrite Hah, (observerCalls_frame am amh Hth) in Hdo.
  destruct Hdo as [[m' [Ha Ho]]|(o & loaded & error & Hobs & Ha & Ho & Hcase)].
  - left. exists m'. by split.
  - right. exists i, c, o, loaded, error.
    destruct (candidate_observed c o Hc Hobs) as [Hn _]. done.
Qed.

Lemma resolveAssetLocation_writes am key m am' :
  resolveAssetLocation am key m = Done am' → ∃ m', writesAsset key m' am am'.
Proof.
  unfold resolveAssetLocation.
  destruct (SC_ASSERT _); [|done]. simpl.
  destruct (AssetKey.getBundle key) as [bundle|].
  - destruct (hasRemoteAssets bundle); intros [= <-]; eexists; (split; [reflexivity|]);
      rewrite observerCalls_emit; simpl; by rewrite app_nil_r.
  - unfold updateAssetLocation. simpl. intros [= <-]. eexists.
    apply writesAsset_schedule. split; reflexivity.
Qed.

Lemma observerCalls_listener am l key m :
  observerCalls (emit am (EvListenerManagedAssetUpdated l key m)) = observerCalls am.
Proof. rewrite observerCalls_emit. simpl. by rewrite app_nil_r. Qed.

(** What a round of the drain does on the managed asset [m] of its key. *)
Lemma updateAsset_effect env am key m am' :
  assets am !! key = Some m →
  updateAsset env am key = Done am' →
  (assets am' = delete key (assets am)
   ∧ observerCalls am' = observerCalls am
   ∧ ManagedAsset.hasConsumers m = false
   ∧ ManagedAsset.getObservable m = None
   ∧ (AssetKey.isURL key = true ∨ removeUnusedLocalAssets am = true))
  ∨ (∃ m', writesAsset key m' am am')
  ∨ ∃ i c o loadedAsset error,
      ManagedAsset.consumers m !! i = Some c
      ∧ AssetConsumer.getObserver c = Some o
      ∧ AssetConsumer.notified c = false
      ∧ assets am'
        = <[key := ManagedAsset.setConsumers m
                     (<[i := AssetConsumer.setNotified c true]> (ManagedAsset.consumers m))]>
            (assets am)
      ∧ observerCalls am'
        = observerCalls am
          ++ [EvObserverOnLoad o (ManagedAsset.getObservable m) loadedAsset error]
      ∧ ((AssetConsumer.getState c = AssetConsumerStateLoaded
          ∧ AssetConsumer.getLoadedAsset c = Result.Ok loadedAsset ∧ error = None)
         ∨ (AssetConsumer.getState c = AssetConsumerStateFailed
            ∧ loadedAsset = None
            ∧ ∃ e, AssetConsumer.getLoadedAsset c = Result.Err e ∧ error = Some e)).
Proof.
  intros Hm. unfold updateAsset, getManagedAsset. rewrite Hm.
  destruct (removeManagedAssetIfNeeded env am key m) as [[|] am1] eqn:Hrem.
  - apply removeManagedAssetIfNeeded_true in Hrem
      as (Hcs & Hobs & Hkind & Ha & _ & _ & _ & _ & Ht & _).
    simpl. intros Hl. left.
    assert (Ham' : assets am' = assets am1 ∧ observerCalls am' = observerCalls am1).
    { destruct (listener am1); simplify_eq; [|done].
      split; [done|apply observerCalls_listener]. }
    destruct Ham' as [-> ->]. rewrite (observerCalls_frame am am1 Ht).
    split_and!; try done. unfold ManagedAsset.hasConsumers. by rewrite Hcs.
  - apply removeManagedAssetIfNeeded_false in Hrem as ->.
    match goal with |- context [mbind _ ?x] => destruct x as [am2|] eqn:Hstep end; [|done].
    simpl. intros Hl. right.
    assert (Ham' : assets am' = assets am2 ∧ observerCalls am' = observerCalls am2).
    { destruct (listener am2); simplify_eq; [|done].
      split; [done|apply observerCalls_listener]. }
    unfold writesAsset. destruct Ham' as [-> ->]. fold (writesAsset key).
    assert (Hsame : ∃ m', writesAsset key m' am am).
    { exists m. split; [|done]. by rewrite insert_id. }
    change (∃ m', assets am2 = <[key:=m']> (assets am)
                   ∧ observerCalls am2 = observerCalls am)
      with (∃ m', writesAsset key m' am am2).
    destruct (ManagedAsset.getState m).
    + destruct (ManagedAsset.hasConsumers m); [|simplify_eq; by left].
      left. by eapply resolveAssetLocation_writes.
    + simplify_eq. by left.
    + by apply updateAssetConsumers_effect in Hstep.
    + by apply updateAssetConsumers_effect in Hstep.
    + by apply updateAssetConsumers_effect in Hstep.
Qed.



(** X12: a round of the drain calls one observer at most.  When it calls
    one, that observer is registered on a consumer of the key that was not
    notified yet; it is handed the live observable of the managed asset
    and what the consumer holds: the loaded asset and no error for a
    [Loaded] consumer, no asset and the error for a [Failed] one; and the
    consumer is marked as notified in the state that the round returns. *)
Theorem updateAsset_notifies_one_observer (env : Env) (am am' : t) (key : AssetKey.t) :
  updateAsset env am key = Done am' →
  observerCalls am' = observerCalls am
  ∨ ∃ m i c o loadedAsset error,
      getManagedAsset am key = Some m
      ∧ ManagedAsset.consumers m !! i = Some c
      ∧ AssetConsumer.getObserver c = Some o
      ∧ AssetConsumer.notified c = false
      ∧ observerCalls am'
        = observerCalls am
          ++ [EvObserverOnLoad o (ManagedAsset.getObservable m) loadedAsset error]
      ∧ ((AssetConsumer.getState c = AssetConsumerStateLoaded
          ∧ AssetConsumer.getLoadedAsset c = Result.Ok loadedAsset ∧ error = None)
         ∨ (AssetConsumer.getState c = AssetConsumerStateFailed
            ∧ loadedAsset = None
            ∧ ∃ e, AssetConsumer.getLoadedAsset c = Result.Err e ∧ error = Some e))
      ∧ ∃ m', getManagedAsset am' key = Some m'
              ∧ ManagedAsset.consumers m' !! i = Some (AssetConsumer.setNotified c true).
Proof.
  intros Hup. unfold getManagedAsset.
  destruct (assets am !! key) as [m|] eqn:Hm.
  2:{ unfold updateAsset, getManagedAsset in Hup. rewrite Hm in Hup. simplify_eq. by left. }
  destruct (updateAsset_effect env am key m am' Hm Hup)
    as [(_ & Ho & _)|[(m' & _ & Ho)|(i & c & o & l & e & Hi & Hobs & Hn & Ha & Ho & Hcase)]].
  - by left.
  - by left.
  - right. exists m, i, c, o, l, e. split_and!; try done.
    eexists. rewrite Ha, lookup_insert_eq. split; [done|]. simpl.
    apply list_lookup_insert_eq. by eapply lookup_lt_Some.
Qed.

Lemma updateAsset_notifies_one_observer_witness :
  let am := unservedState in
  let am' := stateOf (updateAsset (exampleEnv true) unservedState exampleBundleKey) in
  observerCalls am' = observerCalls am
  ∨ ∃ m i c o loadedAsset error,
      getManagedAsset am exampleBundleKey = Some m
      ∧ ManagedAsset.consumers m !! i = Some c
      ∧ AssetConsumer.getObserver c = Some o
      ∧ AssetConsumer.notified c = false
      ∧ observerCalls am'
        = observerCalls am
          ++ [EvObserverOnLoad o (ManagedAsset.getObservable m) loadedAsset error]
      ∧ ((AssetConsumer.getState c = AssetConsumerStateLoaded
          ∧ AssetConsumer.getLoadedAsset c = Result.Ok loadedAsset ∧ error = None)
         ∨ (AssetConsumer.getState c = AssetConsumerStateFailed
            ∧ loadedAsset = None
            ∧ ∃ e, AssetConsumer.getLoadedAsset c = Result.Err e ∧ error = Some e))
      ∧ ∃ m', getManagedAsset am' exampleBundleKey = Some m'
              ∧ ManagedAsset.consumers m' !! i = Some (AssetConsumer.setNotified c true).
Proof.
  apply (updateAsset_notifies_one_observer (exampleEnv true) unservedState
           (stateOf (updateAsset (exampleEnv true) unservedState exampleBundleKey))
           exampleBundleKey).
  reflexivity.
Defined.

(** * Resolving the location of a bundle asset *)

(** X13: the remote resolution of a bundle asset takes the cache URL of the
    manifest when the manifest has the path, whatever the resource loader
    says, and the location is then not local.  When the manifest lacks the
    path it falls back on the local resolution: both succeed together, with
    the same local location, and both fail together (each with its own
    message).  An error of the remote module manager is passed on as it
    is. *)
Theorem resolveRemoteAssetLocation_prefers_cache (env : Env) (bundle : Bundle)
  (path : string) (resources : RemoteModuleResources) :
  let key := AssetKey.OfBundle bundle path in
  (∀ url, getResourceCacheUrl (getAllUrls resources) path = Some url →
          resolveRemoteAssetLocation env key (Result.Ok resources)
          = Done (Result.Ok (AssetLocation.mk url false)))
  ∧ (getResourceCacheUrl (getAllUrls resources) path = None →
     ∃ remote local,
       resolveRemoteAssetLocation env key (Result.Ok resources) = Done remote
       ∧ resolveLocalAssetLocation env key = Done local
       ∧ (∀ location, remote = Result.Ok location ↔ local = Result.Ok location)
       ∧ (∀ location, local = Result.Ok location → AssetLocation.isLocal location = true)
       ∧ (Result.failure remote = true ↔ Result.failure local = true)
       ∧ Result.empty remote = false)
  ∧ (∀ e, resolveRemoteAssetLocation env key (Result.Err e) = Done (Result.Err e)).
Proof.
  simpl. split_and!.
  - intros url Hurl. unfold resolveRemoteAssetLocation. simpl. by rewrite Hurl.
  - intros Hnone. unfold resolveRemoteAssetLocation, resolveLocalAssetLocation. simpl.
    rewrite Hnone.
    destruct (resolveLocalAssetURL env) as [resolve|];
      [destruct (bool_decide (resolve (getName bundle) path = EmptyString))|];
      eexists _, _; split_and!; try done;
      try (intros location; split; by intros [=]);
      try (by intros location [= <-]).
  - done.
Qed.

Lemma resolveRemoteAssetLocation_prefers_cache_witness :
  let key := AssetKey.OfBundle (mkBundle 0 "b" true) "p" in
  let resources := mkRemoteModuleResources [("q", "v")] in
  ∃ remote local,
    resolveRemoteAssetLocation (exampleEnv true) key (Result.Ok resources) = Done remote
    ∧ resolveLocalAssetLocation (exampleEnv true) key = Done local
    ∧ (∀ location, remote = Result.Ok location ↔ local = Result.Ok location)
    ∧ (∀ location, local = Result.Ok location → AssetLocation.isLocal location = true)
    ∧ (Result.failure remote = true ↔ Result.failure local = true)
    ∧ Result.empty remote = false.
Proof.
  apply (resolveRemoteAssetLocation_prefers_cache (exampleEnv true) (mkBundle 0 "b" true)
           "p" (mkRemoteModuleResources [("q", "v")])).
  reflexivity.
Defined.

(** X14: [resolveAssetLocation] on a bundle asset without remote assets
    stamps the managed asset with the next resolve id and hands the same id
    to the worker that resolves the location.  The completion that carries
    this id is taken: the managed asset gets the location that the local
    resolution gives, becomes [Ready] on a location and [FailedPermanently]
    on an error, keeps its consumers, and an update of the key is
    scheduled.  A completion with any other id is dropped. *)
Theorem local_resolution_round_trip (fuel : nat) (env : Env) (am : t) (bundle : Bundle)
  (path : string) (m : ManagedAsset.t) :
  let key := AssetKey.OfBundle bundle path in
  let resolveId := uint64 (assetResolveIdSequence am + 1) in
  getManagedAsset am key = Some m →
  ManagedAsset.getState m = AssetStateInitial →
  hasRemoteAssets bundle = false →
  ∃ am1 location,
    resolveAssetLocation am key m = Done am1
    ∧ trace am1 = trace am ++ [EvWorkerResolveLocal key resolveId]
    ∧ resolveLocalAssetLocation env key = Done location
    ∧ resolveLocalAssetLocationAndUpdate fuel env am1 key resolveId
      = scheduleAssetUpdate fuel env
          (putManagedAsset am1 key
             (ManagedAsset.mk
                (if Result.success location then AssetStateReady
                 else AssetStateFailedPermanently)
                resolveId (ManagedAsset.getObservable m) location
                (ManagedAsset.consumers m) (ManagedAsset.payloadCache m)))
          key
    ∧ ∀ other, other ≠ resolveId →
               resolveLocalAssetLocationAndUpdate fuel env am1 key other = Done am1.
Proof.
  simpl. intros Hm Hs Hremote.
  assert (Hlocal : ∃ location, resolveLocalAssetLocation env (AssetKey.OfBundle bundle path)
                               = Done location ∧ Result.empty location = false).
  { unfold resolveLocalAssetLocation. simpl. destruct (resolveLocalAssetURL env) as [resolve|].
    - destruct (bool_decide _); eauto.
    - eauto. }
  destruct Hlocal as (location & Hlocal & Hne).
  unfold resolveAssetLocation. rewrite Hs. simpl. rewrite Hremote.
  eexists _, location. split_and!; try done.
  - unfold resolveLocalAssetLocationAndUpdate. rewrite Hlocal. simpl.
    unfold getManagedAsset. simpl. rewrite lookup_insert_eq. simpl.
    rewrite bool_decide_eq_false_2 by (by intros ?).
    unfold updateAssetLocation. simpl.
    destruct location as [|l|e]; try done.
  - intros other Hother. unfold resolveLocalAssetLocationAndUpdate. rewrite Hlocal. simpl.
    unfold getManagedAsset. simpl. rewrite lookup_insert_eq. simpl.
    by rewrite bool_decide_eq_true_2.
Qed.

Lemma local_resolution_round_trip_witness :
  let bundle := mkBundle 0 "b" false in
  let key := AssetKey.OfBundle bundle "p" in
  let am := putManagedAsset create key (assetWith AssetStateInitial Result.Empty []) in
  let m := assetWith AssetStateInitial Result.Empty [] in
  let resolveId := uint64 (assetResolveIdSequence am + 1) in
  ∃ am1 location,
    resolveAssetLocation am key m = Done am1
    ∧ trace am1 = trace am ++ [EvWorkerResolveLocal key resolveId]
    ∧ resolveLocalAssetLocation (exampleEnv false) key = Done location
    ∧ resolveLocalAssetLocationAndUpdate 0 (exampleEnv false) am1 key resolveId
      = scheduleAssetUpdate 0 (exampleEnv false)
          (putManagedAsset am1 key
             (ManagedAsset.mk
                (if Result.success location then AssetStateReady
                 else AssetStateFailedPermanently)
                resolveId (ManagedAsset.getObservable m) location
                (ManagedAsset.consumers m) (ManagedAsset.payloadCache m)))
          key
    ∧ ∀ other, other ≠ resolveId →
               resolveLocalAssetLocationAndUpdate 0 (exampleEnv false) am1 key other = Done am1.
Proof.
  apply (local_resolution_round_trip 0 (exampleEnv false)
           (putManagedAsset create (AssetKey.OfBundle (mkBundle 0 "b" false) "p")
              (assetWith AssetStateInitial Result.Empty []))
           (mkBundle 0 "b" false) "p" (assetWith AssetStateInitial Result.Empty [])).
  - reflexivity.
  - reflexivity.
  - reflexivity.
Defined.

(** * The listener *)

(** X15: a drain that returns tells the listener that is set, as its last
    outgoing call, that the updates have been performed; the listener is
    the one that was set when the drain began.  This also holds when
    nothing was scheduled: the drain then makes this call only and leaves
    the assets as they are. *)
Theorem performUpdates_tells_listener_last (fuel : nat) (env : Env) (am am' : t)
  (l : ListenerRef) :
  performUpdates fuel env am = Done am' →
  listener am = Some l →
  (∃ calls, trace am' = calls ++ [EvListenerPerformedUpdates l])
  ∧ (scheduledUpdates am = [] →
     trace am' = trace am ++ [EvListenerPerformedUpdates l] ∧ assets am' = assets am).
Proof.
  unfold performUpdates. destruct (currentThreadIsMainThread env); [|done]. simpl.
  match goal with |- context [drainUpdates fuel env ?a] =>
    set (am0 := a); destruct (drainUpdates fuel env am0) as [am1|] eqn:Hd end; [|done].
  simpl. intros Hdone Hl.
  pose proof (drainUpdates_control fuel env am0 am1 Hd) as [Hctl _].
  assert (Hl1 : listener am1 = Some l).
  { unfold control in Hctl. simpl in Hctl. injection Hctl as _ _ Hl' _ _. congruence. }
  rewrite Hl1 in Hdone. simplify_eq. split; [by eexists|].
  intros Hs. unfold am0 in Hd. rewrite Hs in Hd. simpl in Hd.
  destruct fuel; simpl in Hd; by simplify_eq.
Qed.

Lemma performUpdates_tells_listener_last_witness :
  let am' := stateOf (performUpdates 0 (exampleEnv true) idleState) in
  (∃ calls, trace am' = calls ++ [EvListenerPerformedUpdates 3%nat])
  ∧ (scheduledUpdates idleState = [] →
     trace am' = trace idleState ++ [EvListenerPerformedUpdates 3%nat]
     ∧ assets am' = assets idleState).
Proof.
  apply (performUpdates_tells_listener_last 0 (exampleEnv true) idleState
           (stateOf (performUpdates 0 (exampleEnv true) idleState)) 3%nat).
  - reflexivity.
  - reflexivity.
Defined.

(** * Managed assets that nobody uses *)

Lemma removeManagedAssetIfNeeded_removable env am key m :
  ManagedAsset.hasConsumers m = false →
  ManagedAsset.getObservable m = None →
  AssetKey.isURL key = true ∨ removeUnusedLocalAssets am = true →
  ∃ am1, removeManagedAssetIfNeeded env am key m = (true, am1).
Proof.
  intros Hcs Hobs Hkind. unfold removeManagedAssetIfNeeded. rewrite Hcs, Hobs.
  assert (Hcond : negb (AssetKey.isURL key) && negb (removeUnusedLocalAssets am) = false).
  { destruct Hkind as [-> | ->]; [done|]. by rewrite andb_false_r. }
  rewrite Hcond. simpl.
  destruct (assetBytesStore am); [|by eexists].
  destruct (isAssetBytesUrl env (AssetKey.getUrl key)); by eexists.
Qed.

(** X16: when the observable of a managed asset has been destroyed and
    nothing else uses the asset (no consumer, no live observable, and the
    key is a URL or the removal of unused local assets is switched on),
    [onObservableDestroyed], called on the main thread while updates are not
    paused and nothing is scheduled, takes the managed asset out of the
    registry within the call: the key is not alive afterwards, nothing is
    left scheduled, and the request handlers and the pending requests are
    as before. *)
Theorem onObservableDestroyed_collects (fuel : nat) (env : Env) (am : t)
  (key : AssetKey.t) (m : ManagedAsset.t) :
  currentTransaction am = None →
  pauseUpdatesCount am = 0 →
  scheduledUpdates am = [] →
  currentThreadIsMainThread env = true →
  (1 ≤ fuel)%nat →
  getManagedAsset am key = Some m →
  ManagedAsset.hasConsumers m = false →
  ManagedAsset.getObservable m = None →
  AssetKey.isURL key = true ∨ removeUnusedLocalAssets am = true →
  ∃ am', onObservableDestroyed fuel env am key = Done am'
         ∧ assets am' = delete key (assets am)
         ∧ isAssetAlive am' key = false
         ∧ scheduledUpdates am' = []
         ∧ currentTransaction am' = None
         ∧ requestHandlers am' = requestHandlers am
         ∧ pendingLoadRequests am' = pendingLoadRequests am.
Proof.
  intros Htx Hp Hs Hmain Hfuel Hm Hcs Hobs Hkind.
  unfold onObservableDestroyed. rewrite Hm.
  unfold scheduleAssetUpdate. rewrite Htx, Hp, Hs, Hmain. simpl.
  unfold performUpdates. rewrite Hmain. simpl.
  destruct fuel as [|fuel]; [lia|].
  match goal with |- context [drainUpdates _ env ?a] => set (am0 := a) end.
  assert (Hround : ∃ am1, drainUpdates (S fuel) env am0 = Done am1
            ∧ assets am1 = delete key (assets am)
            ∧ scheduledUpdates am1 = []
            ∧ requestHandlers am1 = requestHandlers am
            ∧ pendingLoadRequests am1 = pendingLoadRequests am).
  { cbn [drainUpdates]. unfold am0 at 1. simpl.
    match goal with |- context [updateAsset env ?a key] => set (am1 := a) end.
    destruct (removeManagedAssetIfNeeded_removable env am1 key m Hcs Hobs) as [am2 Hrem].
    { destruct Hkind as [?|?]; [by left|by right]. }
    unfold updateAsset. unfold getManagedAsset in *.
    replace (assets am1 !! key) with (Some m). rewrite Hrem. simpl.
    apply removeManagedAssetIfNeeded_true in Hrem
      as (_ & _ & _ & Ha & Hh & Hpend & _ & Htx2 & _ & Hctl).
    assert (Hs2 : scheduledUpdates am2 = []).
    { unfold control in Hctl. injection Hctl as _ Hs' _ _ _. by rewrite Hs'. }
    assert (Hdrain : ∀ am3 : t, currentTransaction am3 = Some [] →
              drainUpdates fuel env am3 = Done am3).
    { intros am3 H3. destruct fuel; simpl; by rewrite H3. }
    destruct (listener am2); simpl.
    - rewrite Hdrain by done. eexists. split; [done|]. simpl. by rewrite Ha, Hs2, Hh, Hpend.
    - rewrite Hdrain by done. eexists. split; [done|]. by rewrite Ha, Hs2, Hh, Hpend. }
  destruct Hround as (am1 & -> & Ha & Hs1 & Hh & Hpend). simpl.
  assert (Halive : ∀ am' : t, assets am' = assets am1 → isAssetAlive am' key = false).
  { intros am' Ha'. unfold isAssetAlive, getManagedAsset. rewrite Ha', Ha, lookup_delete_eq.
    apply bool_decide_eq_false_2. by intros [? ?]. }
  destruct (listener am1); eexists; (split; [done|]); simpl;
    rewrite Halive by done; by rewrite Ha, Hs1, Hh, Hpend.
Qed.

Lemma onObservableDestroyed_collects_witness :
  let am := putManagedAsset create exampleKey idleAsset in
  ∃ am', onObservableDestroyed 1 (exampleEnv true) am exampleKey = Done am'
         ∧ assets am' = delete exampleKey (assets am)
         ∧ isAssetAlive am' exampleKey = false
         ∧ scheduledUpdates am' = []
         ∧ currentTransaction am' = None
         ∧ requestHandlers am' = requestHandlers am
         ∧ pendingLoadRequests am' = pendingLoadRequests am.
Proof.
  apply (onObservableDestroyed_collects 1 (exampleEnv true)
           (putManagedAsset create exampleKey idleAsset) exampleKey idleAsset).
  - reflexivity.
  - reflexivity.
  - reflexivity.
  - reflexivity.
  - apply Nat.leb_le. reflexivity.
  - reflexivity.
  - reflexivity.
  - reflexivity.
  - left. reflexivity.
Defined.

(** * Sharing a request between the consumers of an asset *)

Lemma findReusableRequest_cons handlers c s cs :
  findReusableRequest handlers (s :: cs) (AssetConsumer.getPreferredWidth c)
    (AssetConsumer.getPreferredHeight c) (AssetConsumer.getAttachedData c)
    (AssetConsumer.getOutputType c)
  = if sharesRequest handlers c s then AssetConsumer.getAssetLoaderCompletion s
    else findReusableRequest handlers cs (AssetConsumer.getPreferredWidth c)
           (AssetConsumer.getPreferredHeight c) (AssetConsumer.getAttachedData c)
           (AssetConsumer.getOutputType c).
Proof.
  simpl. unfold sharesRequest.
  destruct (AssetConsumer.getAssetLoaderCompletion s) as [h|]; [|done].
  destruct (handlers !! h) as [rh|]; [|done].
  by destruct (_ && _).
Qed.

Lemma findReusableRequest_first handlers c pre s post :
  Forall (λ s', sharesRequest handlers c s' = false) pre →
  sharesRequest handlers c s = true →
  findReusableRequest handlers (pre ++ s :: post) (AssetConsumer.getPreferredWidth c)
    (AssetConsumer.getPreferredHeight c) (AssetConsumer.getAttachedData c)
    (AssetConsumer.getOutputType c)
  = AssetConsumer.getAssetLoaderCompletion s.
Proof.
  intros Hpre Hs. induction Hpre as [|s' pre Hs' _ IH].
  - simpl app. by rewrite findReusableRequest_cons, Hs.
  - change ((s' :: pre) ++ s :: post) with (s' :: (pre ++ s :: post)).
    by rewrite findReusableRequest_cons, Hs'.
Qed.

Lemma findReusableRequest_none handlers c cs :
  Forall (λ s', sharesRequest handlers c s' = false) cs →
  findReusableRequest handlers cs (AssetConsumer.getPreferredWidth c)
    (AssetConsumer.getPreferredHeight c) (AssetConsumer.getAttachedData c)
    (AssetConsumer.getOutputType c)
  = None.
Proof.
  induction 1 as [|s' cs Hs' _ IH]; [done|].
  by rewrite findReusableRequest_cons, Hs'.
Qed.

(** The probe does not see a consumer that holds no request. *)
Lemma findReusableRequest_insert handlers c cs i c0 c1 :
  cs !! i = Some c0 →
  AssetConsumer.getAssetLoaderCompletion c0 = None →
  AssetConsumer.getAssetLoaderCompletion c1 = None →
  findReusableRequest handlers (<[i := c1]> cs) (AssetConsumer.getPreferredWidth c)
    (AssetConsumer.getPreferredHeight c) (AssetConsumer.getAttachedData c)
    (AssetConsumer.getOutputType c)
  = findReusableRequest handlers cs (AssetConsumer.getPreferredWidth c)
      (AssetConsumer.getPreferredHeight c) (AssetConsumer.getAttachedData c)
      (AssetConsumer.getOutputType c).
Proof.
  intros Hi H0 H1. revert i Hi. induction cs as [|s cs IH]; intros i Hi; [done|].
  destruct i as [|i].
  - simpl in Hi. simplify_eq. change (<[0%nat := c1]> (c0 :: cs)) with (c1 :: cs).
    rewrite !findReusableRequest_cons. unfold sharesRequest. by rewrite H0, H1.
  - change (<[S i := c1]> (s :: cs)) with (s :: <[i := c1]> cs).
    rewrite !findReusableRequest_cons. by rewrite IH.
Qed.

Lemma retainRequest_spec am (r : HandlerRef) rh :
  requestHandlers am !! r = Some rh →
  let am1 := retainRequest am (Some r) in
  requestHandlers am1
  = <[r := AssetLoaderRequestHandler.setScheduledForLoad
             (AssetLoaderRequestHandler.incrementConsumersCount rh)]> (requestHandlers am)
  ∧ pendingLoadRequests am1
    = pendingLoadRequests am
      ++ (if AssetLoaderRequestHandler.scheduledForLoad rh then [] else [r])
  ∧ assets am1 = assets am
  ∧ currentTransaction am1 = currentTransaction am.
Proof.
  intros Hr. unfold retainRequest. rewrite Hr. simpl.
  destruct (AssetLoaderRequestHandler.scheduledForLoad rh) eqn:Hl; simpl.
  - rewrite app_nil_r. split_and!; try done. f_equal.
    destruct rh; simpl in *. by subst.
  - match goal with |- context [scheduleFlushLoadRequests ?x] =>
      destruct (scheduleFlushLoadRequests_frame x) as (-> & -> & -> & -> & _) end.
    simpl. by rewrite list_insert_insert_eq.
Qed.

(** X17: when the loader of a consumer lets loaded assets be reused and a
    sibling (the first in the list of the asset that passes the test) holds
    a request with the same width, height, attached data and output type,
    [loadAssetForConsumerAtResolvedLocation] attaches the consumer to that
    request instead of making one: the store of request handlers keeps its
    length, the counter of the shared request goes up by one, and the
    request is queued for a load only if it was not yet.  If the request
    has no result yet the consumer waits in [Loading]; if it has one the
    consumer takes it at once, as [onConsumerLoad] does, and an update of
    the key is queued in the transaction. *)
Theorem loadAssetForConsumerAtResolvedLocation_shares_request (env : Env) (am : t)
  (key : AssetKey.t) (m : ManagedAsset.t) (i : nat) (c : AssetConsumer.t)
  (location : AssetLocation.t) (loader : AssetLoader)
  (pre post : list AssetConsumer.t) (sibling : AssetConsumer.t)
  (r : HandlerRef) (rh : AssetLoaderRequestHandler.t) :
  ManagedAsset.consumers m !! i = Some c →
  AssetConsumer.getAssetLoaderCompletion c = None →
  resolveAssetLoader env (getScheme env location) (AssetConsumer.getOutputType c)
  = Some loader →
  canReuseLoadedAssets loader = true →
  ManagedAsset.consumers m = pre ++ sibling :: post →
  Forall (λ s, sharesRequest (requestHandlers am) c s = false) pre →
  sharesRequest (requestHandlers am) c sibling = true →
  AssetConsumer.getAssetLoaderCompletion sibling = Some r →
  requestHandlers am !! r = Some rh →
  let attached :=
    AssetConsumer.setAssetLoaderCompletion
      (AssetConsumer.setState c AssetConsumerStateLoading) (Some r) in
  ∃ am' c1,
    loadAssetForConsumerAtResolvedLocation env am key m i c location = Done am'
    ∧ assets am'
      = <[key := ManagedAsset.setConsumers m (<[i := c1]> (ManagedAsset.consumers m))]>
          (assets am)
    ∧ requestHandlers am'
      = <[r := AssetLoaderRequestHandler.setScheduledForLoad
                 (AssetLoaderRequestHandler.incrementConsumersCount rh)]> (requestHandlers am)
    ∧ pendingLoadRequests am'
      = pendingLoadRequests am
        ++ (if AssetLoaderRequestHandler.scheduledForLoad rh then [] else [r])
    ∧ (if Result.empty (AssetLoaderRequestHandler.getLastLoadResult rh)
       then c1 = attached ∧ currentTransaction am' = currentTransaction am
       else onConsumerLoad attached (AssetLoaderRequestHandler.getLastLoadResult rh) = Done c1
            ∧ currentTransaction am'
              = (λ tx, AssetsManagerTransaction.enqueueUpdate tx key)
                  <$> currentTransaction am).
Proof.
  intros Hi Hc Hloader Hreuse Hcs Hpre Hsib Hr Hrh attached.
  set (cL := AssetConsumer.setState c AssetConsumerStateLoading).
  assert (Hfind : findReusableRequest (requestHandlers am)
                    (<[i := cL]> (ManagedAsset.consumers m))
                    (AssetConsumer.getPreferredWidth cL) (AssetConsumer.getPreferredHeight cL)
                    (AssetConsumer.getAttachedData cL) (AssetConsumer.getOutputType cL)
                  = Some r).
  { rewrite (findReusableRequest_insert (requestHandlers am) cL
               (ManagedAsset.consumers m) i c) by done.
    rewrite Hcs, <-Hr. by apply findReusableRequest_first. }
  destruct (retainRequest_spec am r rh Hrh) as (Hh & Hpend & Ha & Htx).
  assert (Hlast : requestHandlers (retainRequest am (Some r)) !! r
                  = Some (AssetLoaderRequestHandler.setScheduledForLoad
                            (AssetLoaderRequestHandler.incrementConsumersCount rh))).
  { rewrite Hh. apply list_lookup_insert_eq. by eapply lookup_lt_Some. }
  unfold loadAssetForConsumerAtResolvedLocation. rewrite Hloader. cbv zeta.
  rewrite Hreuse. fold cL. cbn [ManagedAsset.consumers ManagedAsset.setConsumers].
  rewrite Hfind. cbv beta iota.
  unfold updateConsumerRequestHandler.
  change (AssetConsumer.getAssetLoaderCompletion cL)
    with (AssetConsumer.getAssetLoaderCompletion c).
  rewrite Hc. change (releaseExistingRequest am None) with am.
  cbv zeta. cbv beta iota. fold attached.
  revert Hh Hpend Ha Htx Hlast. generalize (retainRequest am (Some r)). intros am1.
  intros Hh Hpend Ha Htx Hlast.
  unfold HandlerRef in *. rewrite Hlast. simpl.
  destruct (Result.empty (AssetLoaderRequestHandler.getLastLoadResult rh)) eqn:Hempty; simpl.
  - eexists _, attached. split; [done|]. simpl.
    rewrite Ha, Hh, Hpend, Htx, list_insert_insert_eq. split_and!; reflexivity.
  - destruct (onConsumerLoad_total attached (AssetLoaderRequestHandler.getLastLoadResult rh))
      as (c1 & Hc1 & _); [done|].
    unfold attached in *. fold cL in Hc1 |- *. rewrite !Hc1. simpl.
    eexists _, c1. split; [reflexivity|].
    match goal with |- context [scheduleAssetUpdateInTransaction ?a ?b] =>
      destruct (scheduleAssetUpdateInTransaction_frame a b) as (-> & -> & -> & _);
      pose proof (scheduleAssetUpdateInTransaction_queue a b) as Hq end.
    simpl. rewrite Ha, Hh, Hpend, list_insert_insert_eq. split_and!; try reflexivity.
    rewrite Hq. simpl. by rewrite Htx.
Qed.

Lemma loadAssetForConsumerAtResolvedLocation_shares_request_witness :
  let am := sharingState in
  let attached :=
    AssetConsumer.setAssetLoaderCompletion
      (AssetConsumer.setState newcomer AssetConsumerStateLoading) (Some 0%nat) in
  ∃ am' c1,
    loadAssetForConsumerAtResolvedLocation (exampleEnv true) am exampleKey sharingAsset
      1%nat newcomer exampleLocation
    = Done am'
    ∧ assets am'
      = <[exampleKey := ManagedAsset.setConsumers sharingAsset
                          (<[1%nat := c1]> (ManagedAsset.consumers sharingAsset))]>
          (assets am)
    ∧ requestHandlers am'
      = <[0%nat := AssetLoaderRequestHandler.setScheduledForLoad
                     (AssetLoaderRequestHandler.incrementConsumersCount sharedRequest)]>
          (requestHandlers am)
    ∧ pendingLoadRequests am'
      = pendingLoadRequests am
        ++ (if AssetLoaderRequestHandler.scheduledForLoad sharedRequest then []
            else [0%nat])
    ∧ (if Result.empty (AssetLoaderRequestHandler.getLastLoadResult sharedRequest)
       then c1 = attached ∧ currentTransaction am' = currentTransaction am
       else onConsumerLoad attached (AssetLoaderRequestHandler.getLastLoadResult sharedRequest)
            = Done c1
            ∧ currentTransaction am'
              = (λ tx, AssetsManagerTransaction.enqueueUpdate tx exampleKey)
                  <$> currentTransaction am).
Proof.
  apply (loadAssetForConsumerAtResolvedLocation_shares_request (exampleEnv true)
           sharingState exampleKey sharingAsset 1%nat newcomer exampleLocation
           exampleLoader [] [newcomer] holder 0%nat sharedRequest).
  - reflexivity.
  - reflexivity.
  - reflexivity.
  - reflexivity.
  - reflexivity.
  - constructor.
  - reflexivity.
  - reflexivity.
  - reflexivity.
Defined.

(** * The first observer of a URL asset *)

Lemma removeManagedAssetIfNeeded_used env am key m :
  ManagedAsset.hasConsumers m = true → removeManagedAssetIfNeeded env am key m = (false, am).
Proof.
  intros Hcs. unfold removeManagedAssetIfNeeded. rewrite Hcs. by rewrite orb_true_r.
Qed.

(** The round of the drain that resolves a URL asset. *)
Lemma updateAsset_resolves_url env a url m tx :
  let key := AssetKey.OfUrl url in
  assets a !! key = Some m →
  ManagedAsset.getState m = AssetStateInitial →
  ManagedAsset.hasConsumers m = true →
  currentTransaction a = Some tx →
  ∃ a1, updateAsset env a key = Done a1
        ∧ assets a1
          = <[key := ManagedAsset.mk AssetStateReady (uint64 (assetResolveIdSequence a + 1))
                       (ManagedAsset.getObservable m)
                       (Result.Ok (AssetLocation.mk url false))
                       (ManagedAsset.consumers m) (ManagedAsset.payloadCache m)]> (assets a)
        ∧ requestHandlers a1 = requestHandlers a
        ∧ pendingLoadRequests a1 = pendingLoadRequests a
        ∧ pendingLoadRequestsScheduled a1 = pendingLoadRequestsScheduled a
        ∧ currentTransaction a1 = Some (AssetsManagerTransaction.enqueueUpdate tx key)
        ∧ assetResolveIdSequence a1 = uint64 (assetResolveIdSequence a + 1)
        ∧ control a1 = control a
        ∧ assetBytesStore a1 = assetBytesStore a
        ∧ observerCalls a1 = observerCalls a.
Proof.
  intros key Hm Hs Hcs Htx. unfold updateAsset, getManagedAsset. rewrite Hm.
  rewrite removeManagedAssetIfNeeded_used by done. rewrite Hs, Hcs.
  unfold resolveAssetLocation. rewrite Hs. simpl.
  unfold scheduleAssetUpdateInTransaction. simpl. rewrite Htx. simpl.
  destruct (listener a); eexists; (split; [reflexivity|]); simpl;
    rewrite ?observerCalls_listener; split_and!; reflexivity.
Qed.

(** The round of the drain that starts the load for the only consumer of
    a resolved asset. *)
Lemma updateAsset_starts_load env a key m c o location loader tx :
  assets a !! key = Some m →
  ManagedAsset.getState m = AssetStateReady →
  ManagedAsset.getResolvedAssetLocation m = Result.Ok location →
  ManagedAsset.consumers m = [c] →
  AssetConsumer.getObserver c = Some o →
  AssetConsumer.notified c = false →
  AssetConsumer.getState c = AssetConsumerStateInitial →
  AssetConsumer.getAssetLoaderCompletion c = None →
  resolveAssetLoader env (getScheme env location) (AssetConsumer.getOutputType c)
  = Some loader →
  currentTransaction a = Some tx →
  let h := length (requestHandlers a) in
  ∃ a1, updateAsset env a key = Done a1
        ∧ assets a1
          = <[key := ManagedAsset.mk AssetStateReady (ManagedAsset.getResolveId m)
                       (ManagedAsset.getObservable m) (Result.Ok location)
                       [AssetConsumer.setAssetLoaderCompletion
                          (AssetConsumer.setState c AssetConsumerStateLoading) (Some h)]
                       (ManagedAsset.payloadCache
                          (ManagedAsset.getPayloadCacheForAssetLoader m loader))]> (assets a)
        ∧ requestHandlers a1
          = requestHandlers a
            ++ [AssetLoaderRequestHandler.mk key (AssetConsumer.getContext c)
                  (loaderId loader) (AssetLocation.getUrl location)
                  (AssetConsumer.getPreferredWidth c) (AssetConsumer.getPreferredHeight c)
                  (AssetConsumer.getAttachedData c) 1 true false Result.Empty]
        ∧ pendingLoadRequests a1 = pendingLoadRequests a ++ [h]
        ∧ pendingLoadRequestsScheduled a1 = true
        ∧ currentTransaction a1 = Some tx
        ∧ assetResolveIdSequence a1 = assetResolveIdSequence a
        ∧ control a1 = control a
        ∧ assetBytesStore a1 = assetBytesStore a
        ∧ observerCalls a1 = observerCalls a.
Proof.
  intros Hm Hs Hloc Hcs Ho Hn Hcstate Hcompl Hloader Htx h.
  assert (Hhas : ManagedAsset.hasConsumers m = true).
  { unfold ManagedAsset.hasConsumers. by rewrite Hcs. }
  unfold updateAsset, getManagedAsset. rewrite Hm.
  rewrite removeManagedAssetIfNeeded_used by done. rewrite Hs.
  unfold updateAssetConsumers. rewrite Hs. simpl SC_ASSERT. cbn [mbind Outcome_bind].
  unfold getNextConsumerToUpdate. rewrite Hcs. simpl getNextConsumerToUpdateFrom.
  rewrite Ho, Hn, Hcstate. cbv beta iota zeta.
  unfold doUpdateAssetConsumer. rewrite Ho, Hcstate, Hs, Hloc.
  simpl bool_decide. cbn [orb Result.value mbind Outcome_bind].
  unfold loadAssetForConsumerAtResolvedLocation. rewrite Hloader. cbv zeta.
  cbn [ManagedAsset.consumers ManagedAsset.setConsumers].
  rewrite Hcs. cbn [insert list_insert].
  set (cL := AssetConsumer.setState c AssetConsumerStateLoading).
  assert (Hnone : findReusableRequest (requestHandlers a) [cL]
                    (AssetConsumer.getPreferredWidth cL) (AssetConsumer.getPreferredHeight cL)
                    (AssetConsumer.getAttachedData cL) (AssetConsumer.getOutputType cL)
                  = None).
  { simpl. by rewrite Hcompl. }
  rewrite Hnone.
  replace (if canReuseLoadedAssets loader then None else None)
    with (@None HandlerRef) by (by destruct (canReuseLoadedAssets loader)).
  fold h. unfold updateConsumerRequestHandler.
  change (AssetConsumer.getAssetLoaderCompletion cL)
    with (AssetConsumer.getAssetLoaderCompletion c).
  rewrite Hcompl.
  match goal with |- context [releaseExistingRequest ?x None] =>
    change (releaseExistingRequest x None) with x; set (ah := x) end.
  set (rq := AssetLoaderRequestHandler.create key (AssetConsumer.getContext cL)
               (loaderId loader) (AssetLocation.getUrl location)
               (AssetConsumer.getPreferredWidth cL) (AssetConsumer.getPreferredHeight cL)
               (AssetConsumer.getAttachedData cL)) in *.
  assert (Hrq : requestHandlers ah !! h = Some rq).
  { unfold ah. simpl. unfold h. by rewrite lookup_app_r, Nat.sub_diag. }
  destruct (retainRequest_spec ah h rq Hrq) as (Hh & Hpend & Ha & Htx').
  assert (Hflag : pendingLoadRequestsScheduled (retainRequest ah (Some h)) = true
                  ∧ control (retainRequest ah (Some h)) = control a
                  ∧ assetResolveIdSequence (retainRequest ah (Some h))
                    = assetResolveIdSequence a
                  ∧ assetBytesStore (retainRequest ah (Some h)) = assetBytesStore a
                  ∧ observerCalls (retainRequest ah (Some h)) = observerCalls a).
  { rewrite retainRequest_observerCalls.
    destruct (retainRequest_frame ah (Some h)) as (_ & _ & _ & Hst & Hsq & Hct).
    split_and!; try done.
    unfold retainRequest. replace (requestHandlers ah !! h) with (Some rq).
    simpl. unfold scheduleFlushLoadRequests. simpl.
    destruct (pendingLoadRequestsScheduled a) eqn:Hsched; simpl; [done|].
    rewrite bool_decide_eq_false_2; [done|]. by destruct (pendingLoadRequests a). }
  destruct Hflag as (Hflag & Hctl & Hseq & Hstore & Hobs).
  unfold HandlerRef in *.
  revert Hh Hpend Ha Htx' Hflag Hctl Hseq Hstore Hobs.
  generalize (retainRequest ah (Some h)). intros a1 Hh Hpend Ha Htx' Hflag Hctl Hseq Hstore Hobs.
  cbv beta iota zeta. cbn [fst snd mbind Outcome_bind].
  assert (Hfields : ∀ a2 : t,
            assets a2 = assets (putConsumer a1 key
              (ManagedAsset.getPayloadCacheForAssetLoader
                 (ManagedAsset.setConsumers m [cL]) loader) 0
              (AssetConsumer.setAssetLoaderCompletion cL (Some h))) →
            requestHandlers a2 = requestHandlers a1 →
            pendingLoadRequests a2 = pendingLoadRequests a1 →
            pendingLoadRequestsScheduled a2 = pendingLoadRequestsScheduled a1 →
            currentTransaction a2 = currentTransaction a1 →
            assetResolveIdSequence a2 = assetResolveIdSequence a1 →
            control a2 = control a1 →
            assetBytesStore a2 = assetBytesStore a1 →
            observerCalls a2 = observerCalls a1 →
            assets a2
            = <[key := ManagedAsset.mk AssetStateReady (ManagedAsset.getResolveId m)
                         (ManagedAsset.getObservable m) (Result.Ok location)
                         [AssetConsumer.setAssetLoaderCompletion cL (Some h)]
                         (ManagedAsset.payloadCache
                            (ManagedAsset.getPayloadCacheForAssetLoader m loader))]> (assets a)
            ∧ requestHandlers a2
              = requestHandlers a
                ++ [AssetLoaderRequestHandler.mk key (AssetConsumer.getContext c)
                      (loaderId loader) (AssetLocation.getUrl location)
                      (AssetConsumer.getPreferredWidth c) (AssetConsumer.getPreferredHeight c)
                      (AssetConsumer.getAttachedData c) 1 true false Result.Empty]
            ∧ pendingLoadRequests a2 = pendingLoadRequests a ++ [h]
            ∧ pendingLoadRequestsScheduled a2 = true
            ∧ currentTransaction a2 = Some tx
            ∧ assetResolveIdSequence a2 = assetResolveIdSequence a
            ∧ control a2 = control a
            ∧ assetBytesStore a2 = assetBytesStore a
            ∧ observerCalls a2 = observerCalls a).
  { intros a2 -> -> -> -> -> -> -> -> ->.
    rewrite Hh, Hpend, Hflag, Htx', Hctl, Hseq, Hstore, Hobs. simpl.
    rewrite Ha. simpl. split_and!; try done.
    - apply (f_equal (λ x, <[key := x]> (assets a))).
      unfold ManagedAsset.getPayloadCacheForAssetLoader. simpl.
      destruct (bool_decide _); unfold ManagedAsset.setConsumers; simpl;
        by rewrite Hs, Hloc.
    - unfold h. rewrite insert_app_r_alt, Nat.sub_diag by done. done. }
  destruct (listener _) eqn:Hl; eexists; (split; [reflexivity|]); apply Hfields;
    rewrite ?observerCalls_listener; reflexivity.
Qed.

Lemma enqueueUpdate_nil key : AssetsManagerTransaction.enqueueUpdate [] key = [key].
Proof.
  unfold AssetsManagerTransaction.enqueueUpdate.
  rewrite bool_decide_eq_false_2; [done|apply not_elem_of_nil].
Qed.

(** X18: the first observer of a URL asset starts one load.  When
    [addAssetLoadObserver] is called on the main thread for a URL key that
    has no managed asset, while updates are not paused, nothing is
    scheduled and a loader is known for the scheme of the URL and the output
    type, the call drains inline and returns with the managed asset [Ready]
    at the URL as a non-local location, stamped with the next resolve id;
    its only consumer is [Loading] and holds a new request handler, made
    for the key, the URL and the size and data asked for, whose counter is
    1 and which is scheduled for load and queued as pending, with a flush
    scheduled.  No update is left scheduled and no observer was called. *)
Theorem addAssetLoadObserver_starts_first_load (fuel : nat) (env : Env) (am : t)
  (url : string) (o : ObserverRef) (context : ContextRef) (outputType : AssetOutputType)
  (preferredWidth preferredHeight : Z) (attachedData : Value) (loader : AssetLoader) :
  let key := AssetKey.OfUrl url in
  let request := length (requestHandlers am) in
  getManagedAsset am key = None →
  currentTransaction am = None →
  pauseUpdatesCount am = 0 →
  scheduledUpdates am = [] →
  currentThreadIsMainThread env = true →
  resolveAssetLoader env (getScheme env (AssetLocation.mk url false)) outputType
  = Some loader →
  (2 ≤ fuel)%nat →
  ∃ am',
    addAssetLoadObserver fuel env am key (Some o) context outputType
      preferredWidth preferredHeight attachedData
    = Done am'
    ∧ assets am'
      = <[key := ManagedAsset.mk AssetStateReady (uint64 (assetResolveIdSequence am + 1))
                   None (Result.Ok (AssetLocation.mk url false))
                   [AssetConsumer.mk (Some o) context outputType preferredWidth
                      preferredHeight attachedData AssetConsumerStateLoading Result.Empty
                      false (Some request)]
                   [loaderId loader]]> (assets am)
    ∧ requestHandlers am'
      = requestHandlers am
        ++ [AssetLoaderRequestHandler.mk key context (loaderId loader) url preferredWidth
              preferredHeight attachedData 1 true false Result.Empty]
    ∧ pendingLoadRequests am' = pendingLoadRequests am ++ [request]
    ∧ pendingLoadRequestsScheduled am' = true
    ∧ scheduledUpdates am' = []
    ∧ currentTransaction am' = None
    ∧ observerCalls am' = observerCalls am.
Proof.
  intros key request Hnone Htx Hp Hs Hmain Hloader Hfuel.
  unfold addAssetLoadObserver, getOrCreateManagedAsset. rewrite Hnone.
  cbv zeta. rewrite putManagedAsset_twice.
  match goal with |- context [putManagedAsset am key ?x] => set (m0 := x) end.
  unfold scheduleAssetUpdate.
  cbn [currentTransaction putManagedAsset set_assets pauseUpdatesCount scheduledUpdates].
  rewrite Htx, Hp, Hs, Hmain. simpl bool_decide. cbn [andb app].
  unfold performUpdates. rewrite Hmain. simpl SC_ASSERT. cbn [mbind Outcome_bind].
  cbv zeta.
  cbn [scheduledUpdates set_scheduledUpdates foldl]. rewrite enqueueUpdate_nil.
  match goal with |- context [drainUpdates fuel env ?x] => set (a0 := x) end.
  destruct fuel as [|[|fuel]]; [lia|lia|].
  (* the round that resolves the URL *)
  cbn [drainUpdates]. unfold a0 at 1.
  cbn [currentTransaction set_scheduledUpdates set_currentTransaction
       AssetsManagerTransaction.dequeueUpdate].
  match goal with |- context [updateAsset env ?x key] => set (a0' := x) end.
  destruct (updateAsset_resolves_url env a0' url m0 [])
    as (a1 & Hup1 & Ha1 & Hh1 & Hpend1 & Hsch1 & Htx1 & Hseq1 & Hctl1 & Hst1 & Hobs1);
    try done.
  { unfold a0', a0. simpl. apply lookup_insert_eq. }
  fold key in Hup1, Ha1, Htx1. rewrite Hup1. cbn [mbind Outcome_bind].
  rewrite enqueueUpdate_nil in Htx1.
  (* the round that starts the load *)
  cbn [drainUpdates]. rewrite Htx1. cbn [AssetsManagerTransaction.dequeueUpdate].
  match goal with |- context [updateAsset env ?x key] => set (a1' := x) end.
  destruct (updateAsset_starts_load env a1' key
              (ManagedAsset.mk AssetStateReady (uint64 (assetResolveIdSequence a0' + 1))
                 (ManagedAsset.getObservable m0) (Result.Ok (AssetLocation.mk url false))
                 (ManagedAsset.consumers m0) (ManagedAsset.payloadCache m0))
              (AssetConsumer.mk (Some o) context outputType preferredWidth preferredHeight
                 attachedData AssetConsumerStateInitial Result.Empty false None)
              o (AssetLocation.mk url false) loader [])
    as (a2 & Hup2 & Ha2 & Hh2 & Hpend2 & Hsch2 & Htx2 & Hseq2 & Hctl2 & Hst2 & Hobs2);
    try done.
  { unfold a1'. simpl. rewrite Ha1. apply lookup_insert_eq. }
  rewrite Hup2. cbn [mbind Outcome_bind].
  assert (Hdrain : drainUpdates fuel env a2 = Done a2).
  { destruct fuel; simpl; by rewrite Htx2. }
  rewrite Hdrain. cbn [mbind Outcome_bind].
  assert (Hfields :
            assets a2
            = <[key := ManagedAsset.mk AssetStateReady
                         (uint64 (assetResolveIdSequence am + 1))
                         None (Result.Ok (AssetLocation.mk url false))
                         [AssetConsumer.mk (Some o) context outputType preferredWidth
                            preferredHeight attachedData AssetConsumerStateLoading
                            Result.Empty false (Some request)]
                         [loaderId loader]]> (assets am)
            ∧ requestHandlers a2
              = requestHandlers am
                ++ [AssetLoaderRequestHandler.mk key context (loaderId loader) url
                      preferredWidth preferredHeight attachedData 1 true false Result.Empty]
            ∧ pendingLoadRequests a2 = pendingLoadRequests am ++ [request]
            ∧ pendingLoadRequestsScheduled a2 = true
            ∧ scheduledUpdates a2 = []
            ∧ observerCalls a2 = observerCalls am).
  { split_and!.
    - rewrite Ha2. unfold a1'. simpl. rewrite Ha1, Hh1. unfold a0', a0. simpl.
      by rewrite !insert_insert_eq.
    - rewrite Hh2. unfold a1'. simpl. by rewrite Hh1.
    - rewrite Hpend2. unfold a1'. simpl. by rewrite Hpend1, Hh1.
    - done.
    - unfold control in Hctl2, Hctl1. unfold a1' in Hctl2. simpl in Hctl2.
      injection Hctl2 as _ Hs2 _ _ _. injection Hctl1 as _ Hs1 _ _ _.
      by rewrite Hs2, Hs1.
    - rewrite Hobs2. change (observerCalls a1') with (observerCalls a1).
      by rewrite Hobs1. }
  destruct Hfields as (Hfa & Hfh & Hfp & Hfs & Hfu & Hfo).
  destruct (listener (set_currentTransaction a2 None)); eexists;
    (split; [reflexivity|]); simpl; rewrite ?observerCalls_emit; simpl;
    rewrite ?app_nil_r; split_and!; done.
Qed.

Lemma addAssetLoadObserver_starts_first_load_witness :
  ∃ am',
    addAssetLoadObserver 2 (exampleEnv true) create exampleKey (Some 1%nat) 0%nat 0%nat
      100 100 EmptyString
    = Done am'
    ∧ assets am'
      = <[exampleKey :=
            ManagedAsset.mk AssetStateReady (uint64 (assetResolveIdSequence create + 1))
              None (Result.Ok (AssetLocation.mk "u" false))
              [AssetConsumer.mk (Some 1%nat) 0%nat 0%nat 100 100 EmptyString
                 AssetConsumerStateLoading Result.Empty false
                 (Some (length (requestHandlers create)))]
              [loaderId exampleLoader]]> (assets create)
    ∧ requestHandlers am'
      = requestHandlers create
        ++ [AssetLoaderRequestHandler.mk exampleKey 0%nat (loaderId exampleLoader) "u"
              100 100 EmptyString 1 true false Result.Empty]
    ∧ pendingLoadRequests am'
      = pendingLoadRequests create ++ [length (requestHandlers create)]
    ∧ pendingLoadRequestsScheduled am' = true
    ∧ scheduledUpdates am' = []
    ∧ currentTransaction am' = None
    ∧ observerCalls am' = observerCalls create.
Proof.
  apply (addAssetLoadObserver_starts_first_load 2 (exampleEnv true) create "u" 1%nat
           0%nat 0%nat 100 100 EmptyString exampleLoader).
  - reflexivity.
  - reflexivity.
  - reflexivity.
  - reflexivity.
  - reflexivity.
  - reflexivity.
  - apply le_n.
Defined.

(** * The completion of a load *)

(** The round of the drain that tells the only consumer of an asset. *)
Lemma updateAsset_tells_consumer env a key m c o payload error tx :
  assets a !! key = Some m →
  ManagedAsset.getState m = AssetStateReady
  ∨ ManagedAsset.getState m = AssetStateFailedRetryable
  ∨ ManagedAsset.getState m = AssetStateFailedPermanently →
  ManagedAsset.consumers m = [c] →
  AssetConsumer.getObserver c = Some o →
  AssetConsumer.notified c = false →
  (AssetConsumer.getState c = AssetConsumerStateLoaded
   ∧ AssetConsumer.getLoadedAsset c = Result.Ok payload ∧ error = None)
  ∨ (AssetConsumer.getState c = AssetConsumerStateFailed
     ∧ payload = None
     ∧ ∃ e, AssetConsumer.getLoadedAsset c = Result.Err e ∧ error = Some e) →
  currentTransaction a = Some tx →
  ∃ a1, updateAsset env a key = Done a1
        ∧ assets a1
          = <[key := ManagedAsset.setConsumers m [AssetConsumer.setNotified c true]]>
              (assets a)
        ∧ requestHandlers a1 = requestHandlers a
        ∧ pendingLoadRequests a1 = pendingLoadRequests a
        ∧ currentTransaction a1 = Some tx
        ∧ control a1 = control a
        ∧ observerCalls a1
          = observerCalls a
            ++ [EvObserverOnLoad o (ManagedAsset.getObservable m) payload error].
Proof.
  intros Hm Hs Hcs Ho Hn Hcase Htx.
  assert (Hhas : ManagedAsset.hasConsumers m = true).
  { unfold ManagedAsset.hasConsumers. by rewrite Hcs. }
  assert (Hfields : ∀ a2 : t,
            assets a2 = assets (putConsumer a key m 0 (AssetConsumer.setNotified c true)) →
            requestHandlers a2 = requestHandlers a →
            pendingLoadRequests a2 = pendingLoadRequests a →
            currentTransaction a2 = currentTransaction a →
            control a2 = control a →
            observerCalls a2
            = observerCalls a
              ++ [EvObserverOnLoad o (ManagedAsset.getObservable m) payload error] →
            assets a2
            = <[key := ManagedAsset.setConsumers m [AssetConsumer.setNotified c true]]>
                (assets a)
            ∧ requestHandlers a2 = requestHandlers a
            ∧ pendingLoadRequests a2 = pendingLoadRequests a
            ∧ currentTransaction a2 = Some tx
            ∧ control a2 = control a
            ∧ observerCalls a2
              = observerCalls a
                ++ [EvObserverOnLoad o (ManagedAsset.getObservable m) payload error]).
  { intros a2 -> -> -> -> -> ->. simpl. rewrite Hcs. by rewrite Htx. }
  unfold updateAsset, getManagedAsset. rewrite Hm.
  rewrite removeManagedAssetIfNeeded_used by done.
  unfold updateAssetConsumers, getNextConsumerToUpdate.
  rewrite Hcs. simpl getNextConsumerToUpdateFrom. rewrite Ho, Hn.
  destruct Hs as [Hs|[Hs|Hs]]; rewrite Hs; simpl SC_ASSERT; cbn [mbind Outcome_bind];
    (destruct Hcase as [(Hc & Hl & ->)|(Hc & -> & e & Hl & ->)]; rewrite Hc;
     cbv beta iota zeta; unfold doUpdateAssetConsumer; rewrite Ho, Hc, Hl;
     cbn [Result.value Result.error mbind Outcome_bind];
     unfold notifyAssetConsumer; cbv zeta;
     cbn [AssetConsumer.getObserver AssetConsumer.setNotified]; rewrite Ho;
     cbn [mbind Outcome_bind];
     (destruct (listener _) eqn:Hlist; eexists; (split; [reflexivity|]); apply Hfields;
      rewrite ?observerCalls_listener, ?observerCalls_emit; reflexivity)).
Qed.

(** X19: the completion of a load reaches the observer within the call.
    When [onLoad] comes in on the main thread for a request that is not
    scheduled for cancelation, while updates are not paused and nothing is
    scheduled, and the only consumer of the ready asset holds the request
    and has an observer, the call records the result on the request, makes
    the consumer [Loaded] or [Failed] as [onConsumerLoad] says, and drains:
    the observer is called once, with the loaded asset and no error on a
    loaded asset, with no asset and an error on an error or on a null
    asset, and the consumer is left notified.  Nothing stays scheduled. *)
Theorem onLoad_notifies_waiting_observer (fuel : nat) (env : Env) (am : t)
  (request : HandlerRef) (r : AssetLoaderRequestHandler.t) (result : LoadResult)
  (m : ManagedAsset.t) (c : AssetConsumer.t) (o : ObserverRef) :
  let key := AssetLoaderRequestHandler.getAssetKey r in
  requestHandlers am !! request = Some r →
  AssetLoaderRequestHandler.scheduledForCancelation r = false →
  getManagedAsset am key = Some m →
  ManagedAsset.getState m = AssetStateReady →
  ManagedAsset.consumers m = [c] →
  AssetConsumer.getObserver c = Some o →
  AssetConsumer.getAssetLoaderCompletion c = Some request →
  currentTransaction am = None →
  pauseUpdatesCount am = 0 →
  scheduledUpdates am = [] →
  currentThreadIsMainThread env = true →
  (1 ≤ fuel)%nat →
  Result.empty result = false →
  ∃ am' c' payload error,
    onLoad fuel env am request result = Done am'
    ∧ onConsumerLoad c result = Done c'
    ∧ assets am'
      = <[key := ManagedAsset.setConsumers m [AssetConsumer.setNotified c' true]]>
          (assets am)
    ∧ requestHandlers am'
      = <[request := AssetLoaderRequestHandler.setLastLoadResult r result]>
          (requestHandlers am)
    ∧ scheduledUpdates am' = []
    ∧ currentTransaction am' = None
    ∧ observerCalls am'
      = observerCalls am
        ++ [EvObserverOnLoad o (ManagedAsset.getObservable m) payload error]
    ∧ match result with
      | Result.Ok (Some loaded) => payload = Some loaded ∧ error = None
      | Result.Ok None =>
          payload = None ∧ error = Some "AssetLoader provided a null asset"
      | Result.Err e => payload = None ∧ error = Some e
      | Result.Empty => False
      end.
Proof.
  intros key Hr Hcancel Hm Hs Hcs Ho Hcompl Htx Hp Hsu Hmain Hfuel Hne.
  assert (Hload : ∃ c' payload error,
            onConsumerLoad c result = Done c'
            ∧ AssetConsumer.getObserver c' = Some o
            ∧ AssetConsumer.notified c' = false
            ∧ ((AssetConsumer.getState c' = AssetConsumerStateLoaded
                ∧ AssetConsumer.getLoadedAsset c' = Result.Ok payload ∧ error = None)
               ∨ (AssetConsumer.getState c' = AssetConsumerStateFailed
                  ∧ payload = None
                  ∧ ∃ e, AssetConsumer.getLoadedAsset c' = Result.Err e ∧ error = Some e))
            ∧ match result with
              | Result.Ok (Some loaded) => payload = Some loaded ∧ error = None
              | Result.Ok None =>
                  payload = None ∧ error = Some "AssetLoader provided a null asset"
              | Result.Err e => payload = None ∧ error = Some e
              | Result.Empty => False
              end).
  { unfold onConsumerLoad. destruct result as [|[loaded|]|e]; [done| | |].
    - eexists _, (Some loaded), None. split_and!; try done. left. done.
    - eexists _, None, (Some _). split_and!; try done. right. split_and!; try done.
      by eexists.
    - eexists _, None, (Some e). split_and!; try done. right. split_and!; try done.
      by eexists. }
  destruct Hload as (c' & payload & error & Hc' & Ho' & Hn' & Hcase & Hshape).
  exists (stateOf (onLoad fuel env am request result)), c', payload, error.
  unfold onLoad. unfold HandlerRef in *. rewrite Hr. fold key. rewrite Hm, Hcancel.
  cbv zeta. rewrite Hcs. cbn [onLoadConsumers].
  rewrite (bool_decide_eq_true_2 (AssetConsumer.getAssetLoaderCompletion c = Some request))
    by done.
  rewrite Hc'. cbn [mbind Outcome_bind].
  match goal with |- context [scheduleAssetUpdate fuel env ?x key] => set (a0 := x) end.
  unfold scheduleAssetUpdate.
  assert (Ha0 : currentTransaction a0 = None ∧ pauseUpdatesCount a0 = 0
                ∧ scheduledUpdates a0 = []).
  { by unfold a0. }
  destruct Ha0 as (-> & -> & ->). rewrite Hmain. simpl bool_decide. cbn [andb app].
  unfold performUpdates. rewrite Hmain. simpl SC_ASSERT. cbn [mbind Outcome_bind]. cbv zeta.
  cbn [scheduledUpdates set_scheduledUpdates foldl]. rewrite enqueueUpdate_nil.
  destruct fuel as [|fuel]; [lia|].
  cbn [drainUpdates].
  cbn [currentTransaction set_scheduledUpdates set_currentTransaction
       AssetsManagerTransaction.dequeueUpdate].
  match goal with |- context [updateAsset env ?x key] => set (a1 := x) end.
  destruct (updateAsset_tells_consumer env a1 key
              (ManagedAsset.setConsumers m [c']) c' o payload error [])
    as (a2 & Hup & Ha2 & Hh2 & Hpend2 & Htx2 & Hctl2 & Hobs2); try done.
  { unfold a1, a0. simpl. apply lookup_insert_eq. }
  { by left. }
  rewrite Hup. cbn [mbind Outcome_bind].
  assert (Hdrain : drainUpdates fuel env a2 = Done a2).
  { destruct fuel; simpl; by rewrite Htx2. }
  rewrite Hdrain. cbn [mbind Outcome_bind].
  assert (Hfields :
            assets a2
            = <[key := ManagedAsset.setConsumers m [AssetConsumer.setNotified c' true]]>
                (assets am)
            ∧ requestHandlers a2
              = <[request := AssetLoaderRequestHandler.setLastLoadResult r result]>
                  (requestHandlers am)
            ∧ scheduledUpdates a2 = []
            ∧ observerCalls a2
              = observerCalls am
                ++ [EvObserverOnLoad o (ManagedAsset.getObservable m) payload error]).
  { split_and!.
    - rewrite Ha2. unfold a1, a0. simpl. by rewrite insert_insert_eq.
    - by rewrite Hh2.
    - unfold control in Hctl2. injection Hctl2 as _ Hs2 _ _ _. by rewrite Hs2.
    - by rewrite Hobs2. }
  destruct Hfields as (Hfa & Hfh & Hfu & Hfo).
  destruct (listener (set_currentTransaction a2 None)); simpl;
    rewrite ?observerCalls_emit; simpl; rewrite ?app_nil_r; split_and!; done.
Qed.

Lemma onLoad_notifies_waiting_observer_witness :
  let result : LoadResult := Result.Ok (Some 9%nat) in
  ∃ am' c' payload error,
    onLoad 1 (exampleEnv true) waitingState 0%nat result = Done am'
    ∧ onConsumerLoad holder result = Done c'
    ∧ assets am'
      = <[exampleKey := ManagedAsset.setConsumers waitingAsset
                          [AssetConsumer.setNotified c' true]]> (assets waitingState)
    ∧ requestHandlers am'
      = <[0%nat := AssetLoaderRequestHandler.setLastLoadResult sharedRequest result]>
          (requestHandlers waitingState)
    ∧ scheduledUpdates am' = []
    ∧ currentTransaction am' = None
    ∧ observerCalls am'
      = observerCalls waitingState
        ++ [EvObserverOnLoad 1%nat (ManagedAsset.getObservable waitingAsset) payload error]
    ∧ payload = Some 9%nat ∧ error = None.
Proof.
  apply (onLoad_notifies_waiting_observer 1 (exampleEnv true) waitingState 0%nat
           sharedRequest (Result.Ok (Some 9%nat)) waitingAsset holder 1%nat).
  - reflexivity.
  - reflexivity.
  - reflexivity.
  - reflexivity.
  - reflexivity.
  - reflexivity.
  - reflexivity.
  - reflexivity.
  - reflexivity.
  - reflexivity.
  - reflexivity.
  - apply le_n.
  - reflexivity.
Defined.

(** * Asset URLs *)

Lemma hasPrefix_spec str prefix :
  hasPrefix str prefix = true ↔ ∃ rest, str = prefix +:+ rest.
Proof.
  revert str. induction prefix as [|a prefix IH]; intros str.
  - split; [intros _; exists str; reflexivity|reflexivity].
  - destruct str as [|b str].
    + split; [done|]. intros [rest Heq]. discriminate Heq.
    + cbn [hasPrefix]. rewrite andb_true_iff, bool_decide_eq_true, IH. split.
      * intros [-> [rest ->]]. exists rest. reflexivity.
      * intros [rest Heq]. injection Heq as -> ->. split; [done|by exists rest].
Qed.

Lemma contains_spec str sub :
  contains str sub = true ↔ ∃ before after, str = before +:+ sub +:+ after.
Proof.
  induction str as [|b str IH]; cbn [contains].
  - rewrite orb_false_r, hasPrefix_spec. split.
    + intros [rest ->]. exists EmptyString, rest. reflexivity.
    + intros ([|? before] & after & Heq).
      * by exists after.
      * discriminate Heq.
  - rewrite orb_true_iff, hasPrefix_spec, IH. split.
    + intros [[rest ->]|(before & after & ->)].
      * exists EmptyString, rest. reflexivity.
      * exists (String b before), after. reflexivity.
    + intros ([|b' before] & after & Heq).
      * left. by exists after.
      * right. injection Heq as -> ->. by exists before, after.
Qed.

(** X20: [isAssetUrl] accepts exactly the strings that contain [://]
    somewhere (also at the very start, with an empty scheme) or that start
    with [data:image/]; in particular a string without a colon, such as a
    plain name or a relative path, and the empty string are not asset
    URLs. *)
Theorem isAssetUrl_spec (str : string) :
  (isAssetUrl str = true ↔
   (∃ before after, str = before +:+ "://" +:+ after)
   ∨ (∃ rest, str = "data:image/" +:+ rest))
  ∧ ((∀ before after, str ≠ before +:+ ":" +:+ after) → isAssetUrl str = false).
Proof.
  assert (Hiff : isAssetUrl str = true ↔
            (∃ before after, str = before +:+ "://" +:+ after)
            ∨ (∃ rest, str = "data:image/" +:+ rest)).
  { unfold isAssetUrl. rewrite <-contains_spec, <-hasPrefix_spec.
    destruct (contains str "://"); [by split; [left|]|].
    split; [by right|]. by intros [?|?]. }
  split; [done|].
  intros Hcolon. apply not_true_is_false. intros Hurl.
  apply Hiff in Hurl as [(before & after & ->)|(rest & ->)].
  - destruct (Hcolon before ("//" +:+ after)). reflexivity.
  - destruct (Hcolon "data" ("image/" +:+ rest)). reflexivity.
Qed.

Lemma isAssetUrl_spec_witness : isAssetUrl "https://x" = true ∧ isAssetUrl "a" = false.
Proof.
  split.
  - apply (isAssetUrl_spec "https://x"). left. exists "https", "x". reflexivity.
  - apply (isAssetUrl_spec "a"). intros before after Heq.
    destruct before as [|x [|y before]]; discriminate Heq.
Defined.

(** * Asset catalogs *)

(** X21: when the asset catalog of a bundle changes, the manager sets the
    expected size of exactly the live observables of the managed assets
    of that bundle: there is a call for an observable iff it is the live
    observable of an asset that is registered under a key of the bundle,
    and the call is the one that [updateObservableAssetSize] makes for the
    path of that key.  Assets of other bundles and URL assets are left
    alone.  The size is the one of the specs that the catalog has for the
    path, and 0 by 0 when the catalog cannot be read or does not know the
    path. *)
Theorem onAssetCatalogChanged_spec
  (getAssetCatalog : Bundle → string → Result.t AssetCatalog) (am : t) (bundle : Bundle) :
  let assetCatalog := getAssetCatalog bundle "res" in
  (∀ call,
     call ∈ onAssetCatalogChanged getAssetCatalog am bundle ↔
     ∃ path m observable,
       getManagedAsset am (AssetKey.OfBundle bundle path) = Some m
       ∧ ManagedAsset.getObservable m = Some observable
       ∧ call = updateObservableAssetSize observable path assetCatalog)
  ∧ (∀ observable path,
       updateObservableAssetSize observable path assetCatalog
       = match assetCatalog with
         | Result.Ok catalog =>
             match getAssetSpecsForName catalog path with
             | Some specs => (observable, getWidth specs, getHeight specs)
             | None => (observable, 0, 0)
             end
         | _ => (observable, 0, 0)
         end).
Proof.
  intros assetCatalog. split.
  - unfold onAssetCatalogChanged, getAssetCatalogForBundle, getManagedAsset.
    fold assetCatalog.
    apply (map_fold_weak_ind
             (λ calls (assets : gmap AssetKey.t ManagedAsset.t),
                ∀ call, call ∈ calls ↔
                  ∃ path m observable,
                    assets !! AssetKey.OfBundle bundle path = Some m
                    ∧ ManagedAsset.getObservable m = Some observable
                    ∧ call = updateObservableAssetSize observable path assetCatalog)).
    + intros call. split; [by intros ?%elem_of_nil|].
      intros (path & m & observable & Hm & _). by rewrite lookup_empty in Hm.
    + intros key m assets calls Hkey IH call.
      assert (Hother : ∀ path, AssetKey.OfBundle bundle path ≠ key →
                (<[key := m]> assets) !! AssetKey.OfBundle bundle path
                = assets !! AssetKey.OfBundle bundle path).
      { intros path Hne. by rewrite lookup_insert_ne. }
      destruct (bool_decide (AssetKey.getBundle key = Some bundle)) eqn:Hb.
      * apply bool_decide_eq_true in Hb.
        destruct key as [bundle' path'|url]; simpl in Hb; [|done].
        injection Hb as ->.
        destruct (ManagedAsset.getObservable m) as [observable'|] eqn:Hobs.
        -- rewrite elem_of_app, list_elem_of_singleton, IH. simpl. split.
           ++ intros [(path & m0 & observable & Hm & Ho & ->)| ->].
              ** exists path, m0, observable. split_and!; try done.
                 rewrite lookup_insert_ne; [done|]. intros [= <-]. congruence.
              ** exists path', m, observable'. by rewrite lookup_insert_eq.
           ++ intros (path & m0 & observable & Hm & Ho & ->).
              destruct (decide (path = path')) as [->|Hne].
              ** rewrite lookup_insert_eq in Hm. simplify_eq. by right.
              ** rewrite lookup_insert_ne in Hm by congruence. left. eauto 10.
        -- rewrite IH. split.
           ++ intros (path & m0 & observable & Hm & Ho & ->).
              exists path, m0, observable. split_and!; try done.
              rewrite lookup_insert_ne; [done|]. intros [= <-]. congruence.
           ++ intros (path & m0 & observable & Hm & Ho & ->).
              destruct (decide (path = path')) as [->|Hne].
              ** rewrite lookup_insert_eq in Hm. simplify_eq.
              ** rewrite lookup_insert_ne in Hm by congruence. eauto 10.
      * apply bool_decide_eq_false in Hb. rewrite IH. split.
        -- intros (path & m0 & observable & Hm & Ho & ->).
           exists path, m0, observable. split_and!; try done.
           rewrite Hother; [done|]. intros <-. by destruct Hb.
        -- intros (path & m0 & observable & Hm & Ho & ->).
           rewrite Hother in Hm by (intros <-; by destruct Hb). eauto 10.
  - intros observable path. unfold updateObservableAssetSize.
    destruct assetCatalog as [|catalog|]; try done.
    by destruct (getAssetSpecsForName catalog path).
Qed.

(** * The state of a consumer and the request that it holds *)

Lemma soundAssets_frame am am' : assets am' = assets am → soundAssets am → soundAssets am'.
Proof. unfold soundAssets. by intros ->. Qed.

Lemma soundAssets_insert am am' key m' :
  assets am' = <[key := m']> (assets am) →
  Forall consumerSound (ManagedAsset.consumers m') →
  soundAssets am → soundAssets am'.
Proof. unfold soundAssets. intros -> Hm' Ham. by apply map_Forall_insert_2. Qed.

Lemma soundAssets_delete am am' key :
  assets am' = delete key (assets am) → soundAssets am → soundAssets am'.
Proof. unfold soundAssets. intros -> Ham. by apply map_Forall_delete. Qed.

Lemma soundAssets_lookup am key m :
  soundAssets am → assets am !! key = Some m → Forall consumerSound (ManagedAsset.consumers m).
Proof. intros Ham Hm. by apply (Ham key m). Qed.

Lemma consumerSound_result c state result :
  state = AssetConsumerStateLoaded ∨ state = AssetConsumerStateFailed →
  consumerSound (AssetConsumer.setLoadedAsset (AssetConsumer.setState c state) result).
Proof. intros Hs. split; simpl; intros ?; subst; try done; by destruct Hs. Qed.

Lemma consumerSound_onConsumerLoad c result c' :
  onConsumerLoad c result = Done c' → consumerSound c'.
Proof.
  unfold onConsumerLoad. destruct result as [|[loaded|]|e]; try done; intros [= <-];
    apply consumerSound_result; first [by left|by right].
Qed.

Lemma consumerSound_setNotified c :
  AssetConsumer.getState c = AssetConsumerStateLoaded
  ∨ AssetConsumer.getState c = AssetConsumerStateFailed →
  consumerSound (AssetConsumer.setNotified c true).
Proof. intros Hs. split; simpl; try done; intros Heq; rewrite Heq in Hs; by destruct Hs. Qed.

Lemma consumerSound_setObserver c o :
  consumerSound c → consumerSound (AssetConsumer.setObserver c o).
Proof. by intros [H1 H2 H3]. Qed.

Lemma consumerSound_resetConsumer c : consumerSound (resetConsumer c).
Proof. split; simpl; try done. Qed.

Lemma consumerSound_attached c h :
  AssetConsumer.notified c = false →
  consumerSound (AssetConsumer.setAssetLoaderCompletion
                   (AssetConsumer.setState c AssetConsumerStateLoading) (Some h)).
Proof. intros Hn. split; simpl; try done. by rewrite Hn. Qed.

(** What a part of a round writes: the managed asset of the key, with
    sound consumers. *)
Lemma removeAssetConsumer_sound am key m i c :
  soundAssets am → assets am !! key = Some m →
  soundAssets (removeAssetConsumer am key m i c).
Proof.
  intros Ham Hm. destruct (removeAssetConsumer_writes am key m i c) as [Ha _].
  eapply soundAssets_insert; [done| |done]. simpl.
  apply Forall_delete. by eapply soundAssets_lookup.
Qed.

Lemma putConsumer_sound am am1 key m i c' :
  soundAssets am → assets am !! key = Some m → assets am1 = assets am →
  consumerSound c' →
  soundAssets (putConsumer am1 key m i c').
Proof.
  intros Ham Hm Ha Hc'. eapply (soundAssets_insert am); [by rewrite <-Ha| |done]. simpl.
  apply Forall_insert; [|done]. by eapply soundAssets_lookup.
Qed.

Lemma loadAssetForConsumerAtResolvedLocation_sound env am key m i c location am' :
  soundAssets am → assets am !! key = Some m →
  AssetConsumer.notified c = false →
  loadAssetForConsumerAtResolvedLocation env am key m i c location = Done am' →
  soundAssets am'.
Proof.
  intros Ham Hm Hn. unfold loadAssetForConsumerAtResolvedLocation.
  pose proof (soundAssets_lookup am key m Ham Hm) as Hcs.
  destruct (resolveAssetLoader env _ _) as [loader|].
  2:{ intros [= <-].
      match goal with |- context [scheduleAssetUpdateInTransaction ?a ?b] =>
        destruct (scheduleAssetUpdateInTransaction_frame a b) as (Ha & _) end.
      eapply soundAssets_frame; [done|].
      apply (putConsumer_sound am); try done. apply consumerSound_result. by right. }
  destruct (if canReuseLoadedAssets loader then _ else None) as [h|].
  - match goal with |- context [updateConsumerRequestHandler ?a ?b ?c] =>
      pose proof (updateConsumerRequestHandler_assets a b c) as Ha;
      pose proof (updateConsumerRequestHandler_consumer a b c) as Hc2;
      destruct (updateConsumerRequestHandler a b c) as [c2 am1] end.
    simpl in Ha, Hc2. subst c2.
    destruct (negb _).
    + destruct (onConsumerLoad _ _) as [c3|] eqn:Hc3; [|done]. simpl. intros [= <-].
      match goal with |- context [scheduleAssetUpdateInTransaction ?a ?b] =>
        destruct (scheduleAssetUpdateInTransaction_frame a b) as (Ha' & _) end.
      eapply soundAssets_frame; [done|].
      eapply (soundAssets_insert am); [simpl; by rewrite Ha| |done]. simpl.
      rewrite list_insert_insert_eq. apply Forall_insert; [done|].
      by eapply consumerSound_onConsumerLoad.
    + intros [= <-].
      eapply (soundAssets_insert am); [simpl; by rewrite Ha| |done]. simpl.
      rewrite list_insert_insert_eq. apply Forall_insert; [done|].
      by apply consumerSound_attached.
  - match goal with |- context [updateConsumerRequestHandler ?a ?b ?c] =>
      pose proof (updateConsumerRequestHandler_assets a b c) as Ha;
      pose proof (updateConsumerRequestHandler_consumer a b c) as Hc2;
      destruct (updateConsumerRequestHandler a b c) as [c2 am1] end.
    simpl in Ha, Hc2. subst c2.
    intros [= <-].
    eapply (soundAssets_insert am); [simpl; by rewrite Ha| |done]. simpl.
    rewrite getPayloadCacheForAssetLoader_consumers. simpl.
    rewrite list_insert_insert_eq. apply Forall_insert; [done|].
    by apply consumerSound_attached.
Qed.

Lemma consumerSound_unnotified c :
  consumerSound c → AssetConsumer.getState c = AssetConsumerStateInitial →
  AssetConsumer.notified c = false.
Proof.
  intros [_ _ H3] Hs. destruct (AssetConsumer.notified c); [|done].
  destruct (H3 eq_refl) as [?|?]; congruence.
Qed.

Lemma doUpdateAssetConsumer_sound env am key m i c am' :
  soundAssets am → assets am !! key = Some m → ManagedAsset.consumers m !! i = Some c →
  doUpdateAssetConsumer env am key m i c = Done am' →
  soundAssets am'.
Proof.
  intros Ham Hm Hi. unfold doUpdateAssetConsumer.
  assert (Hc : consumerSound c).
  { pose proof (soundAssets_lookup am key m Ham Hm) as Hcs.
    rewrite Forall_lookup in Hcs. by apply (Hcs i). }
  destruct (AssetConsumer.getObserver c) as [o|] eqn:Ho.
  2:{ intros [= <-]. by apply removeAssetConsumer_sound. }
  destruct (AssetConsumer.getState c) eqn:Hs.
  - destruct (_ || _).
    + destruct (Result.error _) as [e|]; [|done]. simpl. intros [= <-].
      match goal with |- context [scheduleAssetUpdateInTransaction ?a ?b] =>
        destruct (scheduleAssetUpdateInTransaction_frame a b) as (Ha & _) end.
      eapply soundAssets_frame; [done|].
      apply (putConsumer_sound am); try done. apply consumerSound_result. by right.
    + destruct (Result.value _) as [location|]; [|done]. simpl.
      apply loadAssetForConsumerAtResolvedLocation_sound; try done.
      by apply consumerSound_unnotified.
  - done.
  - destruct (Result.value _) as [loaded|]; [|done]. simpl.
    unfold notifyAssetConsumer. simpl. rewrite Ho. intros [= <-].
    eapply (soundAssets_insert am); [done| |done]. simpl.
    apply Forall_insert; [by eapply soundAssets_lookup|].
    apply consumerSound_setNotified. by left.
  - destruct (Result.error _) as [e|]; [|done]. simpl.
    unfold notifyAssetConsumer. simpl. rewrite Ho. intros [= <-].
    eapply (soundAssets_insert am); [done| |done]. simpl.
    apply Forall_insert; [by eapply soundAssets_lookup|].
    apply consumerSound_setNotified. by right.
  - by intros [= <-].
Qed.

Lemma updateAssetConsumers_sound env am key m am' :
  soundAssets am → assets am !! key = Some m →
  updateAssetConsumers env am key m = Done am' →
  soundAssets am'.
Proof.
  intros Ham Hm. unfold updateAssetConsumers.
  destruct (SC_ASSERT _); [|done]. simpl.
  destruct (getNextConsumerToUpdate m false) as [[[i c]|] hasMore] eqn:Hnext.
  2:{ by intros [= <-]. }
  pose proof (getNextConsumerToUpdate_lookup _ _ _ _ _ Hnext) as Hi.
  apply doUpdateAssetConsumer_sound; try done.
  - destruct hasMore; [|done].
    destruct (scheduleAssetUpdateInTransaction_frame am key) as (Ha & _).
    by eapply soundAssets_frame.
  - destruct hasMore; [|done].
    by destruct (scheduleAssetUpdateInTransaction_frame am key) as (-> & _).
Qed.

Lemma resolveAssetLocation_sound am key m am' :
  soundAssets am → assets am !! key = Some m →
  resolveAssetLocation am key m = Done am' →
  soundAssets am'.
Proof.
  intros Ham Hm. pose proof (soundAssets_lookup am key m Ham Hm) as Hcs.
  unfold resolveAssetLocation.
  destruct (SC_ASSERT _); [|done]. simpl.
  destruct (AssetKey.getBundle key) as [bundle|].
  - destruct (hasRemoteAssets bundle); intros [= <-];
      by eapply (soundAssets_insert am); [reflexivity| |].
  - intros [= <-].
    match goal with |- context [scheduleAssetUpdateInTransaction ?a ?b] =>
      destruct (scheduleAssetUpdateInTransaction_frame a b) as (Ha & _) end.
    eapply soundAssets_frame; [done|].
    by eapply (soundAssets_insert am); [reflexivity| |].
Qed.

Lemma updateAsset_sound env am key am' :
  soundAssets am → updateAsset env am key = Done am' → soundAssets am'.
Proof.
  intros Ham. unfold updateAsset, getManagedAsset.
  destruct (assets am !! key) as [m|] eqn:Hm; [|by intros [= <-]].
  destruct (removeManagedAssetIfNeeded env am key m) as [[|] am1] eqn:Hrem.
  - apply removeManagedAssetIfNeeded_true in Hrem as (_ & _ & _ & Ha & _).
    simpl. intros Hl.
    assert (Ha' : assets am' = assets am1) by (destruct (listener am1); by simplify_eq).
    eapply soundAssets_frame; [done|]. by eapply soundAssets_delete.
  - apply removeManagedAssetIfNeeded_false in Hrem as ->.
    match goal with |- context [mbind _ ?x] => destruct x as [am2|] eqn:Hstep end; [|done].
    simpl. intros Hl.
    assert (Ha' : assets am' = assets am2) by (destruct (listener am2); by simplify_eq).
    eapply soundAssets_frame; [done|].
    destruct (ManagedAsset.getState m).
    + destruct (ManagedAsset.hasConsumers m); [|by simplify_eq].
      by eapply resolveAssetLocation_sound.
    + by simplify_eq.
    + by eapply updateAssetConsumers_sound.
    + by eapply updateAssetConsumers_sound.
    + by eapply updateAssetConsumers_sound.
Qed.

Lemma drainUpdates_sound fuel env am am' :
  soundAssets am → drainUpdates fuel env am = Done am' → soundAssets am'.
Proof.
  revert am. induction fuel as [|fuel IH]; intros am Ham; simpl.
  - destruct (currentTransaction am) as [tx|]; [|by intros [= <-]].
    destruct (AssetsManagerTransaction.dequeueUpdate tx) as [[]|]; [done|by intros [= <-]].
  - destruct (currentTransaction am) as [tx|]; [|by intros [= <-]].
    destruct (AssetsManagerTransaction.dequeueUpdate tx) as [[update rest]|];
      [|by intros [= <-]].
    destruct (updateAsset env _ update) as [am1|] eqn:Hup; [|done]. simpl.
    apply IH. eapply updateAsset_sound; [|done]. by eapply soundAssets_frame.
Qed.

Lemma performUpdates_sound fuel env am am' :
  soundAssets am → performUpdates fuel env am = Done am' → soundAssets am'.
Proof.
  intros Ham. unfold performUpdates. destruct (SC_ASSERT _); [|done]. simpl.
  destruct (drainUpdates fuel env _) as [am1|] eqn:Hd; [|done]. simpl.
  apply drainUpdates_sound in Hd; [|by eapply soundAssets_frame].
  intros Hl. eapply soundAssets_frame; [|done].
  destruct (listener am1); by simplify_eq.
Qed.

Lemma scheduleAssetUpdate_sound fuel env am key am' :
  soundAssets am → scheduleAssetUpdate fuel env am key = Done am' → soundAssets am'.
Proof.
  intros Ham. unfold scheduleAssetUpdate. destruct (currentTransaction am) eqn:Htx.
  - intros [= <-].
    destruct (scheduleAssetUpdateInTransaction_frame am key) as (Ha & _).
    by eapply soundAssets_frame.
  - destruct (_ && _).
    + destruct (currentThreadIsMainThread env).
      * apply performUpdates_sound. by eapply soundAssets_frame.
      * by intros [= <-].
    + by intros [= <-].
Qed.

Lemma getOrCreateManagedAsset_sound am key :
  soundAssets am →
  soundAssets (getOrCreateManagedAsset am key).2
  ∧ Forall consumerSound (ManagedAsset.consumers (getOrCreateManagedAsset am key).1).
Proof.
  intros Ham. unfold getOrCreateManagedAsset, getManagedAsset.
  destruct (assets am !! key) as [m|] eqn:Hm; simpl.
  - split; [done|]. by eapply soundAssets_lookup.
  - split; [|done]. by eapply (soundAssets_insert am); [reflexivity| |].
Qed.

Lemma lockFreeGetAsset_sound am key : soundAssets am → soundAssets (lockFreeGetAsset am key).2.
Proof.
  intros Ham. unfold lockFreeGetAsset.
  destruct (getOrCreateManagedAsset_sound am key Ham) as [Ham1 Hm1].
  destruct (getOrCreateManagedAsset am key) as [m am1]. simpl in *.
  destruct (ManagedAsset.getObservable m); [done|]. simpl.
  by eapply (soundAssets_insert am1); [reflexivity| |].
Qed.

Lemma resetConsumers_list am cs : (resetConsumers am cs).1 = resetConsumer <$> cs.
Proof.
  revert am. induction cs as [|c cs IH]; intros am; [done|].
  rewrite resetConsumers_cons.
  match goal with |- context [updateConsumerRequestHandler ?a ?b ?c] =>
    pose proof (updateConsumerRequestHandler_consumer a b c) as Hc1;
    destruct (updateConsumerRequestHandler a b c) as [c1 am1] end.
  specialize (IH am1). destruct (resetConsumers am1 cs) as [rest am2].
  simpl in *. by rewrite Hc1, IH.
Qed.

Lemma resetConsumers_assets am cs : assets (resetConsumers am cs).2 = assets am.
Proof.
  revert am. induction cs as [|c cs IH]; intros am; [done|].
  rewrite resetConsumers_cons.
  match goal with |- context [updateConsumerRequestHandler ?a ?b ?c] =>
    pose proof (updateConsumerRequestHandler_assets a b c) as Ha1;
    destruct (updateConsumerRequestHandler a b c) as [c1 am1] end.
  specialize (IH am1). destruct (resetConsumers am1 cs) as [rest am2].
  simpl in *. by rewrite IH.
Qed.

Lemma setResolvedAssetLocation_sound fuel env am key location am' :
  soundAssets am → setResolvedAssetLocation fuel env am key location = Done am' →
  soundAssets am'.
Proof.
  intros Ham. unfold setResolvedAssetLocation.
  destruct (getOrCreateManagedAsset_sound am key Ham) as [Ham1 Hm1].
  destruct (getOrCreateManagedAsset am key) as [asset am0]. simpl in Ham1, Hm1.
  match goal with |- context [mbind _ ?x] => destruct x as [[|]|] end; try done; simpl.
  { by intros [= <-]. }
  assert (Hcs : ∀ cs am1,
            (if bool_decide (ManagedAsset.getState asset = AssetStateReady)
             then resetConsumers am0 (ManagedAsset.consumers asset)
             else (ManagedAsset.consumers asset, am0)) = (cs, am1) →
            Forall consumerSound cs ∧ assets am1 = assets am0).
  { intros cs am1. destruct (bool_decide _).
    - intros Heq.
      pose proof (resetConsumers_list am0 (ManagedAsset.consumers asset)) as Hl.
      pose proof (resetConsumers_assets am0 (ManagedAsset.consumers asset)) as Ha.
      rewrite Heq in Hl, Ha. simpl in Hl, Ha. subst cs. split; [|done].
      apply Forall_fmap, Forall_true. intros c. apply consumerSound_resetConsumer.
    - by intros [= <- <-]. }
  destruct (if bool_decide _ then _ else _) as [cs am1] eqn:Hreset.
  destruct (Hcs cs am1 eq_refl) as [Hsound Ha].
  match goal with |- (if ?b then _ else _) = _ → _ => destruct b end.
  - apply scheduleAssetUpdate_sound.
    eapply (soundAssets_insert am0); [simpl; by rewrite Ha|done|done].
  - intros [= <-]. eapply (soundAssets_insert am0); [simpl; by rewrite Ha|done|done].
Qed.

Lemma addAssetLoadObserver_sound fuel env am key observer context outputType w h data am' :
  soundAssets am →
  addAssetLoadObserver fuel env am key observer context outputType w h data = Done am' →
  soundAssets am'.
Proof.
  intros Ham. unfold addAssetLoadObserver.
  destruct (getOrCreateManagedAsset_sound am key Ham) as [Ham1 Hm1].
  destruct (getOrCreateManagedAsset am key) as [asset am0]. simpl in Ham1, Hm1.
  apply scheduleAssetUpdate_sound.
  eapply (soundAssets_insert am0); [reflexivity| |done].
  assert (Hnew : Forall consumerSound
                   (ManagedAsset.consumers asset
                    ++ [AssetConsumer.setAttachedData
                          (AssetConsumer.setPreferredHeight
                             (AssetConsumer.setPreferredWidth
                                (AssetConsumer.setOutputType
                                   (AssetConsumer.setObserver
                                      (AssetConsumer.setContext AssetConsumer.create context)
                                      observer) outputType) w) h) data])).
  { apply Forall_app. split; [done|]. constructor; [|done]. by split. }
  by destruct (bool_decide _).
Qed.

Lemma clearFirstObserver_sound cs observer :
  Forall consumerSound cs → Forall consumerSound (clearFirstObserver cs observer).
Proof.
  induction 1 as [|c cs Hc Hcs IH]; simpl; [done|].
  destruct (bool_decide _); constructor; try done.
  by apply consumerSound_setObserver.
Qed.

Lemma removeAssetLoadObserver_sound fuel env am key observer am' :
  soundAssets am → removeAssetLoadObserver fuel env am key observer = Done am' →
  soundAssets am'.
Proof.
  intros Ham. unfold removeAssetLoadObserver, getManagedAsset.
  destruct (assets am !! key) as [m|] eqn:Hm; [|by intros [= <-]].
  apply scheduleAssetUpdate_sound.
  eapply (soundAssets_insert am); [reflexivity| |done]. simpl.
  apply clearFirstObserver_sound. by eapply soundAssets_lookup.
Qed.

Lemma soundAssets_location am key m m' :
  soundAssets am → assets am !! key = Some m →
  ManagedAsset.consumers m' = ManagedAsset.consumers m →
  soundAssets (putManagedAsset am key m').
Proof.
  intros Ham Hm Hcs. eapply (soundAssets_insert am); [reflexivity| |done].
  rewrite Hcs. by eapply soundAssets_lookup.
Qed.

Lemma onLoadConsumers_sound cs request result cs' :
  onLoadConsumers cs request result = Done cs' →
  Forall consumerSound cs → Forall consumerSound cs'.
Proof.
  intros Hload%onLoadConsumers_spec Hcs.
  induction Hload as [|c c' cs cs' Hc _ IH]; [done|].
  apply Forall_cons in Hcs as [Hc0 Hcs]. constructor; [|by apply IH].
  destruct (bool_decide _); [by eapply consumerSound_onConsumerLoad|by subst].
Qed.

Lemma flushLoadRequestsLoop_assets rounds am :
  assets (flushLoadRequestsLoop rounds am) = assets am.
Proof.
  revert am. induction rounds as [|rounds IH]; intros am; simpl; [done|].
  destruct (pendingLoadRequests am) as [|h rest]; [done|].
  destruct (bool_decide (pauseUpdatesCount am = 0)); [|done].
  simpl. destruct (requestHandlers am !! h) as [r|]; [|by rewrite IH].
  destruct (AssetLoaderRequestHandler.scheduledForCancelation r); by rewrite IH.
Qed.

Lemma step_sound am am' : step am am' → soundAssets am → soundAssets am'.
Proof.
  destruct 1 as [am key|am url|am key|fuel env am key location am' H
                |fuel env am key observer context outputType w h data am' H
                |fuel env am key observer am' H|am key observer w h|am key
                |fuel env am key am' H|fuel env am key resolveId am' H
                |fuel env am key result resolveId am' H|fuel env am request result am' H
                |am|am|fuel env am am' H|fuel env am am' H|fuel env am am' H
                |am l|am b|env am key am' H|am tx|am updates]; intros Ham.
  - by apply lockFreeGetAsset_sound.
  - unfold createAssetWithBytes. apply lockFreeGetAsset_sound.
    eapply soundAssets_frame; [|done]. by destruct (assetBytesStore am).
  - unfold getResolvedAssetLocation. destruct (getManagedAsset am key) as [m|]; [|done].
    by destruct (ManagedAsset.getResolvedAssetLocation m).
  - by eapply setResolvedAssetLocation_sound.
  - by eapply addAssetLoadObserver_sound.
  - by eapply removeAssetLoadObserver_sound.
  - done.
  - unfold expireObservable, getManagedAsset.
    destruct (assets am !! key) as [m|] eqn:Hm; [|done].
    by apply (soundAssets_location am key m).
  - unfold onObservableDestroyed in H.
    destruct (getManagedAsset am key); [|by simplify_eq].
    by eapply scheduleAssetUpdate_sound.
  - unfold resolveLocalAssetLocationAndUpdate, getManagedAsset in H.
    destruct (resolveLocalAssetLocation env key) as [location|]; [|done]. simpl in H.
    destruct (assets am !! key) as [m|] eqn:Hm; [|by simplify_eq].
    destruct (bool_decide (ManagedAsset.getResolveId m ≠ resolveId)); [by simplify_eq|].
    destruct (updateAssetLocation m location) as [m'|] eqn:Hloc; [|done]. simpl in H.
    apply updateAssetLocation_spec in Hloc as (_ & Hcs & _).
    eapply scheduleAssetUpdate_sound; [|done]. by apply (soundAssets_location am key m).
  - unfold onLoadingRemoteResourcesCompleted, getManagedAsset in H.
    destruct (resolveRemoteAssetLocation env key result) as [location|]; [|done]. simpl in H.
    destruct (assets am !! key) as [m|] eqn:Hm; [|by simplify_eq].
    destruct (bool_decide (ManagedAsset.getResolveId m ≠ resolveId)); [by simplify_eq|].
    destruct (SC_ASSERT _); [|done]. simpl in H.
    match type of H with mbind _ ?x = _ => destruct x as [m'|] eqn:Hloc; [|done] end.
    simpl in H. eapply scheduleAssetUpdate_sound; [|done].
    apply (soundAssets_location am key m); try done.
    destruct (Result.success result).
    + by apply updateAssetLocation_spec in Hloc as (_ & Hcs & _).
    + destruct (Result.error result); [|done]. simpl in Hloc. by simplify_eq.
  - unfold onLoad, getManagedAsset in H.
    destruct (requestHandlers am !! request) as [r|]; [|done].
    destruct (assets am !! _) as [m|] eqn:Hm; [|by simplify_eq].
    destruct (AssetLoaderRequestHandler.scheduledForCancelation r); [by simplify_eq|].
    destruct (onLoadConsumers _ _ _) as [cs|] eqn:Hcs; [|done]. simpl in H.
    eapply scheduleAssetUpdate_sound; [|done].
    eapply (soundAssets_insert am); [reflexivity| |done]. simpl.
    eapply onLoadConsumers_sound; [done|]. by eapply soundAssets_lookup.
  - eapply soundAssets_frame; [|done]. unfold flushLoadRequests. simpl.
    apply flushLoadRequestsLoop_assets.
  - done.
  - unfold endPauseUpdates in H.
    destruct (SC_ASSERT _); [|done]. simpl in H.
    match type of H with mbind _ ?x = _ => destruct x as [am1|] eqn:H1; [|done] end.
    simpl in H.
    assert (Ham1 : soundAssets am1).
    { match type of H1 with (if ?b then _ else _) = _ => destruct b end.
      - by eapply performUpdates_sound.
      - by simplify_eq. }
    assert (Hflush : ∀ am0 : t, assets (scheduleFlushLoadRequests am0) = assets am0).
    { intros am0. by destruct (scheduleFlushLoadRequests_frame am0) as (? & _). }
    match type of H with (if ?b then _ else _) = _ => destruct b end.
    + match type of H with (if ?b then _ else _) = _ => destruct b end.
      * match type of H with (if ?b then _ else _) = _ => destruct b end.
        -- simplify_eq. eapply soundAssets_frame; [|done]. simpl. by rewrite Hflush.
        -- eapply performUpdates_sound; [|done].
           eapply soundAssets_frame; [|done]. by rewrite Hflush.
      * simplify_eq. eapply soundAssets_frame; [|done]. by rewrite Hflush.
    + by simplify_eq.
  - unfold flushUpdates in H.
    match type of H with (if ?b then _ else _) = _ => destruct b end; [by simplify_eq|].
    by eapply performUpdates_sound.
  - by eapply performUpdates_sound.
  - done.
  - done.
  - by eapply updateAsset_sound.
  - done.
  - done.
Qed.

(** X22: in every reachable state the state of a consumer agrees with
    what it holds: a consumer that is still [Initial] holds no request
    handler (so serving it never releases one), a consumer that is
    [Loading] holds the request handler whose completion it waits for, and
    a consumer is marked as notified only while it is [Loaded] or
    [Failed]. *)
Theorem consumers_agree_with_their_requests (am : t) (key : AssetKey.t)
  (m : ManagedAsset.t) (c : AssetConsumer.t) :
  reachable am →
  getManagedAsset am key = Some m →
  c ∈ ManagedAsset.consumers m →
  (AssetConsumer.getState c = AssetConsumerStateInitial →
   AssetConsumer.getAssetLoaderCompletion c = None)
  ∧ (AssetConsumer.getState c = AssetConsumerStateLoading →
     is_Some (AssetConsumer.getAssetLoaderCompletion c))
  ∧ (AssetConsumer.notified c = true →
     AssetConsumer.getState c = AssetConsumerStateLoaded
     ∨ AssetConsumer.getState c = AssetConsumerStateFailed).
Proof.
  intros Hr.
  assert (Ham : soundAssets am).
  { induction Hr as [|am0 am1 _ IH Hstep]; [|by eapply step_sound].
    unfold soundAssets. simpl. apply map_Forall_empty. }
  intros Hm Hc.
  pose proof (soundAssets_lookup am key m Ham Hm) as Hcs.
  rewrite Forall_forall in Hcs. destruct (Hcs c Hc) as [H1 H2 H3].
  split_and!; assumption.
Qed.

Lemma consumers_agree_with_their_requests_witness :
  let c :=
    AssetConsumer.mk (Some 1%nat) 0%nat 0%nat 100 100 EmptyString AssetConsumerStateLoading
      Result.Empty false (Some 0%nat) in
  (AssetConsumer.getState c = AssetConsumerStateInitial →
   AssetConsumer.getAssetLoaderCompletion c = None)
  ∧ (AssetConsumer.getState c = AssetConsumerStateLoading →
     is_Some (AssetConsumer.getAssetLoaderCompletion c))
  ∧ (AssetConsumer.notified c = true →
     AssetConsumer.getState c = AssetConsumerStateLoaded
     ∨ AssetConsumer.getState c = AssetConsumerStateFailed).
Proof.
  apply (consumers_agree_with_their_requests loadingState exampleKey
           (ManagedAsset.mk AssetStateReady 1 None (Result.Ok exampleLocation)
              [AssetConsumer.mk (Some 1%nat) 0%nat 0%nat 100 100 EmptyString
                 AssetConsumerStateLoading Result.Empty false (Some 0%nat)]
              [7%nat])).
  - exact loadingState_reachable.
  - reflexivity.
  - apply elem_of_cons. left. reflexivity.
Defined.

(** * Removing the observer of a load in flight *)

Lemma releaseExistingRequest_spec am (h : HandlerRef) r :
  requestHandlers am !! h = Some r →
  AssetLoaderRequestHandler.consumersCount r = 1 →
  AssetLoaderRequestHandler.scheduledForCancelation r = false →
  let am1 := releaseExistingRequest am (Some h) in
  requestHandlers am1
  = <[h := AssetLoaderRequestHandler.setScheduledForCancelation
             (AssetLoaderRequestHandler.decrementConsumersCount r)]> (requestHandlers am)
  ∧ pendingLoadRequests am1 = pendingLoadRequests am ++ [h]
  ∧ pendingLoadRequestsScheduled am1 = true
  ∧ assets am1 = assets am
  ∧ currentTransaction am1 = currentTransaction am
  ∧ control am1 = control am
  ∧ observerCalls am1 = observerCalls am.
Proof.
  intros Hr Hcount Hcancel.
  pose proof (releaseExistingRequest_observerCalls am (Some h)) as Hobs.
  destruct (releaseExistingRequest_frame am (Some h)) as (Ha & _ & Htx & _ & _ & Hctl).
  cbv zeta. split_and!; try done.
  - unfold releaseExistingRequest. rewrite Hr. simpl. rewrite Hcount, Hcancel. simpl.
    match goal with |- context [scheduleFlushLoadRequests ?x] =>
      destruct (scheduleFlushLoadRequests_frame x) as (_ & -> & _) end.
    simpl. by rewrite list_insert_insert_eq.
  - unfold releaseExistingRequest. rewrite Hr. simpl. rewrite Hcount, Hcancel. simpl.
    match goal with |- context [scheduleFlushLoadRequests ?x] =>
      by destruct (scheduleFlushLoadRequests_frame x) as (_ & _ & -> & _) end.
  - unfold releaseExistingRequest. rewrite Hr. simpl. rewrite Hcount, Hcancel. simpl.
    unfold scheduleFlushLoadRequests. simpl.
    destruct (pendingLoadRequestsScheduled am) eqn:Hsched; simpl; [done|].
    rewrite bool_decide_eq_false_2; [done|]. by destruct (pendingLoadRequests am).
Qed.

(** The round of the drain that takes out the only consumer of an asset,
    whose observer has been cleared while its load was in flight. *)
Lemma updateAsset_removes_cleared_consumer env a key m c (h : HandlerRef) r tx :
  assets a !! key = Some m →
  ManagedAsset.getState m = AssetStateReady
  ∨ ManagedAsset.getState m = AssetStateFailedRetryable
  ∨ ManagedAsset.getState m = AssetStateFailedPermanently →
  ManagedAsset.consumers m = [c] →
  AssetConsumer.getObserver c = None →
  AssetConsumer.getState c = AssetConsumerStateLoading →
  AssetConsumer.getAssetLoaderCompletion c = Some h →
  requestHandlers a !! h = Some r →
  AssetLoaderRequestHandler.consumersCount r = 1 →
  AssetLoaderRequestHandler.scheduledForCancelation r = false →
  currentTransaction a = Some tx →
  ∃ a1, updateAsset env a key = Done a1
        ∧ assets a1 = <[key := ManagedAsset.setConsumers m []]> (assets a)
        ∧ requestHandlers a1
          = <[h := AssetLoaderRequestHandler.setScheduledForCancelation
                     (AssetLoaderRequestHandler.decrementConsumersCount r)]>
              (requestHandlers a)
        ∧ pendingLoadRequests a1 = pendingLoadRequests a ++ [h]
        ∧ pendingLoadRequestsScheduled a1 = true
        ∧ currentTransaction a1 = Some tx
        ∧ control a1 = control a
        ∧ observerCalls a1 = observerCalls a.
Proof.
  intros Hm Hs Hcs Ho Hcstate Hcompl Hr Hcount Hcancel Htx.
  assert (Hhas : ManagedAsset.hasConsumers m = true).
  { unfold ManagedAsset.hasConsumers. by rewrite Hcs. }
  destruct (releaseExistingRequest_spec a h r Hr Hcount Hcancel)
    as (Hh & Hpend & Hsched & Ha & Htx' & Hctl & Hobs).
  assert (Hnext : getNextConsumerToUpdate m false = (Some (0%nat, c), false)).
  { unfold getNextConsumerToUpdate. rewrite Hcs. simpl. rewrite Ho, Hcstate.
    by destruct (AssetConsumer.notified c). }
  assert (Hremove : ∃ a1, removeAssetConsumer a key m 0 c = a1
            ∧ assets a1 = <[key := ManagedAsset.setConsumers m []]> (assets a)
            ∧ requestHandlers a1
              = <[h := AssetLoaderRequestHandler.setScheduledForCancelation
                         (AssetLoaderRequestHandler.decrementConsumersCount r)]>
                  (requestHandlers a)
            ∧ pendingLoadRequests a1 = pendingLoadRequests a ++ [h]
            ∧ pendingLoadRequestsScheduled a1 = true
            ∧ currentTransaction a1 = Some tx
            ∧ control a1 = control a
            ∧ observerCalls a1 = observerCalls a).
  { eexists. split; [reflexivity|].
    unfold removeAssetConsumer, updateConsumerRequestHandler. cbv zeta.
    cbn [AssetConsumer.getAssetLoaderCompletion AssetConsumer.setLoadedAsset
         AssetConsumer.setState].
    rewrite Hcompl. cbn [retainRequest].
    revert Hh Hpend Hsched Ha Htx' Hctl Hobs.
    unfold HandlerRef in *. generalize (releaseExistingRequest a (Some h)).
    intros a1 Hh Hpend Hsched Ha Htx' Hctl Hobs.
    unfold control in *. injection Hctl as Hc1 Hc2 Hc3 Hc4 Hc5. simpl.
    rewrite Ha, Hh, Hpend, Hsched, Htx', Htx, Hc1, Hc2, Hc3, Hc4, Hc5.
    split_and!; try done.
    unfold ManagedAsset.removeConsumer. by rewrite Hcs. }
  destruct Hremove as (a1 & Hrem & Hfields).
  unfold updateAsset, getManagedAsset. rewrite Hm.
  rewrite removeManagedAssetIfNeeded_used by done.
  unfold updateAssetConsumers. rewrite Hnext.
  unfold doUpdateAssetConsumer. rewrite Ho, Hrem.
  destruct Hfields as (F1 & F2 & F3 & F4 & F5 & F6 & F7).
  destruct Hs as [Hs|[Hs|Hs]]; rewrite Hs; simpl SC_ASSERT; cbn [mbind Outcome_bind];
    (destruct (listener a1) eqn:Hlist; eexists; (split; [reflexivity|]);
     rewrite ?observerCalls_listener; simpl; split_and!; done).
Qed.

(** X23: removing the observer of a load in flight cancels the load.
    When the only consumer of a resolved asset is loading with a request
    that no other consumer shares, and [removeAssetLoadObserver] is called
    with its observer on the main thread while updates are not paused and
    nothing is scheduled, the call drains at once: the consumer is taken
    out of the asset, the request loses its last consumer, is scheduled for
    cancelation and queued for the next flush, which will call [cancel] on
    it, and a flush is scheduled.  The asset itself stays registered,
    without consumers; no observer is called; and a completion of the
    canceled request that still comes in afterwards is ignored. *)
Theorem removeAssetLoadObserver_cancels_load_in_flight (fuel : nat) (env : Env) (am : t)
  (key : AssetKey.t) (m : ManagedAsset.t) (c : AssetConsumer.t) (o : ObserverRef)
  (h : HandlerRef) (r : AssetLoaderRequestHandler.t) :
  getManagedAsset am key = Some m →
  ManagedAsset.getState m = AssetStateReady
  ∨ ManagedAsset.getState m = AssetStateFailedRetryable
  ∨ ManagedAsset.getState m = AssetStateFailedPermanently →
  ManagedAsset.consumers m = [c] →
  AssetConsumer.getObserver c = Some o →
  AssetConsumer.getState c = AssetConsumerStateLoading →
  AssetConsumer.getAssetLoaderCompletion c = Some h →
  requestHandlers am !! h = Some r →
  AssetLoaderRequestHandler.consumersCount r = 1 →
  AssetLoaderRequestHandler.scheduledForCancelation r = false →
  currentTransaction am = None →
  pauseUpdatesCount am = 0 →
  scheduledUpdates am = [] →
  currentThreadIsMainThread env = true →
  (1 ≤ fuel)%nat →
  ∃ am',
    removeAssetLoadObserver fuel env am key (Some o) = Done am'
    ∧ assets am' = <[key := ManagedAsset.setConsumers m []]> (assets am)
    ∧ requestHandlers am'
      = <[h := AssetLoaderRequestHandler.setScheduledForCancelation
                 (AssetLoaderRequestHandler.decrementConsumersCount r)]>
          (requestHandlers am)
    ∧ consumersCountOf (requestHandlers am') h = 0
    ∧ pendingLoadRequests am' = pendingLoadRequests am ++ [h]
    ∧ flushedRequest (requestHandlers am') h = EvRequestCancel h
    ∧ pendingLoadRequestsScheduled am' = true
    ∧ scheduledUpdates am' = []
    ∧ currentTransaction am' = None
    ∧ observerCalls am' = observerCalls am
    ∧ ∀ fuel' result, onLoad fuel' env am' h result = Done am'.
Proof.
  intros Hm Hs Hcs Ho Hcstate Hcompl Hr Hcount Hcancel Htx Hp Hsu Hmain Hfuel.
  assert (Hlt : (h < length (requestHandlers am))%nat).
  { apply lookup_lt_is_Some. by eexists. }
  exists (stateOf (removeAssetLoadObserver fuel env am key (Some o))).
  unfold removeAssetLoadObserver. rewrite Hm, Hcs. cbn [clearFirstObserver].
  rewrite (bool_decide_eq_true_2 (AssetConsumer.getObserver c = Some o)) by done.
  match goal with |- context [scheduleAssetUpdate fuel env ?x key] => set (a0 := x) end.
  unfold scheduleAssetUpdate.
  assert (Ha0 : currentTransaction a0 = None ∧ pauseUpdatesCount a0 = 0
                ∧ scheduledUpdates a0 = []).
  { by unfold a0. }
  destruct Ha0 as (-> & -> & ->). rewrite Hmain. simpl bool_decide. cbn [andb app].
  unfold performUpdates. rewrite Hmain. simpl SC_ASSERT. cbn [mbind Outcome_bind]. cbv zeta.
  cbn [scheduledUpdates set_scheduledUpdates foldl]. rewrite enqueueUpdate_nil.
  destruct fuel as [|fuel]; [lia|].
  cbn [drainUpdates].
  cbn [currentTransaction set_scheduledUpdates set_currentTransaction
       AssetsManagerTransaction.dequeueUpdate].
  match goal with |- context [updateAsset env ?x key] => set (a1 := x) end.
  destruct (updateAsset_removes_cleared_consumer env a1 key
              (ManagedAsset.setConsumers m [AssetConsumer.setObserver c None])
              (AssetConsumer.setObserver c None) h r [])
    as (a2 & Hup & Ha2 & Hh2 & Hpend2 & Hsched2 & Htx2 & Hctl2 & Hobs2); try done.
  { unfold a1, a0. simpl. apply lookup_insert_eq. }
  rewrite Hup. cbn [mbind Outcome_bind].
  assert (Hdrain : drainUpdates fuel env a2 = Done a2).
  { destruct fuel; simpl; by rewrite Htx2. }
  rewrite Hdrain. cbn [mbind Outcome_bind].
  assert (Hfields :
            assets a2 = <[key := ManagedAsset.setConsumers m []]> (assets am)
            ∧ requestHandlers a2
              = <[h := AssetLoaderRequestHandler.setScheduledForCancelation
                         (AssetLoaderRequestHandler.decrementConsumersCount r)]>
                  (requestHandlers am)
            ∧ pendingLoadRequests a2 = pendingLoadRequests am ++ [h]
            ∧ scheduledUpdates a2 = []
            ∧ observerCalls a2 = observerCalls am).
  { split_and!.
    - rewrite Ha2. unfold a1, a0. simpl. by rewrite insert_insert_eq.
    - by rewrite Hh2.
    - by rewrite Hpend2.
    - unfold control in Hctl2. injection Hctl2 as _ Hs2 _ _ _. by rewrite Hs2.
    - by rewrite Hobs2. }
  destruct Hfields as (Hfa & Hfh & Hfp & Hfu & Hfo).
  assert (Hlook : requestHandlers a2 !! h
                  = Some (AssetLoaderRequestHandler.setScheduledForCancelation
                            (AssetLoaderRequestHandler.decrementConsumersCount r))).
  { rewrite Hfh. by apply list_lookup_insert_eq. }
  assert (Hend : ∀ a3 : t,
            assets a3 = assets a2 → requestHandlers a3 = requestHandlers a2 →
            pendingLoadRequests a3 = pendingLoadRequests a2 →
            pendingLoadRequestsScheduled a3 = true →
            scheduledUpdates a3 = [] → currentTransaction a3 = None →
            observerCalls a3 = observerCalls a2 →
            assets a3 = <[key := ManagedAsset.setConsumers m []]> (assets am)
            ∧ requestHandlers a3
              = <[h := AssetLoaderRequestHandler.setScheduledForCancelation
                         (AssetLoaderRequestHandler.decrementConsumersCount r)]>
                  (requestHandlers am)
            ∧ consumersCountOf (requestHandlers a3) h = 0
            ∧ pendingLoadRequests a3 = pendingLoadRequests am ++ [h]
            ∧ flushedRequest (requestHandlers a3) h = EvRequestCancel h
            ∧ pendingLoadRequestsScheduled a3 = true
            ∧ scheduledUpdates a3 = []
            ∧ currentTransaction a3 = None
            ∧ observerCalls a3 = observerCalls am
            ∧ ∀ fuel' result, onLoad fuel' env a3 h result = Done a3).
  { intros a3 E1 E2 E3 E4 E5 E6 E7. split_and!; try congruence.
    - unfold consumersCountOf. unfold HandlerRef in *. rewrite E2, Hlook. simpl. lia.
    - unfold flushedRequest. unfold HandlerRef in *. by rewrite E2, Hlook.
    - intros fuel' result. unfold onLoad. unfold HandlerRef in *. rewrite E2, Hlook.
      cbv zeta. by destruct (getManagedAsset a3 _). }
  destruct (listener (set_currentTransaction a2 None)) eqn:Hlist;
    (split; [reflexivity|]); apply Hend; simpl;
    rewrite ?observerCalls_emit; simpl; rewrite ?app_nil_r; done.
Qed.

Lemma removeAssetLoadObserver_cancels_load_in_flight_witness :
  ∃ am',
    removeAssetLoadObserver 1 (exampleEnv true) waitingState exampleKey (Some 1%nat)
    = Done am'
    ∧ assets am' = <[exampleKey := ManagedAsset.setConsumers waitingAsset []]>
                     (assets waitingState)
    ∧ requestHandlers am'
      = <[0%nat := AssetLoaderRequestHandler.setScheduledForCancelation
                     (AssetLoaderRequestHandler.decrementConsumersCount sharedRequest)]>
          (requestHandlers waitingState)
    ∧ consumersCountOf (requestHandlers am') 0%nat = 0
    ∧ pendingLoadRequests am' = pendingLoadRequests waitingState ++ [0%nat]
    ∧ flushedRequest (requestHandlers am') 0%nat = EvRequestCancel 0%nat
    ∧ pendingLoadRequestsScheduled am' = true
    ∧ scheduledUpdates am' = []
    ∧ currentTransaction am' = None
    ∧ observerCalls am' = observerCalls waitingState
    ∧ ∀ fuel' result, onLoad fuel' (exampleEnv true) am' 0%nat result = Done am'.
Proof.
  apply (removeAssetLoadObserver_cancels_load_in_flight 1 (exampleEnv true) waitingState
           exampleKey waitingAsset holder 1%nat 0%nat sharedRequest).
  - reflexivity.
  - left. reflexivity.
  - reflexivity.
  - reflexivity.
  - reflexivity.
  - reflexivity.
  - reflexivity.
  - reflexivity.
  - reflexivity.
  - reflexivity.
  - reflexivity.
  - reflexivity.
  - reflexivity.
  - apply le_n.
Defined.

(** * A failed resolution *)

(** The round of the drain that fails the only consumer of an asset whose
    location could not be resolved. *)
Lemma updateAsset_fails_consumer env a key m c o e tx :
  assets a !! key = Some m →
  ManagedAsset.getState m = AssetStateFailedRetryable
  ∨ ManagedAsset.getState m = AssetStateFailedPermanently →
  ManagedAsset.getResolvedAssetLocation m = Result.Err e →
  ManagedAsset.consumers m = [c] →
  AssetConsumer.getObserver c = Some o →
  AssetConsumer.notified c = false →
  AssetConsumer.getState c = AssetConsumerStateInitial →
  currentTransaction a = Some tx →
  ∃ a1, updateAsset env a key = Done a1
        ∧ assets a1
          = <[key := ManagedAsset.setConsumers m
                       [AssetConsumer.setLoadedAsset
                          (AssetConsumer.setState c AssetConsumerStateFailed)
                          (Result.Err e)]]>
              (assets a)
        ∧ requestHandlers a1 = requestHandlers a
        ∧ pendingLoadRequests a1 = pendingLoadRequests a
        ∧ currentTransaction a1 = Some (AssetsManagerTransaction.enqueueUpdate tx key)
        ∧ control a1 = control a
        ∧ observerCalls a1 = observerCalls a.
Proof.
  intros Hm Hs Hloc Hcs Ho Hn Hc Htx.
  assert (Hhas : ManagedAsset.hasConsumers m = true).
  { unfold ManagedAsset.hasConsumers. by rewrite Hcs. }
  unfold updateAsset, getManagedAsset. rewrite Hm.
  rewrite removeManagedAssetIfNeeded_used by done.
  unfold updateAssetConsumers, getNextConsumerToUpdate.
  rewrite Hcs. simpl getNextConsumerToUpdateFrom. rewrite Ho, Hn, Hc.
  destruct Hs as [Hs|Hs]; rewrite Hs; simpl SC_ASSERT; cbn [mbind Outcome_bind];
    cbv beta iota zeta; unfold doUpdateAssetConsumer; rewrite Ho, Hc, Hs, Hloc;
    simpl bool_decide; cbn [orb Result.error mbind Outcome_bind]; cbv zeta;
    unfold scheduleAssetUpdateInTransaction;
    cbn [putConsumer putManagedAsset currentTransaction set_assets]; rewrite Htx;
    (destruct (listener _) eqn:Hlist; eexists; (split; [reflexivity|]);
     rewrite ?observerCalls_listener; simpl; rewrite Hcs; done).
Qed.

(** X24: a failed download of the remote resources reaches the observer.
    When [onLoadingRemoteResourcesCompleted] comes in on the main thread
    with an error, for the resolution that the asset is waiting for, while
    updates are not paused and nothing is scheduled, and the only consumer
    of the asset has an observer and has not started, the call makes the
    asset [FailedRetryable] with that error as its location and drains in
    two rounds: the first makes the consumer [Failed] with the error, the
    second calls the observer once, with no asset and that error, and
    leaves the consumer notified.  No load request is made, and nothing
    stays scheduled. *)
Theorem onLoadingRemoteResourcesCompleted_failure_reaches_observer (fuel : nat) (env : Env)
  (am : t) (key : AssetKey.t) (e : Error) (m : ManagedAsset.t) (c : AssetConsumer.t)
  (o : ObserverRef) :
  getManagedAsset am key = Some m →
  ManagedAsset.getState m = AssetStateResolvingLocation →
  ManagedAsset.consumers m = [c] →
  AssetConsumer.getObserver c = Some o →
  AssetConsumer.notified c = false →
  AssetConsumer.getState c = AssetConsumerStateInitial →
  currentTransaction am = None →
  pauseUpdatesCount am = 0 →
  scheduledUpdates am = [] →
  currentThreadIsMainThread env = true →
  (2 ≤ fuel)%nat →
  ∃ am',
    onLoadingRemoteResourcesCompleted fuel env am key (Result.Err e)
      (ManagedAsset.getResolveId m) = Done am'
    ∧ assets am'
      = <[key := ManagedAsset.setConsumers
                   (ManagedAsset.setResolvedAssetLocation
                      (ManagedAsset.setState m AssetStateFailedRetryable) (Result.Err e))
                   [AssetConsumer.setNotified
                      (AssetConsumer.setLoadedAsset
                         (AssetConsumer.setState c AssetConsumerStateFailed)
                         (Result.Err e)) true]]>
          (assets am)
    ∧ requestHandlers am' = requestHandlers am
    ∧ pendingLoadRequests am' = pendingLoadRequests am
    ∧ scheduledUpdates am' = []
    ∧ currentTransaction am' = None
    ∧ observerCalls am'
      = observerCalls am
        ++ [EvObserverOnLoad o (ManagedAsset.getObservable m) None (Some e)].
Proof.
  intros Hm Hs Hcs Ho Hn Hc Htx Hp Hsu Hmain Hfuel.
  exists (stateOf (onLoadingRemoteResourcesCompleted fuel env am key (Result.Err e)
                     (ManagedAsset.getResolveId m))).
  unfold onLoadingRemoteResourcesCompleted.
  cbn [resolveRemoteAssetLocation mbind Outcome_bind]. rewrite Hm.
  rewrite bool_decide_eq_false_2 by (intros Hne; by apply Hne).
  rewrite Hs. simpl SC_ASSERT. cbn [Result.success Result.error mbind Outcome_bind].
  set (m1 := ManagedAsset.setResolvedAssetLocation
               (ManagedAsset.setState m AssetStateFailedRetryable) (Result.Err e)).
  set (c1 := AssetConsumer.setLoadedAsset
               (AssetConsumer.setState c AssetConsumerStateFailed) (Result.Err e)).
  match goal with |- context [scheduleAssetUpdate fuel env ?x key] => set (a0 := x) end.
  unfold scheduleAssetUpdate.
  assert (Ha0 : currentTransaction a0 = None ∧ pauseUpdatesCount a0 = 0
                ∧ scheduledUpdates a0 = []).
  { by unfold a0. }
  destruct Ha0 as (-> & -> & ->). rewrite Hmain. simpl bool_decide. cbn [andb app].
  unfold performUpdates. rewrite Hmain. simpl SC_ASSERT. cbn [mbind Outcome_bind]. cbv zeta.
  cbn [scheduledUpdates set_scheduledUpdates foldl]. rewrite enqueueUpdate_nil.
  destruct fuel as [|[|fuel]]; [lia|lia|].
  cbn [drainUpdates].
  cbn [currentTransaction set_scheduledUpdates set_currentTransaction
       AssetsManagerTransaction.dequeueUpdate].
  match goal with |- context [updateAsset env ?x key] => set (a1 := x) end.
  destruct (updateAsset_fails_consumer env a1 key m1 c o e [])
    as (a2 & Hup & Ha2 & Hh2 & Hpend2 & Htx2 & Hctl2 & Hobs2); try done.
  { unfold a1, a0. simpl. apply lookup_insert_eq. }
  { by left. }
  rewrite Hup. cbn [mbind Outcome_bind].
  rewrite enqueueUpdate_nil in Htx2. cbn [drainUpdates]. rewrite Htx2.
  cbn [AssetsManagerTransaction.dequeueUpdate].
  match goal with |- context [updateAsset env ?x key] => set (a2' := x) end.
  destruct (updateAsset_tells_consumer env a2' key
              (ManagedAsset.setConsumers m1 [c1]) c1 o None (Some e) [])
    as (a3 & Hup3 & Ha3 & Hh3 & Hpend3 & Htx3 & Hctl3 & Hobs3); try done.
  { simpl. rewrite Ha2. apply lookup_insert_eq. }
  { right. by left. }
  { right. split_and!; try done. by exists e. }
  rewrite Hup3. cbn [mbind Outcome_bind].
  assert (Hdrain : drainUpdates fuel env a3 = Done a3).
  { destruct fuel; simpl; by rewrite Htx3. }
  rewrite Hdrain. cbn [mbind Outcome_bind].
  assert (Hfields :
            assets a3
            = <[key := ManagedAsset.setConsumers m1 [AssetConsumer.setNotified c1 true]]>
                (assets am)
            ∧ requestHandlers a3 = requestHandlers am
            ∧ pendingLoadRequests a3 = pendingLoadRequests am
            ∧ scheduledUpdates a3 = []
            ∧ observerCalls a3
              = observerCalls am
                ++ [EvObserverOnLoad o (ManagedAsset.getObservable m) None (Some e)]).
  { split_and!.
    - rewrite Ha3. unfold a2'. simpl. rewrite Ha2. unfold a1, a0. simpl.
      by rewrite !insert_insert_eq.
    - rewrite Hh3. unfold a2'. simpl. by rewrite Hh2.
    - rewrite Hpend3. unfold a2'. simpl. by rewrite Hpend2.
    - unfold control in Hctl3, Hctl2. injection Hctl3 as _ Hs3 _ _ _.
      injection Hctl2 as _ Hs2 _ _ _. unfold a2' in Hs3. simpl in Hs3.
      by rewrite Hs3, Hs2.
    - rewrite Hobs3. change (observerCalls a2') with (observerCalls a2).
      by rewrite Hobs2. }
  destruct Hfields as (Hfa & Hfh & Hfp & Hfu & Hfo).
  destruct (listener (set_currentTransaction a3 None)); simpl;
    rewrite ?observerCalls_emit; simpl; rewrite ?app_nil_r; split_and!; done.
Qed.

Lemma onLoadingRemoteResourcesCompleted_failure_reaches_observer_witness :
  ∃ am',
    onLoadingRemoteResourcesCompleted 2 (exampleEnv true) remoteWaitingState exampleBundleKey
      (Result.Err "offline") (ManagedAsset.getResolveId remoteWaitingAsset) = Done am'
    ∧ assets am'
      = <[exampleBundleKey :=
            ManagedAsset.setConsumers
              (ManagedAsset.setResolvedAssetLocation
                 (ManagedAsset.setState remoteWaitingAsset AssetStateFailedRetryable)
                 (Result.Err "offline"))
              [AssetConsumer.setNotified
                 (AssetConsumer.setLoadedAsset
                    (AssetConsumer.setState newcomer AssetConsumerStateFailed)
                    (Result.Err "offline")) true]]>
          (assets remoteWaitingState)
    ∧ requestHandlers am' = requestHandlers remoteWaitingState
    ∧ pendingLoadRequests am' = pendingLoadRequests remoteWaitingState
    ∧ scheduledUpdates am' = []
    ∧ currentTransaction am' = None
    ∧ observerCalls am'
      = observerCalls remoteWaitingState
        ++ [EvObserverOnLoad 2%nat (ManagedAsset.getObservable remoteWaitingAsset) None
              (Some "offline")].
Proof.
  apply (onLoadingRemoteResourcesCompleted_failure_reaches_observer 2 (exampleEnv true)
           remoteWaitingState exampleBundleKey "offline" remoteWaitingAsset newcomer 2%nat).
  - reflexivity.
  - reflexivity.
  - reflexivity.
  - reflexivity.
  - reflexivity.
  - reflexivity.
  - reflexivity.
  - reflexivity.
  - reflexivity.
  - reflexivity.
  - apply le_n.
Defined.
